(* ===== verification/_CoqProject ===== *)
-Q . S2P
Prelude.v
Store.v
Http.v
UserRepo.v
UserApi.v
UserSpec.v
Jwt.v
AuthGuard.v
NasRepo.v
NasApi.v
NasSpec.v
Validation.v
Frame.v
Routes.v
Server.v
Interleave.v
