(* ===== verification/Prelude.v ===== *)
(** * A verification development for the FreeRADIUS REST API

    The program (src/freeradius-api) is an Express service that exposes CRUD
    operations over three tables of a FreeRADIUS database: [nas] (network
    access servers), [radcheck] (check attributes, among them the
    [Cleartext-Password] row that defines a user) and [radreply] (reply
    attributes, among them the [Mikrotik-Group] row that holds a user's
    profile).  A request flows through

      server.js (security headers, CORS, rate limiter, body parsers)
        -> routes/*.js -> middleware/auth.js -> middleware/validation.js
        -> controllers/*.js -> models/*.js -> config/database

    and the answer is a JSON envelope with an HTTP status.

    ** Files of the development, in dependency order

    - [Prelude] (this file): the result type of a call that may throw, the
      state-and-exception monad [M] in which every asynchronous function of
      the program is written, its notation (scope [m_scope]), JavaScript
      truthiness of optional strings and numbers, the predicates [answers]
      and [total] on computations, the generic lemmas on filters and list
      heads the components share, the hint database [radius], the rewrite
      database [radius_rw] and the tactics [run_m], [case_filter].
    - [Store]: the SQL access layer, [config/database.js].  That file is not
      part of the sources, so this component is modelled from the
      specification (sections 2, 4.2, 5 and 7) and from the way the models
      call it: [db.query] ([query]) runs one statement in autocommit mode on
      a pooled connection, [db.transaction] ([transaction]) hands a
      dedicated connection to a callback, commits when the callback returns
      and rolls back when it throws.  State: [db] (the committed [tables],
      the pending fault plan, the number of connections checked out) and
      [conn] (a transaction in progress: its working copy of the tables and
      the pool it came from).  The statements are pure functions on
      [tables] ([insert_attr], [update_value], [delete_rows],
      [select_rows], [left_join], the LIKE matcher [like]), written from
      their SQL text in the models.  The file also carries the two program
      logics of the development: [tx_spec], triples on the working copy of
      a transaction body, and [db_spec], triples on the committed tables
      for pool computations on both exit paths; and the predicates
      [pool_steady], [db_steady] (only reads) and [balanced] (gives back
      the connections it takes).
    - [Http]: what the guards and the controllers share: [json] values,
      [response] (status and body), [guard] (answer or [next()]), the
      environment variables [env] with [env_or] for [process.env.X ||
      fallback], the envelopes [success], [failure] and [internal_error],
      [handled] for the [try]/[catch] of every handler, [split] for
      [String.prototype.split] on one character, [lower] for
      [toLowerCase] on ASCII, and the class [Process] (the clock as text,
      the uptime, the memory figures and the version of Node).
    - [UserRepo], Module [UserModel]: [models/UserModel.js], one definition
      per static method, under the method's name ([exists] is a keyword and
      becomes [exists_]).  The reconciliation algorithm of the specification
      (section 4.2) is [UserModel.update], made of [update_password] and
      [update_profile].  [password_rows], [profile_rows] and [find_user]
      are the views the statements use; [wf_user] and [identity] are the
      invariants of a user's identity; [created], [updated] and [deleted]
      are the tables a successful write leaves.
    - [UserApi], Module [UserController]:
      [controllers/userController.js], every handler with its guards and
      early returns, answering a [response]; [request] and [handle] put the
      routes of [routes/userRoutes.js] behind one entry point, [step] is one
      request served under an arbitrary fault plan and [reachable] the
      stores that can result from an empty schema.
    - [UserSpec], Module [UserSpec]: the user identity record of the
      specification (section 3) as a finite map from names to accounts
      ([gmap string account]) with [add], [change] and [remove]; [abs]
      reads the map off the two attribute tables, [effect] is what a
      request does to the map, [spec_step] one step of the specification.
    - [Jwt]: the interface to the [jsonwebtoken] library, which is not part
      of the sources: the class [Jwt] (a codec of claims under a secret and
      its laws), [sign] and [verify] around it, and the instance [bits]
      that meets the laws and runs the examples.
    - [AuthGuard], Modules [Auth] and [AuthController]:
      [middleware/auth.js] (the bearer-token guard, the API-key guard,
      their combination, the role check, token generation) and
      [controllers/authController.js] ([login], [verifyToken],
      [getApiInfo], [healthCheck]); what the health check reads of the
      process is the class [Process] of [Http].
    - [NasRepo], Module [NasModel]: [models/NasModel.js], one definition
      per static method; each method is one statement through the pool.
      [insert_nas], [update_nas], [delete_nas] and [select_nas] are the
      statements on the [nas] table; [nas_wf] is the invariant of the
      table (distinct ids below the counter, distinct names, distinct
      addresses).
    - [NasApi], Module [NasController]: [controllers/nasController.js],
      every handler, with [request], [handle], [step] and [reachable] as
      for the user resource; [validated] states what the schemas of
      [routes/nasRoutes.js] guarantee of a payload and the invariant
      needs.
    - [NasSpec], Module [NasSpec]: the NAS records of the specification
      (section 4.3) as a finite map from ids to records ([gmap Z nas_row])
      with [add] under a free id, [change] and [remove]; [abs] reads the
      map off the [nas] table, [counter] is the id the next creation binds,
      [effect] is what a request does to the map, [outcome_of] the maps an
      answer may leave, [spec_step] one step of the specification.
    - [Validation], Modules [Joi] and [Validation]:
      [middleware/validation.js].  [Validation.validate] is the generic
      guard, the eight schemas are written rule by rule as the file
      writes them, and the eight exported guards are made from them.  Joi
      itself is a library: [Module Joi] models its schema values, rules,
      conversions, error types and message templates from its documented
      behaviour, with [validate_object] the interpreter under
      [abortEarly: false] and [stripUnknown: true]; what an address or a
      numeral is, is the class [Joi.Syntax] with the instance [plain].
    - [Frame]: footprints.  [keeps f m] says a computation leaves the part
      [f] of the committed tables alone on every path; the lemmas follow
      the combinators of the store, so that an invariant of one resource
      is kept by the handlers of the other.
    - [Routes]: [routes/authRoutes.js], [routes/nasRoutes.js] and
      [routes/userRoutes.js] as tables of routes in the order of
      registration ([route], [dispatch], [use]), each route its guards and
      then its handler on what the handler destructures of the request;
      [mounted] is the three routers under the prefix and [app] the chain
      for an API path: the body parser and what it raises ([parsed],
      [http_error]), the routers, [not_found] and [error_handler] of
      [server.js].  Paths match without regard to case and a GET route
      serves HEAD, as in Express.
    - [Server]: [server.js] from top to bottom.  The constants read from
      the environment ([process_env], [parseInt], [PORT], [API_PREFIX],
      ...); a request as it arrives ([arrival]) and the state of the
      process ([server]: the pool and the counters of the rate limiter);
      the layers in the order of registration ([helmet], [cors],
      [limiter], [body_parser], [request_log], [static], the documentation
      pages, [health], [api], [root], [catch_all], [on_error]) with [run]
      the dispatch of Express over them; [startServers] with the listeners
      it starts and the [redirect] layer it adds; [serve] for one request,
      [serve_all] for a sequence, [server_step] for reachability; and
      [shutdown].
    - [Interleave], Modules [UserTask] and [NasTask]: the concurrency of
      section 5.  A handler is a [task] that yields at every [await]; the
      handlers of both controllers are written again as tasks, await by
      await, one round trip to the store per step ([NasTask.model_update]
      is [NasModel.update], which awaits twice); [interleave] is the event
      loop over the tasks in flight and a schedule, [alone] a task that
      never gives way, [in_turn] requests handled one after the other.

    ** What the theorems show

    - Store: a transaction is atomic (when it throws, the committed rows are
      those it started from; when it returns, they are the working copy its
      body left), releases its connection on every path, and the rules of
      the two logics are sound for the definitions of [query], [execute],
      [on_pool] and [transaction].
    - UserModel: the behaviour of every operation on a healthy store
      (create/get round trip, update heals a missing profile, update with
      no field is a no-op, delete removes the user, exists is equivalent to
      the presence of a password row, the listing is sorted and without
      duplicates); under every fault plan, atomicity of create, update and
      delete, what update answers (the record as the pool sees it, that
      is, as it was before the write), and that update keeps the number of
      password rows and the invariant [wf_user]; what the attribute
      methods do to the invariant.
    - UserController: every handler answers, with a status among 200, 201,
      400, 404, 409 and 500, and gives back its connections; the identity
      invariant [identity] is kept by every request of the user routes
      under every fault plan, hence holds in every reachable store, and the
      attribute routes can break it; on a healthy store, the status and the
      body of each branch of create, update and delete, and that no user
      route answers 500.
    - UserSpec: refinement.  Under every fault plan a request of the user
      resource that succeeds takes the map of the tables to the effect of
      the request on it, and any other answer leaves the map as it was
      ([user_api_refines]); every store the resource reaches holds a map
      the specification reaches ([user_api_simulates]); the reads answer
      from the map: lookup, existence, count ([user_reads_refine]) and the
      sorted listing, which is the bindings of the map each once
      ([user_listing_refines]).
    - Auth: which requests [authenticate] lets through and with which
      status it refuses the others; that a token issued by [login] is
      accepted until its expiry and refused from then on, for every
      instance of [Jwt]; what happens when the secret or the API key is
      not configured.
    - NasController: every handler answers; the invariant [nas_wf] is kept
      by every validated request under every fault plan, hence no two
      records of a reachable store share a name or an address; on a
      healthy store, create then read returns the record, a taken name or
      address is a conflict, an update with all seven fields is applied,
      and an update that leaves a field out never succeeds.
    - NasSpec: refinement.  Under every fault plan a request of the NAS
      resource that succeeds takes the map of the table to the effect of
      the request on it; a creation or a deletion answered otherwise
      leaves the map as it was, and an update answered 500 may have been
      carried out ([nas_api_refines]), which happens when the store fails
      the read-back of [NasModel.update] ([nas_update_unreported]); every
      store the resource reaches holds a map the specification reaches,
      each creation under a free id ([nas_api_simulates]); lookup, count
      and the sorted listing answer from the map ([nas_reads_refine]).
    - Validation: the guard reports every violation at once and passes the
      validated value on; what a payload that passed the NAS schemas
      satisfies (lengths, alphabet, port range, type among the listed
      ones); unknown keys are stripped; an update needs a key; the
      defaults of [community] and [description] are values the schema
      refuses.
    - Routes: every request to an API path is answered with a status of
      the list and every connection is given back ([api_answers]); the
      invariants of both repositories are kept by every request other
      than the two attribute routes, with the guarantees of the guards
      proved and not assumed ([api_keeps_invariants]), hence hold in every
      reachable store; the NAS and user routers refuse a request without
      credentials; create then read through the routes; the routes a long
      user name cannot reach.
    - Server: what [startServers] adds is never reached, so the server is
      the list [layers] ([redirect_never_reached]); every arrival is
      answered with a status of the list and the pool is whole
      ([server_answers]); the invariants hold through the whole chain and
      in every reachable state; the server answers an API request as
      [app] does, with the headers of the layers in front and one more hit
      counted ([server_implements_app]); the ceiling of the rate limiter
      holds over a window among any sequence of requests
      ([limiter_bound]), a client past it is refused without the store
      being touched, a closed window reopens, and requests that forge
      their forwarded address are not bounded; the numbers of the
      configuration are never zero.
    - Interleave: a task run alone is the handler of the controller
      ([tasks_are_handlers]), and the schedule without overlap is the
      requests handled in turn ([serial_is_sequential]), so the theorems
      of the other files are theorems about requests that do not overlap
      ([serial_keeps_identity]); under every schedule that gives each
      request four turns, every request is answered with a known status
      and the pool is whole ([requests_answered]); and three schedules
      that separate a check from its write: two creations of one user
      leave two password rows, two creations of one NAS leave two records
      with one name, and an update overtaken by a deletion leaves a
      profile row without a user ([user_create_race], [nas_create_race],
      [user_update_delete_race]).

    ** Modelling choices

    - A parameter of a statement is bound as in a prepared statement:
      [undefined] is refused by the driver before anything is sent
      ([bound]), as the models' own use of [connection.execute] suggests.
    - Strings compare by equality (a binary collation).  A SELECT without
      ORDER BY returns rows in table order; a LEFT JOIN is the nested loop
      over the left table in table order.
    - [affectedRows] of an UPDATE counts the rows the WHERE clause matched
      (the driver's default [FOUND_ROWS] flag).
    - A rollback restores rows and keeps the auto-increment counters, as
      InnoDB does; [same_rows] is equality of tables up to the counters.
    - Failures of the store are a fault plan, a [list bool] consumed one
      entry per round trip ([true]: this statement fails); the empty plan
      is a healthy store.  A theorem stated for every [db] holds under
      every fault plan.  No fuel is needed: every definition is
      structurally recursive or not recursive at all, so every
      computation returns and the theorems that a request is answered are
      proved as such.
    - Outside [Interleave] requests are handled one at a time; what a
      concurrent reader can see is captured by the split between committed
      and working tables.  In [Interleave] a step is one round trip: a
      query, or a whole transaction (the store is taken to isolate the
      statements of a transaction completely).  A handler awaits at most
      four times ([most_awaits]), so a schedule that gives a request four
      turns completes it; no fuel is involved.
    - Numbers are integers ([Z]), unbounded: the service does no
      arithmetic on them beyond comparisons with the bounds of the
      schemas, the window of the limiter and the expiry of a token.
      Strings are ASCII.
    - The clock is a parameter: [now], in seconds, for the handlers and the
      tokens; the instant of an arrival, in milliseconds, for the rate
      limiter.
    - Libraries are modelled from their documented behaviour and kept
      apart from the code of the repository: Joi ([Module Joi]),
      jsonwebtoken (class [Jwt]), the dispatch of Express ([dispatch],
      [run], [finalhandler]), the errors of body-parser
      ([parser_failure]), the CORS headers ([cors_headers]), the memory
      store of express-rate-limit with one window per client ([hit],
      [increment]), [req.ip] under [trust proxy] ([client_ip]), and
      [parseInt].  The headers helmet renders for its options are the
      class [Helmet]; the options themselves are written as in the file.

    ** Not modelled

    [config/database.js] is not among the sources (see [Store]).
    [config/swagger.js] holds the options of the Swagger UI and a page of
    HTML as text: the server hands them out as the record [documents].
    Console output, the [RateLimit-*] headers the limiter reports, the
    bytes of TLS and of the files read at start (the record [machine]
    says whether they can be read) are left out.  The interleaving of
    the statements of two transactions inside the store (its isolation
    level) is not modelled: a transaction is atomic.  The routers, the
    guards and the layers of the server are not interleaved, they do not
    touch the store. *)

From stdpp Require Import base option strings numbers list.

#[global] Open Scope string_scope.
#[global] Open Scope list_scope.

(** ** Results of a call that may throw *)

(** What a rejected promise or a throw carries: a failure of the store, the
    driver's refusal to bind [undefined] to a prepared statement, or the
    token library's refusal to sign. *)
Inductive error : Type :=
| StoreFailure
| BindUndefined
| SignFailure.

#[global] Instance error_eq_dec : EqDecision error.
Proof. solve_decision. Defined.

Inductive result (A : Type) : Type :=
| Ok (a : A)
| Throw (e : error).

Arguments Ok {A} a.
Arguments Throw {A} e.

Definition is_ok {A} (r : result A) : bool :=
  match r with Ok _ => true | Throw _ => false end.

(** ** The monad of asynchronous functions over a state [S] *)

Definition M (S A : Type) : Type := S -> result A * S.

Definition ret {S A} (a : A) : M S A := fun s => (Ok a, s).

Definition throw {S A} (e : error) : M S A := fun s => (Throw e, s).

Definition bind {S A B} (m : M S A) (k : A -> M S B) : M S B :=
  fun s =>
    match m s with
    | (Ok a, s') => k a s'
    | (Throw e, s') => (Throw e, s')
    end.

(** [try { m } catch (e) { h e }] *)
Definition try_catch {S A} (m : M S A) (h : error -> M S A) : M S A :=
  fun s =>
    match m s with
    | (Ok a, s') => (Ok a, s')
    | (Throw e, s') => h e s'
    end.

(** A synchronous call that may throw, inside an asynchronous function. *)
Definition of_result {S A} (r : result A) : M S A := fun s => (r, s).

Definition gets {S A} (f : S -> A) : M S A := fun s => (Ok (f s), s).

Definition modify {S} (f : S -> S) : M S unit := fun s => (Ok tt, f s).

Declare Scope m_scope.
Delimit Scope m_scope with M.

Notation "x <- c ;; k" := (bind c (fun x => k))
  (at level 100, c at next level, right associativity) : m_scope.
Notation "c ;;; k" := (bind c (fun _ => k))
  (at level 100, right associativity) : m_scope.

(** ** JavaScript truthiness *)

(** [if (s)] for a value that is a string or [undefined]: the empty string
    and [undefined] are falsy. *)
Definition truthy (o : option string) : bool :=
  match o with
  | Some s => negb (String.eqb s "")
  | None => false
  end.

(** [if (n)] for a value that is a number, [null] or [undefined]. *)
Definition truthy_num (o : option Z) : bool :=
  match o with
  | Some n => negb (Z.eqb n 0)
  | None => false
  end.

(** [if (s) { yes } else { no }], where [yes] uses the string. *)
Definition if_truthy {A} (o : option string) (yes : string -> A) (no : A) : A :=
  match o with
  | Some s => if String.eqb s "" then no else yes s
  | None => no
  end.

(** [a || b] on optional strings. *)
Definition js_or (a b : option string) : option string :=
  if truthy a then a else b.

(** [n || fallback] on a number that may be [NaN] or [undefined]: both,
    and zero, are falsy. *)
Definition num_or (o : option Z) (fallback : Z) : Z :=
  if truthy_num o then default fallback o else fallback.

(** [array.length > 0] *)
Definition nonempty {A} (l : list A) : bool :=
  match l with [] => false | _ :: _ => true end.

(** ** What a computation can answer *)

(** Every value the computation returns satisfies [Q], from any state. *)
Definition answers {S A} (Q : A -> Prop) (m : M S A) : Prop :=
  forall s a s', m s = (Ok a, s') -> Q a.

(** The computation returns from any state: it never throws. *)
Definition total {S A} (m : M S A) : Prop :=
  forall s, exists a s', m s = (Ok a, s').

(** ** Automation *)

Create HintDb radius discriminated.
Create Rewrite HintDb radius_rw.

(** Runs a monadic computation whose steps are known. *)
Ltac run_m := unfold bind, ret, throw, gets, modify, try_catch in *; simpl in *.

(** Case analysis on the decision a one-step filter has just taken. *)
Ltac case_filter :=
  rewrite ?filter_cons, ?filter_nil in *;
  repeat (case_decide; simplify_eq /=).

(** ** Monad laws *)

Section monad.
Context {S A B C : Type}.

Lemma bind_ret_l (a : A) (k : A -> M S B) (s : S) :
  bind (ret a) k s = k a s.
Proof. reflexivity. Qed.

Lemma bind_ret_r (m : M S A) (s : S) : bind m ret s = m s.
Proof. unfold bind, ret. by destruct (m s) as [[a|e] s']. Qed.

Lemma bind_assoc (m : M S A) (k : A -> M S B) (h : B -> M S C) (s : S) :
  bind (bind m k) h s = bind m (fun a => bind (k a) h) s.
Proof. unfold bind. by destruct (m s) as [[a|e] s']. Qed.

Lemma bind_ok (m : M S A) (k : A -> M S B) s a s' :
  m s = (Ok a, s') -> bind m k s = k a s'.
Proof. unfold bind. by intros ->. Qed.

Lemma bind_throw (m : M S A) (k : A -> M S B) s e s' :
  m s = (Throw e, s') -> bind m k s = (Throw e, s').
Proof. unfold bind. by intros ->. Qed.

(** A bind that returns went through both of its parts. *)
Lemma bind_inv_ok (m : M S A) (k : A -> M S B) s b s2 :
  bind m k s = (Ok b, s2) ->
  exists a s1, m s = (Ok a, s1) /\ k a s1 = (Ok b, s2).
Proof.
  unfold bind. destruct (m s) as [[a|e] s1]; [eauto | discriminate].
Qed.

(** A bind that throws threw in its first part or in its second. *)
Lemma bind_inv_throw (m : M S A) (k : A -> M S B) s e s2 :
  bind m k s = (Throw e, s2) ->
  m s = (Throw e, s2) \/ exists a s1, m s = (Ok a, s1) /\ k a s1 = (Throw e, s2).
Proof.
  unfold bind. destruct (m s) as [[a|e'] s1]; [eauto | intros [= -> ->]; eauto].
Qed.

End monad.

#[export] Hint Rewrite @bind_ret_l @bind_ret_r @bind_assoc : radius_rw.

(** ** Truthiness *)

Lemma truthy_Some (s : string) : truthy (Some s) = true <-> s <> "".
Proof.
  unfold truthy. destruct (String.eqb_spec s ""); simpl; split; congruence.
Qed.

Lemma truthy_true (o : option string) :
  truthy o = true <-> exists s, o = Some s /\ s <> "".
Proof.
  destruct o as [s|]; [rewrite truthy_Some | simpl]; split.
  - eauto.
  - by intros (? & [= <-] & ?).
  - discriminate.
  - by intros (? & ? & _).
Qed.

Lemma if_truthy_yes {A} (s : string) (yes : string -> A) no :
  s <> "" -> if_truthy (Some s) yes no = yes s.
Proof. intros H. unfold if_truthy. by destruct (String.eqb_spec s ""). Qed.

Lemma if_truthy_no {A} (o : option string) (yes : string -> A) no :
  truthy o = false -> if_truthy o yes no = no.
Proof.
  destruct o as [s|]; [|done]. unfold truthy, if_truthy.
  by destruct (String.eqb s "").
Qed.

Lemma js_or_truthy a b : truthy a = true -> js_or a b = a.
Proof. unfold js_or. by intros ->. Qed.

Lemma nonempty_length {A} (l : list A) : nonempty l = true <-> 0 < length l.
Proof. destruct l; simpl; split; (done || lia). Qed.

Lemma nonempty_false {A} (l : list A) : nonempty l = false <-> l = [].
Proof. by destruct l. Qed.

(** [array.length > 0], as the code writes it on a count. *)
Lemma bool_decide_length_pos {A} (l : list A) :
  bool_decide (0 < length l)%nat = nonempty l.
Proof. destruct l; [done|]. apply bool_decide_eq_true_2. simpl. lia. Qed.

Lemma truthy_cases (o : option string) :
  (exists s, o = Some s /\ s <> "" /\ truthy o = true) \/ truthy o = false.
Proof.
  destruct o as [s|]; [|by right]. unfold truthy.
  destruct (String.eqb_spec s ""); [by right | left; eauto].
Qed.

(** ** Filters and heads of lists *)

Section lists.
Context {A : Type}.
Implicit Types (P Q : A -> Prop) (l : list A).

Lemma filter_nil_iff P `{!forall x, Decision (P x)} l :
  filter P l = [] <-> Forall (fun x => ~ P x) l.
Proof.
  induction l as [|x l IHl]; [by split; [constructor|]|].
  rewrite filter_cons, Forall_cons_iff. case_decide; [|rewrite IHl]; [split; [done | tauto] | tauto].
Qed.

Lemma filter_none P `{!forall x, Decision (P x)} l :
  (forall x, x ∈ l -> ~ P x) -> filter P l = [].
Proof. intros Hall. apply filter_nil_iff, Forall_forall, Hall. Qed.

Lemma filter_all P `{!forall x, Decision (P x)} l :
  (forall x, x ∈ l -> P x) -> filter P l = l.
Proof.
  induction l as [|x l IHl]; [done|]; intros Hall.
  rewrite filter_cons, decide_True by (apply Hall; left).
  f_equal. apply IHl. intros y Hy. apply Hall. by right.
Qed.

Lemma filter_ext_in P Q `{!forall x, Decision (P x)} `{!forall x, Decision (Q x)} l :
  (forall x, x ∈ l -> P x <-> Q x) -> filter P l = filter Q l.
Proof.
  induction l as [|x l IHl]; [done|]; intros Hall.
  rewrite !filter_cons, IHl by (intros y Hy; apply Hall; by right).
  destruct (Hall x) as [H1 H2]; [left|].
  repeat case_decide; tauto.
Qed.

Lemma filter_snoc P `{!forall x, Decision (P x)} l x :
  filter P (l ++ [x]) = filter P l ++ (if decide (P x) then [x] else []).
Proof. rewrite filter_app, filter_cons, filter_nil. by case_decide. Qed.

Lemma head_app_l l1 l2 x : head l1 = Some x -> head (l1 ++ l2) = Some x.
Proof. by destruct l1. Qed.

Lemma head_app_nil l : head ([] ++ l) = head l.
Proof. done. Qed.

End lists.

(** A filter commutes with a map that does not change what it tests. *)
Lemma filter_fmap_stable {A} (P : A -> Prop) `{!forall x, Decision (P x)}
    (f : A -> A) (l : list A) :
  (forall x, P (f x) <-> P x) -> filter P (f <$> l) = f <$> filter P l.
Proof.
  intros Hst. induction l as [|x l IHl]; [done|].
  rewrite fmap_cons, !filter_cons, IHl.
  destruct (Hst x). repeat case_decide; tauto.
Qed.

(** A map that fixes every element of a list fixes the list. *)
Lemma fmap_id_in {A} (f : A -> A) (l : list A) :
  (forall x, x ∈ l -> f x = x) -> f <$> l = l.
Proof.
  induction l as [|x l IHl]; [done|]; intros Hf.
  rewrite fmap_cons, Hf by left. f_equal. apply IHl. intros y Hy. apply Hf. by right.
Qed.

#[export] Hint Resolve filter_none filter_all : radius.

(** ** Answers of a computation *)

Section answers.
Context {S A B : Type}.

Lemma answers_ret (Q : A -> Prop) (a : A) : Q a -> answers (S := S) Q (ret a).
Proof. by intros H s a' s' [= <- <-]. Qed.

Lemma answers_throw (Q : A -> Prop) e : answers (S := S) Q (throw e).
Proof. by intros s a s'. Qed.

Lemma answers_bind (Q : B -> Prop) (m : M S A) (k : A -> M S B) :
  (forall a, answers Q (k a)) -> answers Q (bind m k).
Proof.
  intros Hk s b s' E. apply bind_inv_ok in E as (a & s1 & _ & E). by eapply Hk, E.
Qed.

Lemma answers_try_catch (Q : A -> Prop) (m : M S A) (h : error -> M S A) :
  answers Q m -> (forall e, answers Q (h e)) -> answers Q (try_catch m h).
Proof.
  intros Hm Hh s a s'. unfold try_catch.
  destruct (m s) as [[a1|e] s1] eqn:E; [intros [= <- <-]; by eapply Hm, E|].
  apply Hh.
Qed.

Lemma total_try_catch (m : M S A) (h : error -> M S A) :
  (forall e, total (h e)) -> total (try_catch m h).
Proof.
  intros Hh s. unfold try_catch. destruct (m s) as [[a|e] s1]; [eauto | apply Hh].
Qed.

Lemma total_ret (a : A) : total (S := S) (ret a).
Proof. intros s. by exists a, s. Qed.

End answers.

#[export] Hint Resolve answers_throw answers_bind answers_try_catch
  total_try_catch total_ret : radius.
