(* ===== verification/Store.v ===== *)
(** * The SQL access layer ([config/database.js])

    The tables of the RADIUS schema as lists of rows with an auto-increment
    counter, the SQL statements the models issue as pure functions on the
    tables, and the two ways of running a statement: [query] (the pool, in
    autocommit mode) and [execute] inside a [transaction] (a dedicated
    connection with a working copy that is committed or rolled back).

    [config/database.js] is not among the sources: everything here is
    modelled from the specification and from the calls the models make. *)

From Stdlib Require Import Ascii.
From stdpp Require Import base option strings numbers list.
From S2P Require Import Prelude.

(** ** Rows and tables *)

(** A row of [radcheck] or [radreply]. *)
Record attr_row : Type := AttrRow {
  r_id : Z;
  r_username : string;
  r_attribute : string;
  r_op : string;
  r_value : string
}.

(** A row of [nas]: [id, shortname, nasname, secret, type, ports,
    community, description]. *)
Record nas_row : Type := NasRow {
  n_id : Z;
  n_shortname : string;
  n_nasname : string;
  n_secret : string;
  n_type : string;
  n_ports : Z;
  n_community : string;
  n_description : string
}.

#[global] Instance attr_row_eq_dec : EqDecision attr_row.
Proof. solve_decision. Defined.

#[global] Instance nas_row_eq_dec : EqDecision nas_row.
Proof. solve_decision. Defined.

Record table (R : Type) : Type := Table {
  rows : list R;
  next_id : Z
}.

Arguments Table {R} rows next_id.
Arguments rows {R} t.
Arguments next_id {R} t.

Record tables : Type := Tables {
  radcheck : table attr_row;
  radreply : table attr_row;
  nas : table nas_row
}.

(** The two attribute tables a statement can name. *)
Inductive attr_table : Type :=
| Radcheck
| Radreply.

#[global] Instance attr_table_eq_dec : EqDecision attr_table.
Proof. solve_decision. Defined.

Definition get_table (t : attr_table) (ts : tables) : table attr_row :=
  match t with
  | Radcheck => radcheck ts
  | Radreply => radreply ts
  end.

Definition set_table (t : attr_table) (x : table attr_row) (ts : tables) : tables :=
  match t with
  | Radcheck => Tables x (radreply ts) (nas ts)
  | Radreply => Tables (radcheck ts) x (nas ts)
  end.

Definition set_nas (x : table nas_row) (ts : tables) : tables :=
  Tables (radcheck ts) (radreply ts) x.

Definition set_value (v : string) (r : attr_row) : attr_row :=
  AttrRow (r_id r) (r_username r) (r_attribute r) (r_op r) v.

Definition empty_tables : tables :=
  Tables (Table [] 1) (Table [] 1) (Table [] 1).

(** ** Statements *)

(** [INSERT INTO t (username, attribute, op, value) VALUES (?, ?, ?, ?)]:
    the new row takes the counter as its id; the result is [insertId]. *)
Definition insert_attr (t : attr_table) (u a o v : string) (ts : tables)
    : Z * tables :=
  let tb := get_table t ts in
  (next_id tb,
   set_table t (Table (rows tb ++ [AttrRow (next_id tb) u a o v])
                      (next_id tb + 1)) ts).

(** [UPDATE t SET value = ? WHERE P]: the result is [affectedRows], the
    number of rows matched. *)
Definition update_value (t : attr_table) (P : attr_row -> Prop)
    `{!forall r, Decision (P r)} (v : string) (ts : tables) : nat * tables :=
  let tb := get_table t ts in
  (length (filter P (rows tb)),
   set_table t (Table ((fun r => if decide (P r) then set_value v r else r)
                         <$> rows tb) (next_id tb)) ts).

(** [DELETE FROM t WHERE P]: the result is [affectedRows]. *)
Definition delete_rows (t : attr_table) (P : attr_row -> Prop)
    `{!forall r, Decision (P r)} (ts : tables) : nat * tables :=
  let tb := get_table t ts in
  (length (filter P (rows tb)),
   set_table t (Table (filter (fun r => ~ P r) (rows tb)) (next_id tb)) ts).

(** [SELECT ... FROM t WHERE P] *)
Definition select_rows (t : attr_table) (P : attr_row -> Prop)
    `{!forall r, Decision (P r)} (ts : tables) : list attr_row :=
  filter P (rows (get_table t ts)).

(** [l LEFT JOIN r ON on]: every row of [l] with each of its matches in
    [r], or once with NULL when it has none. *)
Definition left_join {A B C} (on : A -> B -> Prop)
    `{!forall a b, Decision (on a b)} (mk : A -> option B -> C)
    (l : list A) (r : list B) : list C :=
  l ≫= (fun a =>
    match filter (on a) r with
    | [] => [mk a None]
    | bs => (fun b => mk a (Some b)) <$> bs
    end).

(** [s LIKE p]: in the pattern [%] matches any run of characters, [_] any
    one character, and a backslash makes the next character literal. *)
Fixpoint like (p : string) : string -> bool :=
  match p with
  | EmptyString => fun s => bool_decide (s = "")
  | String c p' =>
      if Ascii.eqb c "%"%char then
        fix skip (s : string) : bool :=
          like p' s ||
          match s with
          | EmptyString => false
          | String _ s' => skip s'
          end
      else if Ascii.eqb c "_"%char then
        fun s =>
          match s with
          | EmptyString => false
          | String _ s' => like p' s'
          end
      else if Ascii.eqb c "\"%char then
        match p' with
        | EmptyString => fun s => bool_decide (s = "\")
        | String c2 p'' =>
            fun s =>
              match s with
              | EmptyString => false
              | String c' s' => Ascii.eqb c' c2 && like p'' s'
              end
        end
      else
        fun s =>
          match s with
          | EmptyString => false
          | String c' s' => Ascii.eqb c' c && like p' s'
          end
  end.

(** [`%${searchTerm}%`] *)
Definition search_pattern (searchTerm : string) : string :=
  "%" ++ searchTerm ++ "%".

Arguments insert_attr : simpl never.
Arguments update_value : simpl never.
Arguments delete_rows : simpl never.
Arguments select_rows : simpl never.
Arguments left_join : simpl never.

(** ** The pool *)

Record db : Type := Db {
  committed : tables;     (* what every connection sees *)
  faults : list bool;     (* [true]: the next round trip fails *)
  in_use : nat            (* connections checked out of the pool *)
}.

(** A transaction in progress. *)
Record conn : Type := Conn {
  work : tables;          (* the tables as the transaction sees them *)
  pool : db
}.

Definition set_committed (ts : tables) (d : db) : db :=
  Db ts (faults d) (in_use d).

Definition acquire (d : db) : db := Db (committed d) (faults d) (S (in_use d)).

Definition release (d : db) : db := Db (committed d) (faults d) (pred (in_use d)).

Definition healthy (d : db) : Prop := faults d = [].

#[global] Instance healthy_dec d : Decision (healthy d).
Proof. unfold healthy. apply _. Defined.

(** One round trip to the server: consumes one entry of the fault plan. *)
Definition tick : M db unit :=
  fun d =>
    match faults d with
    | true :: fs => (Throw StoreFailure, Db (committed d) fs (in_use d))
    | false :: fs => (Ok tt, Db (committed d) fs (in_use d))
    | [] => (Ok tt, d)
    end.

(** [db.query(sql, params)]: one statement on a pooled connection, in
    autocommit mode; the connection goes back to the pool on both paths. *)
Definition query {A} (stmt : tables -> A * tables) : M db A :=
  fun d =>
    match tick (acquire d) with
    | (Ok _, d1) =>
        let (a, ts) := stmt (committed d1) in
        (Ok a, release (set_committed ts d1))
    | (Throw e, d1) => (Throw e, release d1)
    end.

(** A statement that only reads. *)
Definition reading {A} (f : tables -> A) (ts : tables) : A * tables := (f ts, ts).

(** A parameter of a prepared statement: the driver throws on [undefined]
    before anything is sent. *)
Definition bound {S A} (o : option A) : M S A :=
  match o with
  | Some s => ret s
  | None => throw BindUndefined
  end.

(** A statement the server refuses (an unknown table, a syntax error): the
    round trip happens and the call throws. *)
Definition rejected {A} : M db A :=
  bind (query (reading (fun _ => tt))) (fun _ => throw StoreFailure).

(** [connection.execute(sql, params)] on the connection of a transaction. *)
Definition execute {A} (stmt : tables -> A * tables) : M conn A :=
  fun c =>
    match tick (pool c) with
    | (Ok _, d1) =>
        let (a, ts) := stmt (work c) in
        (Ok a, Conn ts d1)
    | (Throw e, d1) => (Throw e, Conn (work c) d1)
    end.

(** A call that goes to the pool while a transaction is in progress: it
    sees the committed tables, not the working copy. *)
Definition on_pool {A} (m : M db A) : M conn A :=
  fun c => let (r, d1) := m (pool c) in (r, Conn (work c) d1).

(** What a rollback leaves: the rows as they were, the counters as the
    transaction advanced them. *)
Definition restore (old new : tables) : tables :=
  Tables (Table (rows (radcheck old)) (next_id (radcheck new)))
         (Table (rows (radreply old)) (next_id (radreply new)))
         (Table (rows (nas old)) (next_id (nas new))).

(** [db.transaction(callback)]: take a connection, BEGIN, run the callback,
    COMMIT; on any throw ROLLBACK and rethrow; release in all cases. *)
Definition transaction {A} (body : M conn A) : M db A :=
  fun d =>
    match tick (acquire d) with
    | (Throw e, d1) => (Throw e, release d1)
    | (Ok _, d1) =>
        match body (Conn (committed d1) d1) with
        | (Ok a, c) =>
            match tick (pool c) with
            | (Ok _, d2) => (Ok a, release (set_committed (work c) d2))
            | (Throw e, d2) =>
                (Throw e,
                 release (set_committed (restore (committed d2) (work c)) d2))
            end
        | (Throw e, c) =>
            (Throw e,
             release (set_committed (restore (committed (pool c)) (work c))
                                    (pool c)))
        end
    end.

(** ** Tables up to their counters *)

Definition same_rows (a b : tables) : Prop :=
  rows (radcheck a) = rows (radcheck b) /\
  rows (radreply a) = rows (radreply b) /\
  rows (nas a) = rows (nas b).

(** What a body may do to the pool it runs beside: read it. *)
Definition pool_steady {A} (body : M conn A) : Prop :=
  forall c r c', body c = (r, c') ->
    committed (pool c') = committed (pool c) /\ in_use (pool c') = in_use (pool c).

(** A triple on the working copy of a transaction that runs beside the
    committed tables [base]: from a working copy that satisfies [P], a run
    of the body that returns [a] leaves the committed tables alone and a
    working copy that satisfies [Q a]. *)
Definition tx_spec {A} (base : tables) (P : tables -> Prop) (body : M conn A)
    (Q : A -> tables -> Prop) : Prop :=
  forall c a c', committed (pool c) = base -> P (work c) ->
    body c = (Ok a, c') -> committed (pool c') = base /\ Q a (work c').

(** A pool computation that only reads. *)
Definition db_steady {A} (m : M db A) : Prop :=
  forall d r d', m d = (r, d') ->
    committed d' = committed d /\ in_use d' = in_use d.

(** A triple on the committed tables for a computation on the pool, on
    both exit paths: from committed tables that satisfy [P], whatever the
    store does, the result [r] (returned or thrown) and the committed
    tables left satisfy [Q r]. *)
Definition db_spec {A} (P : tables -> Prop) (m : M db A)
    (Q : result A -> tables -> Prop) : Prop :=
  forall d r d', P (committed d) -> m d = (r, d') -> Q r (committed d').

(** A pool computation that gives back every connection it takes. *)
Definition balanced {A} (m : M db A) : Prop :=
  forall d r d', m d = (r, d') -> in_use d' = in_use d.

(** ** Lemmas: tables *)

#[global] Instance same_rows_equiv : Equivalence same_rows.
Proof.
  split.
  - by intros a.
  - intros a b (? & ? & ?). by repeat split.
  - intros a b c (? & ? & ?) (? & ? & ?). repeat split; congruence.
Qed.

#[global] Instance select_rows_proper t (P : attr_row -> Prop)
    `{!forall r, Decision (P r)} :
  Proper (same_rows ==> eq) (select_rows t P).
Proof. intros a b (H1 & H2 & _). unfold select_rows. destruct t; simpl; congruence. Qed.

Lemma restore_same_rows old new : same_rows (restore old new) old.
Proof. by repeat split. Qed.

Lemma restore_id ts : restore ts ts = ts.
Proof. by destruct ts as [[] [] []]. Qed.

Lemma get_set_table t x ts : get_table t (set_table t x ts) = x.
Proof. by destruct t. Qed.

Lemma get_set_table_ne t t' x ts :
  t <> t' -> get_table t (set_table t' x ts) = get_table t ts.
Proof. by destruct t, t'. Qed.

Lemma nas_set_table t x ts : nas (set_table t x ts) = nas ts.
Proof. by destruct t. Qed.

Lemma select_insert_attr t t' P `{!forall r, Decision (P r)} u a o v ts :
  select_rows t P (insert_attr t' u a o v ts).2 =
  select_rows t P ts ++
  (if decide (t = t' /\ P (AttrRow (next_id (get_table t' ts)) u a o v))
   then [AttrRow (next_id (get_table t' ts)) u a o v] else []).
Proof.
  unfold select_rows, insert_attr; simpl.
  destruct (decide (t = t')) as [->|Hne].
  - rewrite get_set_table; simpl. rewrite filter_snoc.
    f_equal. repeat case_decide; tauto.
  - rewrite get_set_table_ne by done.
    rewrite decide_False by tauto. by rewrite app_nil_r.
Qed.

Lemma select_delete_rows t t' P Q `{!forall r, Decision (P r)}
    `{!forall r, Decision (Q r)} ts :
  select_rows t P (delete_rows t' Q ts).2 =
  if decide (t = t') then filter (fun r => P r /\ ~ Q r) (rows (get_table t ts))
  else select_rows t P ts.
Proof.
  unfold select_rows, delete_rows; simpl. case_decide as Ht.
  - subst. rewrite get_set_table; simpl. apply list_filter_filter.
  - by rewrite get_set_table_ne.
Qed.

Lemma select_update_value_other t t' P Q `{!forall r, Decision (P r)}
    `{!forall r, Decision (Q r)} v ts :
  t <> t' ->
  select_rows t P (update_value t' Q v ts).2 = select_rows t P ts.
Proof.
  intros Hne. unfold select_rows, update_value; simpl.
  by rewrite get_set_table_ne.
Qed.

(** An update that rewrites [value] keeps the rows a predicate on the other
    columns selects, with their new values. *)
Lemma select_update_value t P Q `{!forall r, Decision (P r)}
    `{!forall r, Decision (Q r)} v ts :
  (forall r w, P (set_value w r) <-> P r) ->
  select_rows t P (update_value t Q v ts).2 =
  (fun r => if decide (Q r) then set_value v r else r) <$> select_rows t P ts.
Proof.
  intros HP. unfold select_rows, update_value; simpl.
  rewrite get_set_table; simpl. apply filter_fmap_stable.
  intros r. case_decide; [apply HP | done].
Qed.

(** A statement on one attribute table leaves the other and [nas] alone. *)
Lemma get_table_insert_attr_ne t t' u a o v ts :
  t <> t' -> get_table t (insert_attr t' u a o v ts).2 = get_table t ts.
Proof. intros. unfold insert_attr; simpl. by apply get_set_table_ne. Qed.

Lemma get_table_update_value_ne t t' P `{!forall r, Decision (P r)} v ts :
  t <> t' -> get_table t (update_value t' P v ts).2 = get_table t ts.
Proof. intros. unfold update_value; simpl. by apply get_set_table_ne. Qed.

Lemma get_table_delete_rows_ne t t' P `{!forall r, Decision (P r)} ts :
  t <> t' -> get_table t (delete_rows t' P ts).2 = get_table t ts.
Proof. intros. unfold delete_rows; simpl. by apply get_set_table_ne. Qed.

Lemma nas_insert_attr t u a o v ts : nas (insert_attr t u a o v ts).2 = nas ts.
Proof. apply nas_set_table. Qed.

Lemma nas_update_value t P `{!forall r, Decision (P r)} v ts :
  nas (update_value t P v ts).2 = nas ts.
Proof. apply nas_set_table. Qed.

Lemma nas_delete_rows t P `{!forall r, Decision (P r)} ts :
  nas (delete_rows t P ts).2 = nas ts.
Proof. apply nas_set_table. Qed.

(** An update or a delete that matches no row changes nothing. *)
Lemma update_value_none t P `{!forall r, Decision (P r)} v ts :
  select_rows t P ts = [] -> update_value t P v ts = (0%nat, ts).
Proof.
  unfold select_rows, update_value. intros E. rewrite E. simpl. f_equal.
  rewrite fmap_id_in.
  - by destruct t, ts as [[] [] []].
  - intros r Hr. apply filter_nil_iff in E.
    rewrite Forall_forall in E. by rewrite decide_False by by apply E.
Qed.

Lemma delete_rows_none t P `{!forall r, Decision (P r)} ts :
  select_rows t P ts = [] -> delete_rows t P ts = (0%nat, ts).
Proof.
  unfold select_rows, delete_rows. intros E. rewrite E. simpl. f_equal.
  rewrite filter_all.
  - by destruct t, ts as [[] [] []].
  - apply filter_nil_iff in E. by apply Forall_forall.
Qed.

(** The number an update or a delete reports is the number of rows its
    WHERE clause selects. *)
Lemma update_value_affected t P `{!forall r, Decision (P r)} v ts :
  (update_value t P v ts).1 = length (select_rows t P ts).
Proof. done. Qed.

Lemma delete_rows_affected t P `{!forall r, Decision (P r)} ts :
  (delete_rows t P ts).1 = length (select_rows t P ts).
Proof. done. Qed.

Lemma insert_attr_id t u a o v ts :
  (insert_attr t u a o v ts).1 = next_id (get_table t ts).
Proof. done. Qed.

(** ** Lemmas: round trips *)

Lemma tick_healthy d : healthy d -> tick d = (Ok tt, d).
Proof. unfold healthy, tick. by intros ->. Qed.

Lemma release_acquire d : release (acquire d) = d.
Proof. by destruct d. Qed.

Lemma release_set_committed_acquire ts d :
  release (set_committed ts (acquire d)) = set_committed ts d.
Proof. by destruct d. Qed.

Lemma healthy_eta d : healthy d -> Db (committed d) [] (in_use d) = d.
Proof. unfold healthy. destruct d; simpl. by intros ->. Qed.

Lemma healthy_set_committed ts d : healthy (set_committed ts d) <-> healthy d.
Proof. done. Qed.

Lemma healthy_acquire d : healthy (acquire d) <-> healthy d.
Proof. done. Qed.

(** What one round trip leaves untouched. *)
Lemma tick_spec d r d' :
  tick d = (r, d') ->
  committed d' = committed d /\ in_use d' = in_use d /\
  (healthy d -> healthy d') /\ (exists k, faults d = k ++ faults d').
Proof.
  unfold tick, healthy. destruct d as [ts [|[] fs] n]; simpl; intros [= <- <-];
    simpl; (repeat split; try done); first [by exists [] | by eexists [_]].
Qed.

(** On a healthy store a pool statement is the statement. *)
Lemma query_healthy {A} (stmt : tables -> A * tables) d :
  healthy d ->
  query stmt d = (Ok (stmt (committed d)).1, set_committed (stmt (committed d)).2 d).
Proof.
  intros H. unfold query. rewrite tick_healthy by done. simpl.
  destruct (stmt (committed d)) as [a ts]; simpl.
  by rewrite release_set_committed_acquire.
Qed.

Lemma query_reading_healthy {A} (f : tables -> A) d :
  healthy d -> query (reading f) d = (Ok (f (committed d)), d).
Proof. intros H. rewrite query_healthy by done. by destruct d. Qed.

(** A pool statement against a store whose next round trip succeeds, and
    against one whose next round trip fails. *)
Lemma query_answers {A} (stmt : tables -> A * tables) ts fs n :
  query stmt (Db ts (false :: fs) n) = (Ok (stmt ts).1, Db (stmt ts).2 fs n).
Proof. unfold query. simpl. by destruct (stmt ts). Qed.

Lemma query_fails {A} (stmt : tables -> A * tables) ts fs n :
  query stmt (Db ts (true :: fs) n) = (Throw StoreFailure, Db ts fs n).
Proof. done. Qed.

(** A pool statement returns its connection, and leaves the tables alone
    when it throws. *)
Lemma query_spec {A} (stmt : tables -> A * tables) d r d' :
  query stmt d = (r, d') ->
  in_use d' = in_use d /\
  match r with
  | Ok a => (a, committed d') = stmt (committed d)
  | Throw _ => committed d' = committed d
  end.
Proof.
  unfold query. destruct (tick (acquire d)) as [[[]|e] d1] eqn:Ht;
    apply tick_spec in Ht as (Hc & Hn & _); simpl in *.
  - destruct (stmt (committed d1)) as [a ts] eqn:Hs. intros [= <- <-]; simpl.
    rewrite Hn. split; [done|]. by rewrite <- Hs, Hc.
  - intros [= <- <-]; simpl. by rewrite Hn.
Qed.

Lemma query_reading_committed {A} (f : tables -> A) d r d' :
  query (reading f) d = (r, d') -> committed d' = committed d.
Proof.
  intros H. apply query_spec in H as [_ H]. destruct r; [|done].
  unfold reading in H. congruence.
Qed.

Lemma execute_healthy {A} (stmt : tables -> A * tables) c :
  healthy (pool c) ->
  execute stmt c = (Ok (stmt (work c)).1, Conn (stmt (work c)).2 (pool c)).
Proof.
  intros H. unfold execute. rewrite tick_healthy by done.
  by destruct (stmt (work c)).
Qed.

(** ** Lemmas: what a transaction body does to the pool *)

Lemma pool_steady_ret {A} (a : A) : pool_steady (ret a).
Proof. by intros c r c' [= <- <-]. Qed.

Lemma pool_steady_throw {A} e : pool_steady (@throw conn A e).
Proof. by intros c r c' [= <- <-]. Qed.

Lemma pool_steady_bind {A B} (m : M conn A) (k : A -> M conn B) :
  pool_steady m -> (forall a, pool_steady (k a)) -> pool_steady (bind m k).
Proof.
  intros Hm Hk c r c'. unfold bind.
  destruct (m c) as [[a|e] c1] eqn:E1; [|intros [= <- <-]; eauto].
  intros E2. destruct (Hm _ _ _ E1) as [Hc Hn].
  destruct (Hk _ _ _ _ E2) as [Hc2 Hn2]. split; congruence.
Qed.

Lemma pool_steady_execute {A} (stmt : tables -> A * tables) :
  pool_steady (execute stmt).
Proof.
  intros c r c'. unfold execute.
  destruct (tick (pool c)) as [[[]|e] d1] eqn:Ht;
    apply tick_spec in Ht as (Hc & Hn & _).
  - destruct (stmt (work c)). by intros [= <- <-].
  - by intros [= <- <-].
Qed.

Lemma db_steady_ret {A} (a : A) : db_steady (ret a).
Proof. by intros d r d' [= <- <-]. Qed.

Lemma db_steady_throw {A} e : db_steady (@throw db A e).
Proof. by intros d r d' [= <- <-]. Qed.

Lemma db_steady_bind {A B} (m : M db A) (k : A -> M db B) :
  db_steady m -> (forall a, db_steady (k a)) -> db_steady (bind m k).
Proof.
  intros Hm Hk d r d'. unfold bind.
  destruct (m d) as [[a|e] d1] eqn:E1; [|intros [= <- <-]; eauto].
  intros E2. destruct (Hm _ _ _ E1) as [Hc Hn].
  destruct (Hk _ _ _ _ E2) as [Hc2 Hn2]. split; congruence.
Qed.

Lemma db_steady_reading {A} (f : tables -> A) : db_steady (query (reading f)).
Proof.
  intros d r d' Hq. split.
  - eapply query_reading_committed, Hq.
  - by apply query_spec in Hq as [? _].
Qed.

Lemma pool_steady_on_pool {A} (m : M db A) :
  db_steady m -> pool_steady (on_pool m).
Proof.
  intros Hm c r c'. unfold on_pool.
  destruct (m (pool c)) as [r1 d1] eqn:Hq.
  intros [= <- <-]; simpl. eauto.
Qed.

Lemma pool_steady_if {A} (b : bool) (m1 m2 : M conn A) :
  pool_steady m1 -> pool_steady m2 -> pool_steady (if b then m1 else m2).
Proof. by destruct b. Qed.

Lemma pool_steady_if_truthy {A} o (yes : string -> M conn A) no :
  (forall s, pool_steady (yes s)) -> pool_steady no ->
  pool_steady (if_truthy o yes no).
Proof. intros Hy Hn. unfold if_truthy. destruct o as [s|]; [by case_match|done]. Qed.

#[export] Hint Resolve pool_steady_ret pool_steady_throw pool_steady_bind
  pool_steady_execute pool_steady_on_pool pool_steady_if pool_steady_if_truthy
  db_steady_ret db_steady_throw db_steady_bind db_steady_reading : radius.

(** ** Lemmas: transactions *)

Section transaction.
Context {A : Type} (body : M conn A).

(** Every exit path of a transaction returns the connection it took. *)
Lemma transaction_released d r d' :
  pool_steady body -> transaction body d = (r, d') -> in_use d' = in_use d.
Proof.
  intros Hb. unfold transaction.
  destruct (tick (acquire d)) as [[[]|e] d1] eqn:Ht;
    apply tick_spec in Ht as (_ & Hn & _); [|by intros [= <- <-]; simpl; rewrite Hn].
  destruct (body _) as [[a|e] c] eqn:Eb; apply Hb in Eb as [_ Hn']; simpl in Hn'.
  - destruct (tick (pool c)) as [[[]|e] d2] eqn:Ht2;
      apply tick_spec in Ht2 as (_ & Hn2 & _);
      intros [= <- <-]; simpl; by rewrite Hn2, Hn', Hn.
  - intros [= <- <-]; simpl. by rewrite Hn', Hn.
Qed.

(** Atomicity, the failing half: a transaction that throws leaves the rows
    of every table as they were. *)
Lemma transaction_atomic d e d' :
  pool_steady body -> transaction body d = (Throw e, d') ->
  same_rows (committed d') (committed d).
Proof.
  intros Hb. unfold transaction.
  destruct (tick (acquire d)) as [[[]|e1] d1] eqn:Ht;
    apply tick_spec in Ht as (Hc & _); [|by intros [= <- <-]; simpl; rewrite Hc].
  destruct (body _) as [[a|e2] c] eqn:Eb; apply Hb in Eb as [Hc' _]; simpl in Hc'.
  - destruct (tick (pool c)) as [[[]|e3] d2] eqn:Ht2; [done|].
    apply tick_spec in Ht2 as (Hc2 & _). intros [= <- <-]; simpl.
    rewrite Hc2, Hc', Hc. apply restore_same_rows.
  - intros [= <- <-]; simpl. rewrite Hc', Hc. apply restore_same_rows.
Qed.

(** Atomicity, the succeeding half: a transaction that returns has committed
    exactly the working copy its body left. *)
Lemma transaction_commits d a d' :
  transaction body d = (Ok a, d') ->
  exists d1 c, committed d1 = committed d /\
    body (Conn (committed d) d1) = (Ok a, c) /\ committed d' = work c.
Proof.
  unfold transaction.
  destruct (tick (acquire d)) as [[[]|e1] d1] eqn:Ht; [|done].
  apply tick_spec in Ht as (Hc & _). simpl in Hc. rewrite Hc.
  destruct (body _) as [[a1|e2] c] eqn:Eb; [|done].
  destruct (tick (pool c)) as [[[]|e3] d2] eqn:Ht2; [|done].
  intros [= <- <-]. by exists d1, c.
Qed.

(** On a healthy store a transaction whose body returns commits. *)
Lemma transaction_healthy d a c :
  healthy d -> body (Conn (committed d) (acquire d)) = (Ok a, c) ->
  healthy (pool c) -> in_use (pool c) = S (in_use d) ->
  transaction body d = (Ok a, Db (work c) [] (in_use d)).
Proof.
  intros Hd Hb Hc Hn. unfold transaction.
  rewrite tick_healthy by done. simpl. rewrite Hb.
  rewrite tick_healthy by done. unfold release, set_committed; simpl.
  by rewrite Hc, Hn.
Qed.

End transaction.

(** ** Lemmas: specifications of transaction bodies *)

Section triples.
Context {A : Type} (base : tables).
Implicit Types (P : tables -> Prop) (Q : A -> tables -> Prop).

Lemma tx_spec_ret P Q (a : A) :
  (forall ts, P ts -> Q a ts) -> tx_spec base P (ret a) Q.
Proof. intros H c a' c' Hb HP [= <- <-]. split; [done | by apply H]. Qed.

Lemma tx_spec_throw P Q e : tx_spec base P (throw e) Q.
Proof. by intros c a c' Hb HP. Qed.

Lemma tx_spec_execute P Q (stmt : tables -> A * tables) :
  (forall ts, P ts -> Q (stmt ts).1 (stmt ts).2) ->
  tx_spec base P (execute stmt) Q.
Proof.
  intros Hs c a c' Hb HP. unfold execute.
  destruct (tick (pool c)) as [[[]|e] d1] eqn:Ht; [|done].
  apply tick_spec in Ht as (Hc & _).
  specialize (Hs _ HP). destruct (stmt (work c)). intros [= <- <-]; simpl.
  split; [congruence | done].
Qed.

(** A read through the pool sees the committed tables [base]. *)
Lemma tx_spec_on_pool P Q (m : M db A) :
  (forall d a d', committed d = base -> m d = (Ok a, d') ->
     committed d' = base /\ forall ts, P ts -> Q a ts) ->
  tx_spec base P (on_pool m) Q.
Proof.
  intros H c a c' Hb HP. unfold on_pool.
  destruct (m (pool c)) as [r d1] eqn:E. intros [= -> <-]; simpl.
  destruct (H _ _ _ Hb E) as [? HQ]. split; [done | by apply HQ].
Qed.

Lemma tx_spec_if P Q (b : bool) (m1 m2 : M conn A) :
  (b = true -> tx_spec base P m1 Q) -> (b = false -> tx_spec base P m2 Q) ->
  tx_spec base P (if b then m1 else m2) Q.
Proof. destruct b; auto. Qed.

Lemma tx_spec_if_truthy P Q o (yes : string -> M conn A) no :
  (forall s, o = Some s -> s <> "" -> tx_spec base P (yes s) Q) ->
  (truthy o = false -> tx_spec base P no Q) ->
  tx_spec base P (if_truthy o yes no) Q.
Proof.
  intros Hy Hn. unfold if_truthy. destruct o as [s|]; [|by apply Hn].
  destruct (String.eqb_spec s "") as [->|Hne]; [by apply Hn | by apply Hy].
Qed.

Lemma tx_spec_weaken P P' Q Q' (m : M conn A) :
  tx_spec base P m Q -> (forall ts, P' ts -> P ts) ->
  (forall a ts, Q a ts -> Q' a ts) -> tx_spec base P' m Q'.
Proof.
  intros H HP HQ c a c' Hb HP' E.
  destruct (H c a c' Hb (HP _ HP') E) as [? ?]. split; [done | by apply HQ].
Qed.

(** A precondition that fixes the working copy and carries a fact. *)
Lemma tx_spec_exact_pre Q ts0 (fact : Prop) (m : M conn A) :
  (fact -> tx_spec base (eq ts0) m Q) ->
  tx_spec base (fun ts => ts = ts0 /\ fact) m Q.
Proof. intros H c a c' Hb [Hw Hf]. exact (H Hf c a c' Hb (eq_sym Hw)). Qed.

End triples.

Lemma tx_spec_bind {A B} base P (R : A -> tables -> Prop) (Q : B -> tables -> Prop)
    (m : M conn A) (k : A -> M conn B) :
  tx_spec base P m R -> (forall a, tx_spec base (R a) (k a) Q) ->
  tx_spec base P (bind m k) Q.
Proof.
  intros Hm Hk c b c' Hb HP E.
  apply bind_inv_ok in E as (a & c1 & E1 & E2).
  destruct (Hm _ _ _ Hb HP E1) as [Hb1 HR]. by eapply Hk, E2.
Qed.

(** What the body establishes on its working copy holds of the committed
    tables when the transaction returns. *)
Lemma transaction_spec {A} P (Q : A -> tables -> Prop) (body : M conn A) d a d' :
  tx_spec (committed d) P body Q -> P (committed d) ->
  transaction body d = (Ok a, d') -> Q a (committed d').
Proof.
  intros Hb HP E. apply transaction_commits in E as (d1 & c & Hc & E & ->).
  by eapply Hb, E.
Qed.

(** An invariant of the rows that the body keeps whenever it returns is an
    invariant of the committed tables across the transaction, on every exit
    path: a throw rolls back to rows that satisfied it. *)
Lemma transaction_preserves {A} (I : tables -> Prop) (body : M conn A) d r d' :
  Proper (same_rows ==> iff) I ->
  pool_steady body -> tx_spec (committed d) I body (fun _ => I) ->
  I (committed d) -> transaction body d = (r, d') -> I (committed d').
Proof.
  intros HP Hsteady Hb HI E. destruct r as [a|e].
  - by eapply (transaction_spec I (fun _ => I)), E.
  - apply transaction_atomic in E; [|done]. by rewrite E.
Qed.

#[export] Hint Resolve tx_spec_throw : radius.

(** ** Lemmas: specifications of pool computations *)

Section db_triples.
Context {A : Type}.
Implicit Types (P : tables -> Prop) (Q : result A -> tables -> Prop).

Lemma db_spec_ret P Q (a : A) :
  (forall ts, P ts -> Q (Ok a) ts) -> db_spec P (ret a) Q.
Proof. intros H d r d' HP [= <- <-]. by apply H. Qed.

Lemma db_spec_throw P Q e :
  (forall ts, P ts -> Q (Throw e) ts) -> db_spec P (throw e) Q.
Proof. intros H d r d' HP [= <- <-]. by apply H. Qed.

Lemma db_spec_weaken P P' Q Q' (m : M db A) :
  db_spec P m Q -> (forall ts, P' ts -> P ts) ->
  (forall r ts, Q r ts -> Q' r ts) -> db_spec P' m Q'.
Proof. intros H HP HQ d r d' HP' E. eapply HQ, H, E. by apply HP. Qed.

(** A statement in autocommit mode: its effect when it returns, nothing
    when it throws. *)
Lemma db_spec_query P (stmt : tables -> A * tables) :
  db_spec P (query stmt)
    (fun r ts => exists ts0, P ts0 /\
       match r with Ok a => (a, ts) = stmt ts0 | Throw _ => ts = ts0 end).
Proof.
  intros d r d' HP E. apply query_spec in E as [_ E]. exists (committed d).
  by destruct r.
Qed.

Lemma db_spec_reading P (f : tables -> A) :
  db_spec P (query (reading f))
    (fun r ts => P ts /\ forall a, r = Ok a -> a = f ts).
Proof.
  intros d r d' HP E. rewrite (query_reading_committed _ _ _ _ E).
  split; [done|]. intros a ->. apply query_spec in E as [_ E].
  unfold reading in E. congruence.
Qed.

(** A transaction: what its body establishes when it returns, the rows
    it started from when it throws. *)
Lemma db_spec_transaction P (Qb : tables -> A -> tables -> Prop) (body : M conn A) :
  pool_steady body ->
  (forall base, tx_spec base (eq base) body (Qb base)) ->
  db_spec P (transaction body)
    (fun r ts => exists ts0, P ts0 /\
       match r with Ok a => Qb ts0 a ts | Throw _ => same_rows ts ts0 end).
Proof.
  intros Hs Hb d r d' HP E. exists (committed d). split; [done|]. destruct r.
  - by eapply (transaction_spec (eq (committed d))), E.
  - by eapply transaction_atomic, E.
Qed.

End db_triples.

Lemma db_spec_bind {A B} P (R : result A -> tables -> Prop)
    (Q : result B -> tables -> Prop) (m : M db A) (k : A -> M db B) :
  db_spec P m R -> (forall e ts, R (Throw e) ts -> Q (Throw e) ts) ->
  (forall a, db_spec (R (Ok a)) (k a) Q) -> db_spec P (bind m k) Q.
Proof.
  intros Hm He Hk d r d' HP. unfold bind.
  destruct (m d) as [[a|e] d1] eqn:E1.
  - intros E2. eapply Hk, E2. by eapply Hm, E1.
  - intros [= <- <-]. eapply He, Hm, E1. done.
Qed.

Lemma db_spec_try_catch {A} P (R Q : result A -> tables -> Prop)
    (m : M db A) (h : error -> M db A) :
  db_spec P m R -> (forall a ts, R (Ok a) ts -> Q (Ok a) ts) ->
  (forall e, db_spec (R (Throw e)) (h e) Q) -> db_spec P (try_catch m h) Q.
Proof.
  intros Hm Ho Hh d r d' HP. unfold try_catch.
  destruct (m d) as [[a|e] d1] eqn:E1.
  - intros [= <- <-]. eapply Ho, Hm, E1. done.
  - intros E2. eapply Hh, E2. by eapply Hm, E1.
Qed.

(** A computation that leaves the tables alone and whose result is a
    function of them. *)
Lemma db_spec_steady {A} P (m : M db A) (F : result A -> tables -> Prop) :
  (forall d r d', m d = (r, d') -> committed d' = committed d /\ F r (committed d)) ->
  db_spec P m (fun r ts => P ts /\ F r ts).
Proof. intros Hm d r d' HP E. apply Hm in E as [-> HF]. done. Qed.

(** A computation that only reads keeps every property of the tables. *)
Lemma db_steady_keeps {A} (I : tables -> Prop) (m : M db A) :
  db_steady m -> db_spec I m (fun _ => I).
Proof. intros Hm d r d' HI E. apply Hm in E as [-> _]. done. Qed.

Lemma db_steady_try_catch {A} (m : M db A) (h : error -> M db A) :
  db_steady m -> (forall e, db_steady (h e)) -> db_steady (try_catch m h).
Proof.
  intros Hm Hh d r d'. unfold try_catch.
  destruct (m d) as [[a|e] d1] eqn:E1; [intros [= <- <-]; eauto|].
  intros E2. destruct (Hm _ _ _ E1) as [Hc Hn].
  destruct (Hh _ _ _ _ E2) as [Hc2 Hn2]. split; congruence.
Qed.

Lemma db_steady_if_truthy {A} o (yes : string -> M db A) no :
  (forall s, db_steady (yes s)) -> db_steady no -> db_steady (if_truthy o yes no).
Proof. intros Hy Hn. unfold if_truthy. destruct o as [s|]; [by case_match|done]. Qed.

#[export] Hint Resolve db_steady_try_catch db_steady_if_truthy : radius.

(** ** Lemmas: connections are given back *)

Lemma balanced_ret {A} (a : A) : balanced (ret a).
Proof. by intros d r d' [= <- <-]. Qed.

Lemma balanced_throw {A} e : balanced (@throw db A e).
Proof. by intros d r d' [= <- <-]. Qed.

Lemma balanced_bind {A B} (m : M db A) (k : A -> M db B) :
  balanced m -> (forall a, balanced (k a)) -> balanced (bind m k).
Proof.
  intros Hm Hk d r d'. unfold bind.
  destruct (m d) as [[a|e] d1] eqn:E1; [|intros [= <- <-]; eauto].
  intros E2. rewrite (Hk _ _ _ _ E2). eauto.
Qed.

Lemma balanced_try_catch {A} (m : M db A) (h : error -> M db A) :
  balanced m -> (forall e, balanced (h e)) -> balanced (try_catch m h).
Proof.
  intros Hm Hh d r d'. unfold try_catch.
  destruct (m d) as [[a|e] d1] eqn:E1; [intros [= <- <-]; eauto|].
  intros E2. rewrite (Hh _ _ _ _ E2). eauto.
Qed.

Lemma balanced_query {A} (stmt : tables -> A * tables) : balanced (query stmt).
Proof. intros d r d' E. by apply query_spec in E as [? _]. Qed.

Lemma balanced_transaction {A} (body : M conn A) :
  pool_steady body -> balanced (transaction body).
Proof. intros Hb d r d' E. by eapply transaction_released. Qed.

Lemma balanced_bound {A} (o : option A) : balanced (bound o).
Proof. destruct o; [apply balanced_ret | apply balanced_throw]. Qed.

Lemma balanced_rejected {A} : balanced (@rejected A).
Proof.
  apply balanced_bind; [apply balanced_query | intros; apply balanced_throw].
Qed.

Lemma balanced_if {A} (b : bool) (m1 m2 : M db A) :
  balanced m1 -> balanced m2 -> balanced (if b then m1 else m2).
Proof. by destruct b. Qed.

Lemma balanced_if_truthy {A} o (yes : string -> M db A) no :
  (forall s, balanced (yes s)) -> balanced no -> balanced (if_truthy o yes no).
Proof. intros Hy Hn. unfold if_truthy. destruct o as [s|]; [by case_match|done]. Qed.

#[export] Hint Resolve balanced_ret balanced_throw balanced_bind balanced_try_catch
  balanced_query balanced_transaction balanced_bound balanced_rejected
  balanced_if balanced_if_truthy : radius.

(** Runs a computation step by step on a store known to be healthy. *)
Ltac store_cbn :=
  cbn [fst snd work pool committed faults in_use reading set_committed].

Ltac run_healthy :=
  repeat first
    [ rewrite execute_healthy by (store_cbn; assumption)
    | rewrite query_reading_healthy by (store_cbn; assumption)
    | rewrite query_healthy by (store_cbn; assumption)
    | progress (unfold bind, ret, on_pool; store_cbn) ].
