(* ===== verification/Http.v ===== *)
(** * The HTTP boundary shared by the guards and the controllers

    JSON values, responses ([res.status(n).json(body)]), the environment
    variables the program reads, and the envelope every handler uses on its
    error path.  A handler is a computation in the monad of the store that
    answers a [response]; a guard either answers or lets the request
    through ([next()]). *)

From stdpp Require Import base option strings numbers list.
From S2P Require Import Prelude Store.

(** ** JSON *)

#[warnings="-register-all"]
Inductive json : Type :=
| JNull
| JBool (b : bool)
| JNum (n : Z)
| JStr (s : string)
| JArr (l : list json)
| JObj (fields : list (string * json)).

(** A value that is a string or [null]. *)
Definition jstr_or_null (o : option string) : json :=
  match o with Some s => JStr s | None => JNull end.

(** A property that is left out when its value is [undefined]. *)
Definition jfield (k : string) (o : option json) : list (string * json) :=
  match o with Some v => [(k, v)] | None => [] end.

(** [obj[k]] on an object. *)
Definition jget (k : string) (j : json) : option json :=
  match j with
  | JObj fields => snd <$> head (filter (fun kv => kv.1 = k) fields)
  | _ => None
  end.

(** [s.split(sep)] for a separator of one character: the pieces between the
    separators, at least one piece. *)
Fixpoint split (sep : Ascii.ascii) (s : string) : list string :=
  match s with
  | EmptyString => [EmptyString]
  | String c rest =>
      if Ascii.eqb c sep then EmptyString :: split sep rest
      else match split sep rest with
           | [] => [String c EmptyString]
           | w :: ws => String c w :: ws
           end
  end.

(** The character does not occur in the string. *)
Fixpoint without (sep : Ascii.ascii) (s : string) : bool :=
  match s with
  | EmptyString => true
  | String c rest => negb (Ascii.eqb c sep) && without sep rest
  end.

(** [s.toLowerCase()] on the letters of ASCII, which is how Express
    compares the literal segments of a path and how [server.js] reads its
    flags. *)
Definition lower_char (c : Ascii.ascii) : Ascii.ascii :=
  let n := Ascii.nat_of_ascii c in
  if (65 <=? n)%nat && (n <=? 90)%nat then Ascii.ascii_of_nat (n + 32) else c.

Fixpoint lower (s : string) : string :=
  match s with
  | EmptyString => EmptyString
  | String c rest => String (lower_char c) (lower rest)
  end.

(** A name between double quotes, as the messages of the program show it. *)
Definition quoted (s : string) : string :=
  String (Ascii.ascii_of_nat 34) (s ++ String (Ascii.ascii_of_nat 34) EmptyString).

(** ** Responses *)

(** [res.status(status).json(body)]; [res.json(body)] has status 200. *)
Record response : Type := Response {
  status : Z;
  body : json
}.

(** What a middleware does with a request: answer, or call [next()] with
    what it attached to the request. *)
Inductive guard (A : Type) : Type :=
| Respond (r : response)
| Next (a : A).

Arguments Respond {A} r.
Arguments Next {A} a.

(** [router.get(path, guard, handler)]: the handler runs on what the guard
    lets through. *)
Definition guarded {S A} (g : guard A) (handler : A -> M S response) : M S response :=
  match g with
  | Respond r => ret r
  | Next a => handler a
  end.

(** ** Environment *)

(** The variables of [process.env] the program reads; [None] is unset. *)
Record env : Type := Env {
  NODE_ENV : option string;
  JWT_SECRET : option string;
  JWT_EXPIRES_IN : option string;
  API_KEY : option string;
  ADMIN_USERNAME : option string;
  ADMIN_PASSWORD : option string
}.

(** An environment in which nothing is set: every fallback applies. *)
Definition unset_env : env := Env None None None None None None.

(** [process.env.X || 'fallback'] *)
Definition env_or (x : option string) (fallback : string) : string :=
  default fallback (js_or x (Some fallback)).

(** [process.env.NODE_ENV === 'development'] *)
Definition development (e : env) : bool :=
  bool_decide (NODE_ENV e = Some "development").

(** [error.message] *)
Definition error_message (e : error) : string :=
  match e with
  | StoreFailure => "store failure"
  | BindUndefined => "Bind parameters must not contain undefined. To pass SQL NULL specify JS null"
  | SignFailure => "secretOrPrivateKey must have a value"
  end.

(** What the process tells of itself at an instant of the clock:
    [new Date().toISOString()], [process.uptime()],
    [process.memoryUsage()] and [process.version]. *)
Class Process : Type := {
  toISOString : Z -> string;
  uptime : Z -> json;
  memoryUsage : Z -> json;
  node_version : string
}.

(** A process for the examples: the clock reads as the epoch. *)
#[global] Instance still : Process := {|
  toISOString _ := "1970-01-01T00:00:00.000Z";
  uptime _ := JNum 0;
  memoryUsage _ := JObj [("rss", JNum 0)];
  node_version := "v20.0.0"
|}.

(** ** Envelopes *)

(** [{ success: false, message }] *)
Definition failure (code : Z) (message : string) : response :=
  Response code (JObj [("success", JBool false); ("message", JStr message)]).

(** [{ success: true, message, data }] *)
Definition success (code : Z) (message : string) (data : option json) : response :=
  Response code
    (JObj ([("success", JBool true); ("message", JStr message)] ++ jfield "data" data)).

(** The [catch] block of every handler:
    [res.status(500).json({ success: false, message: 'Internal server error',
       error: NODE_ENV === 'development' ? error.message : undefined })] *)
Definition internal_error (cfg : env) (e : error) : response :=
  Response 500
    (JObj ([("success", JBool false); ("message", JStr "Internal server error")] ++
           jfield "error"
             (if development cfg then Some (JStr (error_message e)) else None))).

(** [try { handler } catch (error) { res.status(500)... }] *)
Definition handled {S} (cfg : env) (m : M S response) : M S response :=
  try_catch m (fun e => ret (internal_error cfg e)).

(** The statuses the controllers answer with. *)
Definition statuses : list Z := [200; 201; 400; 404; 409; 500]%Z.

Definition known_status (r : response) : Prop := status r ∈ statuses.

#[global] Instance known_status_dec r : Decision (known_status r).
Proof. unfold known_status. apply _. Defined.

(** ** Lemmas *)

(** Lower-casing a second time changes nothing. *)
Lemma lower_char_idem c : lower_char (lower_char c) = lower_char c.
Proof. by destruct c as [[] [] [] [] [] [] [] []]. Qed.

Lemma lower_idem s : lower (lower s) = lower s.
Proof. induction s as [|c s IHs]; [done|]. simpl. by rewrite lower_char_idem, IHs. Qed.

Lemma lower_length s : String.length (lower s) = String.length s.
Proof. induction s as [|c s IHs]; [done|]. simpl. by rewrite IHs. Qed.

(** A string without the separator is one piece; a word, the separator
    and a string split into the word and the pieces of the string. *)
Lemma split_without sep s : without sep s = true -> split sep s = [s].
Proof.
  induction s as [|c s IHs]; [done|]. simpl.
  destruct (Ascii.eqb c sep); [done|]. simpl. by intros ->%IHs.
Qed.

Lemma split_app sep w s :
  without sep w = true ->
  split sep (w ++ String sep s) = w :: split sep s.
Proof.
  induction w as [|c w IHw]; simpl.
  - by rewrite Ascii.eqb_refl.
  - destruct (Ascii.eqb c sep); [done|]. simpl. by intros ->%IHw.
Qed.

Lemma without_app sep a b :
  without sep (a ++ b) = without sep a && without sep b.
Proof.
  induction a as [|c a IHa]; [done|]. simpl. by rewrite IHa, andb_assoc.
Qed.

Lemma env_or_set x fallback : truthy x = true -> Some (env_or x fallback) = x.
Proof.
  intros H. unfold env_or. rewrite js_or_truthy by done.
  by apply truthy_true in H as (s & -> & _).
Qed.

Lemma env_or_unset x fallback : truthy x = false -> env_or x fallback = fallback.
Proof. intros H. unfold env_or, js_or. by rewrite H. Qed.

(** A handler never throws: every failure of the store becomes a 500. *)
Lemma handled_total {S} cfg (m : M S response) s :
  exists r s', handled cfg m s = (Ok r, s').
Proof.
  unfold handled, try_catch, ret. destruct (m s) as [[r|e] s']; eauto.
Qed.

Lemma handled_ok {S} cfg (m : M S response) s r s' :
  m s = (Ok r, s') -> handled cfg m s = (Ok r, s').
Proof. unfold handled, try_catch. by intros ->. Qed.

Lemma handled_throw {S} cfg (m : M S response) s e s' :
  m s = (Throw e, s') -> handled cfg m s = (Ok (internal_error cfg e), s').
Proof. unfold handled, try_catch. by intros ->. Qed.

(** The status of a handled computation is that of its body, or 500. *)
Lemma handled_status {S} cfg (m : M S response) s r s' :
  handled cfg m s = (Ok r, s') ->
  m s = (Ok r, s') \/ (exists e, m s = (Throw e, s') /\ status r = 500%Z).
Proof.
  unfold handled, try_catch, ret. destruct (m s) as [[r0|e] s0]; intros [= <- <-];
    [by left | right; eauto].
Qed.

Lemma internal_error_status cfg e : status (internal_error cfg e) = 500%Z.
Proof. done. Qed.

(** ** Lemmas: what wrapping a handler body keeps *)

Lemma handled_is_total {S} cfg (m : M S response) : total (handled cfg m).
Proof. unfold handled. eauto with radius. Qed.

Lemma handled_answers {S} cfg (Q : response -> Prop) (m : M S response) :
  answers Q m -> (forall e, Q (internal_error cfg e)) -> answers Q (handled cfg m).
Proof.
  intros Hm He. apply answers_try_catch; [done|]. intros e. by apply answers_ret.
Qed.

Lemma handled_balanced cfg (m : M db response) : balanced m -> balanced (handled cfg m).
Proof. unfold handled. eauto with radius. Qed.

(** An invariant of the committed tables that the body keeps on both of
    its exit paths is kept by the handler. *)
Lemma handled_keeps cfg (P I : tables -> Prop) (m : M db response) :
  db_spec P m (fun _ => I) -> db_spec P (handled cfg m) (fun _ => I).
Proof.
  intros Hm. eapply db_spec_try_catch; [exact Hm | done |].
  intros e. by apply db_spec_ret.
Qed.

Lemma known_status_failure code message :
  code ∈ statuses -> known_status (failure code message).
Proof. done. Qed.

Lemma known_status_success code message data :
  code ∈ statuses -> known_status (success code message data).
Proof. done. Qed.

Lemma known_status_internal_error cfg e : known_status (internal_error cfg e).
Proof. by apply (bool_decide_unpack _). Qed.

#[export] Hint Resolve handled_is_total handled_answers handled_balanced
  known_status_internal_error : radius.

(** Outside development the envelope of a 500 carries no detail. *)
Lemma internal_error_opaque cfg e :
  development cfg = false ->
  internal_error cfg e = failure 500 "Internal server error".
Proof. intros H. unfold internal_error, failure. by rewrite H. Qed.
