(* ===== verification/UserRepo.v ===== *)
(** * The user repository ([models/UserModel.js])

    Module [UserModel] holds one definition per static method of the class,
    written in the monad of the store: the pool calls ([db.query]) are
    [query], the calls on a transaction's connection
    ([connection.execute]) are [execute] inside [transaction].  The SQL
    text of each method is the statement it passes, with the WHERE clause
    as a decidable predicate on rows.

    The theorems give the behaviour of every operation on a healthy store,
    atomicity and connection release under every fault plan, and the
    invariant [wf_user] with the operations that keep it. *)

From stdpp Require Import base option strings numbers list sorting.
From S2P Require Import Prelude Store.

Module UserModel.

(** ** Data *)

(** A row of the user queries: [{id, user, password, profile}]; [profile]
    is NULL when the user has no [Mikrotik-Group] reply row. *)
Record user : Type := User {
  u_id : Z;
  u_user : string;
  u_password : string;
  u_profile : option string
}.

#[global] Instance user_eq_dec : EqDecision user.
Proof. solve_decision. Defined.

(** The argument of [create]: [{user, password, profile}]. *)
Record userData : Type := UserData {
  ud_user : string;
  ud_password : string;
  ud_profile : option string
}.

(** The argument of [update]: [{password, profile}], both optional. *)
Record updateData : Type := UpdateData {
  up_password : option string;
  up_profile : option string
}.

(** ** WHERE clauses *)

(** [username = ? AND attribute = 'Cleartext-Password'] *)
Definition is_password_of (username : string) (r : attr_row) : Prop :=
  r_username r = username /\ r_attribute r = "Cleartext-Password".

(** [username = ? AND attribute = 'Mikrotik-Group'] *)
Definition is_profile_of (username : string) (r : attr_row) : Prop :=
  r_username r = username /\ r_attribute r = "Mikrotik-Group".

(** [id = ? AND attribute = 'Cleartext-Password'] *)
Definition is_password_id (id : Z) (r : attr_row) : Prop :=
  r_id r = id /\ r_attribute r = "Cleartext-Password".

(** [attribute = 'Cleartext-Password'] *)
Definition is_password (r : attr_row) : Prop :=
  r_attribute r = "Cleartext-Password".

(** [username = ?] *)
Definition is_of (username : string) (r : attr_row) : Prop :=
  r_username r = username.

(** [username = ? AND attribute = ?] *)
Definition is_attribute_of (username attribute : string) (r : attr_row) : Prop :=
  r_username r = username /\ r_attribute r = attribute.

#[global] Instance is_password_of_dec u r : Decision (is_password_of u r).
Proof. unfold is_password_of. apply _. Defined.
#[global] Instance is_profile_of_dec u r : Decision (is_profile_of u r).
Proof. unfold is_profile_of. apply _. Defined.
#[global] Instance is_password_id_dec i r : Decision (is_password_id i r).
Proof. unfold is_password_id. apply _. Defined.
#[global] Instance is_password_dec r : Decision (is_password r).
Proof. unfold is_password. apply _. Defined.
#[global] Instance is_of_dec u r : Decision (is_of u r).
Proof. unfold is_of. apply _. Defined.
#[global] Instance is_attribute_of_dec u a r : Decision (is_attribute_of u a r).
Proof. unfold is_attribute_of. apply _. Defined.

(** ** The user query *)

(** [SELECT rc.id as id, rc.username as user, rc.value as password,
            rr.value as profile
     FROM radcheck rc
     LEFT JOIN radreply rr
       ON rc.username = rr.username AND rr.attribute = 'Mikrotik-Group'
     WHERE P(rc) AND rc.attribute = 'Cleartext-Password'] *)
Definition select_users (P : attr_row -> Prop) `{!forall r, Decision (P r)}
    (ts : tables) : list user :=
  left_join
    (fun rc rr => is_profile_of (r_username rc) rr)
    (fun rc rr => User (r_id rc) (r_username rc) (r_value rc) (r_value <$> rr))
    (filter (fun rc => P rc /\ is_password rc) (rows (radcheck ts)))
    (rows (radreply ts)).

(** [ORDER BY rc.username] *)
Definition by_username (a b : user) : Prop :=
  String.leb (u_user a) (u_user b) = true.

#[global] Instance by_username_dec a b : Decision (by_username a b).
Proof. unfold by_username. apply _. Defined.

(** The name of a table as the attribute methods receive it. *)
Definition table_named (name : string) : option attr_table :=
  if String.eqb name "radcheck" then Some Radcheck
  else if String.eqb name "radreply" then Some Radreply
  else None.

(** ** Methods *)

Local Open Scope m_scope.

(** [static async getAll()] *)
Definition getAll : M db (list user) :=
  query (reading (fun ts =>
    merge_sort by_username (remove_dups (select_users (fun _ => True) ts)))).

(** [static async getByUsername(username)] *)
Definition getByUsername (username : string) : M db (option user) :=
  result <- query (reading (select_users (is_of username)));;
  ret (head result).

(** [static async getById(id)] *)
Definition getById (id : Z) : M db (option user) :=
  result <- query (reading (select_users (fun rc => r_id rc = id)));;
  ret (head result).

(** [static async create(userData)] *)
Definition create (data : userData) : M db user :=
  let user := ud_user data in
  let password := ud_password data in
  let profile := default "PPP" (ud_profile data) in
  transaction (
    userId <- execute (insert_attr Radcheck user "Cleartext-Password" ":=" password);;
    _ <- execute (insert_attr Radreply user "Mikrotik-Group" ":=" profile);;
    ret (User userId user password (Some profile))).

(** The two conditional blocks of [update] and [updateById]; each returns
    the new value of the local variable [updated]. *)

(** [if (password) { UPDATE radcheck SET value = ? WHERE P; ... }] *)
Definition update_password (P : attr_row -> Prop) `{!forall r, Decision (P r)}
    (password : option string) (updated : bool) : M conn bool :=
  if_truthy password
    (fun pw =>
       affectedRows <- execute (update_value Radcheck P pw);;
       ret (if bool_decide (0 < affectedRows)%nat then true else updated))
    (ret updated).

(** [if (profile) { SELECT id FROM radreply WHERE ...;
                    if (rows.length > 0) UPDATE ... else INSERT ... }] *)
Definition update_profile (username : string) (profile : option string)
    (updated : bool) : M conn bool :=
  if_truthy profile
    (fun pr =>
       existsResult <- execute (reading (select_rows Radreply (is_profile_of username)));;
       if nonempty existsResult then
         affectedRows <- execute (update_value Radreply (is_profile_of username) pr);;
         ret (if bool_decide (0 < affectedRows)%nat then true else updated)
       else
         _ <- execute (insert_attr Radreply username "Mikrotik-Group" ":=" pr);;
         ret true)
    (ret updated).

(** [static async update(username, userData)] *)
Definition update (username : string) (data : updateData) : M db (option user) :=
  transaction (
    updated <- update_password (is_password_of username) (up_password data) false;;
    updated <- update_profile username (up_profile data) updated;;
    if negb updated then ret None
    else on_pool (getByUsername username)).

(** [static async updateById(id, userData)] *)
Definition updateById (id : Z) (data : updateData) : M db (option user) :=
  transaction (
    userResult <- execute (reading (select_rows Radcheck (is_password_id id)));;
    match userResult with
    | [] => ret None
    | row :: _ =>
        let username := r_username row in
        updated <- update_password (is_password_id id) (up_password data) false;;
        updated <- update_profile username (up_profile data) updated;;
        if negb updated then ret None
        else on_pool (getById id)
    end).

(** [static async delete(username)] *)
Definition delete (username : string) : M db bool :=
  transaction (
    affectedRows <- execute (delete_rows Radcheck (is_of username));;
    _ <- execute (delete_rows Radreply (is_of username));;
    ret (bool_decide (0 < affectedRows)%nat)).

(** [static async exists(username)] *)
Definition exists_ (username : string) : M db bool :=
  result <- query (reading (select_rows Radcheck (is_password_of username)));;
  ret (nonempty result).

(** [static async getCount()]: [COUNT(DISTINCT username)] *)
Definition getCount : M db nat :=
  query (reading (fun ts =>
    length (remove_dups (r_username <$> select_rows Radcheck is_password ts)))).

(** [static async search(searchTerm)] *)
Definition search (searchTerm : string) : M db (list user) :=
  query (reading (fun ts =>
    merge_sort by_username
      (remove_dups
         (select_users
            (fun rc => like (search_pattern searchTerm) (r_username rc) = true) ts)))).

(** [static async authenticate(username, password)] *)
Definition authenticate (username password : string) : M db (option user) :=
  found <- getByUsername username;;
  match found with
  | None => ret None
  | Some u => if String.eqb (u_password u) password then ret (Some u) else ret None
  end.

(** The projection [SELECT attribute, op, value]. *)
Definition attribute_of (r : attr_row) : string * string * string :=
  (r_attribute r, r_op r, r_value r).

(** [static async getUserAttributes(username)] *)
Definition getUserAttributes (username : string) : M db (list (string * string * string)) :=
  query (reading (fun ts => attribute_of <$> select_rows Radcheck (is_of username) ts)).

(** [static async getUserReplyAttributes(username)] *)
Definition getUserReplyAttributes (username : string)
    : M db (list (string * string * string)) :=
  query (reading (fun ts => attribute_of <$> select_rows Radreply (is_of username) ts)).

(** [static async addAttribute(username, attribute, op, value, table)]: the
    table name is spliced into the statement; a name that is not a table
    of attributes makes the statement fail. *)
Definition addAttribute (username : string) (attribute op value : option string)
    (table : option string) : M db Z :=
  attribute <- bound attribute;;
  op <- bound op;;
  value <- bound value;;
  match table_named (default "radcheck" table) with
  | Some t => query (insert_attr t username attribute op value)
  | None => rejected
  end.

(** [static async removeAttribute(username, attribute, table)] *)
Definition removeAttribute (username : string) (attribute : option string)
    (table : option string) : M db bool :=
  attribute <- bound attribute;;
  match table_named (default "radcheck" table) with
  | Some t =>
      affectedRows <- query (delete_rows t (is_attribute_of username attribute));;
      ret (bool_decide (0 < affectedRows)%nat)
  | None => rejected
  end.

(** ** Views used by the statements of the theorems *)

(** The password rows and the profile rows of a user. *)
Definition password_rows (username : string) (ts : tables) : list attr_row :=
  select_rows Radcheck (is_password_of username) ts.

Definition profile_rows (username : string) (ts : tables) : list attr_row :=
  select_rows Radreply (is_profile_of username) ts.

(** What [getByUsername] answers on given tables. *)
Definition find_user (username : string) (ts : tables) : option user :=
  head (select_users (is_of username) ts).

(** The user invariant: at most one password row and at most one profile
    row under a name. *)
Definition wf_user (username : string) (ts : tables) : Prop :=
  (length (password_rows username ts) <= 1)%nat /\
  (length (profile_rows username ts) <= 1)%nat.

#[global] Instance wf_user_dec u ts : Decision (wf_user u ts).
Proof. unfold wf_user. apply _. Defined.

(** The identity invariant of a name: at most one password row, at most one
    profile row, and no profile row without a password row. *)
Definition identity (username : string) (ts : tables) : Prop :=
  wf_user username ts /\
  (password_rows username ts = [] -> profile_rows username ts = []).

Definition identities (ts : tables) : Prop := forall username, identity username ts.

#[global] Instance identity_dec u ts : Decision (identity u ts).
Proof. unfold identity. apply _. Defined.

(** The tables a [create] that returns leaves. *)
Definition created (data : userData) (ts : tables) : tables :=
  (insert_attr Radreply (ud_user data) "Mikrotik-Group" ":="
     (default "PPP" (ud_profile data))
     (insert_attr Radcheck (ud_user data) "Cleartext-Password" ":="
        (ud_password data) ts).2).2.

(** Two stores for the examples: user [alice1] with her profile row, and
    the same user with the profile row missing. *)
Definition alice_db : db :=
  Db (Tables (Table [AttrRow 1 "alice1" "Cleartext-Password" ":=" "secret1"] 2)
             (Table [AttrRow 1 "alice1" "Mikrotik-Group" ":=" "PPP"] 2)
             (Table [] 1)) [] 0.

Definition alice_unprofiled_db : db :=
  Db (Tables (Table [AttrRow 1 "alice1" "Cleartext-Password" ":=" "secret1"] 2)
             (Table [] 1)
             (Table [] 1)) [] 0.

(** The tables the password block and the profile block of [update] leave
    when their statements go through. *)
Definition set_password (username : string) (password : option string)
    (ts : tables) : tables :=
  if_truthy password
    (fun pw => (update_value Radcheck (is_password_of username) pw ts).2) ts.

Definition set_profile (username : string) (profile : option string)
    (ts : tables) : tables :=
  if_truthy profile
    (fun pr =>
       if nonempty (profile_rows username ts)
       then (update_value Radreply (is_profile_of username) pr ts).2
       else (insert_attr Radreply username "Mikrotik-Group" ":=" pr ts).2)
    ts.

(** The tables an [update] that returns leaves, and whether it found
    something to change (the final value of [updated]). *)
Definition updated (username : string) (data : updateData) (ts : tables) : tables :=
  set_profile username (up_profile data) (set_password username (up_password data) ts).

Definition changes (username : string) (data : updateData) (ts : tables) : bool :=
  truthy (up_profile data)
  || (truthy (up_password data) && nonempty (password_rows username ts)).

(** The tables a [delete] that returns leaves. *)
Definition deleted (username : string) (ts : tables) : tables :=
  (delete_rows Radreply (is_of username)
     (delete_rows Radcheck (is_of username) ts).2).2.

(** ** Lemmas: the user query *)

Lemma password_rows_username u ts r : r ∈ password_rows u ts -> r_username r = u.
Proof.
  unfold password_rows, select_rows. rewrite list_elem_of_filter. by intros [[? _] _].
Qed.

(** The rows the user query builds for one name: every password row of the
    name, with each profile row of the name or with NULL. *)
Lemma select_users_of u ts :
  select_users (is_of u) ts =
  password_rows u ts ≫= (fun rc =>
    match profile_rows u ts with
    | [] => [User (r_id rc) (r_username rc) (r_value rc) None]
    | bs => (fun rr => User (r_id rc) (r_username rc) (r_value rc) (Some (r_value rr))) <$> bs
    end).
Proof.
  unfold select_users, left_join.
  apply Forall_bind_ext, Forall_forall. intros rc Hrc.
  apply list_elem_of_filter in Hrc as [[Hu _] _]. unfold is_of in Hu.
  unfold profile_rows, select_rows; simpl. by rewrite Hu.
Qed.

(** What [getByUsername] finds: the first password row of the name, with
    the value of the first profile row of the name. *)
Lemma find_user_spec u ts :
  find_user u ts =
  (fun rc => User (r_id rc) u (r_value rc) (r_value <$> head (profile_rows u ts)))
    <$> head (password_rows u ts).
Proof.
  unfold find_user. rewrite select_users_of.
  destruct (password_rows u ts) as [|rc l] eqn:E; [done|].
  assert (r_username rc = u) as Hu.
  { apply (password_rows_username u ts). rewrite E. left. }
  simpl. destruct (profile_rows u ts) as [|rr l']; simpl; by rewrite Hu.
Qed.

Lemma getByUsername_healthy u d :
  healthy d -> getByUsername u d = (Ok (find_user u (committed d)), d).
Proof.
  intros H. unfold getByUsername, bind. by rewrite query_reading_healthy.
Qed.

(** Whatever the store does, [getByUsername] answers from the committed
    tables and leaves them alone. *)
Lemma getByUsername_spec u d r d' :
  getByUsername u d = (r, d') ->
  committed d' = committed d /\ in_use d' = in_use d /\
  forall x, r = Ok x -> x = find_user u (committed d).
Proof.
  unfold getByUsername, bind.
  destruct (query _ d) as [[l|e] d1] eqn:Hq; apply query_spec in Hq as [Hn Hq].
  - unfold reading in Hq. injection Hq as -> Hc. intros [= <- <-].
    repeat split; try done. by intros x [= <-].
  - intros [= <- <-]. by repeat split.
Qed.

(** ** Lemmas: what the bodies do to the pool *)

Lemma getByUsername_steady u : db_steady (getByUsername u).
Proof. unfold getByUsername. eauto with radius. Qed.

Lemma getById_steady i : db_steady (getById i).
Proof. unfold getById. eauto with radius. Qed.

Lemma update_password_steady P `{!forall r, Decision (P r)} pw b :
  pool_steady (update_password P pw b).
Proof. unfold update_password. eauto 10 with radius. Qed.

Lemma update_profile_steady u pr b : pool_steady (update_profile u pr b).
Proof. unfold update_profile. eauto 10 with radius. Qed.

#[global] Hint Resolve getByUsername_steady getById_steady
  update_password_steady update_profile_steady : radius.

(** ** Lemmas: create *)

Lemma create_healthy data d :
  healthy d ->
  create data d =
  (Ok (User (next_id (radcheck (committed d))) (ud_user data) (ud_password data)
            (Some (default "PPP" (ud_profile data)))),
   set_committed (created data (committed d)) d).
Proof.
  intros H. unfold create.
  erewrite transaction_healthy; [|done|by run_healthy|done..].
  unfold set_committed, created. by rewrite H.
Qed.

Lemma password_rows_created u data ts :
  password_rows u (created data ts) =
  password_rows u ts ++
  (if decide (ud_user data = u)
   then [AttrRow (next_id (radcheck ts)) (ud_user data) "Cleartext-Password" ":="
           (ud_password data)]
   else []).
Proof.
  unfold password_rows, created. rewrite !select_insert_attr.
  rewrite (decide_False (P := Radcheck = Radreply /\ _)) by (by intros [? _]).
  rewrite app_nil_r. f_equal. unfold is_password_of; simpl.
  repeat case_decide; try done; intuition congruence.
Qed.

Lemma profile_rows_created u data ts :
  profile_rows u (created data ts) =
  profile_rows u ts ++
  (if decide (ud_user data = u)
   then [AttrRow (next_id (radreply ts)) (ud_user data) "Mikrotik-Group" ":="
           (default "PPP" (ud_profile data))]
   else []).
Proof.
  unfold profile_rows, created. rewrite !select_insert_attr.
  rewrite (decide_False (P := Radreply = Radcheck /\ _)) by (by intros [? _]).
  rewrite get_table_insert_attr_ne, app_nil_r by done.
  f_equal. unfold is_profile_of; simpl.
  repeat case_decide; try done; intuition congruence.
Qed.

(** Create, then read: on a healthy store, creating a user whose name
    has no password row and no profile row returns the record
    [{id, user, password, profile}] with the id of the new password row and
    the profile defaulted to ["PPP"], and [getByUsername] then returns
    exactly that record. *)
Theorem user_create_get u p pr d :
  healthy d ->
  password_rows u (committed d) = [] ->
  profile_rows u (committed d) = [] ->
  exists d',
    create (UserData u p pr) d =
      (Ok (User (next_id (radcheck (committed d))) u p (Some (default "PPP" pr))), d') /\
    getByUsername u d' =
      (Ok (Some (User (next_id (radcheck (committed d))) u p (Some (default "PPP" pr)))), d').
Proof.
  intros H Hp Hr. eexists. split; [by apply create_healthy|].
  rewrite getByUsername_healthy by done. f_equal. f_equal. simpl.
  rewrite find_user_spec, password_rows_created, profile_rows_created, Hp, Hr.
  simpl. by rewrite !decide_True.
Qed.

Lemma user_create_get_witness :
  exists d',
    create (UserData "alice1" "secret1" None) (Db empty_tables [] 0) =
      (Ok (User 1 "alice1" "secret1" (Some "PPP")), d') /\
    getByUsername "alice1" d' =
      (Ok (Some (User 1 "alice1" "secret1" (Some "PPP"))), d').
Proof.
  exact (user_create_get "alice1" "secret1" None (Db empty_tables [] 0)
           eq_refl eq_refl eq_refl).
Defined.

(** C7. Atomicity of create: under every fault plan, a [create] that throws
    leaves the rows of every table as they were; no password row without
    its profile row is ever committed. *)
Theorem user_create_atomic data d e d' :
  create data d = (Throw e, d') -> same_rows (committed d') (committed d).
Proof. apply transaction_atomic. eauto 10 with radius. Qed.

Lemma user_create_atomic_witness :
  same_rows
    (committed (create (UserData "alice1" "secret1" None)
                  (Db empty_tables [false; false; true] 0)).2)
    empty_tables.
Proof.
  exact (user_create_atomic (UserData "alice1" "secret1" None)
           (Db empty_tables [false; false; true] 0) StoreFailure _ eq_refl).
Defined.

(** ** Lemmas: update *)

Lemma update_password_healthy u pw b c :
  healthy (pool c) ->
  update_password (is_password_of u) pw b c =
  (Ok (if truthy pw && nonempty (password_rows u (work c)) then true else b),
   Conn (set_password u pw (work c)) (pool c)).
Proof.
  intros H. unfold update_password, set_password.
  destruct (truthy_cases pw) as [(s & -> & Hs & ->)|Hf].
  - rewrite !if_truthy_yes by done. run_healthy.
    by rewrite update_value_affected, bool_decide_length_pos.
  - rewrite !if_truthy_no, Hf by done. by destruct c.
Qed.

Lemma update_profile_healthy u pr b c :
  healthy (pool c) ->
  update_profile u pr b c =
  (Ok (truthy pr || b), Conn (set_profile u pr (work c)) (pool c)).
Proof.
  intros H. unfold update_profile, set_profile.
  destruct (truthy_cases pr) as [(s & -> & Hs & ->)|Hf].
  - rewrite !if_truthy_yes by done. run_healthy. unfold reading; simpl.
    fold (profile_rows u (work c)).
    destruct (nonempty (profile_rows u (work c))) eqn:E; run_healthy; [|done].
    rewrite update_value_affected. fold (profile_rows u (work c)).
    by rewrite bool_decide_length_pos, E.
  - rewrite !if_truthy_no, Hf by done. by destruct c.
Qed.

(** The last statement of [update]: nothing, or a read through the pool. *)
Lemma update_answer_healthy u (b : bool) c :
  healthy (pool c) ->
  (if negb b then ret None else on_pool (getByUsername u)) c =
  (Ok (if b then find_user u (committed (pool c)) else None), c).
Proof.
  intros H. destruct b; simpl; [|done].
  unfold on_pool. rewrite getByUsername_healthy by done. by destruct c.
Qed.

(** On a healthy store [update] commits the two blocks and answers with
    what the pool saw: the tables as they were before the transaction. *)
Lemma update_healthy u data d :
  healthy d ->
  update u data d =
  (Ok (if changes u data (committed d) then find_user u (committed d) else None),
   set_committed (updated u data (committed d)) d).
Proof.
  intros H. unfold update.
  erewrite transaction_healthy;
    [|done
     |unfold bind; rewrite update_password_healthy by done; store_cbn;
      rewrite update_profile_healthy by done; store_cbn;
      by rewrite update_answer_healthy
     |done..].
  unfold set_committed, updated, changes; simpl. rewrite H.
  by destruct (truthy (up_password data) && _).
Qed.

(** The rows of a user after each block. *)
Lemma password_rows_set_password u' u pw ts :
  password_rows u' (set_password u pw ts) =
  if_truthy pw
    (fun s => (fun r => if decide (is_password_of u r) then set_value s r else r)
                <$> password_rows u' ts)
    (password_rows u' ts).
Proof.
  unfold set_password. destruct (truthy_cases pw) as [(s & -> & Hs & _)|Hf].
  - rewrite !if_truthy_yes by done. by apply select_update_value.
  - by rewrite !if_truthy_no.
Qed.

Lemma profile_rows_set_password u' u pw ts :
  profile_rows u' (set_password u pw ts) = profile_rows u' ts.
Proof.
  unfold set_password, if_truthy. destruct pw as [s|]; [|done].
  case_match; [done|]. by apply select_update_value_other.
Qed.

Lemma password_rows_set_profile u' u pr ts :
  password_rows u' (set_profile u pr ts) = password_rows u' ts.
Proof.
  unfold set_profile, if_truthy, password_rows. destruct pr as [s|]; [|done].
  by repeat case_match.
Qed.

Lemma profile_rows_set_profile u' u pr ts :
  profile_rows u' (set_profile u pr ts) =
  if_truthy pr
    (fun s =>
       if nonempty (profile_rows u ts)
       then (fun r => if decide (is_profile_of u r) then set_value s r else r)
              <$> profile_rows u' ts
       else profile_rows u' ts ++
            (if decide (u = u')
             then [AttrRow (next_id (radreply ts)) u "Mikrotik-Group" ":=" s]
             else []))
    (profile_rows u' ts).
Proof.
  unfold set_profile. destruct (truthy_cases pr) as [(s & -> & Hs & _)|Hf].
  - rewrite !if_truthy_yes by done. case_match.
    + by apply select_update_value.
    + unfold profile_rows. rewrite select_insert_attr. f_equal.
      unfold is_profile_of; simpl. repeat case_decide; try done; intuition congruence.
  - by rewrite !if_truthy_no.
Qed.

(** Neither block adds or removes a password row; the profile block adds a
    profile row only to a user that has none. *)
Lemma password_rows_updated_length u' u data ts :
  length (password_rows u' (updated u data ts)) = length (password_rows u' ts).
Proof.
  unfold updated. rewrite password_rows_set_profile, password_rows_set_password.
  unfold if_truthy. repeat case_match; by rewrite ?length_fmap.
Qed.

Lemma profile_rows_updated_length u' u data ts :
  (length (profile_rows u' ts) <= 1)%nat ->
  (length (profile_rows u' (updated u data ts)) <= 1)%nat.
Proof.
  unfold updated. rewrite profile_rows_set_profile, !profile_rows_set_password.
  unfold if_truthy. repeat case_match; rewrite ?length_fmap, ?length_app; subst;
    simpl; try lia.
  match goal with H : nonempty _ = false |- _ => apply nonempty_false in H as -> end.
  simpl. lia.
Qed.

(** The two blocks as triples: whenever they return, whatever the store
    did in between, the working copy is the one the block computes. *)
Lemma update_password_spec base u pw b ts0 :
  tx_spec base (eq ts0) (update_password (is_password_of u) pw b)
    (fun b' ts => ts = set_password u pw ts0 /\
       b' = if truthy pw && nonempty (password_rows u ts0) then true else b).
Proof.
  unfold update_password, set_password. apply tx_spec_if_truthy.
  - intros s -> Hs. rewrite if_truthy_yes by done.
    apply tx_spec_bind with
      (R := fun n ts => ts = (update_value Radcheck (is_password_of u) s ts0).2 /\
                        n = length (password_rows u ts0)).
    + apply tx_spec_execute. by intros ts <-.
    + intros n. apply tx_spec_ret. intros ts [-> ->]. split; [done|].
      by rewrite bool_decide_length_pos, (proj2 (truthy_Some s)).
  - intros Hf. rewrite if_truthy_no by done. apply tx_spec_ret.
    intros ts <-. by rewrite Hf.
Qed.

Lemma update_profile_spec base u pr b ts0 :
  tx_spec base (eq ts0) (update_profile u pr b)
    (fun b' ts => ts = set_profile u pr ts0 /\ b' = truthy pr || b).
Proof.
  unfold update_profile, set_profile. apply tx_spec_if_truthy.
  - intros s -> Hs. rewrite if_truthy_yes, (proj2 (truthy_Some s)) by done.
    apply tx_spec_bind with (R := fun l ts => ts = ts0 /\ l = profile_rows u ts0).
    { apply tx_spec_execute. by intros ts <-. }
    intros l. apply tx_spec_if; intros E.
    + apply tx_spec_bind with
        (R := fun n ts =>
           ts = (update_value Radreply (is_profile_of u) s ts0).2 /\ n = length l
           /\ l = profile_rows u ts0).
      * apply tx_spec_execute. by intros ts [<- ->].
      * intros n. apply tx_spec_ret. intros ts (-> & -> & <-). rewrite E.
        by rewrite bool_decide_length_pos, E.
    + apply tx_spec_bind with
        (R := fun (_ : Z) ts =>
           ts = (insert_attr Radreply u "Mikrotik-Group" ":=" s ts0).2
           /\ l = profile_rows u ts0).
      * apply tx_spec_execute. by intros ts [<- ->].
      * intros n. apply tx_spec_ret. intros ts (-> & <-). by rewrite E.
  - intros Hf. rewrite if_truthy_no by done. apply tx_spec_ret.
    intros ts <-. by rewrite Hf.
Qed.

(** Whenever [update] returns it has committed both blocks, and its answer
    was read through the pool. *)
Lemma update_returns u data d r d' :
  update u data d = (Ok r, d') ->
  committed d' = updated u data (committed d) /\
  r = if changes u data (committed d) then find_user u (committed d) else None.
Proof.
  apply (transaction_spec (eq (committed d))
    (fun r ts => ts = updated u data (committed d) /\
       r = if changes u data (committed d) then find_user u (committed d) else None));
    [|done].
  eapply tx_spec_bind; [apply update_password_spec|]. intros b1.
  apply tx_spec_exact_pre. intros ->.
  eapply tx_spec_bind; [apply update_profile_spec|]. intros b2.
  apply tx_spec_exact_pre. intros ->.
  unfold changes. apply tx_spec_if; intros E.
  - apply tx_spec_ret. intros ts <-. split; [done|].
    apply negb_true_iff in E. by destruct (truthy (up_password data) && _); rewrite E.
  - apply tx_spec_on_pool. intros d0 a d0' Hc Hq.
    apply getByUsername_spec in Hq as (Hc' & _ & Hr). split; [congruence|].
    intros ts <-. split; [done|]. apply negb_false_iff in E.
    rewrite (Hr _ eq_refl), Hc.
    by destruct (truthy (up_password data) && _); rewrite E.
Qed.

(** C10. The reconciliation step heals a missing profile: on a healthy
    store, for a user that exists and has no [Mikrotik-Group] row,
    [update(username, {profile})] returns and a later [getByUsername]
    answers the user's record with the new profile. *)
Theorem user_update_heals_profile u pr rc l d :
  healthy d -> pr <> "" ->
  password_rows u (committed d) = rc :: l ->
  profile_rows u (committed d) = [] ->
  exists r d',
    update u (UpdateData None (Some pr)) d = (Ok r, d') /\
    getByUsername u d' = (Ok (Some (User (r_id rc) u (r_value rc) (Some pr))), d').
Proof.
  intros H Hpr Hp Hr. eexists _, _. split; [by apply update_healthy|].
  rewrite getByUsername_healthy by done. do 2 f_equal. simpl.
  rewrite find_user_spec. unfold updated. cbn [up_profile up_password].
  rewrite profile_rows_set_profile, password_rows_set_profile.
  rewrite !profile_rows_set_password, password_rows_set_password.
  rewrite if_truthy_yes, Hr by done. cbn [if_truthy]. rewrite Hp.
  simpl. by rewrite decide_True.
Qed.

Lemma user_update_heals_profile_witness :
  exists r d',
    update "alice1" (UpdateData None (Some "VIP")) alice_unprofiled_db = (Ok r, d') /\
    getByUsername "alice1" d' = (Ok (Some (User 1 "alice1" "secret1" (Some "VIP"))), d').
Proof.
  apply (user_update_heals_profile "alice1" "VIP"
           (AttrRow 1 "alice1" "Cleartext-Password" ":=" "secret1") []
           alice_unprofiled_db); done.
Defined.

(** An update with nothing to do: on a healthy store, [update] with no
    password and no profile (absent or empty) answers [null] and leaves the
    store exactly as it was. *)
Theorem user_update_noop u pw pr d :
  healthy d -> truthy pw = false -> truthy pr = false ->
  update u (UpdateData pw pr) d = (Ok None, d).
Proof.
  intros H Hpw Hpr. rewrite update_healthy by done.
  unfold changes, updated, set_profile, set_password. cbn [up_profile up_password].
  rewrite Hpw, Hpr, !if_truthy_no by done. by destruct d.
Qed.

Lemma user_update_noop_witness :
  update "alice1" (UpdateData None (Some "")) alice_db = (Ok None, alice_db).
Proof. apply (user_update_noop "alice1" None (Some "") alice_db); done. Defined.

(** A password update rewrites the password row in place: on a healthy
    store, for a user with one password row, [update(username, {password})]
    leaves that one row with the new value, and the record then read has
    the new password and the profile it had. *)
Theorem user_update_password u pw rc d :
  healthy d -> pw <> "" ->
  password_rows u (committed d) = [rc] ->
  exists r d',
    update u (UpdateData (Some pw) None) d = (Ok r, d') /\
    password_rows u (committed d') = [set_value pw rc] /\
    getByUsername u d' =
      (Ok (Some (User (r_id rc) u pw (r_value <$> head (profile_rows u (committed d))))),
       d').
Proof.
  intros H Hpw Hp. eexists _, _. split; [by apply update_healthy|].
  assert (is_password_of u rc) as Hrc.
  { pose proof (list_elem_of_here rc []) as Hin. rewrite <- Hp in Hin.
    unfold password_rows, select_rows in Hin.
    by apply list_elem_of_filter in Hin as [? _]. }
  assert (password_rows u (updated u (UpdateData (Some pw) None) (committed d))
          = [set_value pw rc]) as E.
  { unfold updated. rewrite password_rows_set_profile, password_rows_set_password.
    cbn [up_password]. rewrite if_truthy_yes, Hp by done. simpl.
    by rewrite decide_True. }
  split; [done|].
  rewrite getByUsername_healthy by done. do 2 f_equal. cbn [committed set_committed].
  rewrite find_user_spec, E. unfold updated. cbn [up_profile up_password].
  by rewrite profile_rows_set_profile, profile_rows_set_password.
Qed.

Lemma user_update_password_witness :
  exists r d',
    update "alice1" (UpdateData (Some "hunter22") None) alice_db = (Ok r, d') /\
    password_rows "alice1" (committed d') =
      [AttrRow 1 "alice1" "Cleartext-Password" ":=" "hunter22"] /\
    getByUsername "alice1" d' =
      (Ok (Some (User 1 "alice1" "hunter22" (Some "PPP"))), d').
Proof.
  apply (user_update_password "alice1" "hunter22"
           (AttrRow 1 "alice1" "Cleartext-Password" ":=" "secret1") alice_db); done.
Defined.

Lemma update_steady u data :
  pool_steady
    (bind (update_password (is_password_of u) (up_password data) false) (fun b1 =>
     bind (update_profile u (up_profile data) b1) (fun b2 =>
     if negb b2 then ret None else on_pool (getByUsername u)))).
Proof. eauto 10 with radius. Qed.

#[global] Instance password_rows_proper u : Proper (same_rows ==> eq) (password_rows u).
Proof. unfold password_rows. apply _. Qed.

#[global] Instance profile_rows_proper u : Proper (same_rows ==> eq) (profile_rows u).
Proof. unfold profile_rows. apply _. Qed.

#[global] Instance wf_user_proper u : Proper (same_rows ==> iff) (wf_user u).
Proof. intros a b H. unfold wf_user. by rewrite H. Qed.

Lemma update_throws u data d e d' :
  update u data d = (Throw e, d') -> same_rows (committed d') (committed d).
Proof. apply transaction_atomic, update_steady. Qed.

(** C8. Atomicity of update: under every fault plan, whatever [update]
    answers, the committed rows are those it started from or those of both
    blocks together: the password is never committed without the profile. *)
Theorem user_update_atomic u data d r d' :
  update u data d = (r, d') ->
  match r with
  | Ok _ => committed d' = updated u data (committed d)
  | Throw _ => same_rows (committed d') (committed d)
  end.
Proof.
  destruct r; intros E; [by apply update_returns in E as [? _] | by eapply update_throws].
Qed.

Lemma user_update_atomic_witness :
  same_rows
    (committed (update "alice1" (UpdateData (Some "hunter22") (Some "VIP"))
                  (Db (committed alice_db) [false; false; false; true] 0)).2)
    (committed alice_db).
Proof.
  exact (user_update_atomic "alice1" (UpdateData (Some "hunter22") (Some "VIP"))
           (Db (committed alice_db) [false; false; false; true] 0)
           (Throw StoreFailure) _ eq_refl).
Defined.

(** C11. The user invariant across update: under every fault plan and for
    every outcome, [update] never adds or removes a password row (it never
    inserts a second password), and a user that had at most one profile
    row still has at most one. *)
Theorem user_update_keeps_wf u u' data d r d' :
  update u data d = (r, d') ->
  length (password_rows u' (committed d')) = length (password_rows u' (committed d)) /\
  (wf_user u' (committed d) -> wf_user u' (committed d')).
Proof.
  intros E. destruct r as [r|e].
  - apply update_returns in E as [-> _]. unfold wf_user.
    rewrite password_rows_updated_length.
    split; [done|]. intros [? ?]. split; [done|]. by apply profile_rows_updated_length.
  - apply update_throws in E. by rewrite E.
Qed.

Lemma user_update_keeps_wf_witness :
  length (password_rows "alice1"
    (committed (update "alice1" (UpdateData (Some "hunter22") (Some "VIP"))
                  alice_unprofiled_db).2)) =
  length (password_rows "alice1" (committed alice_unprofiled_db)) /\
  (wf_user "alice1" (committed alice_unprofiled_db) ->
   wf_user "alice1"
     (committed (update "alice1" (UpdateData (Some "hunter22") (Some "VIP"))
                   alice_unprofiled_db).2)).
Proof.
  exact (user_update_keeps_wf "alice1" "alice1"
           (UpdateData (Some "hunter22") (Some "VIP")) alice_unprofiled_db _ _ eq_refl).
Defined.

(** C9. What [update] answers, under every fault plan: when it returns, its
    answer is [null] when nothing matched, and otherwise the record as the
    pool sees it, that is, as it was committed before the transaction: the
    re-read goes through the pool while the transaction is still open, so
    the answer does not show the values just written, which the committed
    tables hold. *)
Theorem user_update_returns u data d r d' :
  update u data d = (Ok r, d') ->
  committed d' = updated u data (committed d) /\
  r = if changes u data (committed d) then find_user u (committed d) else None.
Proof. apply update_returns. Qed.

Lemma user_update_returns_witness :
  committed (set_committed (updated "alice1" (UpdateData None (Some "VIP"))
                              (committed alice_db)) alice_db) =
    updated "alice1" (UpdateData None (Some "VIP")) (committed alice_db) /\
  Some (User 1 "alice1" "secret1" (Some "PPP")) =
    if changes "alice1" (UpdateData None (Some "VIP")) (committed alice_db)
    then find_user "alice1" (committed alice_db) else None.
Proof.
  apply (user_update_returns "alice1" (UpdateData None (Some "VIP")) alice_db).
  vm_compute. reflexivity.
Defined.

(** ** Lemmas: delete *)

Lemma delete_healthy u d :
  healthy d ->
  delete u d =
  (Ok (nonempty (select_rows Radcheck (is_of u) (committed d))),
   set_committed (deleted u (committed d)) d).
Proof.
  intros H. unfold delete.
  erewrite transaction_healthy; [|done|by run_healthy|done..].
  unfold set_committed, deleted.
  by rewrite H, delete_rows_affected, bool_decide_length_pos.
Qed.

Lemma delete_throws u d e d' :
  delete u d = (Throw e, d') -> same_rows (committed d') (committed d).
Proof. apply transaction_atomic. eauto 10 with radius. Qed.

(** No row of the user is left in either table. *)
Lemma rows_of_deleted t u ts : select_rows t (is_of u) (deleted u ts) = [].
Proof.
  unfold deleted. destruct t.
  - rewrite select_delete_rows, decide_False, select_delete_rows, decide_True by done.
    apply filter_none. by intros r _ [? ?].
  - rewrite select_delete_rows, decide_True by done.
    apply filter_none. by intros r _ [? ?].
Qed.

Lemma password_rows_deleted u ts : password_rows u (deleted u ts) = [].
Proof.
  pose proof (rows_of_deleted Radcheck u ts) as E.
  apply filter_nil_iff in E. apply filter_none. intros r Hr [? _].
  rewrite Forall_forall in E. by apply (E r).
Qed.

Lemma deleted_idem u ts : deleted u (deleted u ts) = deleted u ts.
Proof.
  unfold deleted at 1.
  rewrite (delete_rows_none Radcheck) by apply rows_of_deleted.
  by rewrite (delete_rows_none Radreply) by apply rows_of_deleted.
Qed.

(** C12. Delete, then look again: on a healthy store [delete] reports
    whether a check row of the name was removed (a missing profile does not
    matter); afterwards [exists] answers false and a second [delete]
    reports that nothing was found, leaving the store as it is. *)
Theorem user_delete_removes u d :
  healthy d ->
  exists d',
    delete u d = (Ok (nonempty (select_rows Radcheck (is_of u) (committed d))), d') /\
    exists_ u d' = (Ok false, d') /\
    delete u d' = (Ok false, d').
Proof.
  intros H. eexists. split; [by apply delete_healthy|]. split.
  - unfold exists_, bind. rewrite query_reading_healthy by done. simpl.
    fold (password_rows u (deleted u (committed d))).
    by rewrite password_rows_deleted.
  - rewrite delete_healthy by done. simpl.
    by rewrite rows_of_deleted, deleted_idem.
Qed.

Lemma user_delete_removes_witness :
  exists d',
    delete "alice1" alice_unprofiled_db = (Ok true, d') /\
    exists_ "alice1" d' = (Ok false, d') /\
    delete "alice1" d' = (Ok false, d').
Proof. exact (user_delete_removes "alice1" alice_unprofiled_db eq_refl). Defined.

(** C13. Atomicity of delete: under every fault plan, a [delete] that throws
    leaves the rows of every table as they were: the check rows are never
    removed without the reply rows. *)
Theorem user_delete_atomic u d e d' :
  delete u d = (Throw e, d') -> same_rows (committed d') (committed d).
Proof. apply delete_throws. Qed.

Lemma user_delete_atomic_witness :
  same_rows
    (committed (delete "alice1" (Db (committed alice_db) [false; false; true] 0)).2)
    (committed alice_db).
Proof.
  exact (user_delete_atomic "alice1" (Db (committed alice_db) [false; false; true] 0)
           StoreFailure _ eq_refl).
Defined.

(** ** Lemmas: exists, authenticate *)

Lemma exists_healthy u d :
  healthy d -> exists_ u d = (Ok (nonempty (password_rows u (committed d))), d).
Proof. intros H. unfold exists_, bind. by rewrite query_reading_healthy. Qed.

(** A user exists if and only if a [Cleartext-Password] row carries
    the name: on a healthy store [exists] answers true exactly then,
    whatever the reply table holds, and changes nothing. *)
Theorem user_exists_iff u d :
  healthy d ->
  exists b, exists_ u d = (Ok b, d) /\
    (b = true <->
     exists r, r ∈ rows (radcheck (committed d)) /\
               r_username r = u /\ r_attribute r = "Cleartext-Password").
Proof.
  intros H. eexists. split; [by apply exists_healthy|].
  rewrite nonempty_length. unfold password_rows, select_rows; simpl. split.
  - intros Hl. destruct (filter _ _) as [|r l] eqn:E; [simpl in Hl; lia|].
    exists r. pose proof (list_elem_of_here r l) as Hin. rewrite <- E in Hin.
    apply list_elem_of_filter in Hin as [[? ?] ?]. done.
  - intros (r & Hin & Hu & Ha).
    assert (r ∈ filter (is_password_of u) (rows (radcheck (committed d)))) as Hf
      by by apply list_elem_of_filter.
    destruct (filter _ _); [by apply elem_of_nil in Hf | simpl; lia].
Qed.

Lemma user_exists_iff_witness :
  exists b, exists_ "alice1" alice_unprofiled_db = (Ok b, alice_unprofiled_db) /\
    (b = true <->
     exists r, r ∈ rows (radcheck (committed alice_unprofiled_db)) /\
               r_username r = "alice1" /\ r_attribute r = "Cleartext-Password").
Proof. exact (user_exists_iff "alice1" alice_unprofiled_db eq_refl). Defined.

(** Authentication compares the stored clear-text password: on a
    healthy store [authenticate] answers a record exactly when the user is
    found and the stored password is the one given, and then it is the
    record [getByUsername] finds. *)
Theorem user_authenticate_iff u p d x :
  healthy d ->
  authenticate u p d = (Ok (Some x), d) <->
  find_user u (committed d) = Some x /\ u_password x = p.
Proof.
  intros H. unfold authenticate, bind. rewrite getByUsername_healthy by done.
  destruct (find_user u (committed d)) as [y|]; simpl; [|by split; [|intros []]].
  destruct (String.eqb_spec (u_password y) p); split.
  - by intros [= ->].
  - by intros [[= ->] _].
  - done.
  - intros [[= ->] ?]. done.
Qed.

Lemma user_authenticate_iff_witness :
  authenticate "alice1" "secret1" alice_db =
    (Ok (Some (User 1 "alice1" "secret1" (Some "PPP"))), alice_db) <->
  find_user "alice1" (committed alice_db) = Some (User 1 "alice1" "secret1" (Some "PPP"))
  /\ u_password (User 1 "alice1" "secret1" (Some "PPP")) = "secret1".
Proof.
  exact (user_authenticate_iff "alice1" "secret1" alice_db
           (User 1 "alice1" "secret1" (Some "PPP")) eq_refl).
Defined.

(** ** Lemmas: the listing *)

#[global] Instance by_username_total : Total by_username.
Proof. intros a b. apply String.leb_total. Qed.

(** The listing is sorted and has no duplicates: on a healthy store
    [getAll] answers the rows of the user query, each once, in the order
    of their user names, and changes nothing. *)
Theorem user_getAll_sorted d :
  healthy d ->
  exists l, getAll d = (Ok l, d) /\
    Sorted by_username l /\ NoDup l /\
    forall x, x ∈ l <-> x ∈ select_users (fun _ => True) (committed d).
Proof.
  intros H. eexists. split; [by apply query_reading_healthy|].
  split; [apply Sorted_merge_sort, _|]. split.
  - rewrite merge_sort_Permutation. apply NoDup_remove_dups.
  - intros x. by rewrite merge_sort_Permutation, elem_of_remove_dups.
Qed.

Lemma user_getAll_sorted_witness :
  exists l, getAll alice_db = (Ok l, alice_db) /\
    Sorted by_username l /\ NoDup l /\
    forall x, x ∈ l <-> x ∈ select_users (fun _ => True) (committed alice_db).
Proof. exact (user_getAll_sorted alice_db eq_refl). Defined.

(** ** Lemmas: attributes *)

Lemma addAttribute_healthy u a o v table t d :
  healthy d -> table_named (default "radcheck" table) = Some t ->
  addAttribute u (Some a) (Some o) (Some v) table d =
  (Ok (next_id (get_table t (committed d))),
   set_committed (insert_attr t u a o v (committed d)).2 d).
Proof.
  intros H Ht. unfold addAttribute, bound. rewrite !bind_ret_l, Ht.
  by apply query_healthy.
Qed.

Lemma removeAttribute_healthy u a table t d :
  healthy d -> table_named (default "radcheck" table) = Some t ->
  removeAttribute u (Some a) table d =
  (Ok (nonempty (select_rows t (is_attribute_of u a) (committed d))),
   set_committed (delete_rows t (is_attribute_of u a) (committed d)).2 d).
Proof.
  intros H Ht. unfold removeAttribute, bound. rewrite bind_ret_l.
  unfold bind. rewrite Ht, query_healthy by done.
  by rewrite delete_rows_affected, bool_decide_length_pos.
Qed.

(** An attribute added is an attribute listed: on a healthy store
    [addAttribute] on the default table answers the id of the new check
    row, and [getUserAttributes] then lists what it listed before followed
    by the new [(attribute, op, value)]. *)
Theorem user_addAttribute_listed u a o v d :
  healthy d ->
  exists d' old,
    getUserAttributes u d = (Ok old, d) /\
    addAttribute u (Some a) (Some o) (Some v) None d =
      (Ok (next_id (radcheck (committed d))), d') /\
    getUserAttributes u d' = (Ok (old ++ [(a, o, v)]), d').
Proof.
  intros H. eexists _, _. split; [by apply query_reading_healthy|].
  split; [by apply (addAttribute_healthy _ _ _ _ None Radcheck)|].
  unfold getUserAttributes. rewrite query_reading_healthy by done. store_cbn.
  rewrite select_insert_attr, fmap_app, decide_True by done. done.
Qed.

Lemma user_addAttribute_listed_witness :
  exists d' old,
    getUserAttributes "alice1" alice_db = (Ok old, alice_db) /\
    addAttribute "alice1" (Some "Simultaneous-Use") (Some ":=") (Some "1") None alice_db =
      (Ok 2%Z, d') /\
    getUserAttributes "alice1" d' = (Ok (old ++ [("Simultaneous-Use", ":=", "1")]), d').
Proof.
  exact (user_addAttribute_listed "alice1" "Simultaneous-Use" ":=" "1" alice_db eq_refl).
Defined.

(** Removal works by exact name and may remove several rows: on a
    healthy store [removeAttribute] reports whether some row of the table
    carried the user name and the attribute name, and afterwards none
    does. *)
Theorem user_removeAttribute_all u a table t d :
  healthy d -> table_named (default "radcheck" table) = Some t ->
  exists d',
    removeAttribute u (Some a) table d =
      (Ok (nonempty (select_rows t (is_attribute_of u a) (committed d))), d') /\
    select_rows t (is_attribute_of u a) (committed d') = [].
Proof.
  intros H Ht. eexists. split; [by apply removeAttribute_healthy|]. store_cbn.
  rewrite select_delete_rows, decide_True by done.
  apply filter_none. by intros r _ [? ?].
Qed.

Lemma user_removeAttribute_all_witness :
  exists d',
    removeAttribute "alice1" (Some "Mikrotik-Group") (Some "radreply") alice_db =
      (Ok (nonempty (select_rows Radreply (is_attribute_of "alice1" "Mikrotik-Group")
                       (committed alice_db))), d') /\
    select_rows Radreply (is_attribute_of "alice1" "Mikrotik-Group") (committed d') = [].
Proof.
  exact (user_removeAttribute_all "alice1" "Mikrotik-Group" (Some "radreply") Radreply
           alice_db eq_refl eq_refl).
Defined.

(** The attribute methods accept exactly two table names: with any
    other name the statement is refused, [addAttribute] and
    [removeAttribute] throw, and a healthy store is left as it was. *)
Theorem user_attribute_table_closed u a o v name d :
  healthy d -> name <> "radcheck" -> name <> "radreply" ->
  addAttribute u (Some a) (Some o) (Some v) (Some name) d = (Throw StoreFailure, d) /\
  removeAttribute u (Some a) (Some name) d = (Throw StoreFailure, d).
Proof.
  intros H H1 H2. unfold addAttribute, removeAttribute, bound, table_named.
  rewrite !bind_ret_l. simpl.
  rewrite (proj2 (String.eqb_neq _ _) H1), (proj2 (String.eqb_neq _ _) H2).
  unfold rejected, bind. by rewrite query_reading_healthy.
Qed.

Lemma user_attribute_table_closed_witness :
  addAttribute "alice1" (Some "x") (Some ":=") (Some "y") (Some "nas") alice_db =
    (Throw StoreFailure, alice_db) /\
  removeAttribute "alice1" (Some "x") (Some "nas") alice_db =
    (Throw StoreFailure, alice_db).
Proof.
  exact (user_attribute_table_closed "alice1" "x" ":=" "y" "nas" alice_db
           eq_refl ltac:(done) ltac:(done)).
Defined.

(** The attribute methods can break the user invariant: on a healthy
    store, adding a [Cleartext-Password] attribute to a user that has one
    password row succeeds and leaves two, so the user is no longer well
    formed. *)
Theorem user_addAttribute_breaks_wf u p rc d :
  healthy d -> password_rows u (committed d) = [rc] ->
  exists i d',
    addAttribute u (Some "Cleartext-Password") (Some ":=") (Some p) None d = (Ok i, d') /\
    length (password_rows u (committed d')) = 2%nat /\
    ~ wf_user u (committed d').
Proof.
  intros H Hp. eexists _, _.
  split; [by apply (addAttribute_healthy _ _ _ _ None Radcheck)|]. store_cbn.
  assert (length (password_rows u
            (insert_attr Radcheck u "Cleartext-Password" ":=" p (committed d)).2) = 2%nat)
    as E.
  { unfold password_rows. rewrite select_insert_attr, decide_True by done.
    fold (password_rows u (committed d)). by rewrite Hp. }
  split; [done|]. unfold wf_user. rewrite E. lia.
Qed.

Lemma user_addAttribute_breaks_wf_witness :
  exists i d',
    addAttribute "alice1" (Some "Cleartext-Password") (Some ":=") (Some "other") None
      alice_db = (Ok i, d') /\
    length (password_rows "alice1" (committed d')) = 2%nat /\
    ~ wf_user "alice1" (committed d').
Proof.
  exact (user_addAttribute_breaks_wf "alice1" "other"
           (AttrRow 1 "alice1" "Cleartext-Password" ":=" "secret1") alice_db
           eq_refl eq_refl).
Defined.

(** Removing the password attribute orphans the profile: on a healthy
    store, a user with one password row and one profile row whose
    [Cleartext-Password] attribute is removed no longer exists, its profile
    row stays, and creating the user again commits a second profile row:
    [create] answers the new profile while [getByUsername] keeps answering
    the old one. *)
Theorem user_recreate_keeps_old_profile u p pr rc rr d :
  healthy d ->
  password_rows u (committed d) = [rc] -> profile_rows u (committed d) = [rr] ->
  exists d1 d2 i,
    removeAttribute u (Some "Cleartext-Password") None d = (Ok true, d1) /\
    exists_ u d1 = (Ok false, d1) /\
    create (UserData u p (Some pr)) d1 = (Ok (User i u p (Some pr)), d2) /\
    getByUsername u d2 = (Ok (Some (User i u p (Some (r_value rr)))), d2) /\
    ~ wf_user u (committed d2).
Proof.
  intros H Hp Hr. eexists _, _, _.
  assert (select_rows Radcheck (is_attribute_of u "Cleartext-Password") (committed d)
          = [rc]) as Hp' by exact Hp.
  split; [rewrite (removeAttribute_healthy _ _ None Radcheck), Hp' by done; done|].
  set (ts1 := (delete_rows Radcheck _ (committed d)).2).
  assert (password_rows u ts1 = []) as Hp1.
  { unfold password_rows, ts1. rewrite select_delete_rows, decide_True by done.
    apply filter_none. by intros r _ [? ?]. }
  assert (profile_rows u ts1 = [rr]) as Hr1 by exact Hr.
  split; [rewrite exists_healthy by done; store_cbn; fold ts1; by rewrite Hp1|].
  split; [by apply create_healthy|].
  rewrite getByUsername_healthy by done. store_cbn. fold ts1.
  rewrite find_user_spec, password_rows_created, profile_rows_created, Hp1, Hr1.
  cbn [ud_user]. rewrite !decide_True by done. split; [done|].
  unfold wf_user.
  rewrite profile_rows_created, Hr1. cbn [ud_user]. rewrite decide_True by done.
  simpl. lia.
Qed.

Lemma user_recreate_keeps_old_profile_witness :
  exists d1 d2 i,
    removeAttribute "alice1" (Some "Cleartext-Password") None alice_db = (Ok true, d1) /\
    exists_ "alice1" d1 = (Ok false, d1) /\
    create (UserData "alice1" "secret2" (Some "VIP")) d1 =
      (Ok (User i "alice1" "secret2" (Some "VIP")), d2) /\
    getByUsername "alice1" d2 = (Ok (Some (User i "alice1" "secret2" (Some "PPP"))), d2) /\
    ~ wf_user "alice1" (committed d2).
Proof.
  exact (user_recreate_keeps_old_profile "alice1" "secret2" "VIP"
           (AttrRow 1 "alice1" "Cleartext-Password" ":=" "secret1")
           (AttrRow 1 "alice1" "Mikrotik-Group" ":=" "PPP") alice_db
           eq_refl eq_refl eq_refl).
Defined.

(** ** Lemmas: connections, updateById *)

Lemma updateById_steady i data :
  pool_steady
    (bind (execute (reading (select_rows Radcheck (is_password_id i)))) (fun l =>
     match l with
     | [] => ret None
     | row :: _ =>
         bind (update_password (is_password_id i) (up_password data) false) (fun b1 =>
         bind (update_profile (r_username row) (up_profile data) b1) (fun b2 =>
         if negb b2 then ret None else on_pool (getById i)))
     end)).
Proof.
  apply pool_steady_bind; [eauto with radius|]. intros [|row l]; eauto 10 with radius.
Qed.

(** Every transactional operation gives its connection back: under
    every fault plan and whatever they answer, [create], [update],
    [updateById] and [delete] leave as many connections checked out as they
    found. *)
Theorem user_transactions_release d :
  (forall data, in_use (create data d).2 = in_use d) /\
  (forall u data, in_use (update u data d).2 = in_use d) /\
  (forall i data, in_use (updateById i data d).2 = in_use d) /\
  (forall u, in_use (delete u d).2 = in_use d).
Proof.
  repeat split; intros.
  - eapply (transaction_released _ d (create data d).1).
    2: apply surjective_pairing. eauto 10 with radius.
  - eapply (transaction_released _ d (update u data d).1).
    2: apply surjective_pairing. apply update_steady.
  - eapply (transaction_released _ d (updateById i data d).1).
    2: apply surjective_pairing. apply updateById_steady.
  - eapply (transaction_released _ d (delete u d).1).
    2: apply surjective_pairing. eauto 10 with radius.
Qed.

(** [updateById] on an id that is not the id of a password row answers
    [null] without touching the store, on a healthy store. *)
Theorem user_updateById_unknown i data d :
  healthy d -> select_rows Radcheck (is_password_id i) (committed d) = [] ->
  updateById i data d = (Ok None, d).
Proof.
  intros H Hi. unfold updateById.
  erewrite transaction_healthy; [|done|run_healthy; by rewrite Hi|done..].
  store_cbn. by rewrite healthy_eta.
Qed.

Lemma user_updateById_unknown_witness :
  updateById 7 (UpdateData (Some "hunter22") None) alice_db = (Ok None, alice_db).
Proof.
  exact (user_updateById_unknown 7 (UpdateData (Some "hunter22") None) alice_db
           eq_refl eq_refl).
Defined.

(** ** Lemmas: the methods under every fault plan *)

Lemma create_steady data :
  pool_steady
    (bind (execute (insert_attr Radcheck (ud_user data) "Cleartext-Password" ":="
                      (ud_password data))) (fun userId =>
     bind (execute (insert_attr Radreply (ud_user data) "Mikrotik-Group" ":="
                      (default "PPP" (ud_profile data)))) (fun _ =>
     ret (User userId (ud_user data) (ud_password data)
            (Some (default "PPP" (ud_profile data))))))).
Proof. eauto 10 with radius. Qed.

Lemma delete_steady u :
  pool_steady
    (bind (execute (delete_rows Radcheck (is_of u))) (fun affectedRows =>
     bind (execute (delete_rows Radreply (is_of u))) (fun _ =>
     ret (bool_decide (0 < affectedRows)%nat)))).
Proof. eauto 10 with radius. Qed.

(** Whenever [create] returns it has committed both rows. *)
Lemma create_returns data d r d' :
  create data d = (Ok r, d') ->
  committed d' = created data (committed d) /\
  r = User (next_id (radcheck (committed d))) (ud_user data) (ud_password data)
        (Some (default "PPP" (ud_profile data))).
Proof.
  apply (transaction_spec (eq (committed d))
    (fun r ts => ts = created data (committed d) /\
       r = User (next_id (radcheck (committed d))) (ud_user data) (ud_password data)
             (Some (default "PPP" (ud_profile data))))); [|done].
  apply tx_spec_bind with
    (R := fun n ts =>
       ts = (insert_attr Radcheck (ud_user data) "Cleartext-Password" ":="
               (ud_password data) (committed d)).2 /\
       n = next_id (radcheck (committed d))).
  { apply tx_spec_execute. by intros ts <-. }
  intros n. apply tx_spec_bind with
    (R := fun (_ : Z) ts => ts = created data (committed d) /\
                            n = next_id (radcheck (committed d))).
  { apply tx_spec_execute. by intros ts [-> ->]. }
  intros _. apply tx_spec_ret. by intros ts [-> ->].
Qed.

Lemma create_throws data d e d' :
  create data d = (Throw e, d') -> same_rows (committed d') (committed d).
Proof. apply transaction_atomic, create_steady. Qed.

(** Whenever [delete] returns it has committed both statements. *)
Lemma delete_returns u d r d' :
  delete u d = (Ok r, d') ->
  committed d' = deleted u (committed d) /\
  r = nonempty (select_rows Radcheck (is_of u) (committed d)).
Proof.
  apply (transaction_spec (eq (committed d))
    (fun r ts => ts = deleted u (committed d) /\
       r = nonempty (select_rows Radcheck (is_of u) (committed d)))); [|done].
  apply tx_spec_bind with
    (R := fun n ts =>
       ts = (delete_rows Radcheck (is_of u) (committed d)).2 /\
       n = length (select_rows Radcheck (is_of u) (committed d))).
  { apply tx_spec_execute. intros ts <-. by rewrite delete_rows_affected. }
  intros n. apply tx_spec_bind with
    (R := fun (_ : nat) ts => ts = deleted u (committed d) /\
       n = length (select_rows Radcheck (is_of u) (committed d))).
  { apply tx_spec_execute. by intros ts [-> ->]. }
  intros _. apply tx_spec_ret. intros ts [-> ->].
  by rewrite bool_decide_length_pos.
Qed.

(** [exists] answers from the committed tables and leaves them alone. *)
Lemma exists_spec P u :
  db_spec P (exists_ u)
    (fun r ts => P ts /\ forall b, r = Ok b -> b = nonempty (password_rows u ts)).
Proof.
  unfold exists_. eapply db_spec_bind; [apply db_spec_reading|..].
  - by intros e ts [? _].
  - intros l. apply db_spec_ret. intros ts [HP Hl]. split; [done|].
    intros b [= <-]. by rewrite (Hl l eq_refl).
Qed.

Lemma getByUsername_db_spec P u :
  db_spec P (getByUsername u)
    (fun r ts => P ts /\ forall x, r = Ok x -> x = find_user u ts).
Proof.
  intros d r d' HP E. apply getByUsername_spec in E as (Hc & _ & Hr).
  by rewrite Hc.
Qed.

(** ** Lemmas: the identity invariant *)

#[global] Instance identity_proper u : Proper (same_rows ==> iff) (identity u).
Proof. intros a b H. unfold identity. by rewrite H. Qed.

(** A user that [getByUsername] finds has a password row. *)
Lemma find_user_password_rows u ts :
  find_user u ts = None <-> password_rows u ts = [].
Proof. rewrite find_user_spec. by destruct (password_rows u ts). Qed.

(** After the profile block has run with a profile, the record of the user
    carries that profile, whether the row was updated or inserted. *)
Lemma find_user_set_profile u pr ts :
  pr <> "" ->
  find_user u (set_profile u (Some pr) ts) =
  (fun x => User (u_id x) (u_user x) (u_password x) (Some pr)) <$> find_user u ts.
Proof.
  intros Hpr. rewrite !find_user_spec, password_rows_set_profile,
    profile_rows_set_profile, if_truthy_yes by done.
  destruct (password_rows u ts) as [|rc l]; [done|]. simpl. do 3 f_equal.
  destruct (profile_rows u ts) as [|rr l'] eqn:E; simpl.
  - by rewrite decide_True.
  - assert (rr ∈ profile_rows u ts) as Hin by (rewrite E; left).
    apply list_elem_of_filter in Hin as [Hrr _]. by rewrite decide_True.
Qed.

(** A user that [getByUsername] finds has a row for [delete] to remove. *)
Lemma rows_of_found u ts x :
  find_user u ts = Some x -> nonempty (select_rows Radcheck (is_of u) ts) = true.
Proof.
  rewrite find_user_spec. intros Hx. apply nonempty_length.
  destruct (password_rows u ts) as [|r l] eqn:E; [done|].
  assert (r ∈ select_rows Radcheck (is_of u) ts) as Hr.
  { assert (r ∈ password_rows u ts) as Hin by (rewrite E; left).
    apply list_elem_of_filter in Hin as [[Hu _] Hin]. by apply list_elem_of_filter. }
  destruct (select_rows Radcheck (is_of u) ts); [by inversion Hr | simpl; lia].
Qed.

Lemma identity_empty u : identity u empty_tables.
Proof. unfold identity, wf_user. simpl. split; [lia | done]. Qed.

Lemma identity_created data ts u :
  password_rows (ud_user data) ts = [] ->
  identity u ts -> identity u (created data ts).
Proof.
  intros Hnew [[Hp Hr] Hpr]. unfold identity, wf_user.
  rewrite password_rows_created, profile_rows_created.
  case_decide as Hu; [|by rewrite !app_nil_r].
  subst u. rewrite Hnew, (Hpr Hnew). simpl. split; [lia | done].
Qed.

Lemma profile_rows_updated_other u' u data ts :
  u <> u' ->
  length (profile_rows u' (updated u data ts)) = length (profile_rows u' ts).
Proof.
  intros Hne. unfold updated.
  rewrite profile_rows_set_profile, !profile_rows_set_password.
  unfold if_truthy. repeat case_match; rewrite ?length_fmap, ?length_app; simpl;
    try done; lia.
Qed.

(** [update] keeps the invariant of every name when its target has a
    password row: the guard of the controller. *)
Lemma identity_updated u data ts u' :
  password_rows u ts <> [] -> identity u' ts -> identity u' (updated u data ts).
Proof.
  intros Hu [[Hp Hr] Hpr]. unfold identity, wf_user.
  rewrite password_rows_updated_length.
  split; [split; [done | by apply profile_rows_updated_length]|].
  intros E%(f_equal length). rewrite password_rows_updated_length in E.
  apply nil_length_inv in E. apply nil_length_inv.
  rewrite profile_rows_updated_other by congruence. by rewrite (Hpr E).
Qed.

Lemma password_rows_deleted_other u' u ts :
  u' <> u -> password_rows u' (deleted u ts) = password_rows u' ts.
Proof.
  intros Hne. unfold password_rows, deleted.
  rewrite select_delete_rows, decide_False, select_delete_rows, decide_True by done.
  apply filter_ext_in. intros r _. unfold is_password_of, is_of. intuition congruence.
Qed.

Lemma profile_rows_deleted u' u ts :
  profile_rows u' (deleted u ts) = if decide (u' = u) then [] else profile_rows u' ts.
Proof.
  unfold profile_rows, deleted. rewrite select_delete_rows, decide_True by done.
  rewrite get_table_delete_rows_ne by done. case_decide as Hu.
  - apply filter_none. intros r _ [[? _] ?]. unfold is_of in *. congruence.
  - apply filter_ext_in. intros r _. unfold is_profile_of, is_of. intuition congruence.
Qed.

Lemma identity_deleted u ts u' : identity u' ts -> identity u' (deleted u ts).
Proof.
  intros [[Hp Hr] Hpr]. unfold identity, wf_user. rewrite profile_rows_deleted.
  destruct (decide (u' = u)) as [->|Hne].
  - rewrite password_rows_deleted. simpl. split; [lia | done].
  - by rewrite password_rows_deleted_other.
Qed.

(** The three writers keep the invariant of every name, on both exit
    paths and under every fault plan; [create] needs a name that has no
    password row, [update] one that has. *)
Lemma create_keeps_identity data :
  db_spec (fun ts => identities ts /\ password_rows (ud_user data) ts = [])
    (create data) (fun _ => identities).
Proof.
  intros d r d' [HI Hnew] E u. destruct r.
  - apply create_returns in E as [-> _]. by apply identity_created.
  - apply create_throws in E. by rewrite E.
Qed.

Lemma update_keeps_identity u0 data :
  db_spec (fun ts => identities ts /\ password_rows u0 ts <> [])
    (update u0 data) (fun _ => identities).
Proof.
  intros d r d' [HI Hold] E u. destruct r.
  - apply update_returns in E as [-> _]. by apply identity_updated.
  - apply update_throws in E. by rewrite E.
Qed.

Lemma delete_keeps_identity u0 : db_spec identities (delete u0) (fun _ => identities).
Proof.
  intros d r d' HI E u. destruct r.
  - apply delete_returns in E as [-> _]. by apply identity_deleted.
  - apply delete_throws in E. by rewrite E.
Qed.

(** ** Lemmas: every method gives its connection back *)

Lemma getAll_balanced : balanced getAll.
Proof. unfold getAll. eauto with radius. Qed.

Lemma search_balanced s : balanced (search s).
Proof. unfold search. eauto with radius. Qed.

Lemma getByUsername_balanced u : balanced (getByUsername u).
Proof. unfold getByUsername. eauto with radius. Qed.

Lemma exists_balanced u : balanced (exists_ u).
Proof. unfold exists_. eauto with radius. Qed.

Lemma getCount_balanced : balanced getCount.
Proof. unfold getCount. eauto with radius. Qed.

Lemma create_balanced data : balanced (create data).
Proof. apply balanced_transaction, create_steady. Qed.

Lemma update_balanced u data : balanced (update u data).
Proof. apply balanced_transaction, update_steady. Qed.

Lemma delete_balanced u : balanced (delete u).
Proof. apply balanced_transaction, delete_steady. Qed.

Lemma getUserAttributes_balanced u : balanced (getUserAttributes u).
Proof. unfold getUserAttributes. eauto with radius. Qed.

Lemma getUserReplyAttributes_balanced u : balanced (getUserReplyAttributes u).
Proof. unfold getUserReplyAttributes. eauto with radius. Qed.

Lemma addAttribute_balanced u a o v t : balanced (addAttribute u a o v t).
Proof. unfold addAttribute. repeat case_match; eauto 10 with radius. Qed.

Lemma removeAttribute_balanced u a t : balanced (removeAttribute u a t).
Proof. unfold removeAttribute. repeat case_match; eauto 10 with radius. Qed.

#[global] Hint Resolve getAll_balanced search_balanced getByUsername_balanced
  exists_balanced getCount_balanced create_balanced update_balanced delete_balanced
  getUserAttributes_balanced getUserReplyAttributes_balanced addAttribute_balanced
  removeAttribute_balanced : radius.

End UserModel.
