(* ===== verification/UserApi.v ===== *)
(** * The user controller ([controllers/userController.js])

    Module [UserController] holds one definition per handler, with its
    guards and early returns in the order of the code, inside the
    [try]/[catch] every handler has.  A handler takes what the code reads
    from the request ([req.params], [req.query], [req.body]) and answers a
    [response].

    [request] and [handle] put the handlers behind one entry point, and
    [reachable] is the set of stores the entry point can produce.  The
    theorems give the status of every branch, show that no handler throws,
    and that the identity invariant [identity] holds in every store
    reachable through the user resource itself (the attribute routes are
    the ones that can break it). *)

From stdpp Require Import base option strings numbers relations list sorting.
From S2P Require Import Prelude Store Http UserRepo.

Module UserController.

Local Open Scope m_scope.

(** ** JSON views *)

(** A row of the user queries as the driver hands it to [res.json]. *)
Definition user_json (u : UserModel.user) : json :=
  JObj [("id", JNum (UserModel.u_id u));
        ("user", JStr (UserModel.u_user u));
        ("password", JStr (UserModel.u_password u));
        ("profile", jstr_or_null (UserModel.u_profile u))].

(** A row of [getUserAttributes]: [{attribute, op, value}]. *)
Definition attribute_json (a : string * string * string) : json :=
  JObj [("attribute", JStr a.1.1); ("op", JStr a.1.2); ("value", JStr a.2)].

(** The body of the attribute routes: [{attribute, op, value, table}]; no
    schema guards these routes, so every property may be missing. *)
Record attributeBody : Type := AttributeBody {
  ab_attribute : option string;
  ab_op : option string;
  ab_value : option string;
  ab_table : option string
}.

(** [['radcheck', 'radreply'].includes(table)] *)
Definition valid_table (table : string) : bool :=
  bool_decide (table ∈ ["radcheck"; "radreply"]).

Definition table_message : string :=
  "Table must be either " ++ quoted "radcheck" ++ " or " ++ quoted "radreply".

(** [{ id: attributeId, username, attribute, op, value, table }] *)
Definition added_json (attributeId : Z) (username : string) (body : attributeBody)
    (table : string) : json :=
  JObj ([("id", JNum attributeId); ("username", JStr username)] ++
        jfield "attribute" (JStr <$> ab_attribute body) ++
        jfield "op" (JStr <$> ab_op body) ++
        jfield "value" (JStr <$> ab_value body) ++
        [("table", JStr table)]).

(** [{ success, message, data: users, count: users.length }] *)
Definition users_json (users : list UserModel.user) : response :=
  Response 200
    (JObj [("success", JBool true);
           ("message", JStr "Users retrieved successfully");
           ("data", JArr (user_json <$> users));
           ("count", JNum (Z.of_nat (length users)))]).

(** ** Handlers *)

(** [static async getAll(req, res)] *)
Definition getAll (cfg : env) (search : option string) : M db response :=
  handled cfg (
    users <- if_truthy search UserModel.search UserModel.getAll;;
    ret (users_json users)).

(** [static async getByUsername(req, res)] *)
Definition getByUsername (cfg : env) (username : string) : M db response :=
  handled cfg (
    user <- UserModel.getByUsername username;;
    match user with
    | None => ret (failure 404 "User not found")
    | Some u => ret (success 200 "User retrieved successfully" (Some (user_json u)))
    end).

(** [static async create(req, res)] *)
Definition create (cfg : env) (body : UserModel.userData) : M db response :=
  handled cfg (
    exists_ <- UserModel.exists_ (UserModel.ud_user body);;
    if exists_ : bool then ret (failure 409 "User already exists")
    else
      newUser <- UserModel.create body;;
      ret (success 201 "User created successfully" (Some (user_json newUser)))).

(** [static async update(req, res)] *)
Definition update (cfg : env) (username : string) (updateData : UserModel.updateData)
    : M db response :=
  handled cfg (
    existingUser <- UserModel.getByUsername username;;
    match existingUser with
    | None => ret (failure 404 "User not found")
    | Some _ =>
        updatedUser <- UserModel.update username updateData;;
        match updatedUser with
        | None => ret (failure 404 "User not found or no changes made")
        | Some u => ret (success 200 "User updated successfully" (Some (user_json u)))
        end
    end).

(** [static async delete(req, res)] *)
Definition delete (cfg : env) (username : string) : M db response :=
  handled cfg (
    existingUser <- UserModel.getByUsername username;;
    match existingUser with
    | None => ret (failure 404 "User not found")
    | Some _ =>
        deleted <- UserModel.delete username;;
        if deleted : bool then ret (success 200 "User deleted successfully" None)
        else ret (failure 404 "User not found or already deleted")
    end).

(** [static async getStats(req, res)] *)
Definition getStats (cfg : env) : M db response :=
  handled cfg (
    count <- UserModel.getCount;;
    ret (success 200 "User statistics retrieved successfully"
           (Some (JObj [("total_users", JNum (Z.of_nat count))])))).

(** [static async getUserAttributes(req, res)] *)
Definition getUserAttributes (cfg : env) (username : string) : M db response :=
  handled cfg (
    user <- UserModel.getByUsername username;;
    match user with
    | None => ret (failure 404 "User not found")
    | Some _ =>
        attributes <- UserModel.getUserAttributes username;;
        ret (success 200 "User attributes retrieved successfully"
               (Some (JObj [("username", JStr username);
                            ("attributes", JArr (attribute_json <$> attributes))])))
    end).

(** [static async getUserReplyAttributes(req, res)] *)
Definition getUserReplyAttributes (cfg : env) (username : string) : M db response :=
  handled cfg (
    user <- UserModel.getByUsername username;;
    match user with
    | None => ret (failure 404 "User not found")
    | Some _ =>
        replyAttributes <- UserModel.getUserReplyAttributes username;;
        ret (success 200 "User reply attributes retrieved successfully"
               (Some (JObj [("username", JStr username);
                            ("reply_attributes",
                             JArr (attribute_json <$> replyAttributes))])))
    end).

(** [static async addAttribute(req, res)] *)
Definition addAttribute (cfg : env) (username : string) (body : attributeBody)
    : M db response :=
  handled cfg (
    let table := default "radcheck" (ab_table body) in
    user <- UserModel.getByUsername username;;
    match user with
    | None => ret (failure 404 "User not found")
    | Some _ =>
        if negb (valid_table table) then ret (failure 400 table_message)
        else
          attributeId <- UserModel.addAttribute username (ab_attribute body)
                           (ab_op body) (ab_value body) (Some table);;
          ret (success 201 "Attribute added successfully"
                 (Some (added_json attributeId username body table)))
    end).

(** [static async removeAttribute(req, res)] *)
Definition removeAttribute (cfg : env) (username : string) (body : attributeBody)
    : M db response :=
  handled cfg (
    let table := default "radcheck" (ab_table body) in
    user <- UserModel.getByUsername username;;
    match user with
    | None => ret (failure 404 "User not found")
    | Some _ =>
        if negb (valid_table table) then ret (failure 400 table_message)
        else
          removed <- UserModel.removeAttribute username (ab_attribute body) (Some table);;
          if removed : bool then ret (success 200 "Attribute removed successfully" None)
          else ret (failure 404 "Attribute not found")
    end).

(** ** The user resource as one entry point *)

(** A request that reached a handler of [routes/userRoutes.js]. *)
Inductive request : Type :=
| GetAll (search : option string)
| GetStats
| GetByUsername (username : string)
| GetUserAttributes (username : string)
| GetUserReplyAttributes (username : string)
| Create (body : UserModel.userData)
| AddAttribute (username : string) (body : attributeBody)
| Update (username : string) (updateData : UserModel.updateData)
| Delete (username : string)
| RemoveAttribute (username : string) (body : attributeBody).

Definition handle (cfg : env) (req : request) : M db response :=
  match req with
  | GetAll search => getAll cfg search
  | GetStats => getStats cfg
  | GetByUsername username => getByUsername cfg username
  | GetUserAttributes username => getUserAttributes cfg username
  | GetUserReplyAttributes username => getUserReplyAttributes cfg username
  | Create body => create cfg body
  | AddAttribute username body => addAttribute cfg username body
  | Update username updateData => update cfg username updateData
  | Delete username => delete cfg username
  | RemoveAttribute username body => removeAttribute cfg username body
  end.

(** The requests on the user resource itself: everything but the two
    routes that write attributes. *)
Definition on_identity (req : request) : bool :=
  match req with
  | AddAttribute _ _ | RemoveAttribute _ _ => false
  | _ => true
  end.

(** The requests of the GET routes. *)
Definition is_read (req : request) : bool :=
  match req with
  | GetAll _ | GetStats | GetByUsername _ | GetUserAttributes _
  | GetUserReplyAttributes _ => true
  | _ => false
  end.

(** One request served: the store before and after, under any fault plan
    the store may be given for that request. *)
Inductive step (cfg : env) : tables -> tables -> Prop :=
| step_handle req fs n r d' ts (Hreq : on_identity req = true)
    (Hrun : handle cfg req (Db ts fs n) = (Ok r, d')) :
    step cfg ts (committed d').

(** The stores the user resource can produce from an empty schema. *)
Definition reachable (cfg : env) (ts : tables) : Prop :=
  rtc (step cfg) empty_tables ts.

(** ** Tactics *)

(** Each walks through the body of a handler, one construct at a time. *)
Ltac known_status_tac :=
  repeat first
    [ apply handled_answers; [|apply known_status_internal_error]
    | apply answers_bind; intros ?
    | apply answers_ret; by apply (bool_decide_unpack _)
    | match goal with
      | |- answers _ (match ?x with _ => _ end) => destruct x
      end ].

Ltac steady_tac :=
  repeat first
    [ apply db_steady_try_catch; [|intros ?]
    | apply db_steady_bind; [|intros ?]
    | apply db_steady_ret
    | apply db_steady_reading
    | apply UserModel.getByUsername_steady
    | apply db_steady_if_truthy; [intros ?|]
    | match goal with
      | |- db_steady (match ?x with _ => _ end) => destruct x
      end ].

Ltac balanced_tac :=
  repeat first
    [ apply handled_balanced
    | apply balanced_bind; [|intros ?]
    | match goal with
      | |- balanced (match ?x with _ => _ end) => destruct x
      end
    | solve [eauto with radius] ].

(** ** Lemmas: every handler answers *)

Lemma handle_total cfg req : total (handle cfg req).
Proof. destruct req; apply handled_is_total. Qed.

Lemma handle_known_status cfg req : answers known_status (handle cfg req).
Proof.
  destruct req; simpl;
    unfold getAll, getStats, getByUsername, getUserAttributes, getUserReplyAttributes,
      create, addAttribute, update, delete, removeAttribute;
    known_status_tac.
Qed.

Lemma handle_balanced cfg req : balanced (handle cfg req).
Proof.
  destruct req; simpl;
    unfold getAll, getStats, getByUsername, getUserAttributes, getUserReplyAttributes,
      create, addAttribute, update, delete, removeAttribute;
    balanced_tac.
Qed.

(** The GET routes only read. *)
Lemma handle_read_steady cfg req : is_read req = true -> db_steady (handle cfg req).
Proof.
  destruct req; try done; intros _; simpl;
    unfold getAll, getStats, getByUsername, getUserAttributes, getUserReplyAttributes,
      handled, UserModel.getAll, UserModel.search, UserModel.getCount,
      UserModel.getUserAttributes, UserModel.getUserReplyAttributes;
    steady_tac.
Qed.

(** ** Lemmas: the writers keep the identity invariant *)

Section identity.
Context (cfg : env).
Import UserModel (identities).

Lemma create_keeps body : db_spec identities (create cfg body) (fun _ => identities).
Proof.
  apply handled_keeps.
  eapply db_spec_bind; [apply UserModel.exists_spec | by intros e ts [? _] |].
  intros [|]; [apply db_spec_ret; by intros ts [? _]|].
  eapply db_spec_bind with (R := fun _ => identities); [|done|].
  - eapply db_spec_weaken; [apply UserModel.create_keeps_identity| |done].
    intros ts [HI Hb]. split; [done|]. apply nonempty_false. symmetry. by apply Hb.
  - intros a. by apply db_spec_ret.
Qed.

Lemma update_keeps username data :
  db_spec identities (update cfg username data) (fun _ => identities).
Proof.
  apply handled_keeps.
  eapply db_spec_bind; [apply UserModel.getByUsername_db_spec | by intros e ts [? _] |].
  intros [old|]; [|apply db_spec_ret; by intros ts [? _]].
  eapply db_spec_bind with (R := fun _ => identities); [|done|].
  - eapply db_spec_weaken; [apply UserModel.update_keeps_identity| |done].
    intros ts [HI Hb]. split; [done|].
    rewrite <- UserModel.find_user_password_rows, <- (Hb _ eq_refl). done.
  - intros [x|]; by apply db_spec_ret.
Qed.

Lemma delete_keeps username :
  db_spec identities (delete cfg username) (fun _ => identities).
Proof.
  apply handled_keeps.
  eapply db_spec_bind; [apply UserModel.getByUsername_db_spec | by intros e ts [? _] |].
  intros [old|]; [|apply db_spec_ret; by intros ts [? _]].
  eapply db_spec_bind with (R := fun _ => identities); [|done|].
  - eapply db_spec_weaken; [apply UserModel.delete_keeps_identity| |done].
    by intros ts [HI _].
  - intros [|]; by apply db_spec_ret.
Qed.

Lemma handle_keeps req :
  on_identity req = true -> db_spec identities (handle cfg req) (fun _ => identities).
Proof.
  intros Hreq. destruct (is_read req) eqn:Hread.
  - by apply db_steady_keeps, handle_read_steady.
  - destruct req; try done; simpl; auto using create_keeps, update_keeps, delete_keeps.
Qed.

End identity.

(** ** Lemmas: the handlers on a healthy store *)

Section healthy.
Context (cfg : env) (d : db) (Hd : healthy d).

Lemma getByUsername_answer u :
  getByUsername cfg u d =
  (Ok match UserModel.find_user u (committed d) with
      | None => failure 404 "User not found"
      | Some x => success 200 "User retrieved successfully" (Some (user_json x))
      end, d).
Proof.
  unfold getByUsername, handled, try_catch, bind.
  rewrite UserModel.getByUsername_healthy by done.
  by destruct (UserModel.find_user _ _).
Qed.

Lemma create_answer data :
  create cfg data d =
  if nonempty (UserModel.password_rows (UserModel.ud_user data) (committed d))
  then (Ok (failure 409 "User already exists"), d)
  else (Ok (success 201 "User created successfully"
              (Some (user_json
                       (UserModel.User (next_id (radcheck (committed d)))
                          (UserModel.ud_user data) (UserModel.ud_password data)
                          (Some (default "PPP" (UserModel.ud_profile data))))))),
        set_committed (UserModel.created data (committed d)) d).
Proof.
  unfold create, handled, try_catch, bind.
  rewrite UserModel.exists_healthy by done.
  destruct (nonempty _); [done|]. by rewrite UserModel.create_healthy.
Qed.

Lemma update_answer u data :
  update cfg u data d =
  match UserModel.find_user u (committed d) with
  | None => (Ok (failure 404 "User not found"), d)
  | Some old =>
      (Ok (if UserModel.changes u data (committed d)
           then success 200 "User updated successfully" (Some (user_json old))
           else failure 404 "User not found or no changes made"),
       set_committed (UserModel.updated u data (committed d)) d)
  end.
Proof.
  unfold update, handled, try_catch, bind.
  rewrite UserModel.getByUsername_healthy by done.
  destruct (UserModel.find_user u (committed d)) as [old|] eqn:E; [|done].
  rewrite UserModel.update_healthy, E by done.
  by destruct (UserModel.changes _ _ _).
Qed.

Lemma delete_answer u :
  delete cfg u d =
  match UserModel.find_user u (committed d) with
  | None => (Ok (failure 404 "User not found"), d)
  | Some _ =>
      (Ok (success 200 "User deleted successfully" None),
       set_committed (UserModel.deleted u (committed d)) d)
  end.
Proof.
  unfold delete, handled, try_catch, bind.
  rewrite UserModel.getByUsername_healthy by done.
  destruct (UserModel.find_user u (committed d)) as [old|] eqn:E; [|done].
  by rewrite UserModel.delete_healthy, (UserModel.rows_of_found _ _ _ E).
Qed.

Lemma getAll_answer search :
  exists users, getAll cfg search d = (Ok (users_json users), d).
Proof.
  unfold getAll, handled, try_catch, bind, if_truthy, UserModel.search, UserModel.getAll.
  repeat case_match; rewrite query_reading_healthy in * by done; simplify_eq; eauto.
Qed.

Lemma getStats_answer :
  exists data,
    getStats cfg d =
    (Ok (success 200 "User statistics retrieved successfully" (Some data)), d).
Proof.
  unfold getStats, handled, try_catch, bind, UserModel.getCount.
  rewrite query_reading_healthy by done. eauto.
Qed.

Lemma getUserAttributes_answer u :
  exists r, getUserAttributes cfg u d = (Ok r, d) /\ status r ∈ [200; 404]%Z.
Proof.
  unfold getUserAttributes, handled, try_catch, bind, UserModel.getUserAttributes.
  rewrite UserModel.getByUsername_healthy by done.
  destruct (UserModel.find_user _ _); rewrite ?query_reading_healthy by done;
    eexists; (split; [done|]); by apply (bool_decide_unpack _).
Qed.

Lemma getUserReplyAttributes_answer u :
  exists r, getUserReplyAttributes cfg u d = (Ok r, d) /\ status r ∈ [200; 404]%Z.
Proof.
  unfold getUserReplyAttributes, handled, try_catch, bind,
    UserModel.getUserReplyAttributes.
  rewrite UserModel.getByUsername_healthy by done.
  destruct (UserModel.find_user _ _); rewrite ?query_reading_healthy by done;
    eexists; (split; [done|]); by apply (bool_decide_unpack _).
Qed.

End healthy.

(** The two names the controller lets through are the two tables the model
    knows. *)
Lemma valid_table_named table :
  valid_table table = bool_decide (is_Some (UserModel.table_named table)).
Proof.
  unfold valid_table, UserModel.table_named.
  destruct (String.eqb_spec table "radcheck") as [->|H1]; [done|].
  destruct (String.eqb_spec table "radreply") as [->|H2]; [done|].
  rewrite !bool_decide_eq_false_2; [done|by intros [? [=]]|].
  rewrite !elem_of_cons, elem_of_nil. tauto.
Qed.

(** ** Theorems *)

(** C6. The identity invariant across the user resource: whatever the
    store does (every fault plan) and whatever the handler answers, a
    request of the user routes (list, read, create, update, delete) served
    on tables in which every name has at most one password row, at most one
    profile row and no profile row without a password row, leaves tables
    in which that still holds. *)
Theorem user_api_keeps_identity cfg req d r d' :
  on_identity req = true ->
  UserModel.identities (committed d) ->
  handle cfg req d = (r, d') ->
  UserModel.identities (committed d').
Proof. intros Hreq HI E. by eapply handle_keeps, E. Qed.

Lemma user_api_keeps_identity_witness :
  UserModel.identities
    (committed (handle (Env None None None None None None)
                  (Create (UserModel.UserData "bob123" "hunter22" None))
                  (Db empty_tables [false; false; false; true] 0)).2).
Proof.
  apply (user_api_keeps_identity (Env None None None None None None)
           (Create (UserModel.UserData "bob123" "hunter22" None))
           (Db empty_tables [false; false; false; true] 0)
           (Ok (internal_error (Env None None None None None None) StoreFailure)) _
           eq_refl UserModel.identity_empty).
  vm_compute. reflexivity.
Defined.

(** Every store the user routes can produce from an empty schema, in
    any number of requests and under any faults, satisfies the identity
    invariant of every name. *)
Theorem user_api_reachable_identity cfg ts u :
  reachable cfg ts -> UserModel.identity u ts.
Proof.
  intros Hr. revert u. change (UserModel.identities ts). revert ts Hr.
  apply rtc_ind_r; [exact UserModel.identity_empty|].
  intros ts1 ts2 _ [req fs n r d' ts' Hreq Hrun] IH.
  by eapply (handle_keeps cfg req Hreq (Db ts' fs n)), Hrun.
Qed.

Lemma user_api_reachable_identity_witness :
  UserModel.identity "bob123"
    (committed (handle (Env None None None None None None)
                  (Create (UserModel.UserData "bob123" "hunter22" None))
                  (Db empty_tables [] 0)).2).
Proof.
  apply (user_api_reachable_identity (Env None None None None None None)).
  eapply rtc_l; [|apply rtc_refl].
  eapply (step_handle _ (Create (UserModel.UserData "bob123" "hunter22" None))
            [] 0%nat _ (handle _ _ _).2 empty_tables eq_refl).
  vm_compute. reflexivity.
Defined.

(** Every handler answers: under every fault plan a request gets a
    response, never an exception, with one of the statuses 200, 201, 400,
    404, 409, 500, and the store has back every connection it lent. *)
Theorem user_api_answers cfg req d :
  exists r d', handle cfg req d = (Ok r, d') /\ known_status r /\ in_use d' = in_use d.
Proof.
  destruct (handle_total cfg req d) as (r & d' & E). exists r, d'.
  split; [done|]. split; [by eapply handle_known_status | by eapply handle_balanced].
Qed.

(** The update route answers with the record as it was: on a healthy
    store, for a user that exists, [PUT /users/:username] with a profile
    answers 200 with the record read before the write was committed, and
    the [GET] that follows answers the same record with the new profile. *)
Theorem user_api_update_stale cfg u pr old d :
  healthy d -> pr <> "" ->
  UserModel.find_user u (committed d) = Some old ->
  exists d',
    update cfg u (UserModel.UpdateData None (Some pr)) d =
      (Ok (success 200 "User updated successfully" (Some (user_json old))), d') /\
    getByUsername cfg u d' =
      (Ok (success 200 "User retrieved successfully"
             (Some (user_json (UserModel.User (UserModel.u_id old) (UserModel.u_user old)
                                 (UserModel.u_password old) (Some pr))))), d').
Proof.
  intros Hd Hpr Hold. eexists. split.
  - rewrite update_answer, Hold by done. unfold UserModel.changes.
    cbn [UserModel.up_profile UserModel.up_password].
    by rewrite (proj2 (truthy_Some pr)).
  - rewrite getByUsername_answer by done. store_cbn.
    unfold UserModel.updated. cbn [UserModel.up_profile UserModel.up_password].
    change (UserModel.set_password u None (committed d)) with (committed d).
    by rewrite UserModel.find_user_set_profile, Hold.
Qed.

Lemma user_api_update_stale_witness :
  exists d',
    update unset_env "alice1" (UserModel.UpdateData None (Some "VIP")) UserModel.alice_db =
      (Ok (success 200 "User updated successfully"
             (Some (user_json (UserModel.User 1 "alice1" "secret1" (Some "PPP"))))), d') /\
    getByUsername unset_env "alice1" d' =
      (Ok (success 200 "User retrieved successfully"
             (Some (user_json (UserModel.User 1 "alice1" "secret1" (Some "VIP"))))), d').
Proof.
  exact (user_api_update_stale unset_env "alice1" "VIP"
           (UserModel.User 1 "alice1" "secret1" (Some "PPP")) UserModel.alice_db
           eq_refl ltac:(discriminate) eq_refl).
Defined.

(** Create, then read, through the routes: on a healthy store, for a
    name with no password row and no profile row, [POST /users] answers 201
    with the record [{id, user, password, profile}] (the profile defaulted
    to ["PPP"]), and [GET /users/:username] then answers 200 with the same
    record. *)
Theorem user_api_create_then_get cfg u p pr d :
  healthy d ->
  UserModel.password_rows u (committed d) = [] ->
  UserModel.profile_rows u (committed d) = [] ->
  exists d' data,
    create cfg (UserModel.UserData u p pr) d =
      (Ok (success 201 "User created successfully" (Some data)), d') /\
    getByUsername cfg u d' =
      (Ok (success 200 "User retrieved successfully" (Some data)), d') /\
    data = user_json (UserModel.User (next_id (radcheck (committed d))) u p
                        (Some (default "PPP" pr))).
Proof.
  intros Hd Hp Hr. do 2 eexists. split; [|split; [|done]].
  - rewrite create_answer by done. simpl. by rewrite Hp.
  - rewrite getByUsername_answer by done. store_cbn.
    rewrite UserModel.find_user_spec, UserModel.password_rows_created,
      UserModel.profile_rows_created, Hp, Hr. simpl. by rewrite !decide_True.
Qed.

Lemma user_api_create_then_get_witness :
  exists d' data,
    create unset_env (UserModel.UserData "alice1" "secret1" None) (Db empty_tables [] 0) =
      (Ok (success 201 "User created successfully" (Some data)), d') /\
    getByUsername unset_env "alice1" d' =
      (Ok (success 200 "User retrieved successfully" (Some data)), d') /\
    data = user_json (UserModel.User 1 "alice1" "secret1" (Some "PPP")).
Proof.
  exact (user_api_create_then_get unset_env "alice1" "secret1" None
           (Db empty_tables [] 0) eq_refl eq_refl eq_refl).
Defined.

(** A name that is taken is a conflict: on a healthy store,
    [POST /users] for a name that has a password row answers 409 and
    leaves the store as it was. *)
Theorem user_api_create_conflict cfg data d :
  healthy d ->
  UserModel.password_rows (UserModel.ud_user data) (committed d) <> [] ->
  create cfg data d = (Ok (failure 409 "User already exists"), d).
Proof.
  intros Hd Hp. rewrite create_answer by done.
  by destruct (UserModel.password_rows _ _).
Qed.

Lemma user_api_create_conflict_witness :
  create unset_env (UserModel.UserData "alice1" "other123" (Some "VIP")) UserModel.alice_db =
    (Ok (failure 409 "User already exists"), UserModel.alice_db).
Proof.
  exact (user_api_create_conflict unset_env
           (UserModel.UserData "alice1" "other123" (Some "VIP")) UserModel.alice_db
           eq_refl ltac:(discriminate)).
Defined.

(** Delete, then look again, through the routes: on a healthy store,
    for a user that exists, [DELETE /users/:username] answers 200; the same
    request again answers 404, and so does [GET /users/:username]. *)
Theorem user_api_delete_then_gone cfg u x d :
  healthy d -> UserModel.find_user u (committed d) = Some x ->
  exists d',
    delete cfg u d = (Ok (success 200 "User deleted successfully" None), d') /\
    delete cfg u d' = (Ok (failure 404 "User not found"), d') /\
    getByUsername cfg u d' = (Ok (failure 404 "User not found"), d').
Proof.
  intros Hd Hx. eexists. split; [by rewrite delete_answer, Hx|].
  assert (UserModel.find_user u (UserModel.deleted u (committed d)) = None) as Hgone
    by apply UserModel.find_user_password_rows, UserModel.password_rows_deleted.
  rewrite delete_answer, getByUsername_answer by done. store_cbn. by rewrite Hgone.
Qed.

Lemma user_api_delete_then_gone_witness :
  exists d',
    delete unset_env "alice1" UserModel.alice_db =
      (Ok (success 200 "User deleted successfully" None), d') /\
    delete unset_env "alice1" d' = (Ok (failure 404 "User not found"), d') /\
    getByUsername unset_env "alice1" d' = (Ok (failure 404 "User not found"), d').
Proof.
  exact (user_api_delete_then_gone unset_env "alice1"
           (UserModel.User 1 "alice1" "secret1" (Some "PPP")) UserModel.alice_db
           eq_refl eq_refl).
Defined.



(** A server error means a store failure: on a healthy store no
    request of the user routes (list, read, create, update, delete) is
    answered with status 500. *)
Theorem user_api_healthy_no_500 cfg req d r d' :
  healthy d -> on_identity req = true ->
  handle cfg req d = (Ok r, d') -> status r <> 500%Z.
Proof.
  intros Hd Hreq. destruct req; try done; simpl.
  - destruct (getAll_answer cfg d Hd search) as (l & ->). by intros [= <- _].
  - destruct (getStats_answer cfg d Hd) as (x & ->). by intros [= <- _].
  - rewrite getByUsername_answer by done. intros [= <- _]. by case_match.
  - destruct (getUserAttributes_answer cfg d Hd username) as (x & -> & Hx).
    intros [= <- _] E. rewrite E in Hx. by apply (bool_decide_pack _) in Hx.
  - destruct (getUserReplyAttributes_answer cfg d Hd username) as (x & -> & Hx).
    intros [= <- _] E. rewrite E in Hx. by apply (bool_decide_pack _) in Hx.
  - rewrite create_answer by done. case_match; by intros [= <- _].
  - rewrite update_answer by done. repeat case_match; by intros [= <- _].
  - rewrite delete_answer by done. case_match; by intros [= <- _].
Qed.

Lemma user_api_healthy_no_500_witness :
  status (success 200 "User deleted successfully" None) <> 500%Z.
Proof.
  apply (user_api_healthy_no_500 unset_env (Delete "alice1") UserModel.alice_db _
           (handle unset_env (Delete "alice1") UserModel.alice_db).2 eq_refl eq_refl).
  vm_compute. reflexivity.
Defined.

(** The body of the attribute routes is not checked: on a healthy
    store, for a user that exists, [POST /users/:username/attributes]
    without an [attribute] is answered 500 (the driver refuses to bind
    [undefined]), not 400, and the store is left as it was. *)
Theorem user_api_attribute_unvalidated cfg u x o v d :
  healthy d -> UserModel.find_user u (committed d) = Some x ->
  addAttribute cfg u (AttributeBody None o v None) d =
    (Ok (internal_error cfg BindUndefined), d).
Proof.
  intros Hd Hx. unfold addAttribute, handled, try_catch, bind.
  by rewrite UserModel.getByUsername_healthy, Hx.
Qed.

Lemma user_api_attribute_unvalidated_witness :
  addAttribute unset_env "alice1" (AttributeBody None (Some ":=") (Some "10M") None)
    UserModel.alice_db =
  (Ok (internal_error unset_env BindUndefined), UserModel.alice_db).
Proof.
  exact (user_api_attribute_unvalidated unset_env "alice1"
           (UserModel.User 1 "alice1" "secret1" (Some "PPP")) (Some ":=") (Some "10M")
           UserModel.alice_db eq_refl eq_refl).
Defined.

(** The attribute routes accept exactly two table names: on a healthy
    store, for a user that exists, any other [table] is answered 400 by
    both routes before a statement is built, and the store is left as it
    was. *)
Theorem user_api_attribute_bad_table cfg u x a o v name d :
  healthy d -> UserModel.find_user u (committed d) = Some x ->
  name <> "radcheck" -> name <> "radreply" ->
  addAttribute cfg u (AttributeBody a o v (Some name)) d =
    (Ok (failure 400 table_message), d) /\
  removeAttribute cfg u (AttributeBody a o v (Some name)) d =
    (Ok (failure 400 table_message), d).
Proof.
  intros Hd Hx H1 H2.
  assert (valid_table name = false) as Hv.
  { apply bool_decide_eq_false_2. rewrite !elem_of_cons, elem_of_nil. tauto. }
  unfold addAttribute, removeAttribute, handled, try_catch, bind.
  rewrite UserModel.getByUsername_healthy, Hx by done. simpl. by rewrite Hv.
Qed.

Lemma user_api_attribute_bad_table_witness :
  addAttribute unset_env "alice1"
    (AttributeBody (Some "Rate") (Some ":=") (Some "10M") (Some "nas")) UserModel.alice_db =
    (Ok (failure 400 table_message), UserModel.alice_db) /\
  removeAttribute unset_env "alice1"
    (AttributeBody (Some "Rate") (Some ":=") (Some "10M") (Some "nas")) UserModel.alice_db =
    (Ok (failure 400 table_message), UserModel.alice_db).
Proof.
  exact (user_api_attribute_bad_table unset_env "alice1"
           (UserModel.User 1 "alice1" "secret1" (Some "PPP"))
           (Some "Rate") (Some ":=") (Some "10M") "nas" UserModel.alice_db
           eq_refl eq_refl ltac:(discriminate) ltac:(discriminate)).
Defined.


End UserController.
