(* ===== verification/UserSpec.v ===== *)
(** * Users as a finite map: the specification the user resource refines

    The specification of section 3 speaks of users, not of rows: a user is
    a name with a password and a profile that may be absent.  Here the
    state of the specification is a finite map from names to accounts
    ([gmap string account]), its operations are insertion, alteration and
    deletion, and [abs] reads the map off the two attribute tables: the
    names that have a password row, each with the password of its first
    password row and the value of its first profile row.

    The theorems are the refinement: the methods of [UserModel] and the
    handlers of [UserController] that write, run on tables that satisfy
    the identity invariant under any fault plan, take the map of the
    tables before to the map the operation of the specification gives,
    when they answer with success, and leave the map as it was when they
    do not; the handlers that read answer from the map. *)

From stdpp Require Import base option strings numbers gmap sorting list.
From S2P Require Import Prelude Store Http UserRepo UserApi.

Module UserSpec.

Import UserModel.

(** ** The state of the specification *)

Record account : Type := Account {
  a_password : string;
  a_profile : option string
}.

#[global] Instance account_eq_dec : EqDecision account.
Proof. solve_decision. Defined.

(** ** Its operations *)

(** The account a creation makes: the profile defaults to ["PPP"]. *)
Definition fresh (data : userData) : account :=
  Account (ud_password data) (Some (default "PPP" (ud_profile data))).

Definition add (data : userData) (m : gmap string account) : gmap string account :=
  <[ud_user data := fresh data]> m.

(** A field that is given, and not empty, replaces the old one. *)
Definition amend (data : updateData) (a : account) : account :=
  Account (if_truthy (up_password data) (fun pw => pw) (a_password a))
          (if_truthy (up_profile data) (fun pr => Some pr) (a_profile a)).

Definition change (username : string) (data : updateData) (m : gmap string account)
    : gmap string account :=
  alter (amend data) username m.

Definition remove (username : string) (m : gmap string account) : gmap string account :=
  base.delete username m.

(** What a request does to the map when it succeeds: a creation never
    replaces an account, a change or a removal of a name that has none
    does nothing, a read does nothing. *)
Definition effect (req : UserController.request) (m : gmap string account)
    : gmap string account :=
  match req with
  | UserController.Create body =>
      match m !! ud_user body with
      | Some _ => m
      | None => add body m
      end
  | UserController.Update username data => change username data m
  | UserController.Delete username => remove username m
  | _ => m
  end.


(** A response that reports success. *)
Definition succeeded (r : response) : bool := (status r <? 300)%Z.

(** What a run of a writer must leave, given the map before: the effect
    when it answers with success, the map as it was otherwise. *)
Definition outcome_of (req : UserController.request) (m : gmap string account)
    (r : result response) (m' : gmap string account) : Prop :=
  m' = match r with
       | Ok x => if succeeded x then effect req m else m
       | Throw _ => m
       end.

(** ** The abstraction *)

Definition account_of (x : user) : account := Account (u_password x) (u_profile x).

Definition abs (ts : tables) : gmap string account :=
  list_to_map ((fun x => (u_user x, account_of x)) <$> select_users (fun _ => True) ts).

(** Two maps for the examples. *)
Definition alice_accounts : gmap string account :=
  {["alice1" := Account "secret1" (Some "PPP")]}.

(** ** Lemmas: lists and maps *)

(** The first binding of a key in a list is what the map of the list
    holds. *)
Lemma list_to_map_head `{Countable K} {V} (l : list (K * V)) k :
  (list_to_map l : gmap K V) !! k = snd <$> head (filter (fun kv => kv.1 = k) l).
Proof.
  induction l as [|[k' v] l IH]; [done|]. simpl. rewrite filter_cons. simpl.
  case_decide as Hk.
  - subst k'. by rewrite lookup_insert_eq.
  - by rewrite lookup_insert_ne.
Qed.

(** ** Lemmas: the abstraction reads what [getByUsername] reads *)

(** A filter on what a bind makes, when it reads the element the piece was
    made from. *)
Lemma filter_bind_key {A B} (P : B -> Prop) (Q : A -> Prop)
    `{!forall x, Decision (P x)} `{!forall a, Decision (Q a)} (g : A -> list B) l :
  (forall a x, x ∈ g a -> P x <-> Q a) -> filter P (l ≫= g) = filter Q l ≫= g.
Proof.
  intros Hg. induction l as [|a l IH]; [done|].
  rewrite bind_cons, filter_app, IH, filter_cons. case_decide as Ha.
  - rewrite bind_cons. f_equal. apply filter_all. intros x Hx. by apply (Hg a).
  - rewrite filter_none; [done|]. intros x Hx HP. by apply Ha, (Hg a x).
Qed.

(** The rows of the user query under a name are the rows of the whole
    query under that name. *)
Lemma select_users_filter u ts :
  filter (fun x => u_user x = u) (select_users (fun _ => True) ts) =
  select_users (is_of u) ts.
Proof.
  unfold select_users, left_join.
  rewrite (filter_bind_key _ (fun rc => r_username rc = u)).
  - rewrite list_filter_filter. f_equal. apply filter_ext_in. intros rc _.
    unfold is_of. tauto.
  - intros rc x. destruct (filter _ (rows (radreply ts))) as [|b bs].
    + by intros ->%list_elem_of_singleton.
    + by intros (rr & -> & _)%list_elem_of_fmap.
Qed.

Lemma abs_lookup ts u : abs ts !! u = account_of <$> find_user u ts.
Proof.
  unfold abs, find_user. rewrite list_to_map_head, <- select_users_filter.
  induction (select_users _ ts) as [|x l IH]; [done|].
  rewrite fmap_cons, !filter_cons. simpl. by case_decide.
Qed.

#[global] Instance abs_proper : Proper (same_rows ==> eq) abs.
Proof. intros a b (Hc & Hr & _). unfold abs, select_users. by rewrite Hc, Hr. Qed.


(** ** Lemmas: what the writers do to the map *)

Lemma abs_created data ts :
  password_rows (ud_user data) ts = [] -> profile_rows (ud_user data) ts = [] ->
  abs (created data ts) = add data (abs ts).
Proof.
  intros Hp Hr. apply map_eq. intros u. unfold add.
  rewrite abs_lookup, find_user_spec, password_rows_created, profile_rows_created.
  destruct (decide (ud_user data = u)) as [<-|Hne].
  - by rewrite lookup_insert_eq, Hp, Hr.
  - by rewrite lookup_insert_ne, !app_nil_r, abs_lookup, find_user_spec.
Qed.

(** The rows of another name are not rows of the name that is updated. *)
Lemma password_rows_other u u' ts (f : attr_row -> attr_row) :
  u <> u' ->
  (fun r => if decide (is_password_of u r) then f r else r) <$> password_rows u' ts =
  password_rows u' ts.
Proof.
  intros Hne. apply fmap_id_in. intros r Hr%password_rows_username.
  rewrite decide_False; [done|]. intros [? _]. congruence.
Qed.

Lemma profile_rows_username u ts r : r ∈ profile_rows u ts -> r_username r = u.
Proof.
  unfold profile_rows, select_rows. rewrite list_elem_of_filter. by intros [[? _] _].
Qed.

Lemma profile_rows_other u u' ts (f : attr_row -> attr_row) :
  u <> u' ->
  (fun r => if decide (is_profile_of u r) then f r else r) <$> profile_rows u' ts =
  profile_rows u' ts.
Proof.
  intros Hne. apply fmap_id_in. intros r Hr%profile_rows_username.
  rewrite decide_False; [done|]. intros [? _]. congruence.
Qed.

(** The rows of the name itself all take the new value. *)
Lemma password_rows_own u ts s :
  (fun r => if decide (is_password_of u r) then set_value s r else r)
    <$> password_rows u ts = set_value s <$> password_rows u ts.
Proof.
  apply Forall_fmap_ext_1, Forall_forall. intros r Hr. rewrite decide_True; [done|].
  unfold password_rows, select_rows in Hr. by apply list_elem_of_filter in Hr as [? _].
Qed.

Lemma profile_rows_own u ts s :
  (fun r => if decide (is_profile_of u r) then set_value s r else r)
    <$> profile_rows u ts = set_value s <$> profile_rows u ts.
Proof.
  apply Forall_fmap_ext_1, Forall_forall. intros r Hr. rewrite decide_True; [done|].
  unfold profile_rows, select_rows in Hr. by apply list_elem_of_filter in Hr as [? _].
Qed.

Lemma find_user_updated_other u u' data ts :
  u <> u' -> find_user u' (updated u data ts) = find_user u' ts.
Proof.
  intros Hne. rewrite !find_user_spec. unfold updated.
  rewrite password_rows_set_profile, password_rows_set_password,
    profile_rows_set_profile, !profile_rows_set_password.
  unfold if_truthy. repeat case_match;
    by rewrite ?password_rows_other, ?profile_rows_other, ?decide_False, ?app_nil_r.
Qed.

Lemma find_user_updated u data ts :
  account_of <$> find_user u (updated u data ts) =
  amend data <$> (account_of <$> find_user u ts).
Proof.
  rewrite !find_user_spec. unfold updated.
  rewrite password_rows_set_profile, password_rows_set_password,
    profile_rows_set_profile, !profile_rows_set_password.
  assert (head (if_truthy (up_password data)
                  (fun s => (fun r => if decide (is_password_of u r)
                                      then set_value s r else r) <$> password_rows u ts)
                  (password_rows u ts)) =
          (fun rc => if_truthy (up_password data) (fun s => set_value s rc) rc)
            <$> head (password_rows u ts)) as ->.
  { unfold if_truthy. repeat case_match; rewrite ?password_rows_own;
      by destruct (password_rows u ts). }
  destruct (head (password_rows u ts)) as [rc|]; [|done].
  cbn [fmap option_fmap option_map]. f_equal. unfold amend, account_of.
  cbn [u_password u_profile a_password a_profile]. f_equal.
  - unfold if_truthy. by repeat case_match.
  - destruct (truthy_cases (up_profile data)) as [(pr & -> & Hpr & _)|Hpr].
    + rewrite !if_truthy_yes by done. rewrite profile_rows_own.
      destruct (profile_rows u ts); [by rewrite decide_True|done].
    + by rewrite !if_truthy_no.
Qed.

Lemma abs_updated u data ts : abs (updated u data ts) = change u data (abs ts).
Proof.
  apply map_eq. intros u'. unfold change. rewrite abs_lookup.
  destruct (decide (u = u')) as [<-|Hne].
  - by rewrite lookup_alter_eq, abs_lookup, find_user_updated.
  - by rewrite lookup_alter_ne, abs_lookup, find_user_updated_other.
Qed.

Lemma abs_deleted u ts : abs (deleted u ts) = remove u (abs ts).
Proof.
  apply map_eq. intros u'. unfold remove. rewrite abs_lookup, find_user_spec.
  destruct (decide (u = u')) as [<-|Hne].
  - by rewrite lookup_delete_eq, password_rows_deleted.
  - rewrite lookup_delete_ne, abs_lookup, find_user_spec by done.
    by rewrite password_rows_deleted_other, profile_rows_deleted, decide_False.
Qed.

(** An update that gives nothing changes nothing. *)
Lemma change_nothing u data (m : gmap string account) :
  truthy (up_password data) = false -> truthy (up_profile data) = false ->
  change u data m = m.
Proof.
  intros Hpw Hpr. unfold change. apply map_eq. intros u'.
  destruct (decide (u = u')) as [<-|Hne]; [|by rewrite lookup_alter_ne].
  rewrite lookup_alter_eq. destruct (m !! u) as [[pw pr]|]; [|done]. simpl.
  unfold amend. by rewrite !if_truthy_no.
Qed.

(** ** Lemmas: the methods refine the operations *)

(** Whatever the store does, a method of the model that writes leaves the
    map its operation gives when it returns, and the map as it was when it
    throws. *)
Lemma create_refines data d r d' :
  password_rows (ud_user data) (committed d) = [] ->
  profile_rows (ud_user data) (committed d) = [] ->
  create data d = (r, d') ->
  abs (committed d') = if is_ok r then add data (abs (committed d)) else abs (committed d).
Proof.
  intros Hp Hr E. destruct r as [x|e]; simpl.
  - apply create_returns in E as [-> _]. by apply abs_created.
  - apply create_throws in E. by rewrite E.
Qed.

Lemma update_refines u data d r d' :
  update u data d = (r, d') ->
  abs (committed d') =
  if is_ok r then change u data (abs (committed d)) else abs (committed d).
Proof.
  intros E. destruct r as [x|e]; simpl.
  - apply update_returns in E as [-> _]. apply abs_updated.
  - apply update_throws in E. by rewrite E.
Qed.

Lemma delete_refines u d r d' :
  delete u d = (r, d') ->
  abs (committed d') = if is_ok r then remove u (abs (committed d)) else abs (committed d).
Proof.
  intros E. destruct r as [x|e]; simpl.
  - apply delete_returns in E as [-> _]. apply abs_deleted.
  - apply delete_throws in E. by rewrite E.
Qed.

(** ** Lemmas: the handlers refine the effects *)

Section handlers.
Context (cfg : env).

(** The catch block of a handler answers 500 and writes nothing. *)
Lemma handled_refines ts0 req P (m : M db response) :
  db_spec P m (fun r ts => outcome_of req (abs ts0) r (abs ts)) ->
  db_spec P (handled cfg m) (fun r ts => outcome_of req (abs ts0) r (abs ts)).
Proof.
  intros Hm. unfold handled.
  eapply db_spec_try_catch; [exact Hm | done |].
  intros e. apply db_spec_ret. by intros ts ->.
Qed.

Lemma create_handler_refines ts0 body :
  db_spec (fun ts => ts = ts0 /\ identities ts0) (UserController.create cfg body)
    (fun r ts => outcome_of (UserController.Create body) (abs ts0) r (abs ts)).
Proof.
  apply handled_refines.
  eapply db_spec_bind; [apply exists_spec | by intros e ts [[-> _] _] |].
  intros [|]; [apply db_spec_ret; by intros ts [[-> _] _]|].
  eapply db_spec_bind with
    (R := fun r ts =>
       abs ts = if is_ok r then effect (UserController.Create body) (abs ts0)
                else abs ts0).
  - intros d r d' [[<- HI] Hb] E.
    assert (password_rows (ud_user body) (committed d) = []) as Hp
      by (apply nonempty_false; symmetry; by apply Hb).
    rewrite (create_refines body d r d'); [|done|by apply HI|done].
    simpl. by rewrite abs_lookup, (proj2 (find_user_password_rows _ _)).
  - by intros e ts ->.
  - intros x. apply db_spec_ret. by intros ts ->.
Qed.

Lemma update_handler_refines ts0 u data :
  db_spec (fun ts => ts = ts0) (UserController.update cfg u data)
    (fun r ts => outcome_of (UserController.Update u data) (abs ts0) r (abs ts)).
Proof.
  apply handled_refines.
  eapply db_spec_bind; [apply getByUsername_db_spec | by intros e ts [-> _] |].
  intros [old|]; [|apply db_spec_ret; by intros ts [-> _]].
  eapply db_spec_bind with
    (R := fun r ts =>
       match r with
       | Ok (Some _) => abs ts = change u data (abs ts0)
       | _ => abs ts = abs ts0
       end).
  - intros d r d' [<- Hold] E. destruct r as [[x|]|e].
    + by rewrite (update_refines u data d _ d' E).
    + rewrite (update_refines u data d _ d' E). simpl.
      apply update_returns in E as [_ Hc].
      destruct (changes u data (committed d)) eqn:Hch.
      { by rewrite <- (Hold _ eq_refl) in Hc. }
      unfold changes in Hch. apply orb_false_iff in Hch as [Hpr Hpw].
      apply change_nothing; [|done]. apply andb_false_iff in Hpw as [?|Hn]; [done|].
      apply nonempty_false, find_user_password_rows in Hn.
      by rewrite <- (Hold _ eq_refl) in Hn.
    + by rewrite (update_refines u data d _ d' E).
  - by intros e ts ->.
  - intros [x|]; apply db_spec_ret; by intros ts ->.
Qed.

Lemma delete_handler_refines ts0 u :
  db_spec (fun ts => ts = ts0) (UserController.delete cfg u)
    (fun r ts => outcome_of (UserController.Delete u) (abs ts0) r (abs ts)).
Proof.
  apply handled_refines.
  eapply db_spec_bind; [apply getByUsername_db_spec | by intros e ts [-> _] |].
  intros [old|]; [|apply db_spec_ret; by intros ts [-> _]].
  eapply db_spec_bind with
    (R := fun r ts =>
       match r with
       | Ok true => abs ts = remove u (abs ts0)
       | _ => abs ts = abs ts0
       end).
  - intros d r d' [<- Hold] E. pose proof (delete_refines u d r d' E) as Ha.
    destruct r as [[|]|e]; try done. simpl in Ha.
    apply delete_returns in E as [_ Hn].
    by rewrite (rows_of_found u (committed d) old) in Hn by (by rewrite <- (Hold _ eq_refl)).
  - by intros e ts ->.
  - intros [|]; apply db_spec_ret; by intros ts ->.
Qed.

End handlers.

Lemma handle_refines cfg req d r d' :
  UserController.on_identity req = true -> identities (committed d) ->
  UserController.handle cfg req d = (Ok r, d') ->
  abs (committed d') =
  if succeeded r then effect req (abs (committed d)) else abs (committed d).
Proof.
  intros Hreq HI E. destruct (UserController.is_read req) eqn:Hread.
  - apply UserController.handle_read_steady in E as [-> _]; [|done].
    destruct req; try done; by destruct (succeeded r).
  - destruct req as [| | | | |body| |u data|u|]; try done; simpl in E.
    + by apply (create_handler_refines cfg (committed d) body d (Ok r) d').
    + by apply (update_handler_refines cfg (committed d) u data d (Ok r) d').
    + by apply (delete_handler_refines cfg (committed d) u d (Ok r) d').
Qed.

(** ** Lemmas: the abstraction and the queries that list and count *)

(** Keys are distinct when each occurs at most once. *)
Lemma NoDup_keys {A} (key : A -> string) (l : list A) :
  (forall k, (length (filter (fun x => key x = k) l) <= 1)%nat) -> NoDup (key <$> l).
Proof.
  induction l as [|a l IH]; intros Hk; [constructor|].
  rewrite fmap_cons. apply NoDup_cons. split.
  - intros (x & Hx & Hin)%list_elem_of_fmap. specialize (Hk (key a)).
    rewrite filter_cons_True in Hk by done.
    assert (x ∈ filter (fun x => key x = key a) l) as Hf by (by apply list_elem_of_filter).
    destruct (filter _ l); [by inversion Hf | simpl in Hk; lia].
  - apply IH. intros k. specialize (Hk k). rewrite filter_cons in Hk.
    case_decide; simpl in Hk; lia.
Qed.

(** Under the invariant the user query has at most one row for a name. *)
Lemma select_users_one u ts :
  wf_user u ts -> (length (select_users (is_of u) ts) <= 1)%nat.
Proof.
  intros [Hp Hq]. rewrite select_users_of.
  destruct (password_rows u ts) as [|rc [|]]; simpl in *; [lia| |lia].
  destruct (profile_rows u ts) as [|rr [|]]; simpl in *; lia.
Qed.

(** Under the invariant the rows of the user query are the bindings of the
    map, each once. *)
Lemma accounts_listed ts :
  identities ts ->
  (fun x => (u_user x, account_of x)) <$> select_users (fun _ => True) ts
  ≡ₚ map_to_list (abs ts).
Proof.
  intros HI. symmetry. apply map_to_list_to_map. rewrite <- list_fmap_compose.
  apply (NoDup_keys u_user). intros k. rewrite select_users_filter.
  apply select_users_one, HI.
Qed.

(** The names of the map are the names that have a password row. *)
Lemma abs_dom ts u : is_Some (abs ts !! u) <-> password_rows u ts <> [].
Proof.
  rewrite abs_lookup, fmap_is_Some, <- not_eq_None_Some.
  by rewrite find_user_password_rows.
Qed.

Lemma password_rows_named ts u :
  password_rows u ts <> [] <-> u ∈ r_username <$> select_rows Radcheck is_password ts.
Proof.
  unfold password_rows, select_rows. rewrite list_elem_of_fmap. split.
  - intros Hne. destruct (filter _ _) as [|r l] eqn:E; [done|].
    assert (r ∈ filter (is_password_of u) (rows (get_table Radcheck ts))) as Hr
      by (rewrite E; left).
    apply list_elem_of_filter in Hr as [[Hu Ha] Hin]. exists r.
    split; [done|]. by apply list_elem_of_filter.
  - intros (r & -> & [Ha Hin]%list_elem_of_filter) E.
    assert (r ∈ filter (is_password_of (r_username r)) (rows (get_table Radcheck ts)))
      as Hr by (by apply list_elem_of_filter).
    rewrite E in Hr. by inversion Hr.
Qed.

(** The size of the map is what [COUNT(DISTINCT username)] counts. *)
Lemma abs_size ts :
  size (abs ts) = length (remove_dups (r_username <$> select_rows Radcheck is_password ts)).
Proof.
  rewrite <- size_dom, <- (size_list_to_set (C := gset string)) by apply NoDup_remove_dups.
  f_equal. apply set_eq. intros u.
  by rewrite elem_of_dom, abs_dom, elem_of_list_to_set, elem_of_remove_dups,
    password_rows_named.
Qed.

(** The store of the examples satisfies the invariant. *)
Lemma alice_identities : identities (committed alice_db).
Proof.
  intros u. unfold identity, wf_user, password_rows, profile_rows, select_rows. simpl.
  rewrite !filter_cons, !filter_nil.
  repeat case_decide; unfold is_password_of, is_profile_of in *; simpl in *;
    (split; [split; lia|]); naive_solver.
Qed.

(** ** Theorems *)

(** C5. The user resource refines the map.  Whatever the store does, a
    request on the user resource that is answered with success leaves
    tables whose map is the effect of the request on the map of the tables
    before (a creation adds the account with its profile defaulted, an
    update amends the fields given, a deletion removes the account), and a
    request that is answered with anything else, a server error included,
    leaves the map as it was. *)
Theorem user_api_refines cfg req d r d' :
  UserController.on_identity req = true -> identities (committed d) ->
  UserController.handle cfg req d = (Ok r, d') ->
  abs (committed d') =
  if succeeded r then effect req (abs (committed d)) else abs (committed d).
Proof. apply handle_refines. Qed.


(** C32. The reads answer from the map.  On a store that answers, looking a
    user up returns the account the map holds under the name, or nothing
    when the map holds none; the existence check says whether the map has
    the name; the count is the size of the map. *)
Theorem user_reads_refine u d :
  healthy d ->
  (exists o, getByUsername u d = (Ok o, d) /\ account_of <$> o = abs (committed d) !! u) /\
  exists_ u d = (Ok (bool_decide (is_Some (abs (committed d) !! u))), d) /\
  getCount d = (Ok (size (abs (committed d))), d).
Proof.
  intros Hd. split; [|split].
  - eexists. split; [by apply getByUsername_healthy|]. by rewrite abs_lookup.
  - rewrite exists_healthy by done. do 2 f_equal. symmetry.
    destruct (password_rows u (committed d)) as [|r l] eqn:E.
    + apply bool_decide_eq_false. rewrite abs_dom, E. intros Hn. by apply Hn.
    + apply bool_decide_eq_true. by rewrite abs_dom, E.
  - unfold getCount. rewrite query_reading_healthy by done. by rewrite abs_size.
Qed.

(** The listing is the map.  On a store that answers and satisfies the
    identity invariant, [getAll] returns the accounts of the map, each
    under its name and each once, sorted by name. *)
Theorem user_listing_refines d :
  healthy d -> identities (committed d) ->
  exists l, getAll d = (Ok l, d) /\ Sorted by_username l /\
    (fun x => (u_user x, account_of x)) <$> l ≡ₚ map_to_list (abs (committed d)).
Proof.
  intros Hd HI. eexists. split; [by apply query_reading_healthy|].
  split; [apply Sorted_merge_sort, _|].
  rewrite merge_sort_Permutation, <- (accounts_listed _ HI).
  apply fmap_Permutation, NoDup_Permutation;
    [apply NoDup_remove_dups | | intros x; apply elem_of_remove_dups].
  apply (NoDup_fmap_1 (fun x => (u_user x, account_of x))).
  rewrite (accounts_listed _ HI). apply NoDup_map_to_list.
Qed.

(** ** Examples *)

Lemma user_api_refines_witness :
  abs (committed (UserController.handle unset_env
                    (UserController.Create (UserData "bob123" "hunter22" None))
                    (Db empty_tables [] 0)).2) =
  {["bob123" := Account "hunter22" (Some "PPP")]}.
Proof.
  etrans.
  - eapply (user_api_refines unset_env
              (UserController.Create (UserData "bob123" "hunter22" None))
              (Db empty_tables [] 0) _ (UserController.handle _ _ _).2
              eq_refl identity_empty).
    vm_compute. reflexivity.
  - by vm_compute.
Defined.


Lemma user_reads_refine_witness :
  exists_ "alice1" alice_db = (Ok true, alice_db) /\
  getCount alice_db = (Ok 1%nat, alice_db).
Proof.
  destruct (user_reads_refine "alice1" alice_db eq_refl) as (_ & He & Hc).
  split; [exact He | exact Hc].
Defined.

Lemma user_listing_refines_witness :
  exists l, getAll alice_db = (Ok l, alice_db) /\ Sorted by_username l /\
    (fun x => (u_user x, account_of x)) <$> l ≡ₚ map_to_list alice_accounts.
Proof.
  exact (user_listing_refines alice_db eq_refl alice_identities).
Defined.

End UserSpec.
