(* ===== verification/Jwt.v ===== *)
(** * Signed tokens: the interface to the [jsonwebtoken] library

    [middleware/auth.js] calls [jwt.sign] and [jwt.verify].  The library is
    not part of the sources, so what the guards need from it is stated as
    the class [Jwt]: a codec of claims under a secret, with the laws that a
    token decodes under the secret that encoded it and under no other, and
    that a token is one word.  [sign] and [verify] add what the library does
    around the codec: the falsy secret that is refused, the expiry computed
    from [iat] and the timespan, the expiry check against the clock.

    [bits] is an instance of the class, a self-delimiting binary code of
    the claims followed by the secret; it shows that the laws can be met and
    lets the examples run. *)

From Stdlib Require Import Ascii.
From stdpp Require Import base option strings numbers list.
From S2P Require Import Prelude Http.

(** ** Payloads and claims *)

(** What [login] signs: [{ username, role, iat }]. *)
Record payload : Type := Payload {
  p_username : string;
  p_role : string;
  p_iat : Z
}.

(** What a verified token carries: the payload and [exp]. *)
Record claims : Type := Claims {
  c_username : string;
  c_role : string;
  c_iat : Z;
  c_exp : Z
}.

#[global] Instance claims_eq_dec : EqDecision claims.
Proof. solve_decision. Defined.

(** ** The interface *)

Class Jwt : Type := {
  (** a timespan such as ["24h"], in seconds *)
  timespan : string -> option Z;
  (** the token for claims under a secret *)
  encode : string -> claims -> string;
  (** the claims of a token, when its signature is the secret's *)
  decode : string -> string -> option claims;
  timespan_24h : timespan "24h" = Some 86400%Z;
  decode_encode secret c : decode secret (encode secret c) = Some c;
  decode_secret s1 s2 c : s1 <> s2 -> decode s2 (encode s1 c) = None;
  encode_word secret c : without " " (encode secret c) = true;
  encode_nonempty secret c : encode secret c <> ""
}.

(** [jwt.sign(payload, secret, { expiresIn })]: throws on a falsy secret
    and on a timespan it cannot read; [exp] is [iat] plus the timespan. *)
Definition sign `{Jwt} (p : payload) (secret : option string) (expiresIn : string)
    : result string :=
  if_truthy secret
    (fun key =>
       match timespan expiresIn with
       | Some n =>
           Ok (encode key (Claims (p_username p) (p_role p) (p_iat p) (p_iat p + n)))
       | None => Throw SignFailure
       end)
    (Throw SignFailure).

(** [jwt.verify(token, secret, callback)]: the claims, or an error on a
    falsy secret, a bad signature, or a clock at or past [exp]. *)
Definition verify `{Jwt} (token : string) (secret : option string) (now : Z)
    : option claims :=
  if_truthy secret
    (fun key =>
       c ← decode key token;
       if bool_decide (c_exp c <= now)%Z then None else Some c)
    None.

(** ** An instance *)

Definition bit (b : bool) : ascii := if b then "1"%char else "0"%char.

Definition unbit (c : ascii) : option bool :=
  if Ascii.eqb c "1" then Some true
  else if Ascii.eqb c "0" then Some false
  else None.

(** A string, written before [rest]: each character as ["1"] and its eight
    bits, then ["0"]. *)
Fixpoint put_string (s rest : string) : string :=
  match s with
  | EmptyString => String "0" rest
  | String (Ascii b0 b1 b2 b3 b4 b5 b6 b7) s' =>
      String "1" (String (bit b0) (String (bit b1) (String (bit b2) (String (bit b3)
        (String (bit b4) (String (bit b5) (String (bit b6) (String (bit b7)
          (put_string s' rest)))))))))
  end.

Fixpoint get_string (t : string) : option (string * string) :=
  match t with
  | EmptyString => None
  | String c r =>
      if Ascii.eqb c "0" then Some (EmptyString, r)
      else
        match r with
        | String c0 (String c1 (String c2 (String c3 (String c4 (String c5
            (String c6 (String c7 r'))))))) =>
            b0 ← unbit c0; b1 ← unbit c1; b2 ← unbit c2; b3 ← unbit c3;
            b4 ← unbit c4; b5 ← unbit c5; b6 ← unbit c6; b7 ← unbit c7;
            '(s, r'') ← get_string r';
            Some (String (Ascii b0 b1 b2 b3 b4 b5 b6 b7) s, r'')
        | _ => None
        end
  end.

(** A positive number, written before [rest]: each binary digit as ["1"]
    and the digit, then ["0"]. *)
Fixpoint put_pos (p : positive) (rest : string) : string :=
  match p with
  | xH => String "0" rest
  | xO q => String "1" (String "0" (put_pos q rest))
  | xI q => String "1" (String "1" (put_pos q rest))
  end.

Fixpoint get_pos (t : string) : option (positive * string) :=
  match t with
  | EmptyString => None
  | String c r =>
      if Ascii.eqb c "0" then Some (xH, r)
      else
        match r with
        | String b r' =>
            d ← unbit b; '(q, r'') ← get_pos r';
            Some (if d : bool then xI q else xO q, r'')
        | EmptyString => None
        end
  end.

Definition put_Z (z : Z) (rest : string) : string :=
  match z with
  | Z0 => String "0" rest
  | Zpos p => String "1" (String "0" (put_pos p rest))
  | Zneg p => String "1" (String "1" (put_pos p rest))
  end.

Definition get_Z (t : string) : option (Z * string) :=
  match t with
  | EmptyString => None
  | String c r =>
      if Ascii.eqb c "0" then Some (0%Z, r)
      else
        match r with
        | String b r' =>
            d ← unbit b; '(p, r'') ← get_pos r';
            Some (if d : bool then Zneg p else Zpos p, r'')
        | EmptyString => None
        end
  end.

Definition bits_encode (secret : string) (c : claims) : string :=
  put_string (c_username c) (put_string (c_role c)
    (put_Z (c_iat c) (put_Z (c_exp c) (put_string secret "")))).

Definition bits_decode (secret token : string) : option claims :=
  '(u, r1) ← get_string token;
  '(ro, r2) ← get_string r1;
  '(iat, r3) ← get_Z r2;
  '(exp, r4) ← get_Z r3;
  '(s, r5) ← get_string r4;
  if decide (s = secret /\ r5 = "") then Some (Claims u ro iat exp) else None.

Definition bits_timespan (s : string) : option Z :=
  if String.eqb s "24h" then Some 86400%Z
  else if String.eqb s "1h" then Some 3600%Z
  else if String.eqb s "60s" then Some 60%Z
  else None.

(** ** Lemmas: the instance meets the laws *)

Lemma unbit_bit b : unbit (bit b) = Some b.
Proof. by destruct b. Qed.

Lemma bit_not_space b : Ascii.eqb (bit b) " " = false.
Proof. by destruct b. Qed.

Lemma get_put_string s rest : get_string (put_string s rest) = Some (s, rest).
Proof.
  induction s as [|[b0 b1 b2 b3 b4 b5 b6 b7] s IHs]; [done|].
  cbn [put_string get_string]. rewrite !unbit_bit, IHs. done.
Qed.

Lemma get_put_pos p rest : get_pos (put_pos p rest) = Some (p, rest).
Proof. induction p as [q IHq|q IHq|]; simpl; by rewrite ?IHq. Qed.

Lemma get_put_Z z rest : get_Z (put_Z z rest) = Some (z, rest).
Proof. destruct z; simpl; by rewrite ?get_put_pos. Qed.

Lemma without_put_string s rest :
  without " " (put_string s rest) = without " " rest.
Proof.
  induction s as [|[b0 b1 b2 b3 b4 b5 b6 b7] s IHs]; [done|].
  cbn [put_string without]. rewrite !bit_not_space, IHs. done.
Qed.

Lemma without_put_pos p rest : without " " (put_pos p rest) = without " " rest.
Proof. induction p as [q IHq|q IHq|]; simpl; by rewrite ?IHq. Qed.

Lemma without_put_Z z rest : without " " (put_Z z rest) = without " " rest.
Proof. destruct z; simpl; by rewrite ?without_put_pos. Qed.

(** What [bits_decode] finds in a token made by [bits_encode]. *)
Lemma bits_decode_encode s1 s2 c :
  bits_decode s2 (bits_encode s1 c) = if decide (s1 = s2) then Some c else None.
Proof.
  unfold bits_decode, bits_encode.
  rewrite get_put_string; simpl. rewrite get_put_string; simpl.
  rewrite get_put_Z; simpl. rewrite get_put_Z; simpl.
  rewrite get_put_string; simpl. destruct c.
  repeat case_decide; intuition congruence.
Qed.

Lemma bits_decode_same secret c : bits_decode secret (bits_encode secret c) = Some c.
Proof. by rewrite bits_decode_encode, decide_True. Qed.

Lemma bits_decode_other s1 s2 c : s1 <> s2 -> bits_decode s2 (bits_encode s1 c) = None.
Proof. intros Hne. by rewrite bits_decode_encode, decide_False. Qed.

Lemma bits_encode_word secret c : without " " (bits_encode secret c) = true.
Proof.
  unfold bits_encode.
  by rewrite !without_put_string, !without_put_Z, without_put_string.
Qed.

Lemma bits_encode_nonempty secret c : bits_encode secret c <> "".
Proof. destruct c as [[|[]] ? ? ?]; done. Qed.

#[global] Instance bits : Jwt := {|
  timespan := bits_timespan;
  encode := bits_encode;
  decode := bits_decode;
  timespan_24h := eq_refl;
  decode_encode := bits_decode_same;
  decode_secret := bits_decode_other;
  encode_word := bits_encode_word;
  encode_nonempty := bits_encode_nonempty
|}.

(** ** Lemmas: signing and verifying *)

Section jwt.
Context `{Jwt}.

(** A token signed under a truthy secret verifies under it until its
    expiry, and not from then on. *)
Lemma verify_sign p key expiresIn n now :
  key <> "" -> timespan expiresIn = Some n ->
  exists token,
    sign p (Some key) expiresIn = Ok token /\
    verify token (Some key) now =
      if bool_decide (p_iat p + n <= now)%Z then None
      else Some (Claims (p_username p) (p_role p) (p_iat p) (p_iat p + n)).
Proof.
  intros Hk Hn. eexists. unfold sign, verify.
  rewrite !if_truthy_yes, Hn by done. split; [done|].
  by rewrite decode_encode.
Qed.

(** A token signed under one secret does not verify under another. *)
Lemma verify_other_secret p k1 (k2 : option string) expiresIn token now :
  Some k1 <> k2 -> sign p (Some k1) expiresIn = Ok token ->
  verify token k2 now = None.
Proof.
  intros Hne. unfold sign, verify, if_truthy.
  destruct (k1 =? "")%string; [done|]. destruct (timespan expiresIn); [|done].
  intros [= <-]. destruct k2 as [k2|]; [|done].
  destruct (k2 =? "")%string; [done|]. rewrite decode_secret; [done|congruence].
Qed.

(** Without a secret nothing is signed and nothing verifies. *)
Lemma sign_no_secret p secret expiresIn :
  truthy secret = false -> sign p secret expiresIn = Throw SignFailure.
Proof. intros Hs. unfold sign. by rewrite if_truthy_no. Qed.

Lemma verify_no_secret token secret now :
  truthy secret = false -> verify token secret now = None.
Proof. intros Hs. unfold verify. by rewrite if_truthy_no. Qed.

(** A signed token is one non-empty word. *)
Lemma sign_word p secret expiresIn token :
  sign p secret expiresIn = Ok token -> without " " token = true /\ token <> "".
Proof.
  unfold sign, if_truthy. destruct secret as [key|]; [|done].
  destruct (key =? "")%string; [done|]. destruct (timespan expiresIn); [|done].
  intros [= <-]. split; [apply encode_word | apply encode_nonempty].
Qed.

End jwt.
