(* ===== verification/AuthGuard.v ===== *)
(** * The guards and the authentication routes

    Module [Auth] models [middleware/auth.js]: [authenticateToken],
    [generateToken], [requireAdmin], [authenticateApiKey] and
    [authenticate], each a function from the request to a [guard] (a
    response, or [next()] with what the guard attached to the request).
    Module [AuthController] models [controllers/authController.js]:
    [login], [verifyToken], [getApiInfo] and [healthCheck].

    The token library is the class [Jwt]; the clock ([Date.now()] in
    seconds) is the parameter [now]; what [healthCheck] reads of the
    process is the class [Process].  The theorems hold for every instance
    of the class, and the examples run on the instance [bits]. *)

From Stdlib Require Import Ascii.
From stdpp Require Import base option strings numbers list.
From S2P Require Import Prelude Store Http Jwt.

(** What the guards read from a request ([req.headers]) and what they
    attach to it ([req.user], [req.apiAuth]). *)
Record request : Type := Request {
  authorization : option string;
  x_api_key : option string;
  user : option claims;
  apiAuth : bool
}.

(** An authorization header: a scheme word, a space, a token. *)
Definition header (scheme token : string) : string :=
  (scheme ++ String " " token)%string.

(** The body of [POST /auth/login] once [validateLogin] has let it
    through: two strings. *)
Record loginBody : Type := LoginBody {
  lb_username : string;
  lb_password : string
}.

Module Auth.

Section guards.
Context `{Jwt}.

(** [authHeader && authHeader.split(' ')[1]] *)
Definition bearer (authHeader : option string) : option string :=
  if_truthy authHeader (fun h => split " " h !! 1%nat) authHeader.

(** [const authenticateToken = (req, res, next) => ...] *)
Definition authenticateToken (cfg : env) (now : Z) (req : request) : guard request :=
  if_truthy (bearer (authorization req))
    (fun token =>
       match verify token (JWT_SECRET cfg) now with
       | None => Respond (failure 403 "Invalid or expired token")
       | Some u => Next (Request (authorization req) (x_api_key req) (Some u) (apiAuth req))
       end)
    (Respond (failure 401 "Access token required")).

(** [const generateToken = (payload) => jwt.sign(...)] *)
Definition generateToken (cfg : env) (p : payload) : result string :=
  sign p (JWT_SECRET cfg) (env_or (JWT_EXPIRES_IN cfg) "24h").

(** [const requireAdmin = (req, res, next) => ...] *)
Definition requireAdmin (req : request) : guard request :=
  match user req with
  | Some u =>
      if negb (String.eqb (c_role u) "admin")
      then Respond (failure 403 "Admin access required")
      else Next req
  | None => Respond (failure 403 "Admin access required")
  end.

(** [const authenticateApiKey = (req, res, next) => ...] *)
Definition authenticateApiKey (cfg : env) (req : request) : guard request :=
  if_truthy (x_api_key req)
    (fun apiKey =>
       let validApiKeys := [env_or (API_KEY cfg) "freeradius-api-key-change-this"] in
       if negb (bool_decide (apiKey ∈ validApiKeys))
       then Respond (failure 403 "Invalid API key")
       else Next (Request (authorization req) (x_api_key req) (user req) true))
    (Respond (failure 401 "API key required")).

(** [const authenticate = (req, res, next) => ...] *)
Definition authenticate (cfg : env) (now : Z) (req : request) : guard request :=
  if truthy (x_api_key req) then authenticateApiKey cfg req
  else if truthy (authorization req) then authenticateToken cfg now req
  else Respond (failure 401 "Authentication required (JWT token or API key)").

End guards.

End Auth.

Module AuthController.

Local Open Scope m_scope.

Section handlers.
Context `{Jwt} `{Process}.

(** [req.user] as [res.json] shows it. *)
Definition claims_json (u : claims) : json :=
  JObj [("username", JStr (c_username u)); ("role", JStr (c_role u));
        ("iat", JNum (c_iat u)); ("exp", JNum (c_exp u))].

(** [{ token, user: { username, role }, expires_in }] *)
Definition login_json (cfg : env) (token adminUsername : string) : json :=
  JObj [("token", JStr token);
        ("user", JObj [("username", JStr adminUsername); ("role", JStr "admin")]);
        ("expires_in", JStr (env_or (JWT_EXPIRES_IN cfg) "24h"))].

(** [static async login(req, res)] *)
Definition login {S} (cfg : env) (now : Z) (body : loginBody) : M S response :=
  handled cfg (
    let adminUsername := env_or (ADMIN_USERNAME cfg) "admin" in
    let adminPassword := env_or (ADMIN_PASSWORD cfg) "admin123!" in
    if String.eqb (lb_username body) adminUsername
       && String.eqb (lb_password body) adminPassword
    then
      token <- of_result (Auth.generateToken cfg (Payload adminUsername "admin" now));;
      ret (success 200 "Login successful" (Some (login_json cfg token adminUsername)))
    else ret (failure 401 "Invalid credentials")).

(** [static async verifyToken(req, res)] *)
Definition verifyToken {S} (cfg : env) (req : request) : M S response :=
  handled cfg (
    ret (success 200 "Token is valid"
           (Some (JObj (jfield "user" (claims_json <$> user req) ++
                        [("valid", JBool true)]))))).

(** [static async getApiInfo(req, res)] *)
Definition getApiInfo {S} (cfg : env) : M S response :=
  handled cfg (
    ret (success 200 "API information retrieved successfully"
      (Some (JObj
        [("name", JStr "FreeRADIUS API");
         ("version", JStr "1.0.0");
         ("description",
          JStr "REST API for FreeRADIUS management with NAS and user CRUD operations");
         ("endpoints", JObj
           [("authentication", JObj
              [("login", JStr "POST /api/v1/auth/login");
               ("verify", JStr "GET /api/v1/auth/verify")]);
            ("nas", JObj
              [("list", JStr "GET /api/v1/nas");
               ("get", JStr "GET /api/v1/nas/:id");
               ("create", JStr "POST /api/v1/nas");
               ("update", JStr "PUT /api/v1/nas/:id");
               ("delete", JStr "DELETE /api/v1/nas/:id");
               ("stats", JStr "GET /api/v1/nas/stats")]);
            ("users", JObj
              [("list", JStr "GET /api/v1/users");
               ("get", JStr "GET /api/v1/users/:username");
               ("create", JStr "POST /api/v1/users");
               ("update", JStr "PUT /api/v1/users/:username");
               ("delete", JStr "DELETE /api/v1/users/:username");
               ("stats", JStr "GET /api/v1/users/stats");
               ("attributes", JStr "GET /api/v1/users/:username/attributes");
               ("reply_attributes", JStr "GET /api/v1/users/:username/reply-attributes");
               ("add_attribute", JStr "POST /api/v1/users/:username/attributes");
               ("remove_attribute", JStr "DELETE /api/v1/users/:username/attributes")])]);
         ("authentication_methods",
          JArr [JStr "JWT Token (Bearer)"; JStr "API Key (X-API-Key header)"]);
         ("supported_formats", JArr [JStr "JSON"]);
         ("rate_limiting", JObj
           [("window", JStr "15 minutes"); ("max_requests", JNum 100)])])))).

(** [static async healthCheck(req, res)] *)
Definition healthCheck (now : Z) : M db response :=
  try_catch
    (_ <- query (reading (fun _ => tt));;
     ret (success 200 "API is healthy"
            (Some (JObj [("status", JStr "healthy");
                         ("timestamp", JStr (toISOString now));
                         ("uptime", uptime now);
                         ("database", JStr "connected");
                         ("memory_usage", memoryUsage now);
                         ("node_version", JStr node_version)]))))
    (fun error =>
       ret (Response 503
              (JObj [("success", JBool false);
                     ("message", JStr "API is unhealthy");
                     ("data", JObj [("status", JStr "unhealthy");
                                    ("timestamp", JStr (toISOString now));
                                    ("database", JStr "disconnected");
                                    ("error", JStr (error_message error))])]))).

(** [router.get('/verify', authenticateToken, AuthController.verifyToken)] *)
Definition verify_route {S} (cfg : env) (now : Z) (req : request) : M S response :=
  guarded (Auth.authenticateToken cfg now req) (verifyToken cfg).

End handlers.

End AuthController.

(** ** Lemmas: the header *)

(** The token of a header [scheme token]: the second word. *)
Lemma bearer_second scheme token :
  without " " scheme = true -> without " " token = true ->
  Auth.bearer (Some (header scheme token)) = Some token.
Proof.
  intros Hs Ht. unfold Auth.bearer, header.
  rewrite if_truthy_yes by (by destruct scheme).
  by rewrite split_app, split_without.
Qed.

(** A header of one word carries no token. *)
Lemma bearer_one_word h : without " " h = true -> truthy (Auth.bearer (Some h)) = false.
Proof.
  intros Hh. unfold Auth.bearer, if_truthy.
  destruct (h =? "")%string eqn:E; [by simpl; rewrite E|]. by rewrite split_without.
Qed.

(** ** Lemmas: login and issued tokens *)

Section issued.
Context `{Jwt}.

(** What [login] answers: the credentials decide between 401 and a token,
    and a token that cannot be signed is a 500. *)
Lemma login_answer {S} cfg now body (s : S) :
  AuthController.login cfg now body s =
  (Ok (if String.eqb (lb_username body) (env_or (ADMIN_USERNAME cfg) "admin")
          && String.eqb (lb_password body) (env_or (ADMIN_PASSWORD cfg) "admin123!")
       then match Auth.generateToken cfg
                    (Payload (env_or (ADMIN_USERNAME cfg) "admin") "admin" now) with
            | Ok token =>
                success 200 "Login successful"
                  (Some (AuthController.login_json cfg token
                           (env_or (ADMIN_USERNAME cfg) "admin")))
            | Throw e => internal_error cfg e
            end
       else failure 401 "Invalid credentials"), s).
Proof.
  unfold AuthController.login, handled, try_catch, bind, of_result.
  destruct (_ && _); [|done]. by destruct (Auth.generateToken _ _).
Qed.

(** What [authenticateToken] answers to a header [scheme token]. *)
Lemma authenticateToken_header cfg now scheme token k u a :
  without " " scheme = true -> without " " token = true -> token <> "" ->
  Auth.authenticateToken cfg now (Request (Some (header scheme token)) k u a) =
  match verify token (JWT_SECRET cfg) now with
  | None => Respond (failure 403 "Invalid or expired token")
  | Some c => Next (Request (Some (header scheme token)) k (Some c) a)
  end.
Proof.
  intros Hs Ht Hne. unfold Auth.authenticateToken. cbn [authorization x_api_key apiAuth].
  by rewrite bearer_second, if_truthy_yes by done.
Qed.

End issued.

(** ** Theorems *)

(** C40. Login, then verify: with a signing secret configured, [login]
    with the administrator's credentials answers 200 with a token;
    [authenticateToken] lets a request bearing that token through, with
    the claims [{username, role: admin, iat, exp}] attached, as long as the
    clock is before [iat] plus the configured lifetime, and answers 403
    from then on; the request let through passes [requireAdmin]. *)
Theorem auth_login_then_verify `{Jwt} {S} cfg key n now now' (s : S) :
  JWT_SECRET cfg = Some key -> key <> "" ->
  timespan (env_or (JWT_EXPIRES_IN cfg) "24h") = Some n ->
  let admin := env_or (ADMIN_USERNAME cfg) "admin" in
  let password := env_or (ADMIN_PASSWORD cfg) "admin123!" in
  exists token,
    AuthController.login cfg now (LoginBody admin password) s =
      (Ok (success 200 "Login successful"
             (Some (AuthController.login_json cfg token admin))), s) /\
    Auth.authenticateToken cfg now'
        (Request (Some (header "Bearer" token)) None None false) =
      (if bool_decide (now + n <= now')%Z
       then Respond (failure 403 "Invalid or expired token")
       else Next (Request (Some (header "Bearer" token)) None
                    (Some (Claims admin "admin" now (now + n))) false)) /\
    Auth.requireAdmin
        (Request (Some (header "Bearer" token)) None
           (Some (Claims admin "admin" now (now + n))) false) =
      Next (Request (Some (header "Bearer" token)) None
              (Some (Claims admin "admin" now (now + n))) false).
Proof.
  intros Hk Hne Hn admin password.
  destruct (verify_sign (Payload admin "admin" now) key _ n now' Hne Hn)
    as (token & Hsign & Hverify).
  destruct (sign_word _ _ _ _ Hsign) as [Hword Hfull].
  exists token. split; [|split; [|done]].
  - rewrite login_answer. cbn [lb_username lb_password].
    rewrite !String.eqb_refl. unfold Auth.generateToken. fold admin.
    by rewrite Hk, Hsign.
  - rewrite authenticateToken_header, Hk, Hverify by done.
    cbn [p_iat p_username p_role]. by destruct (bool_decide _).
Qed.

Lemma auth_login_then_verify_witness :
  let cfg := Env None (Some "s3cret") None None None None in
  exists token,
    AuthController.login (H := bits) cfg 1000 (LoginBody "admin" "admin123!") tt =
      (Ok (success 200 "Login successful"
             (Some (AuthController.login_json cfg token "admin"))), tt) /\
    Auth.authenticateToken (H := bits) cfg 90000
        (Request (Some (header "Bearer" token)) None None false) =
      (if bool_decide (1000 + 86400 <= 90000)%Z
       then Respond (failure 403 "Invalid or expired token")
       else Next (Request (Some (header "Bearer" token)) None
                    (Some (Claims "admin" "admin" 1000 (1000 + 86400))) false)) /\
    Auth.requireAdmin
        (Request (Some (header "Bearer" token)) None
           (Some (Claims "admin" "admin" 1000 (1000 + 86400))) false) =
      Next (Request (Some (header "Bearer" token)) None
              (Some (Claims "admin" "admin" 1000 (1000 + 86400))) false).
Proof.
  exact (auth_login_then_verify (H := bits) (Env None (Some "s3cret") None None None None)
           "s3cret" 86400 1000 90000 tt eq_refl ltac:(discriminate) eq_refl).
Defined.

(** No credential, no entry: a request with neither an API key nor an
    authorization header (or with empty ones) is answered 401 by
    [authenticate]. *)
Theorem auth_no_credentials `{Jwt} cfg now req :
  truthy (x_api_key req) = false -> truthy (authorization req) = false ->
  Auth.authenticate cfg now req =
    Respond (failure 401 "Authentication required (JWT token or API key)").
Proof. intros Hk Ha. unfold Auth.authenticate. by rewrite Hk, Ha. Qed.

Lemma auth_no_credentials_witness :
  Auth.authenticate (H := bits) unset_env 0 (Request None (Some "") None false) =
    Respond (failure 401 "Authentication required (JWT token or API key)").
Proof.
  exact (auth_no_credentials (H := bits) unset_env 0%Z
           (Request None (Some "") None false) eq_refl eq_refl).
Defined.

(** The API key is looked at first and alone: when the request has an
    API key, [authenticate] lets it through exactly when the key is the
    configured one (or the built-in fallback when none is configured), and
    answers 403 otherwise, whatever the authorization header holds. *)
Theorem auth_api_key_first `{Jwt} cfg now req k :
  x_api_key req = Some k -> k <> "" ->
  Auth.authenticate cfg now req =
    if decide (k = env_or (API_KEY cfg) "freeradius-api-key-change-this")
    then Next (Request (authorization req) (Some k) (user req) true)
    else Respond (failure 403 "Invalid API key").
Proof.
  intros Hk Hne. unfold Auth.authenticate, Auth.authenticateApiKey.
  rewrite Hk, (proj2 (truthy_Some k)), if_truthy_yes by done.
  case_decide as E.
  - rewrite bool_decide_eq_true_2; [done | by rewrite E; left].
  - rewrite bool_decide_eq_false_2; [done|].
    rewrite elem_of_cons, elem_of_nil. tauto.
Qed.

Lemma auth_api_key_first_witness :
  Auth.authenticate (H := bits) (Env None (Some "s3cret") None (Some "key-1") None None) 0
    (Request (Some "Bearer anything") (Some "key-2") None false) =
  Respond (failure 403 "Invalid API key").
Proof.
  exact (auth_api_key_first (H := bits)
           (Env None (Some "s3cret") None (Some "key-1") None None) 0%Z
           (Request (Some "Bearer anything") (Some "key-2") None false) "key-2"
           eq_refl ltac:(discriminate)).
Defined.

(** A token is required: an authorization header of a single word
    (["Bearer"] alone, or a bare token) is answered 401 by
    [authenticateToken]. *)
Theorem auth_token_required `{Jwt} cfg now req h :
  authorization req = Some h -> without " " h = true ->
  Auth.authenticateToken cfg now req = Respond (failure 401 "Access token required").
Proof.
  intros Hh Hw. unfold Auth.authenticateToken. rewrite Hh.
  by rewrite if_truthy_no by by apply bearer_one_word.
Qed.

Lemma auth_token_required_witness :
  Auth.authenticateToken (H := bits) unset_env 0 (Request (Some "Bearer") None None false) =
    Respond (failure 401 "Access token required").
Proof.
  exact (auth_token_required (H := bits) unset_env 0%Z
           (Request (Some "Bearer") None None false) "Bearer" eq_refl eq_refl).
Defined.

(** The scheme word is not looked at: [authenticateToken] answers a
    header [scheme token] as it answers [Bearer token], for every word in
    place of [Bearer], the empty one included. *)
Theorem auth_scheme_unchecked `{Jwt} cfg now scheme token k u a :
  without " " scheme = true -> without " " token = true ->
  Auth.authenticateToken cfg now (Request (Some (header scheme token)) k u a) =
  match Auth.authenticateToken cfg now (Request (Some (header "Bearer" token)) k u a) with
  | Next req => Next (Request (Some (header scheme token)) k (user req) a)
  | Respond r => Respond r
  end.
Proof.
  intros Hs Ht. unfold Auth.authenticateToken. cbn [authorization x_api_key apiAuth].
  rewrite (bearer_second scheme), (bearer_second "Bearer" token) by done.
  unfold if_truthy. destruct (token =? "")%string; [done|].
  by destruct (verify _ _ _).
Qed.

Lemma auth_scheme_unchecked_witness :
  Auth.authenticateToken (H := bits) unset_env 0
    (Request (Some (header "Basic" "abc")) None None false) =
  match Auth.authenticateToken (H := bits) unset_env 0
          (Request (Some (header "Bearer" "abc")) None None false) with
  | Next req => Next (Request (Some (header "Basic" "abc")) None (user req) false)
  | Respond r => Respond r
  end.
Proof.
  exact (auth_scheme_unchecked (H := bits) unset_env 0%Z "Basic" "abc" None None false
           eq_refl eq_refl).
Defined.

(** Wrong credentials, no token: [login] with a username or a
    password that is not the administrator's answers 401 with the message
    ["Invalid credentials"] and nothing else. *)
Theorem auth_login_rejects `{Jwt} {S} cfg now body (s : S) :
  (lb_username body, lb_password body) <>
    (env_or (ADMIN_USERNAME cfg) "admin", env_or (ADMIN_PASSWORD cfg) "admin123!") ->
  AuthController.login cfg now body s = (Ok (failure 401 "Invalid credentials"), s).
Proof.
  intros Hne. rewrite login_answer.
  destruct (String.eqb_spec (lb_username body) (env_or (ADMIN_USERNAME cfg) "admin"));
    destruct (String.eqb_spec (lb_password body) (env_or (ADMIN_PASSWORD cfg) "admin123!"));
    simpl; congruence.
Qed.

Lemma auth_login_rejects_witness :
  AuthController.login (H := bits) (Env None (Some "s3cret") None None None None) 1000
    (LoginBody "admin" "letmein") tt =
  (Ok (failure 401 "Invalid credentials"), tt).
Proof.
  exact (auth_login_rejects (H := bits) (Env None (Some "s3cret") None None None None)
           1000%Z (LoginBody "admin" "letmein") tt ltac:(discriminate)).
Defined.

(** Without a signing secret nobody gets in by token: when
    [JWT_SECRET] is unset or empty, [login] with the right credentials
    answers 500, and [authenticateToken] answers 403 to every token. *)
Theorem auth_unset_secret `{Jwt} {S} cfg now (s : S) token :
  truthy (JWT_SECRET cfg) = false ->
  without " " token = true -> token <> "" ->
  AuthController.login cfg now
      (LoginBody (env_or (ADMIN_USERNAME cfg) "admin")
                 (env_or (ADMIN_PASSWORD cfg) "admin123!")) s =
    (Ok (internal_error cfg SignFailure), s) /\
  Auth.authenticateToken cfg now (Request (Some (header "Bearer" token)) None None false) =
    Respond (failure 403 "Invalid or expired token").
Proof.
  intros Hs Hw Hne. split.
  - rewrite login_answer. cbn [lb_username lb_password]. rewrite !String.eqb_refl.
    unfold Auth.generateToken. by rewrite sign_no_secret.
  - by rewrite authenticateToken_header, verify_no_secret.
Qed.

Lemma auth_unset_secret_witness :
  AuthController.login (H := bits) unset_env 1000 (LoginBody "admin" "admin123!") tt =
    (Ok (internal_error unset_env SignFailure), tt) /\
  Auth.authenticateToken (H := bits) unset_env 1000
    (Request (Some (header "Bearer" "abc")) None None false) =
    Respond (failure 403 "Invalid or expired token").
Proof.
  exact (auth_unset_secret (H := bits) unset_env 1000%Z tt "abc" eq_refl eq_refl
           ltac:(discriminate)).
Defined.

(** The built-in API key: when [API_KEY] is unset or empty, a request
    with the key ["freeradius-api-key-change-this"] is let through by
    [authenticate], with [apiAuth] set. *)
Theorem auth_default_api_key `{Jwt} cfg now a u b :
  truthy (API_KEY cfg) = false ->
  Auth.authenticate cfg now (Request a (Some "freeradius-api-key-change-this") u b) =
    Next (Request a (Some "freeradius-api-key-change-this") u true).
Proof.
  intros Hk. unfold Auth.authenticate, Auth.authenticateApiKey.
  cbn [x_api_key authorization user]. rewrite if_truthy_yes by done.
  by rewrite env_or_unset.
Qed.

Lemma auth_default_api_key_witness :
  Auth.authenticate (H := bits) unset_env 0
    (Request None (Some "freeradius-api-key-change-this") None false) =
  Next (Request None (Some "freeradius-api-key-change-this") None true).
Proof.
  exact (auth_default_api_key (H := bits) unset_env 0%Z None None false eq_refl).
Defined.
