(* ===== verification/NasRepo.v ===== *)
(** * The NAS repository ([models/NasModel.js])

    Module [NasModel] holds one definition per static method of the class.
    Every method is one statement through the pool ([db.query]), so each
    runs in autocommit mode: it takes effect as a whole or not at all.  The
    statements on the [nas] table are pure functions on the tables
    ([insert_nas], [update_nas], [delete_nas], [select_nas]).

    [nas_wf] is the invariant of the table: ids are distinct and below the
    auto-increment counter, no two rows share a name, no two rows share an
    address.  The theorems give what each method does on a healthy store
    and what it needs to keep the invariant. *)

From stdpp Require Import base option strings numbers list sorting.
From S2P Require Import Prelude Store.

Module NasModel.

(** ** Data *)

(** The object [create] and [update] destructure: [{ name, ip, secret,
    type, ports, community, description }]; a property that is left out
    is [undefined]. *)
Record nasData : Type := NasData {
  nd_name : option string;
  nd_ip : option string;
  nd_secret : option string;
  nd_type : option string;
  nd_ports : option Z;
  nd_community : option string;
  nd_description : option string
}.

(** ** Statements *)

(** [INSERT INTO nas (shortname, ...) VALUES (?, ...)]: the new row takes
    the next id; the answer is [insertId]. *)
Definition insert_nas (row : Z -> nas_row) (ts : tables) : Z * tables :=
  let t := nas ts in
  (next_id t, set_nas (Table (rows t ++ [row (next_id t)]) (next_id t + 1)) ts).

(** [UPDATE nas SET ... WHERE P]: the answer is [affectedRows]. *)
Definition update_nas (P : nas_row -> Prop) `{!forall r, Decision (P r)}
    (set : nas_row -> nas_row) (ts : tables) : nat * tables :=
  let t := nas ts in
  (length (filter P (rows t)),
   set_nas (Table ((fun r => if decide (P r) then set r else r) <$> rows t) (next_id t)) ts).

(** [DELETE FROM nas WHERE P]: the answer is [affectedRows]. *)
Definition delete_nas (P : nas_row -> Prop) `{!forall r, Decision (P r)}
    (ts : tables) : nat * tables :=
  let t := nas ts in
  (length (filter P (rows t)),
   set_nas (Table (filter (fun r => ~ P r) (rows t)) (next_id t)) ts).

(** [SELECT ... FROM nas WHERE P] *)
Definition select_nas (P : nas_row -> Prop) `{!forall r, Decision (P r)}
    (ts : tables) : list nas_row :=
  filter P (rows (nas ts)).

(** [WHERE id = ?] *)
Definition has_id (id : Z) (r : nas_row) : Prop := n_id r = id.

(** [WHERE (shortname = ? OR nasname = ?)], with [AND id != ?] when
    [excludeId] is truthy. *)
Definition collides (shortname nasname : string) (excludeId : option Z)
    (r : nas_row) : Prop :=
  (n_shortname r = shortname \/ n_nasname r = nasname) /\
  (if truthy_num excludeId then Some (n_id r) <> excludeId else True).

(** [WHERE shortname LIKE ? OR nasname LIKE ? OR description LIKE ?] *)
Definition matches (pattern : string) (r : nas_row) : Prop :=
  like pattern (n_shortname r) || like pattern (n_nasname r)
  || like pattern (n_description r) = true.

#[global] Instance has_id_dec id r : Decision (has_id id r).
Proof. unfold has_id. apply _. Defined.
#[global] Instance collides_dec s n e r : Decision (collides s n e r).
Proof. unfold collides. destruct (truthy_num e); apply _. Defined.
#[global] Instance matches_dec p r : Decision (matches p r).
Proof. unfold matches. apply _. Defined.

(** [ORDER BY shortname] *)
Definition by_shortname (a b : nas_row) : Prop :=
  String.leb (n_shortname a) (n_shortname b) = true.

#[global] Instance by_shortname_dec a b : Decision (by_shortname a b).
Proof. unfold by_shortname. apply _. Defined.

(** The row [update] writes over a row it matched. *)
Definition rewritten (name ip secret type : string) (ports : Z)
    (community description : string) (r : nas_row) : nas_row :=
  NasRow (n_id r) name ip secret type ports community description.

(** ** Methods *)

Local Open Scope m_scope.

(** [static async getAll()] *)
Definition getAll : M db (list nas_row) :=
  query (reading (fun ts => merge_sort by_shortname (select_nas (fun _ => True) ts))).

(** [static async getById(id)] *)
Definition getById (id : Z) : M db (option nas_row) :=
  result <- query (reading (select_nas (has_id id)));;
  ret (head result).

(** [static async getByShortname(shortname)] *)
Definition getByShortname (shortname : string) : M db (option nas_row) :=
  result <- query (reading (select_nas (fun r => n_shortname r = shortname)));;
  ret (head result).

(** [static async getByIp(nasname)] *)
Definition getByIp (nasname : string) : M db (option nas_row) :=
  result <- query (reading (select_nas (fun r => n_nasname r = nasname)));;
  ret (head result).

(** [static async create(nasData)] *)
Definition create (nasData : nasData) : M db nas_row :=
  let type := default "other" (nd_type nasData) in
  let ports := default 1812%Z (nd_ports nasData) in
  let community := default "" (nd_community nasData) in
  let description := default "" (nd_description nasData) in
  name <- bound (nd_name nasData);;
  ip <- bound (nd_ip nasData);;
  secret <- bound (nd_secret nasData);;
  insertId <- query (insert_nas (fun id =>
                NasRow id name ip secret type ports community description));;
  ret (NasRow insertId name ip secret type ports community description).

(** [static async update(id, nasData)] *)
Definition update (id : Z) (nasData : nasData) : M db (option nas_row) :=
  name <- bound (nd_name nasData);;
  ip <- bound (nd_ip nasData);;
  secret <- bound (nd_secret nasData);;
  type <- bound (nd_type nasData);;
  ports <- bound (nd_ports nasData);;
  community <- bound (nd_community nasData);;
  description <- bound (nd_description nasData);;
  affectedRows <- query (update_nas (has_id id)
                    (rewritten name ip secret type ports community description));;
  if bool_decide (affectedRows = 0%nat) then ret None
  else getById id.

(** [static async delete(id)] *)
Definition delete (id : Z) : M db bool :=
  affectedRows <- query (delete_nas (has_id id));;
  ret (bool_decide (0 < affectedRows)%nat).

(** [static async exists(shortname, nasname, excludeId = null)] *)
Definition exists_ (shortname nasname : option string) (excludeId : option Z)
    : M db bool :=
  shortname <- bound shortname;;
  nasname <- bound nasname;;
  result <- query (reading (select_nas (collides shortname nasname excludeId)));;
  ret (nonempty result).

(** [static async getCount()] *)
Definition getCount : M db nat :=
  query (reading (fun ts => length (rows (nas ts)))).

(** [static async search(searchTerm)] *)
Definition search (searchTerm : string) : M db (list nas_row) :=
  query (reading (fun ts =>
    merge_sort by_shortname (select_nas (matches (search_pattern searchTerm)) ts))).

(** ** Views and invariant *)

(** What [getById] answers on given tables. *)
Definition find_nas (id : Z) (ts : tables) : option nas_row :=
  head (select_nas (has_id id) ts).

(** Ids are distinct and below the counter of the table. *)
Definition ids_fresh (ts : tables) : Prop :=
  NoDup (n_id <$> rows (nas ts)) /\
  Forall (fun r => (n_id r < next_id (nas ts))%Z) (rows (nas ts)).

(** The uniqueness invariant: no two rows share a name or an address. *)
Definition unique_nas (ts : tables) : Prop :=
  NoDup (n_shortname <$> rows (nas ts)) /\ NoDup (n_nasname <$> rows (nas ts)).

Definition nas_wf (ts : tables) : Prop := ids_fresh ts /\ unique_nas ts.

(** The payloads the schemas let through: a string that is given is not
    empty. *)
Definition given (o : option string) : Prop := o <> Some "".

(** A store with one NAS, for the examples. *)
Definition router1 : nas_row :=
  NasRow 1 "router1" "10.0.0.1" "s3cr3t-key" "other" 1812 "" "".

Definition router_db : db :=
  Db (Tables (Table [] 1) (Table [] 1) (Table [router1] 2)) [] 0.

(** ** Lemmas: statements *)

Lemma nas_set_nas x ts : nas (set_nas x ts) = x.
Proof. done. Qed.

Lemma select_insert_nas P `{!forall r, Decision (P r)} row ts :
  select_nas P (insert_nas row ts).2 =
  select_nas P ts ++
  (if decide (P (row (next_id (nas ts)))) then [row (next_id (nas ts))] else []).
Proof. unfold select_nas, insert_nas; simpl. by rewrite filter_snoc. Qed.

(** A map over a list keeps the images distinct when it changes at most
    the rows of one key, to an image no other row has. *)
Lemma NoDup_fmap_rewrite {A B K} `{EqDecision K} (key : A -> K) (f : A -> B)
    (g : A -> A) (k : K) (v : B) (l : list A) :
  NoDup (key <$> l) -> NoDup (f <$> l) ->
  (forall r, f (g r) = v) ->
  (forall r, r ∈ l -> key r <> k -> f r <> v) ->
  NoDup (f <$> ((fun r => if decide (key r = k) then g r else r) <$> l)).
Proof.
  intros Hk Hf Hg Hv. induction l as [|a l IHl]; [constructor|].
  rewrite !fmap_cons in *. apply NoDup_cons in Hk as [Hka Hk].
  apply NoDup_cons in Hf as [Hfa Hf]. apply NoDup_cons. split.
  - rewrite <- list_fmap_compose. intros (r & E & Hr)%list_elem_of_fmap_1.
    simpl in E. destruct (decide (key a = k)) as [Ea|Ea];
      destruct (decide (key r = k)) as [Er|Er].
    + apply Hka, list_elem_of_fmap. exists r. split; [congruence|done].
    + rewrite Hg in E. eapply Hv; [by right|done|done].
    + rewrite Hg in E. eapply (Hv a); [by left|done|done].
    + apply Hfa, list_elem_of_fmap. by exists r.
  - apply IHl; [done..|]. intros r Hr. apply Hv. by right.
Qed.

Lemma NoDup_fmap_filter {A B} (f : A -> B) (P : A -> Prop)
    `{!forall x, Decision (P x)} (l : list A) :
  NoDup (f <$> l) -> NoDup (f <$> filter P l).
Proof.
  induction l as [|a l IHl]; [done|]. rewrite fmap_cons, filter_cons.
  intros [Ha Hl]%NoDup_cons. case_decide; [|by apply IHl].
  rewrite fmap_cons. apply NoDup_cons. split; [|by apply IHl].
  intros (r & E & Hr)%list_elem_of_fmap_1. apply list_elem_of_filter in Hr as [_ Hr].
  apply Ha, list_elem_of_fmap. by exists r.
Qed.

(** ** Lemmas: the methods on a healthy store *)

Lemma getById_healthy id d :
  healthy d -> getById id d = (Ok (find_nas id (committed d)), d).
Proof. intros H. unfold getById, bind. by rewrite query_reading_healthy. Qed.

Lemma exists_healthy_nas s n e d :
  healthy d ->
  exists_ (Some s) (Some n) e d =
  (Ok (nonempty (select_nas (collides s n e) (committed d))), d).
Proof. intros H. unfold exists_, bound, bind, ret. by rewrite query_reading_healthy. Qed.

Lemma create_healthy_nas name ip secret ty po co de d :
  healthy d ->
  let row id := NasRow id name ip secret (default "other" ty) (default 1812%Z po)
                  (default "" co) (default "" de) in
  create (NasData (Some name) (Some ip) (Some secret) ty po co de) d =
  (Ok (row (next_id (nas (committed d)))),
   set_committed (insert_nas row (committed d)).2 d).
Proof.
  intros H row. unfold create, bound, bind, ret. cbn [nd_name nd_ip nd_secret].
  by rewrite query_healthy.
Qed.

(** A row with an id that is in use once is what [getById] finds. *)
Lemma find_nas_fresh id row ts :
  ids_fresh ts -> id = next_id (nas ts) -> n_id (row id) = id ->
  find_nas id (insert_nas row ts).2 = Some (row id).
Proof.
  intros [_ Hlt] -> Hid. unfold find_nas. rewrite select_insert_nas.
  rewrite decide_True by done. unfold select_nas.
  rewrite filter_none; [done|]. intros r Hr. unfold has_id.
  rewrite Forall_forall in Hlt. specialize (Hlt r Hr). lia.
Qed.

Lemma update_healthy_nas id name ip secret ty po co de d :
  healthy d ->
  let ts := (update_nas (has_id id) (rewritten name ip secret ty po co de)
               (committed d)).2 in
  update id (NasData (Some name) (Some ip) (Some secret) (Some ty) (Some po)
               (Some co) (Some de)) d =
  (Ok (if nonempty (select_nas (has_id id) (committed d)) then find_nas id ts else None),
   set_committed ts d).
Proof.
  intros H ts. unfold update, bound, bind, ret.
  cbn [nd_name nd_ip nd_secret nd_type nd_ports nd_community nd_description].
  rewrite query_healthy by done. cbn [fst snd update_nas].
  fold (select_nas (has_id id) (committed d)).
  destruct (select_nas (has_id id) (committed d)) eqn:E; [done|].
  rewrite bool_decide_eq_false_2 by done.
  fold (bind (query (reading (select_nas (has_id id)))) (fun l => ret (head l))).
  fold (getById id). by rewrite getById_healthy.
Qed.

Lemma delete_healthy_nas id d :
  healthy d ->
  delete id d =
  (Ok (nonempty (select_nas (has_id id) (committed d))),
   set_committed (delete_nas (has_id id) (committed d)).2 d).
Proof.
  intros H. unfold delete, bind. rewrite query_healthy by done.
  unfold ret; simpl. by rewrite bool_decide_length_pos.
Qed.

(** ** Lemmas: the methods under every fault plan *)

(** [getById] answers from the committed tables and leaves them alone. *)
Lemma getById_effect id d r d' :
  getById id d = (r, d') ->
  committed d' = committed d /\ forall x, r = Ok x -> x = find_nas id (committed d).
Proof.
  unfold getById, bind, ret.
  destruct (query _ d) as [[l|e] d1] eqn:Hq; intros [= <- <-].
  - split; [by eapply query_reading_committed|]. intros x [= <-].
    apply query_spec in Hq as [_ Hq]. unfold reading in Hq. by injection Hq as ->.
  - split; [by eapply query_reading_committed | done].
Qed.

Lemma exists_effect s n e d r d' :
  exists_ s n e d = (r, d') ->
  committed d' = committed d /\
  forall b, r = Ok b ->
    exists s' n', s = Some s' /\ n = Some n' /\
      b = nonempty (select_nas (collides s' n' e) (committed d)).
Proof.
  unfold exists_, bound, bind, ret, throw.
  destruct s as [s'|], n as [n'|]; try by intros [= <- <-].
  destruct (query _ d) as [[l|e'] d1] eqn:Hq; intros [= <- <-].
  - split; [by eapply query_reading_committed|]. intros x [= <-].
    apply query_spec in Hq as [_ Hq]. unfold reading in Hq. injection Hq as ->.
    by exists s', n'.
  - split; [by eapply query_reading_committed | done].
Qed.

(** A method changes the tables only by its one statement. *)
Lemma create_effect data d r d' :
  create data d = (r, d') ->
  match r with
  | Ok row =>
      committed d' = (insert_nas (fun id => rewritten (n_shortname row) (n_nasname row)
                        (n_secret row) (n_type row) (n_ports row) (n_community row)
                        (n_description row) (NasRow id "" "" "" "" 0 "" ""))
                        (committed d)).2 /\
      nd_name data = Some (n_shortname row) /\ nd_ip data = Some (n_nasname row)
  | Throw _ => committed d' = committed d
  end.
Proof.
  unfold create, bound, bind, ret, throw.
  destruct (nd_name data) as [name|], (nd_ip data) as [ip|],
    (nd_secret data) as [secret|]; try by intros [= <- <-].
  destruct (query _ d) as [[insertId|e] d1] eqn:Hq; apply query_spec in Hq as [_ Hq];
    intros [= <- <-]; [|done].
  unfold insert_nas in *. by injection Hq as _ ->.
Qed.

Lemma update_effect id data d r d' :
  update id data d = (r, d') ->
  committed d' = committed d \/
  exists name ip secret ty po co de,
    nd_name data = Some name /\ nd_ip data = Some ip /\
    committed d' = (update_nas (has_id id) (rewritten name ip secret ty po co de)
                      (committed d)).2.
Proof.
  unfold update, bound, bind, ret, throw.
  destruct (nd_name data) as [name|], (nd_ip data) as [ip|],
    (nd_secret data) as [secret|], (nd_type data) as [ty|], (nd_ports data) as [po|],
    (nd_community data) as [co|], (nd_description data) as [de|];
    try by (intros [= <- <-]; left).
  destruct (query _ d) as [[n|e] d1] eqn:Hq; apply query_spec in Hq as [_ Hq];
    [|intros [= <- <-]; by left].
  apply (f_equal snd) in Hq. cbn [snd] in Hq.
  intros E. right. exists name, ip, secret, ty, po, co, de.
  split; [done|]. split; [done|]. rewrite <- Hq.
  case_bool_decide; [by injection E as <- <-|].
  by apply getById_effect in E as [-> _].
Qed.

Lemma delete_effect id d r d' :
  delete id d = (r, d') ->
  committed d' = committed d \/ committed d' = (delete_nas (has_id id) (committed d)).2.
Proof.
  unfold delete, bind, ret.
  destruct (query _ d) as [[n|e] d1] eqn:Hq; apply query_spec in Hq as [_ Hq];
    intros [= <- <-]; [right|by left].
  by injection Hq as _ ->.
Qed.

(** ** Lemmas: the invariant *)

Lemma nas_wf_empty : nas_wf empty_tables.
Proof. repeat split; simpl; constructor. Qed.

(** What an empty answer of the collision query says. *)
Lemma no_collision s n e ts r :
  select_nas (collides s n e) ts = [] -> r ∈ rows (nas ts) ->
  Some (n_id r) <> e -> n_shortname r <> s /\ n_nasname r <> n.
Proof.
  intros Hnone Hr Hid. apply filter_nil_iff in Hnone.
  rewrite Forall_forall in Hnone. specialize (Hnone r Hr). unfold collides in Hnone.
  destruct (truthy_num e); tauto.
Qed.

Lemma nas_wf_insert name ip secret ty po co de ts :
  nas_wf ts -> select_nas (collides name ip None) ts = [] ->
  nas_wf (insert_nas (fun id => NasRow id name ip secret ty po co de) ts).2.
Proof.
  intros [[Hid Hlt] [Hn Hi]] Hnone. unfold nas_wf, ids_fresh, unique_nas, insert_nas.
  cbn [snd nas set_nas rows next_id]. rewrite !fmap_app; simpl.
  assert (forall r, r ∈ rows (nas ts) -> n_shortname r <> name /\ n_nasname r <> ip)
    as Hfree by (intros r Hr; by eapply no_collision).
  repeat split.
  - apply NoDup_app. split; [done|]. split; [|apply NoDup_singleton].
    intros x (r & -> & Hr)%list_elem_of_fmap_1 E%list_elem_of_singleton.
    rewrite Forall_forall in Hlt. specialize (Hlt r Hr). lia.
  - apply Forall_app. split; [|repeat constructor; simpl; lia].
    eapply Forall_impl; [done|]. simpl. lia.
  - apply NoDup_app. split; [done|]. split; [|apply NoDup_singleton].
    intros x (r & -> & Hr)%list_elem_of_fmap_1 E%list_elem_of_singleton.
    by destruct (Hfree r Hr).
  - apply NoDup_app. split; [done|]. split; [|apply NoDup_singleton].
    intros x (r & -> & Hr)%list_elem_of_fmap_1 E%list_elem_of_singleton.
    by destruct (Hfree r Hr).
Qed.

Lemma nas_wf_update id name ip secret ty po co de ts :
  nas_wf ts -> select_nas (collides name ip (Some id)) ts = [] ->
  nas_wf (update_nas (has_id id) (rewritten name ip secret ty po co de) ts).2.
Proof.
  intros [[Hid Hlt] [Hn Hi]] Hnone. unfold nas_wf, ids_fresh, unique_nas, update_nas.
  cbn [snd nas set_nas rows next_id].
  assert (forall r, r ∈ rows (nas ts) -> n_id r <> id ->
            n_shortname r <> name /\ n_nasname r <> ip) as Hfree.
  { intros r Hr Hne. eapply no_collision; [done..|congruence]. }
  repeat split.
  - rewrite <- list_fmap_compose.
    erewrite list_fmap_ext; [exact Hid|]. intros i r _. simpl. by case_decide.
  - apply Forall_fmap. eapply Forall_impl; [done|]. intros r Hr. simpl. by case_decide.
  - apply (NoDup_fmap_rewrite n_id n_shortname
             (rewritten name ip secret ty po co de) id name); try done.
    intros r Hr Hne. by apply Hfree.
  - apply (NoDup_fmap_rewrite n_id n_nasname
             (rewritten name ip secret ty po co de) id ip); try done.
    intros r Hr Hne. by apply Hfree.
Qed.

Lemma nas_wf_delete P `{!forall r, Decision (P r)} ts :
  nas_wf ts -> nas_wf (delete_nas P ts).2.
Proof.
  intros [[Hid Hlt] [Hn Hi]]. unfold nas_wf, ids_fresh, unique_nas, delete_nas.
  cbn [snd nas set_nas rows next_id].
  repeat split; try by apply NoDup_fmap_filter.
  rewrite Forall_forall in *. intros r [_ Hr]%list_elem_of_filter. by apply Hlt.
Qed.

(** The writers keep the invariant on both exit paths, under every fault
    plan: [create] and [update] when no other row has the name or the
    address they write. *)
Lemma create_keeps_wf data :
  db_spec
    (fun ts => nas_wf ts /\
       forall s n, nd_name data = Some s -> nd_ip data = Some n ->
         select_nas (collides s n None) ts = [])
    (create data) (fun _ => nas_wf).
Proof.
  intros d r d' [Hwf Hfree] E. apply create_effect in E.
  destruct r as [row|e]; [|by rewrite E]. destruct E as (-> & Hs & Hn).
  apply nas_wf_insert; [done|]. by apply Hfree.
Qed.

Lemma update_keeps_wf id data :
  db_spec
    (fun ts => nas_wf ts /\
       forall s n, nd_name data = Some s -> nd_ip data = Some n ->
         select_nas (collides s n (Some id)) ts = [])
    (update id data) (fun _ => nas_wf).
Proof.
  intros d r d' [Hwf Hfree] E.
  apply update_effect in E as [->|(s & n & ? & ? & ? & ? & ? & Hs & Hn & ->)]; [done|].
  apply nas_wf_update; [done|]. by apply Hfree.
Qed.

Lemma delete_keeps_wf id : db_spec nas_wf (delete id) (fun _ => nas_wf).
Proof.
  intros d r d' Hwf E. apply delete_effect in E as [->| ->]; [done|].
  by apply nas_wf_delete.
Qed.

(** [update] with a field left out throws before any statement. *)
Lemma update_partial id data d :
  nd_name data = None \/ nd_ip data = None \/ nd_secret data = None \/
  nd_type data = None \/ nd_ports data = None \/ nd_community data = None \/
  nd_description data = None ->
  update id data d = (Throw BindUndefined, d).
Proof.
  unfold update, bound, bind, ret, throw.
  destruct (nd_name data), (nd_ip data), (nd_secret data), (nd_type data),
    (nd_ports data), (nd_community data), (nd_description data); try done.
  intros H. repeat destruct H as [H|H]; done.
Qed.

(** ** Lemmas: every method gives its connection back *)

Lemma nas_getAll_balanced : balanced getAll.
Proof. unfold getAll. eauto with radius. Qed.

Lemma nas_search_balanced s : balanced (search s).
Proof. unfold search. eauto with radius. Qed.

Lemma nas_getById_balanced id : balanced (getById id).
Proof. unfold getById. eauto with radius. Qed.

Lemma nas_getCount_balanced : balanced getCount.
Proof. unfold getCount. eauto with radius. Qed.

Lemma nas_exists_balanced s n e : balanced (exists_ s n e).
Proof. unfold exists_. eauto 10 with radius. Qed.

Lemma nas_create_balanced data : balanced (create data).
Proof. unfold create. eauto 10 with radius. Qed.

Lemma nas_update_balanced id data : balanced (update id data).
Proof.
  unfold update. repeat (apply balanced_bind; [eauto with radius|intros ?]).
  case_bool_decide; eauto using nas_getById_balanced with radius.
Qed.

Lemma nas_delete_balanced id : balanced (delete id).
Proof. unfold delete. eauto with radius. Qed.

Lemma nas_getById_steady id : db_steady (getById id).
Proof. unfold getById. eauto with radius. Qed.

#[global] Hint Resolve nas_getAll_balanced nas_search_balanced nas_getById_balanced
  nas_getCount_balanced nas_exists_balanced nas_create_balanced nas_update_balanced
  nas_delete_balanced nas_getById_steady : radius.

End NasModel.
