(* ===== verification/NasApi.v ===== *)
(** * The NAS controller ([controllers/nasController.js])

    Module [NasController] holds one definition per handler, with its
    guards and early returns in the order of the code, inside the
    [try]/[catch] every handler has.  [request] and [handle] put the
    handlers behind one entry point; [validated] says of a request what the
    schemas of the routes guarantee and the invariant needs: a name or an
    address that is given is not empty.

    The theorems show that every handler answers, that the uniqueness
    invariant [nas_wf] is kept by every validated request under every
    fault plan, and what create and update answer on a healthy store,
    among which the failure of every update that leaves a field out. *)

From stdpp Require Import base option strings numbers relations list sorting.
From S2P Require Import Prelude Store Http NasRepo.

Module NasController.

Local Open Scope m_scope.

(** ** JSON views *)

(** [{ id: nas.id, name: nas.shortname, ip: nas.nasname, secret, type,
       ports, community, description }] *)
Definition nas_json (nas : nas_row) : json :=
  JObj [("id", JNum (n_id nas));
        ("name", JStr (n_shortname nas));
        ("ip", JStr (n_nasname nas));
        ("secret", JStr (n_secret nas));
        ("type", JStr (n_type nas));
        ("ports", JNum (n_ports nas));
        ("community", JStr (n_community nas));
        ("description", JStr (n_description nas))].

(** [{ success, message, data: transformedData, count }] *)
Definition entries_json (nasEntries : list nas_row) : response :=
  let transformedData := nas_json <$> nasEntries in
  Response 200
    (JObj [("success", JBool true);
           ("message", JStr "NAS entries retrieved successfully");
           ("data", JArr transformedData);
           ("count", JNum (Z.of_nat (length transformedData)))]).

(** ** Handlers *)

(** [static async getAll(req, res)] *)
Definition getAll (cfg : env) (search : option string) : M db response :=
  handled cfg (
    nasEntries <- if_truthy search NasModel.search NasModel.getAll;;
    ret (entries_json nasEntries)).

(** [static async getById(req, res)] *)
Definition getById (cfg : env) (id : Z) : M db response :=
  handled cfg (
    nas <- NasModel.getById id;;
    match nas with
    | None => ret (failure 404 "NAS not found")
    | Some nas => ret (success 200 "NAS retrieved successfully" (Some (nas_json nas)))
    end).

(** [static async create(req, res)] *)
Definition create (cfg : env) (body : NasModel.nasData) : M db response :=
  handled cfg (
    exists_ <- NasModel.exists_ (NasModel.nd_name body) (NasModel.nd_ip body) None;;
    if exists_ : bool then ret (failure 409 "NAS with this name or IP already exists")
    else
      newNas <- NasModel.create body;;
      ret (success 201 "NAS created successfully" (Some (nas_json newNas)))).

(** The conflict check of [update]:
    [if (updateData.name || updateData.ip) { ... NasModel.exists(...) }] *)
Definition conflict (id : Z) (updateData : NasModel.nasData) (existingNas : nas_row)
    : M db bool :=
  if truthy (NasModel.nd_name updateData) || truthy (NasModel.nd_ip updateData) then
    let conflictName := js_or (NasModel.nd_name updateData) (Some (n_shortname existingNas)) in
    let conflictIp := js_or (NasModel.nd_ip updateData) (Some (n_nasname existingNas)) in
    NasModel.exists_ conflictName conflictIp (Some id)
  else ret false.

(** [static async update(req, res)] *)
Definition update (cfg : env) (id : Z) (updateData : NasModel.nasData) : M db response :=
  handled cfg (
    existingNas <- NasModel.getById id;;
    match existingNas with
    | None => ret (failure 404 "NAS not found")
    | Some existingNas =>
        exists_ <- conflict id updateData existingNas;;
        if exists_ : bool then ret (failure 409 "NAS with this name or IP already exists")
        else
          updatedNas <- NasModel.update id updateData;;
          match updatedNas with
          | None => ret (failure 404 "NAS not found or no changes made")
          | Some nas => ret (success 200 "NAS updated successfully" (Some (nas_json nas)))
          end
    end).

(** [static async delete(req, res)] *)
Definition delete (cfg : env) (id : Z) : M db response :=
  handled cfg (
    existingNas <- NasModel.getById id;;
    match existingNas with
    | None => ret (failure 404 "NAS not found")
    | Some _ =>
        deleted <- NasModel.delete id;;
        if deleted : bool then ret (success 200 "NAS deleted successfully" None)
        else ret (failure 404 "NAS not found or already deleted")
    end).

(** [static async getStats(req, res)] *)
Definition getStats (cfg : env) : M db response :=
  handled cfg (
    count <- NasModel.getCount;;
    ret (success 200 "NAS statistics retrieved successfully"
           (Some (JObj [("total_nas", JNum (Z.of_nat count))])))).

(** ** The NAS resource as one entry point *)

(** A request that reached a handler of [routes/nasRoutes.js]. *)
Inductive request : Type :=
| GetAll (search : option string)
| GetStats
| GetById (id : Z)
| Create (body : NasModel.nasData)
| Update (id : Z) (updateData : NasModel.nasData)
| Delete (id : Z).

Definition handle (cfg : env) (req : request) : M db response :=
  match req with
  | GetAll search => getAll cfg search
  | GetStats => getStats cfg
  | GetById id => getById cfg id
  | Create body => create cfg body
  | Update id updateData => update cfg id updateData
  | Delete id => delete cfg id
  end.

(** What [validateNasCreate] and [validateNasUpdate] guarantee of the
    name and the address: when given, they are not empty. *)
Definition validated (req : request) : Prop :=
  match req with
  | Create body | Update _ body =>
      NasModel.given (NasModel.nd_name body) /\ NasModel.given (NasModel.nd_ip body)
  | _ => True
  end.

(** One validated request served, under any fault plan. *)
Inductive step (cfg : env) : tables -> tables -> Prop :=
| step_handle req fs n r d' ts (Hreq : validated req)
    (Hrun : handle cfg req (Db ts fs n) = (Ok r, d')) :
    step cfg ts (committed d').

Definition reachable (cfg : env) (ts : tables) : Prop :=
  rtc (step cfg) empty_tables ts.

(** ** Tactics *)

Ltac nas_status_tac :=
  repeat first
    [ apply handled_answers; [|apply known_status_internal_error]
    | apply answers_bind; intros ?
    | apply answers_ret; by apply (bool_decide_unpack _)
    | match goal with
      | |- answers _ (match ?x with _ => _ end) => destruct x
      end ].

Ltac nas_balanced_tac :=
  repeat first
    [ apply handled_balanced
    | apply balanced_bind; [|intros ?]
    | match goal with
      | |- balanced (match ?x with _ => _ end) => destruct x
      end
    | solve [eauto with radius] ].

(** ** Lemmas: every handler answers *)

Lemma nas_handle_total cfg req : total (handle cfg req).
Proof. destruct req; apply handled_is_total. Qed.

Lemma nas_handle_known_status cfg req : answers known_status (handle cfg req).
Proof.
  destruct req; simpl; unfold getAll, getStats, getById, create, update, delete;
    nas_status_tac.
Qed.

Lemma conflict_balanced id data nas : balanced (conflict id data nas).
Proof. unfold conflict. case_match; eauto with radius. Qed.

Lemma nas_handle_balanced cfg req : balanced (handle cfg req).
Proof.
  destruct req; simpl; unfold getAll, getStats, getById, create, update, delete;
    nas_balanced_tac; apply conflict_balanced.
Qed.

(** ** Lemmas: the handlers keep the invariant *)

Section invariant.
Context (cfg : env).
Import NasModel (nas_wf).

Lemma getById_spec P id :
  db_spec P (NasModel.getById id)
    (fun r ts => P ts /\ forall x, r = Ok x -> x = NasModel.find_nas id ts).
Proof. apply db_spec_steady, NasModel.getById_effect. Qed.

Lemma exists_spec_nas P s n e :
  db_spec P (NasModel.exists_ s n e)
    (fun r ts => P ts /\ forall b, r = Ok b ->
       exists s' n', s = Some s' /\ n = Some n' /\
         b = nonempty (NasModel.select_nas (NasModel.collides s' n' e) ts)).
Proof. apply db_spec_steady, NasModel.exists_effect. Qed.

(** When the conflict check of [update] answers false for a validated
    payload, no other row has the name and the address the payload gives. *)
Lemma conflict_spec id data existing :
  NasModel.given (NasModel.nd_name data) -> NasModel.given (NasModel.nd_ip data) ->
  db_spec nas_wf (conflict id data existing)
    (fun r ts => nas_wf ts /\
       (r = Ok false ->
        forall s n, NasModel.nd_name data = Some s -> NasModel.nd_ip data = Some n ->
          NasModel.select_nas (NasModel.collides s n (Some id)) ts = [])).
Proof.
  intros Hname Hip. unfold conflict.
  destruct (truthy (NasModel.nd_name data) || truthy (NasModel.nd_ip data)) eqn:E.
  - eapply db_spec_weaken; [apply exists_spec_nas|done|].
    intros r ts [Hwf Hr]. split; [done|]. intros -> s n Hs Hn.
    destruct (Hr false eq_refl) as (s' & n' & Hs' & Hn' & Hb).
    rewrite Hs, Hn in *. unfold NasModel.given in *.
    rewrite !js_or_truthy in * by (apply truthy_Some; congruence).
    simplify_eq. by apply nonempty_false.
  - apply db_spec_ret. intros ts Hwf. split; [done|]. intros _ s n Hs Hn.
    apply orb_false_iff in E as [E _]. rewrite Hs in *. unfold NasModel.given in *.
    by rewrite (proj2 (truthy_Some s)) in E by congruence.
Qed.

Lemma create_keeps_nas body :
  db_spec nas_wf (create cfg body) (fun _ => nas_wf).
Proof.
  apply handled_keeps.
  eapply db_spec_bind; [apply exists_spec_nas | by intros e ts [? _] |].
  intros [|]; [apply db_spec_ret; by intros ts [? _]|].
  eapply db_spec_bind with (R := fun _ => nas_wf); [|done|].
  - eapply db_spec_weaken; [apply NasModel.create_keeps_wf| |done].
    intros ts [Hwf Hb]. split; [done|]. intros s n Hs Hn.
    destruct (Hb false eq_refl) as (s' & n' & Hs' & Hn' & Hnone).
    simplify_eq. by apply nonempty_false.
  - intros a. by apply db_spec_ret.
Qed.

Lemma update_keeps_nas id data :
  NasModel.given (NasModel.nd_name data) -> NasModel.given (NasModel.nd_ip data) ->
  db_spec nas_wf (update cfg id data) (fun _ => nas_wf).
Proof.
  intros Hname Hip. apply handled_keeps.
  eapply db_spec_bind; [apply getById_spec | by intros e ts [? _] |].
  intros [existing|]; [|apply db_spec_ret; by intros ts [? _]].
  eapply db_spec_bind.
  - eapply db_spec_weaken; [by apply conflict_spec| |done]. by intros ts [? _].
  - by intros e ts [? _].
  - intros [|]; [apply db_spec_ret; by intros ts [? _]|].
    eapply db_spec_bind with (R := fun _ => nas_wf); [|done|].
    + eapply db_spec_weaken; [apply NasModel.update_keeps_wf| |done].
      intros ts [Hwf Hb]. split; [done|]. by apply Hb.
    + intros [x|]; by apply db_spec_ret.
Qed.

Lemma delete_keeps_nas id : db_spec nas_wf (delete cfg id) (fun _ => nas_wf).
Proof.
  apply handled_keeps.
  eapply db_spec_bind; [apply getById_spec | by intros e ts [? _] |].
  intros [existing|]; [|apply db_spec_ret; by intros ts [? _]].
  eapply db_spec_bind with (R := fun _ => nas_wf); [|done|].
  - eapply db_spec_weaken; [apply NasModel.delete_keeps_wf| |done]. by intros ts [? _].
  - intros [|]; by apply db_spec_ret.
Qed.

Lemma reads_keep_nas (m : M db response) :
  db_steady m -> db_spec nas_wf (handled cfg m) (fun _ => nas_wf).
Proof. intros Hm. by apply handled_keeps, db_steady_keeps. Qed.

Lemma handle_keeps_nas req :
  validated req -> db_spec nas_wf (handle cfg req) (fun _ => nas_wf).
Proof.
  destruct req; simpl; intros Hv.
  - apply reads_keep_nas. unfold NasModel.search, NasModel.getAll.
    eauto 10 with radius.
  - apply reads_keep_nas. unfold NasModel.getCount. eauto 10 with radius.
  - apply reads_keep_nas. apply db_steady_bind; [eauto with radius|].
    intros [x|]; eauto with radius.
  - apply create_keeps_nas.
  - destruct Hv. by apply update_keeps_nas.
  - apply delete_keeps_nas.
Qed.

End invariant.

(** ** Lemmas: the handlers on a healthy store *)

Section healthy.
Context (cfg : env) (d : db) (Hd : healthy d).

Lemma nas_getById_answer id :
  getById cfg id d =
  (Ok match NasModel.find_nas id (committed d) with
      | None => failure 404 "NAS not found"
      | Some nas => success 200 "NAS retrieved successfully" (Some (nas_json nas))
      end, d).
Proof.
  unfold getById, handled, try_catch, bind.
  rewrite NasModel.getById_healthy by done. by destruct (NasModel.find_nas _ _).
Qed.

Lemma nas_create_answer name ip secret ty po co de :
  let row id := NasRow id name ip secret (default "other" ty) (default 1812%Z po)
                  (default "" co) (default "" de) in
  create cfg (NasModel.NasData (Some name) (Some ip) (Some secret) ty po co de) d =
  if nonempty (NasModel.select_nas (NasModel.collides name ip None) (committed d))
  then (Ok (failure 409 "NAS with this name or IP already exists"), d)
  else (Ok (success 201 "NAS created successfully"
              (Some (nas_json (row (next_id (nas (committed d))))))),
        set_committed (NasModel.insert_nas row (committed d)).2 d).
Proof.
  intros row. unfold create, handled, try_catch, bind.
  cbn [NasModel.nd_name NasModel.nd_ip].
  rewrite NasModel.exists_healthy_nas by done.
  destruct (nonempty _); [done|]. by rewrite NasModel.create_healthy_nas.
Qed.

(** The first steps of [update] for a record that exists, a name and an
    address that are given, and no other record with either. *)
Lemma nas_update_checks id existing data name ip :
  NasModel.find_nas id (committed d) = Some existing ->
  NasModel.nd_name data = Some name -> NasModel.nd_ip data = Some ip ->
  name <> "" -> ip <> "" ->
  NasModel.select_nas (NasModel.collides name ip (Some id)) (committed d) = [] ->
  update cfg id data d =
  handled cfg (
    updatedNas <- NasModel.update id data;;
    match updatedNas with
    | None => ret (failure 404 "NAS not found or no changes made")
    | Some nas => ret (success 200 "NAS updated successfully" (Some (nas_json nas)))
    end) d.
Proof.
  intros Hex Hname Hip Hn Hi Hfree. unfold update, handled, try_catch, bind at 1.
  rewrite NasModel.getById_healthy, Hex by done.
  unfold bind at 1, conflict. rewrite Hname, Hip, !(proj2 (truthy_Some _)) by done.
  cbn [orb]. rewrite !js_or_truthy by by apply truthy_Some.
  by rewrite NasModel.exists_healthy_nas, Hfree.
Qed.

End healthy.

(** [getById] after the update statement finds the rewritten row. *)
Lemma find_nas_updated id existing name ip secret ty po co de ts :
  NasModel.find_nas id ts = Some existing ->
  NasModel.find_nas id
    (NasModel.update_nas (NasModel.has_id id)
       (NasModel.rewritten name ip secret ty po co de) ts).2 =
  Some (NasRow id name ip secret ty po co de).
Proof.
  unfold NasModel.find_nas, NasModel.select_nas, NasModel.update_nas.
  cbn [snd nas set_nas rows]. intros Hex.
  rewrite filter_fmap_stable by (intros r; unfold NasModel.has_id; by case_decide).
  destruct (filter _ _) as [|r l] eqn:E; [done|]. injection Hex as ->.
  assert (existing ∈ filter (NasModel.has_id id) (rows (nas ts))) as Hin
    by (rewrite E; left).
  apply list_elem_of_filter in Hin as [Hid _]. simpl.
  rewrite decide_True by done. unfold NasModel.rewritten. by rewrite Hid.
Qed.

(** ** Theorems *)

(** C29. No two NAS records share a name or an address: in every store
    that validated requests of the NAS routes can produce from an empty
    schema, in any number and under any faults, the names are distinct and
    the addresses are distinct. *)
Theorem nas_api_unique cfg ts :
  reachable cfg ts -> NasModel.unique_nas ts.
Proof.
  intros Hr. cut (NasModel.nas_wf ts); [by intros [_ ?]|]. revert ts Hr.
  apply rtc_ind_r; [exact NasModel.nas_wf_empty|].
  intros ts1 ts2 _ [req fs n r d' ts' Hreq Hrun] IH.
  by eapply (handle_keeps_nas cfg req Hreq (Db ts' fs n)), Hrun.
Qed.

Lemma nas_api_unique_witness :
  NasModel.unique_nas
    (committed (handle unset_env
                  (Create (NasModel.NasData (Some "router1") (Some "10.0.0.1")
                             (Some "s3cr3t-key") None None None None))
                  (Db empty_tables [] 0)).2).
Proof.
  apply (nas_api_unique unset_env).
  eapply rtc_l; [|apply rtc_refl].
  eapply (step_handle _ (Create (NasModel.NasData (Some "router1") (Some "10.0.0.1")
                                   (Some "s3cr3t-key") None None None None))
            [] 0%nat _ (handle _ _ _).2 empty_tables).
  - split; discriminate.
  - vm_compute. reflexivity.
Defined.

(** Create, then read: on a healthy store whose ids are below the
    counter, [POST /nas] with a name and an address no record has answers
    201 with the record (type, port, community and description defaulted
    to ["other"], 1812 and the empty string), and [GET /nas/:id] with the
    id of the answer returns the same record. *)
Theorem nas_api_create_then_get cfg name ip secret ty po co de d :
  healthy d -> NasModel.ids_fresh (committed d) ->
  NasModel.select_nas (NasModel.collides name ip None) (committed d) = [] ->
  let id := next_id (nas (committed d)) in
  exists d' data,
    create cfg (NasModel.NasData (Some name) (Some ip) (Some secret) ty po co de) d =
      (Ok (success 201 "NAS created successfully" (Some data)), d') /\
    getById cfg id d' =
      (Ok (success 200 "NAS retrieved successfully" (Some data)), d') /\
    data = nas_json (NasRow id name ip secret (default "other" ty) (default 1812%Z po)
                       (default "" co) (default "" de)).
Proof.
  intros Hd Hids Hfree id. do 2 eexists. split; [|split; [|done]].
  - by rewrite nas_create_answer, Hfree.
  - rewrite nas_getById_answer by done. store_cbn.
    by rewrite (NasModel.find_nas_fresh id).
Qed.

Lemma nas_api_create_then_get_witness :
  exists d' data,
    create unset_env
      (NasModel.NasData (Some "router1") (Some "10.0.0.1") (Some "s3cr3t-key")
         None None None None) (Db empty_tables [] 0) =
      (Ok (success 201 "NAS created successfully" (Some data)), d') /\
    getById unset_env 1 d' =
      (Ok (success 200 "NAS retrieved successfully" (Some data)), d') /\
    data = nas_json NasModel.router1.
Proof.
  apply (nas_api_create_then_get unset_env "router1" "10.0.0.1" "s3cr3t-key"
           None None None None (Db empty_tables [] 0) eq_refl).
  - split; simpl; constructor.
  - reflexivity.
Defined.

(** A name or an address that is taken is a conflict: on a healthy
    store, [POST /nas] with the name of a record (whatever the address) or
    the address of a record (whatever the name) answers 409 and leaves the
    store as it was. *)
Theorem nas_api_create_conflict cfg name ip secret ty po co de r d :
  healthy d -> r ∈ rows (nas (committed d)) ->
  n_shortname r = name \/ n_nasname r = ip ->
  create cfg (NasModel.NasData (Some name) (Some ip) (Some secret) ty po co de) d =
    (Ok (failure 409 "NAS with this name or IP already exists"), d).
Proof.
  intros Hd Hr Hsame. rewrite nas_create_answer by done.
  destruct (NasModel.select_nas _ _) as [|x l] eqn:E; [|done].
  apply filter_nil_iff in E. rewrite Forall_forall in E.
  destruct (E r Hr). by split.
Qed.

Lemma nas_api_create_conflict_witness :
  create unset_env
    (NasModel.NasData (Some "router1") (Some "10.0.0.2") (Some "another-key")
       None None None None) NasModel.router_db =
  (Ok (failure 409 "NAS with this name or IP already exists"), NasModel.router_db).
Proof.
  apply (nas_api_create_conflict unset_env "router1" "10.0.0.2" "another-key"
           None None None None NasModel.router1 NasModel.router_db eq_refl).
  - left.
  - by left.
Defined.

(** C31. An update that leaves a field out cannot succeed: on a healthy
    store, for a record that exists, [PUT /nas/:id] with a payload that
    lacks any of the seven fields is answered 409 or 500 and leaves the
    store as it was, although the update schema lets such a payload
    through. *)
Theorem nas_api_update_partial cfg id existing data d :
  healthy d -> NasModel.find_nas id (committed d) = Some existing ->
  NasModel.nd_name data = None \/ NasModel.nd_ip data = None \/
  NasModel.nd_secret data = None \/ NasModel.nd_type data = None \/
  NasModel.nd_ports data = None \/ NasModel.nd_community data = None \/
  NasModel.nd_description data = None ->
  exists r,
    update cfg id data d = (Ok r, d) /\
    (r = failure 409 "NAS with this name or IP already exists" \/
     r = internal_error cfg BindUndefined).
Proof.
  intros Hd Hex Hpart. unfold update, handled, try_catch, bind at 1.
  rewrite NasModel.getById_healthy, Hex by done.
  unfold bind at 1, conflict.
  assert (forall a b, exists s, js_or a (Some b) = Some s) as Hor.
  { intros a b. unfold js_or. destruct a as [s|]; [case_match|]; eauto. }
  destruct (Hor (NasModel.nd_name data) (n_shortname existing)) as [cn ->].
  destruct (Hor (NasModel.nd_ip data) (n_nasname existing)) as [ci ->].
  assert ((updatedNas <- NasModel.update id data;;
           match updatedNas with
           | None => ret (failure 404 "NAS not found or no changes made")
           | Some nas => ret (success 200 "NAS updated successfully" (Some (nas_json nas)))
           end) d = (Throw BindUndefined, d)) as Hthrow
    by (unfold bind; by rewrite NasModel.update_partial).
  destruct (truthy _ || truthy _).
  - rewrite NasModel.exists_healthy_nas by done.
    destruct (nonempty _); [eauto|]. rewrite Hthrow. eauto.
  - unfold ret at 1. rewrite Hthrow. eauto.
Qed.

Lemma nas_api_update_partial_witness :
  exists r,
    update unset_env 1
      (NasModel.NasData None None (Some "new-secret-1") None None None None)
      NasModel.router_db = (Ok r, NasModel.router_db) /\
    (r = failure 409 "NAS with this name or IP already exists" \/
     r = internal_error unset_env BindUndefined).
Proof.
  apply (nas_api_update_partial unset_env 1 NasModel.router1
           (NasModel.NasData None None (Some "new-secret-1") None None None None)
           NasModel.router_db eq_refl eq_refl).
  by left.
Defined.

(** A full update: on a healthy store, for a record that exists,
    [PUT /nas/:id] with the seven fields, a name and an address that no
    other record has, answers 200 with the record as written, and
    [GET /nas/:id] then returns it. *)
Theorem nas_api_update_full cfg id existing name ip secret ty po co de d :
  healthy d -> NasModel.find_nas id (committed d) = Some existing ->
  name <> "" -> ip <> "" ->
  NasModel.select_nas (NasModel.collides name ip (Some id)) (committed d) = [] ->
  let data := nas_json (NasRow id name ip secret ty po co de) in
  exists d',
    update cfg id
        (NasModel.NasData (Some name) (Some ip) (Some secret) (Some ty) (Some po)
           (Some co) (Some de)) d =
      (Ok (success 200 "NAS updated successfully" (Some data)), d') /\
    getById cfg id d' = (Ok (success 200 "NAS retrieved successfully" (Some data)), d').
Proof.
  intros Hd Hex Hn Hi Hfree data. eexists. split.
  - erewrite nas_update_checks by done. unfold handled, try_catch, bind.
    rewrite NasModel.update_healthy_nas by done.
    assert (nonempty (NasModel.select_nas (NasModel.has_id id) (committed d)) = true)
      as -> by (unfold NasModel.find_nas in Hex; by destruct (NasModel.select_nas _ _)).
    by rewrite (find_nas_updated id existing).
  - rewrite nas_getById_answer by done. store_cbn.
    by rewrite (find_nas_updated id existing).
Qed.

Lemma nas_api_update_full_witness :
  let data := nas_json (NasRow 1 "router9" "10.0.0.9" "new-secret-1" "cisco" 1813
                          "public" "core") in
  exists d',
    update unset_env 1
        (NasModel.NasData (Some "router9") (Some "10.0.0.9") (Some "new-secret-1")
           (Some "cisco") (Some 1813%Z) (Some "public") (Some "core"))
        NasModel.router_db =
      (Ok (success 200 "NAS updated successfully" (Some data)), d') /\
    getById unset_env 1 d' =
      (Ok (success 200 "NAS retrieved successfully" (Some data)), d').
Proof.
  exact (nas_api_update_full unset_env 1 NasModel.router1 "router9" "10.0.0.9"
           "new-secret-1" "cisco" 1813%Z "public" "core" NasModel.router_db
           eq_refl eq_refl ltac:(discriminate) ltac:(discriminate) eq_refl).
Defined.

(** Every NAS handler answers: under every fault plan a request gets
    a response, never an exception, with one of the statuses 200, 201,
    400, 404, 409, 500, and the store has back every connection it lent. *)
Theorem nas_api_answers cfg req d :
  exists r d', handle cfg req d = (Ok r, d') /\ known_status r /\ in_use d' = in_use d.
Proof.
  destruct (nas_handle_total cfg req d) as (r & d' & E). exists r, d'.
  split; [done|]. split; [by eapply nas_handle_known_status | by eapply nas_handle_balanced].
Qed.

End NasController.
