(* ===== verification/NasSpec.v ===== *)
(** * The NAS resource as a finite map of records

    The specification the NAS resource of [models/NasModel.js] and
    [controllers/nasController.js] refines.  The state is a finite map
    from the id of a record to the record; a creation binds a fresh id, an
    update rewrites the record under an id, a deletion removes it.  The
    abstraction [abs] reads the map off the [nas] table, and the theorems
    say which map each answer of the resource leaves, under every fault
    plan of the store. *)

From stdpp Require Import base option strings numbers gmap sorting list.
From S2P Require Import Prelude Store Http NasRepo NasApi UserSpec.

Module NasSpec.
Import NasModel.

(** ** The specification *)

(** The record a creation makes under an id: the name, the address and the
    secret are required, the rest is defaulted. *)
Definition made (data : nasData) (id : Z) : option nas_row :=
  name ← nd_name data; ip ← nd_ip data; secret ← nd_secret data;
  Some (NasRow id name ip secret (default "other" (nd_type data))
          (default 1812%Z (nd_ports data)) (default "" (nd_community data))
          (default "" (nd_description data))).

(** What an update writes over a record: every field, so every field is
    required. *)
Definition written (data : nasData) : option (nas_row -> nas_row) :=
  name ← nd_name data; ip ← nd_ip data; secret ← nd_secret data;
  type ← nd_type data; ports ← nd_ports data; community ← nd_community data;
  description ← nd_description data;
  Some (rewritten name ip secret type ports community description).

Definition add (data : nasData) (id : Z) (m : gmap Z nas_row) : gmap Z nas_row :=
  from_option (fun r => <[id := r]> m) m (made data id).

Definition change (id : Z) (data : nasData) (m : gmap Z nas_row) : gmap Z nas_row :=
  from_option (fun f => alter f id m) m (written data).

Definition remove (id : Z) (m : gmap Z nas_row) : gmap Z nas_row := base.delete id m.

(** What a request does to the map when it is carried out; [id] is the id
    a creation binds. *)
Definition effect (req : NasController.request) (id : Z) (m : gmap Z nas_row)
    : gmap Z nas_row :=
  match req with
  | NasController.Create body => add body id m
  | NasController.Update i data => change i data m
  | NasController.Delete i => remove i m
  | _ => m
  end.

(** One step of the specification: an operation, a creation under an id
    that is free, or nothing. *)
Inductive spec_step : relation (gmap Z nas_row) :=
| spec_create body id m : m !! id = None -> spec_step m (add body id m)
| spec_update id data m : spec_step m (change id data m)
| spec_delete id m : spec_step m (remove id m)
| spec_stutter m : spec_step m m.

(** The requests whose change can be committed by the time the answer
    turns into an error: [NasModel.update] reads the record back after its
    [UPDATE] has been committed. *)
Definition late (req : NasController.request) : bool :=
  match req with NasController.Update _ _ => true | _ => false end.

(** The maps a run may leave: the effect of the request when it answers
    with success, the map as it was otherwise, or, for an update that
    throws or is answered 500, the effect of the request. *)
Definition outcome_of (req : NasController.request) (id : Z) (m : gmap Z nas_row)
    (r : result response) (m' : gmap Z nas_row) : Prop :=
  match r with
  | Ok x =>
      if UserSpec.succeeded x then m' = effect req id m
      else m' = m \/ (late req = true /\ status x = 500%Z /\ m' = effect req id m)
  | Throw _ => m' = m \/ (late req = true /\ m' = effect req id m)
  end.

(** ** The abstraction *)

Definition abs (ts : tables) : gmap Z nas_row :=
  list_to_map ((fun r => (n_id r, r)) <$> rows (nas ts)).

(** The id the next creation binds. *)
Definition counter (ts : tables) : Z := next_id (nas ts).

(** ** Examples *)

Definition router_records : gmap Z nas_row := {[ 1%Z := router1 ]}.

(** A full payload for an update of [router1]. *)
Definition renamed : nasData :=
  NasData (Some "edge1") (Some "10.0.0.9") (Some "n3w-s3cr3t") (Some "cisco")
    (Some 1812%Z) (Some "") (Some "uplink").

(** The store answers three round trips and fails the fourth. *)
Definition fails_fourth : list bool := [false; false; false; true].

(** ** Lemmas: the abstraction reads what [getById] reads *)

Lemma find_nas_has_id id ts r : find_nas id ts = Some r -> n_id r = id.
Proof.
  unfold find_nas, select_nas. intros Hr%head_Some_elem_of.
  by apply list_elem_of_filter in Hr as [? _].
Qed.

Lemma records_lookup ts id : abs ts !! id = find_nas id ts.
Proof.
  unfold abs, find_nas, select_nas. rewrite UserSpec.list_to_map_head.
  induction (rows (nas ts)) as [|r l IH]; [done|].
  rewrite fmap_cons, !filter_cons. unfold has_id at 1. simpl.
  by repeat case_decide.
Qed.

Lemma records_empty : abs empty_tables = ∅.
Proof. done. Qed.

(** Every record is bound under its own id. *)
Lemma records_keyed ts : map_Forall (fun i r => n_id r = i) (abs ts).
Proof. intros i r. rewrite records_lookup. apply find_nas_has_id. Qed.

(** An id at or above the counter is free. *)
Lemma records_counter_free ts : ids_fresh ts -> abs ts !! counter ts = None.
Proof.
  intros [_ Hlt]. rewrite records_lookup. unfold find_nas, select_nas.
  rewrite filter_none; [done|]. intros r Hr. rewrite Forall_forall in Hlt.
  specialize (Hlt r Hr). unfold has_id, counter. lia.
Qed.

(** ** Lemmas: what the statements do to the map *)

Lemma rows_inserted row ts :
  rows (nas (insert_nas row ts).2) = rows (nas ts) ++ [row (next_id (nas ts))].
Proof. by destruct ts. Qed.

Lemma rows_updated P `{!forall r, Decision (P r)} f ts :
  rows (nas (update_nas P f ts).2) = (fun r => if decide (P r) then f r else r) <$> rows (nas ts).
Proof. by destruct ts. Qed.

Lemma rows_deleted P `{!forall r, Decision (P r)} ts :
  rows (nas (delete_nas P ts).2) = filter (fun r => ~ P r) (rows (nas ts)).
Proof. by destruct ts. Qed.

Lemma records_inserted row ts :
  ids_fresh ts -> (forall id, n_id (row id) = id) ->
  abs (insert_nas row ts).2 = <[counter ts := row (counter ts)]> (abs ts).
Proof.
  intros Hf Hrow. apply map_eq. intros i.
  destruct (decide (counter ts = i)) as [<-|Hne].
  - rewrite lookup_insert_eq, records_lookup. unfold find_nas, select_nas.
    rewrite rows_inserted, filter_app.
    pose proof (records_counter_free ts Hf) as Hnone. rewrite records_lookup in Hnone.
    unfold find_nas, select_nas, counter in *.
    destruct (filter _ (rows (nas ts))); [|done]. simpl.
    rewrite filter_cons, decide_True by apply Hrow. done.
  - rewrite lookup_insert_ne, !records_lookup by done.
    unfold find_nas, select_nas.
    rewrite rows_inserted, filter_app, filter_cons, decide_False, filter_nil, app_nil_r; [done|].
    unfold has_id. by rewrite Hrow.
Qed.

(** A map over the rows that keeps the ids commutes with the lookup. *)
Lemma head_filter_fmap (g : nas_row -> nas_row) id l :
  (forall r, n_id (g r) = n_id r) ->
  head (filter (has_id id) (g <$> l)) = g <$> head (filter (has_id id) l).
Proof.
  intros Hg. induction l as [|r l IH]; [done|].
  rewrite fmap_cons, !filter_cons.
  destruct (decide (has_id id r)) as [Hr|Hr];
    [rewrite decide_True|rewrite decide_False]; unfold has_id in *; by rewrite ?Hg.
Qed.

Lemma records_updated id f ts :
  (forall r, n_id (f r) = n_id r) ->
  abs (update_nas (has_id id) f ts).2 = alter f id (abs ts).
Proof.
  intros Hf. apply map_eq. intros i. rewrite records_lookup.
  unfold find_nas, select_nas. rewrite rows_updated.
  rewrite head_filter_fmap by (intros r; by case_decide).
  fold (select_nas (has_id i) ts). fold (find_nas i ts).
  destruct (decide (id = i)) as [->|Hne].
  - rewrite lookup_alter_eq, records_lookup.
    destruct (find_nas i ts) as [r|] eqn:Hr; [|done]. simpl.
    by rewrite decide_True by by apply find_nas_has_id in Hr.
  - rewrite lookup_alter_ne, records_lookup by done.
    destruct (find_nas i ts) as [r|] eqn:Hr; [|done]. simpl.
    rewrite decide_False; [done|]. apply find_nas_has_id in Hr. unfold has_id. congruence.
Qed.

Lemma records_deleted id ts : abs (delete_nas (has_id id) ts).2 = remove id (abs ts).
Proof.
  apply map_eq. intros i. rewrite records_lookup. unfold remove.
  unfold find_nas, select_nas. rewrite rows_deleted, list_filter_filter.
  destruct (decide (id = i)) as [->|Hne].
  - rewrite lookup_delete_eq, filter_none; [done|]. by intros r _ [? ?].
  - rewrite lookup_delete_ne, records_lookup by done. unfold find_nas, select_nas.
    f_equal. apply filter_ext_in. intros r _. unfold has_id. split; [tauto|].
    intros Hr. split; congruence.
Qed.

(** An id no row has is not bound. *)
Lemma records_unaffected id ts :
  length (filter (has_id id) (rows (nas ts))) = 0%nat -> abs ts !! id = None.
Proof.
  intros Hn. rewrite records_lookup. unfold find_nas, select_nas.
  by destruct (filter _ _).
Qed.

Lemma alter_absent (f : nas_row -> nas_row) id (m : gmap Z nas_row) :
  m !! id = None -> alter f id m = m.
Proof.
  intros Hn. apply map_eq. intros i. destruct (decide (id = i)) as [->|].
  - by rewrite lookup_alter_eq, Hn.
  - by rewrite lookup_alter_ne.
Qed.

(** ** Lemmas: the methods refine the operations *)

(** Whatever the store does, [create] that returns has bound the record it
    returns under the counter, and [create] that throws has written
    nothing. *)
Lemma nas_create_refines data d r d' :
  ids_fresh (committed d) -> create data d = (r, d') ->
  match r with
  | Ok row => made data (counter (committed d)) = Some row /\
      abs (committed d') = add data (counter (committed d)) (abs (committed d))
  | Throw _ => committed d' = committed d
  end.
Proof.
  intros Hf. unfold create, bound, bind, ret, throw, add, made.
  destruct (nd_name data) as [name|], (nd_ip data) as [ip|],
    (nd_secret data) as [secret|]; try by intros [= <- <-].
  destruct (query _ d) as [[insertId|e] d1] eqn:Hq; apply query_spec in Hq as [_ Hq];
    intros [= <- <-]; [|done].
  rewrite (surjective_pairing (insert_nas _ _)) in Hq. injection Hq as -> ->.
  split; [done|].
  by apply (records_inserted (fun id => NasRow id name ip secret _ _ _ _)).
Qed.

(** [update] that returns a record has rewritten it; [update] that returns
    nothing has changed nothing; [update] that throws may have done
    either, since it reads the record back after the statement that
    rewrites it. *)
Lemma nas_update_refines id data d r d' :
  update id data d = (r, d') ->
  match r with
  | Ok (Some _) => abs (committed d') = change id data (abs (committed d))
  | Ok None => abs (committed d') = abs (committed d)
  | Throw _ => abs (committed d') = abs (committed d) \/
               abs (committed d') = change id data (abs (committed d))
  end.
Proof.
  unfold update, bound, bind, ret, throw, change, written.
  destruct (nd_name data) as [name|], (nd_ip data) as [ip|],
    (nd_secret data) as [secret|], (nd_type data) as [ty|], (nd_ports data) as [po|],
    (nd_community data) as [co|], (nd_description data) as [de|];
    try by (intros [= <- <-]; left).
  simpl. destruct (query _ d) as [[n|e] d1] eqn:Hq; apply query_spec in Hq as [_ Hq];
    [|intros [= <- <-]; left; by rewrite Hq].
  rewrite (surjective_pairing (update_nas _ _ _)) in Hq. injection Hq as -> Hc.
  assert (abs (committed d1) =
          alter (rewritten name ip secret ty po co de) id (abs (committed d))) as Ha
    by (rewrite Hc; by apply records_updated).
  case_bool_decide as Hn.
  - intros [= <- <-]. rewrite Ha. by apply alter_absent, records_unaffected.
  - intros E. apply getById_effect in E as [Hd Hx]. rewrite Hd.
    destruct r as [[x|]|e]; [done| |by right].
    specialize (Hx None eq_refl). rewrite <- records_lookup, Ha, lookup_alter_eq in Hx.
    symmetry in Hx. apply fmap_None in Hx. by rewrite Ha, alter_absent.
Qed.

(** [delete] that returns true has removed the record; otherwise the map
    is as it was. *)
Lemma nas_delete_refines id d r d' :
  delete id d = (r, d') ->
  abs (committed d') =
  match r with Ok true => remove id (abs (committed d)) | _ => abs (committed d) end.
Proof.
  unfold delete, bind, ret.
  destruct (query _ d) as [[n|e] d1] eqn:Hq; apply query_spec in Hq as [_ Hq];
    intros [= <- <-]; [|by rewrite Hq].
  rewrite (surjective_pairing (delete_nas _ _)) in Hq. injection Hq as -> Hc.
  assert (abs (committed d1) = remove id (abs (committed d))) as ->
    by (rewrite Hc; apply records_deleted).
  case_bool_decide as Hn; [done|].
  unfold remove. apply delete_id, records_unaffected. simpl in *. lia.
Qed.

(** ** Lemmas: the handlers refine the effects *)

Section handlers.
Context (cfg : env) (ts0 : tables).

(** The catch block of a handler turns what was thrown into a 500. *)
Lemma nas_handled_refines req P (m : M db response) :
  db_spec P m (fun r ts => outcome_of req (counter ts0) (abs ts0) r (abs ts)) ->
  db_spec P (handled cfg m)
    (fun r ts => outcome_of req (counter ts0) (abs ts0) r (abs ts)).
Proof.
  intros Hm. unfold handled.
  eapply db_spec_try_catch; [exact Hm | done |].
  intros e. apply db_spec_ret. intros ts [->|[? ->]]; [by left | by right].
Qed.

Lemma nas_create_handler_refines body :
  db_spec (fun ts => ts = ts0 /\ ids_fresh ts0) (NasController.create cfg body)
    (fun r ts => outcome_of (NasController.Create body) (counter ts0) (abs ts0) r (abs ts)).
Proof.
  apply nas_handled_refines.
  eapply db_spec_bind;
    [apply NasController.exists_spec_nas | intros e ts [[-> _] _]; by left |].
  intros [|]; [apply db_spec_ret; intros ts [[-> _] _]; by left|].
  eapply db_spec_bind with
    (R := fun r ts => abs ts = if is_ok r then add body (counter ts0) (abs ts0)
                               else abs ts0).
  - intros d r d' [[<- Hf] _] E. apply nas_create_refines in E; [|done].
    destruct r; simpl; [apply E | by rewrite E].
  - intros e ts ->. by left.
  - intros x. apply db_spec_ret. by intros ts ->.
Qed.

Lemma conflict_reads id data existing :
  db_spec (fun ts => ts = ts0) (NasController.conflict id data existing)
    (fun _ ts => ts = ts0).
Proof.
  unfold NasController.conflict.
  destruct (truthy (nd_name data) || truthy (nd_ip data)); [|by apply db_spec_ret].
  eapply db_spec_weaken;
    [apply (NasController.exists_spec_nas (fun ts => ts = ts0)) | done |].
  by intros r ts [-> _].
Qed.

Lemma nas_update_handler_refines id data :
  db_spec (fun ts => ts = ts0) (NasController.update cfg id data)
    (fun r ts => outcome_of (NasController.Update id data) (counter ts0) (abs ts0) r (abs ts)).
Proof.
  apply nas_handled_refines.
  eapply db_spec_bind;
    [apply NasController.getById_spec | intros e ts [-> _]; by left |].
  intros [existing|]; [|apply db_spec_ret; intros ts [-> _]; by left].
  eapply db_spec_bind with (R := fun _ ts => ts = ts0);
    [eapply db_spec_weaken; [apply conflict_reads | by intros ts [-> _] | done]
    | intros e ts ->; by left |].
  intros [|]; [apply db_spec_ret; intros ts ->; by left|].
  eapply db_spec_bind with
    (R := fun r ts =>
       match r with
       | Ok (Some _) => abs ts = change id data (abs ts0)
       | Ok None => abs ts = abs ts0
       | Throw _ => abs ts = abs ts0 \/ abs ts = change id data (abs ts0)
       end).
  - intros d r d' <- E. by apply nas_update_refines in E.
  - intros e ts [->| ->]; [by left | by right].
  - intros [x|]; apply db_spec_ret; intros ts ->; [done | by left].
Qed.

Lemma nas_delete_handler_refines id :
  db_spec (fun ts => ts = ts0) (NasController.delete cfg id)
    (fun r ts => outcome_of (NasController.Delete id) (counter ts0) (abs ts0) r (abs ts)).
Proof.
  apply nas_handled_refines.
  eapply db_spec_bind;
    [apply NasController.getById_spec | intros e ts [-> _]; by left |].
  intros [existing|]; [|apply db_spec_ret; intros ts [-> _]; by left].
  eapply db_spec_bind with
    (R := fun r ts =>
       abs ts = match r with Ok true => remove id (abs ts0) | _ => abs ts0 end).
  - intros d r d' [<- _] E. by apply nas_delete_refines in E.
  - intros e ts ->. by left.
  - intros [|]; apply db_spec_ret; intros ts ->; [done | by left].
Qed.

(** The GET routes only read. *)
Lemma read_handler_refines req (m : M db response) :
  late req = false -> (forall id m, effect req id m = m) -> db_steady m ->
  db_spec (fun ts => ts = ts0) (handled cfg m)
    (fun r ts => outcome_of req (counter ts0) (abs ts0) r (abs ts)).
Proof.
  intros _ He Hm. apply nas_handled_refines.
  intros d r d' <- E. apply Hm in E as [-> _]. unfold outcome_of.
  destruct r as [x|e]; [|by left]. rewrite He. destruct (UserSpec.succeeded x); [done | by left].
Qed.

End handlers.

Lemma nas_handle_refines cfg req d r d' :
  ids_fresh (committed d) -> NasController.handle cfg req d = (r, d') ->
  outcome_of req (counter (committed d)) (abs (committed d)) r (abs (committed d')).
Proof.
  intros Hf E. destruct req as [s| |id|body|id data|id]; simpl in E.
  - eapply (read_handler_refines cfg (committed d)); [done..| |done|exact E].
    unfold NasModel.search, NasModel.getAll. eauto 10 with radius.
  - eapply (read_handler_refines cfg (committed d)); [done..| |done|exact E].
    unfold NasModel.getCount. eauto 10 with radius.
  - eapply (read_handler_refines cfg (committed d)); [done..| |done|exact E].
    apply db_steady_bind; [eauto with radius|]. intros [x|]; eauto with radius.
  - by apply (nas_create_handler_refines cfg (committed d) body d r d').
  - by apply (nas_update_handler_refines cfg (committed d) id data d r d').
  - by apply (nas_delete_handler_refines cfg (committed d) id d r d').
Qed.

(** A map a run may leave is a step of the specification away. *)
Lemma outcome_step req id m r m' :
  m !! id = None -> outcome_of req id m r m' -> spec_step m m'.
Proof.
  intros Hid. assert (spec_step m (effect req id m)) by (destruct req; by constructor).
  unfold outcome_of. destruct r as [x|e]; [destruct (UserSpec.succeeded x)|];
    intros; destruct_or?; destruct_and?; subst; done || constructor.
Qed.

(** ** Lemmas: the abstraction and the queries that list and count *)

#[global] Instance by_shortname_total : Total by_shortname.
Proof. intros a b. apply String.leb_total. Qed.

Lemma records_listed ts :
  ids_fresh ts -> (map_to_list (abs ts)).*2 ≡ₚ rows (nas ts).
Proof.
  intros [Hnd _]. unfold abs. rewrite map_to_list_to_map.
  - by rewrite <- list_fmap_compose, list_fmap_id.
  - by rewrite <- list_fmap_compose.
Qed.

(** The store of the examples keeps its ids below the counter. *)
Lemma router_fresh : ids_fresh (committed router_db).
Proof. split; simpl; repeat constructor; set_solver. Qed.

(** ** Lemmas: the methods against a store that answers, then fails *)

Lemma getById_answers id ts fs n :
  getById id (Db ts (false :: fs) n) = (Ok (find_nas id ts), Db ts fs n).
Proof. unfold getById, bind. by rewrite query_answers. Qed.

Lemma getById_fails id ts fs n :
  getById id (Db ts (true :: fs) n) = (Throw StoreFailure, Db ts fs n).
Proof. unfold getById, bind. by rewrite query_fails. Qed.

Lemma exists_answers s a e ts fs n :
  exists_ (Some s) (Some a) e (Db ts (false :: fs) n) =
  (Ok (nonempty (select_nas (collides s a e) ts)), Db ts fs n).
Proof. unfold exists_, bound, bind, ret. by rewrite query_answers. Qed.

(** [update] whose statement is answered and whose read-back fails throws
    with the record rewritten. *)
Lemma update_read_back_fails id existing name ip secret ty po co de ts n :
  find_nas id ts = Some existing ->
  update id (NasData (Some name) (Some ip) (Some secret) (Some ty) (Some po)
               (Some co) (Some de)) (Db ts [false; true] n) =
  (Throw StoreFailure,
   Db (update_nas (has_id id) (rewritten name ip secret ty po co de) ts).2 [] n).
Proof.
  intros Hx. unfold update, bound, bind, ret. cbn [nd_name nd_ip nd_secret nd_type
    nd_ports nd_community nd_description]. rewrite query_answers.
  rewrite bool_decide_eq_false_2, getById_fails; [done|].
  cbn [fst update_nas]. unfold find_nas, select_nas in Hx.
  by destruct (filter _ _).
Qed.

(** ** Theorems *)

(** C15. The NAS resource implements the map of records.  Whatever the store
    does, a request answered with success leaves tables whose map is the
    effect of the request on the map before (a creation binds the record
    under the counter of the table, an update rewrites the record under
    the id, a deletion removes it); a request answered with anything else
    leaves the map as it was, except that an update answered 500 may have
    been carried out. *)
Theorem nas_api_refines cfg req d r d' :
  ids_fresh (committed d) -> NasController.handle cfg req d = (Ok r, d') ->
  if UserSpec.succeeded r
  then abs (committed d') = effect req (counter (committed d)) (abs (committed d))
  else abs (committed d') = abs (committed d) \/
       (late req = true /\ status r = 500%Z /\
        abs (committed d') = effect req (counter (committed d)) (abs (committed d))).
Proof. intros Hf E. exact (nas_handle_refines cfg req d (Ok r) d' Hf E). Qed.

(** C16. An update that is carried out and answered as a failure.  When the
    store answers the three round trips of [PUT /nas/:id] that look the
    record up, check the name and the address, and rewrite the record, and
    fails the fourth, which reads the record back, the client is answered
    500 and the record is rewritten all the same. *)
Theorem nas_update_unreported cfg id existing name ip secret ty po co de ts n :
  find_nas id ts = Some existing -> name <> "" -> ip <> "" ->
  select_nas (collides name ip (Some id)) ts = [] ->
  exists ts',
    NasController.update cfg id
      (NasData (Some name) (Some ip) (Some secret) (Some ty) (Some po) (Some co)
         (Some de)) (Db ts fails_fourth n) =
    (Ok (internal_error cfg StoreFailure), Db ts' [] n) /\
    abs ts' !! id = Some (rewritten name ip secret ty po co de existing).
Proof.
  intros Hx Hname Hip Hnone. eexists. split.
  - unfold NasController.update, NasController.conflict, handled, try_catch, bind,
      fails_fourth.
    rewrite getById_answers, Hx. cbn [nd_name nd_ip].
    rewrite (proj2 (truthy_Some name) Hname), orb_true_l.
    rewrite !js_or_truthy by by apply truthy_Some.
    rewrite exists_answers, Hnone. cbn [nonempty].
    by rewrite (update_read_back_fails id existing).
  - rewrite records_updated, lookup_alter_eq, records_lookup, Hx by done. done.
Qed.

(** Every step of the NAS resource is a step of the specification, and
    every store the resource reaches from an empty schema through
    validated requests holds a map the specification reaches from the
    empty map, each creation binding an id that is free. *)
Theorem nas_api_simulates cfg ts :
  NasController.reachable cfg ts -> rtc spec_step ∅ (abs ts).
Proof.
  intros Hrtc. assert (nas_wf ts /\ rtc spec_step ∅ (abs ts)) as [_ ?]; [|done].
  revert ts Hrtc. apply rtc_ind_r.
  - split; [exact nas_wf_empty | by rewrite records_empty].
  - intros ts1 ts2 _ [req fs n r d' ts Hreq Hrun] [[Hf Hu] Hs]. split.
    + by eapply (NasController.handle_keeps_nas cfg req Hreq (Db ts fs n)), Hrun.
    + eapply rtc_r; [exact Hs|].
      eapply outcome_step; [by apply records_counter_free|].
      by apply (nas_handle_refines cfg req (Db ts fs n) (Ok r) d').
Qed.

(** The reads answer from the map.  On a store that answers and whose
    ids are distinct and below the counter, looking a record up by id
    returns what the map binds under the id, the count is the size of the
    map, and the listing is the records of the map, each once, sorted by
    name. *)
Theorem nas_reads_refine id d :
  healthy d -> ids_fresh (committed d) ->
  getById id d = (Ok (abs (committed d) !! id), d) /\
  getCount d = (Ok (size (abs (committed d))), d) /\
  exists l, getAll d = (Ok l, d) /\ Sorted by_shortname l /\
    l ≡ₚ (map_to_list (abs (committed d))).*2.
Proof.
  intros Hd Hf. split; [by rewrite records_lookup, getById_healthy|]. split.
  - unfold getCount. rewrite query_reading_healthy by done. do 2 f_equal.
    unfold abs. rewrite map_size_list_to_map, length_fmap; [done|].
    rewrite <- list_fmap_compose. apply Hf.
  - eexists. split; [by apply query_reading_healthy|].
    split; [apply Sorted_merge_sort, _|].
    rewrite merge_sort_Permutation, records_listed by done.
    unfold select_nas. by rewrite filter_all.
Qed.

(** ** Examples *)

Lemma nas_api_refines_witness :
  abs (committed (NasController.handle unset_env (NasController.Delete 1)
                    router_db).2) = ∅.
Proof.
  etrans.
  - apply (nas_api_refines unset_env (NasController.Delete 1) router_db
             (success 200 "NAS deleted successfully" None)
             (NasController.handle unset_env (NasController.Delete 1) router_db).2
             router_fresh).
    vm_compute. reflexivity.
  - by vm_compute.
Defined.

Lemma nas_update_unreported_witness :
  exists ts',
    NasController.update unset_env 1 renamed (Db (committed router_db) fails_fourth 0) =
    (Ok (internal_error unset_env StoreFailure), Db ts' [] 0) /\
    abs ts' !! 1%Z =
    Some (NasRow 1 "edge1" "10.0.0.9" "n3w-s3cr3t" "cisco" 1812 "" "uplink").
Proof.
  apply (nas_update_unreported unset_env 1 router1 "edge1" "10.0.0.9" "n3w-s3cr3t"
           "cisco" 1812%Z "" "uplink" (committed router_db) 0%nat eq_refl);
    [done | done | by vm_compute].
Defined.

Lemma nas_api_simulates_witness :
  rtc spec_step ∅
    (abs (committed (NasController.handle unset_env
                       (NasController.Create
                          (NasData (Some "router1") (Some "10.0.0.1")
                             (Some "s3cr3t-key") None None None None))
                       (Db empty_tables [] 0)).2)).
Proof.
  apply (nas_api_simulates unset_env).
  eapply rtc_l; [|apply rtc_refl].
  eapply (NasController.step_handle _
            (NasController.Create (NasData (Some "router1") (Some "10.0.0.1")
                                     (Some "s3cr3t-key") None None None None))
            [] 0%nat _ (NasController.handle _ _ _).2 empty_tables).
  - split; discriminate.
  - vm_compute. reflexivity.
Defined.

Lemma nas_reads_refine_witness :
  getById 1 router_db = (Ok (router_records !! 1%Z), router_db) /\
  getCount router_db = (Ok (size router_records), router_db).
Proof.
  destruct (nas_reads_refine 1 router_db eq_refl router_fresh) as (Hg & Hc & _).
  split; [exact Hg | exact Hc].
Defined.

End NasSpec.
