(* ===== verification/Validation.v ===== *)
(** * The validation guard ([middleware/validation.js])

    [validate(schema, property)] runs a Joi schema on one property of the
    request with [abortEarly: false] and [stripUnknown: true]: every
    violation is collected into one 400 answer, unknown keys are dropped,
    and the validated value (defaults filled in, numeric strings converted)
    replaces the property.

    The Joi library is not part of the sources.  [Module Joi] models the
    part of it the schemas use: the builders ([string_], [number_],
    [alphanum], [min], [max], [ip], [valid], [integer], [required],
    [default_], [messages], [object_], [min_keys]) as functions that build a
    schema value, so that a schema of the source is written here as the
    source writes it, and [validate_object] as the interpreter of such a
    value.  What the library decides by its own syntax tables (what an IP
    address is, which strings convert to a number) is the class [Syntax];
    [plain] is an instance (dotted quads, decimal integers) for the
    examples.  Numbers are integers, as everywhere in the development, so
    [integer] never fails here.

    [Module Validation] is the file itself: [validate], the eight schemas
    and the eight guards made from them. *)

From Stdlib Require Import Ascii.
From stdpp Require Import base option strings numbers pretty list.
From S2P Require Import Prelude Store Http.

Declare Scope joi_scope.
Delimit Scope joi_scope with joi.

(** [schema.rule(...)]: method chaining, read left to right. *)
Notation "s '.>' f" := (f s) (at level 45, left associativity, only parsing) : joi_scope.

Module Joi.

(** ** What the library decides by its own tables *)

Class Syntax : Type := {
  (** the string is an IP address of one of the versions *)
  ip_address : list string -> string -> bool;
  (** the number a string converts to, when it is one *)
  number_of : string -> option Z
}.

(** ** Schemas *)

(** [Joi.string()] and [Joi.number()]. *)
Inductive base : Type := String_ | Number_.

Inductive rule : Type :=
| Alphanum
| Min (limit : Z)
| Max (limit : Z)
| Ip (version : list string)
| Integer.

(** The schema of one key: its base type, its rules in the order they were
    added, the allow-list of [valid], [required], the value of [default] and
    the messages that replace the library's. *)
Record schema : Type := Schema {
  base_of : base;
  rules : list rule;
  valids : option (list string);
  presence : bool;
  fallback : option json;
  custom : list (string * string)
}.

(** [Joi.object({...})], with the least number of keys of [.min(n)]. *)
Record object_schema : Type := Object {
  keys : list (string * schema);
  least : option Z
}.

(** One entry of [error.details]. *)
Record detail : Type := Detail {
  path : list string;
  type_ : string;
  message : string
}.

#[global] Instance detail_eq_dec : EqDecision detail.
Proof. solve_decision. Defined.

(** ** Builders *)

Definition string_ : schema := Schema String_ [] None false None [].
Definition number_ : schema := Schema Number_ [] None false None [].

Definition add (r : rule) (s : schema) : schema :=
  Schema (base_of s) (rules s ++ [r]) (valids s) (presence s) (fallback s) (custom s).

Definition alphanum : schema -> schema := add Alphanum.
Definition min (limit : Z) : schema -> schema := add (Min limit).
Definition max (limit : Z) : schema -> schema := add (Max limit).
Definition ip (version : list string) : schema -> schema := add (Ip version).
Definition integer : schema -> schema := add Integer.

Definition valid (allowed : list string) (s : schema) : schema :=
  Schema (base_of s) (rules s) (Some allowed) (presence s) (fallback s) (custom s).

Definition required (s : schema) : schema :=
  Schema (base_of s) (rules s) (valids s) true (fallback s) (custom s).

Definition optional (s : schema) : schema :=
  Schema (base_of s) (rules s) (valids s) false (fallback s) (custom s).

Definition default_ (v : json) (s : schema) : schema :=
  Schema (base_of s) (rules s) (valids s) (presence s) (Some v) (custom s).

Definition messages (ms : list (string * string)) (s : schema) : schema :=
  Schema (base_of s) (rules s) (valids s) (presence s) (fallback s) (ms ++ custom s).

Definition object_ (ks : list (string * schema)) : object_schema := Object ks None.

Definition min_keys (n : Z) (o : object_schema) : object_schema := Object (keys o) (Some n).

(** ** Messages *)

(** The library's own message for an error type. *)
Definition template (type_ label : string) (limit : Z) (allowed : list string) : string :=
  if String.eqb type_ "any.required" then label ++ " is required"
  else if String.eqb type_ "any.only" then
    label ++ " must be " ++ (if bool_decide (length allowed = 1%nat) then "" else "one of ")
      ++ "[" ++ String.concat ", " allowed ++ "]"
  else if String.eqb type_ "string.base" then label ++ " must be a string"
  else if String.eqb type_ "string.empty" then label ++ " is not allowed to be empty"
  else if String.eqb type_ "string.alphanum" then
    label ++ " must only contain alpha-numeric characters"
  else if String.eqb type_ "string.min" then
    label ++ " length must be at least " ++ pretty limit ++ " characters long"
  else if String.eqb type_ "string.max" then
    label ++ " length must be less than or equal to " ++ pretty limit ++ " characters long"
  else if String.eqb type_ "string.ip" then
    label ++ " must be a valid ip address with a optional CIDR"
  else if String.eqb type_ "string.ipVersion" then
    label ++ " must be a valid ip address of one of the following versions [ipv4, ipv6] with a optional CIDR"
  else if String.eqb type_ "number.base" then label ++ " must be a number"
  else if String.eqb type_ "number.unsafe" then label ++ " must be a safe number"
  else if String.eqb type_ "number.integer" then label ++ " must be an integer"
  else if String.eqb type_ "number.min" then
    label ++ " must be greater than or equal to " ++ pretty limit
  else if String.eqb type_ "number.max" then
    label ++ " must be less than or equal to " ++ pretty limit
  else if String.eqb type_ "object.base" then label ++ " must be of type object"
  else if String.eqb type_ "object.min" then
    label ++ " must have at least " ++ pretty limit ++ " key"
      ++ (if bool_decide (limit = 1%Z) then "" else "s")
  else label ++ " is invalid".

(** [ms[type]] *)
Definition lookup_message (type_ : string) (ms : list (string * string)) : option string :=
  snd <$> head (filter (fun m => m.1 = type_) ms).

(** The error of a key: the schema's message for the type when it has one,
    the library's otherwise. *)
Definition report (s : schema) (key type_ : string) (limit : Z) : detail :=
  Detail [key] type_
    (default (template type_ (quoted key) limit (default [] (valids s)))
       (lookup_message type_ (custom s))).

(** ** Checking one value *)

Definition alnum (c : ascii) : bool :=
  let n := nat_of_ascii c in
  (48 <=? n)%nat && (n <=? 57)%nat || (65 <=? n)%nat && (n <=? 90)%nat
  || (97 <=? n)%nat && (n <=? 122)%nat.

(** Every character of the string passes the test. *)
Fixpoint every (p : ascii -> bool) (s : string) : bool :=
  match s with
  | EmptyString => true
  | String c rest => p c && every p rest
  end.

(** [/^[a-zA-Z0-9]+$/] *)
Definition alphanumeric (s : string) : bool :=
  negb (String.eqb s "") && every alnum s.

(** [Number.isSafeInteger] *)
Definition safe (n : Z) : bool :=
  bool_decide (-9007199254740991 <= n <= 9007199254740991)%Z.

(** The value a schema's base type makes of an input, or the error type:
    a string must be a string and not the empty one; a number may come as
    a string that converts. *)
Definition coerce `{Syntax} (b : base) (v : json) : string + json :=
  match b, v with
  | String_, JStr s => if String.eqb s "" then inl "string.empty" else inr v
  | String_, _ => inl "string.base"
  | Number_, JNum n => if safe n then inr v else inl "number.unsafe"
  | Number_, JStr s =>
      match number_of s with
      | Some n => if safe n then inr (JNum n) else inl "number.unsafe"
      | None => inl "number.base"
      end
  | Number_, _ => inl "number.base"
  end.

(** The error type and limit of a rule the value breaks. *)
Definition violates `{Syntax} (v : json) (r : rule) : option (string * Z) :=
  match v, r with
  | JStr s, Alphanum => if alphanumeric s then None else Some ("string.alphanum", 0%Z)
  | JStr s, Min n =>
      if bool_decide (n <= Z.of_nat (String.length s))%Z then None else Some ("string.min", n)
  | JStr s, Max n =>
      if bool_decide (Z.of_nat (String.length s) <= n)%Z then None else Some ("string.max", n)
  | JStr s, Ip version =>
      if ip_address version s then None
      else Some (if bool_decide (version = []) then "string.ip" else "string.ipVersion", 0%Z)
  | JNum x, Min n => if bool_decide (n <= x)%Z then None else Some ("number.min", n)
  | JNum x, Max n => if bool_decide (x <= n)%Z then None else Some ("number.max", n)
  | _, _ => None
  end.

(** The value is on the allow-list of [valid]. *)
Definition allowed (s : schema) (v : json) : bool :=
  match valids s, v with
  | Some l, JStr x => bool_decide (x ∈ l)
  | _, _ => false
  end.

(** What a key's schema accepts of a present value [v], and as which value
    [v']: a value on the allow-list as it is; without an allow-list, what
    the base type makes of it when that breaks no rule. *)
Definition passes `{Syntax} (s : schema) (v v' : json) : Prop :=
  allowed s v = true /\ v' = v \/
  valids s = None /\ coerce (base_of s) v = inr v' /\
    Forall (fun r => violates v' r = None) (rules s).

(** One key of an object: an absent key is an error when required and
    takes the default otherwise; a value on the allow-list is accepted as
    it is; any other value is reported as off the list when there is one,
    then converted to the base type, then checked against every rule. *)
Definition validate_value `{Syntax} (s : schema) (key : string) (v : option json)
    : list detail * option json :=
  match v with
  | None =>
      if presence s then ([report s key "any.required" 0], None) else ([], fallback s)
  | Some v =>
      if allowed s v then ([], Some v)
      else
        let only :=
          match valids s with Some _ => [report s key "any.only" 0] | None => [] end in
        match coerce (base_of s) v with
        | inl t => (only ++ [report s key t 0], Some v)
        | inr v' =>
            (only ++ omap (fun r => (fun tl => report s key tl.1 tl.2) <$> violates v' r)
                       (rules s),
             Some v')
        end
  end.

(** ** Checking an object *)

(** What each key of the schema makes of the input, in the schema's order. *)
Definition results `{Syntax} (o : object_schema) (input : json)
    : list (string * (list detail * option json)) :=
  (fun ks => (ks.1, validate_value ks.2 ks.1 (jget ks.1 input))) <$> keys o.

(** The keys that have a value. *)
Definition kept (rs : list (string * (list detail * option json))) : list (string * json) :=
  omap (fun r => pair r.1 <$> r.2.2) rs.

(** [schema.validate(input, { abortEarly: false, stripUnknown: true })]:
    the details of every key, then of the object's own rule, and the value
    with the keys of the schema only. *)
Definition validate_object `{Syntax} (o : object_schema) (input : json)
    : list detail * json :=
  match input with
  | JObj _ =>
      let rs := results o input in
      let value := kept rs in
      let few :=
        match least o with
        | Some n =>
            if bool_decide (n <= Z.of_nat (length value))%Z then []
            else [Detail [] "object.min" (template "object.min" (quoted "value") n [])]
        | None => []
        end in
      (mjoin ((fun r => r.2.1) <$> rs) ++ few, JObj value)
  | _ => ([Detail [] "object.base" (template "object.base" (quoted "value") 0 [])], input)
  end.

(** ** An instance of the syntax *)

Definition digit (c : ascii) : option Z :=
  let n := nat_of_ascii c in
  if (48 <=? n)%nat && (n <=? 57)%nat then Some (Z.of_nat n - 48)%Z else None.

(** The number written by decimal digits, most significant first. *)
Fixpoint digits (acc : Z) (s : string) : option Z :=
  match s with
  | EmptyString => Some acc
  | String c rest => d ← digit c; digits (10 * acc + d) rest
  end.

(** A decimal integer with an optional minus sign. *)
Definition decimal (s : string) : option Z :=
  match s with
  | EmptyString => None
  | String "-" (String c rest) => Z.opp <$> digits 0 (String c rest)
  | _ => digits 0 s
  end.

(** Four decimal numbers up to 255 between dots. *)
Definition dotted_quad (s : string) : bool :=
  let parts := split "." s in
  bool_decide (length parts = 4%nat) &&
  forallb (fun p =>
             match digits 0 p with
             | Some n => negb (String.eqb p "") && bool_decide (n <= 255)%Z
                         && (String.length p <=? 3)%nat
             | None => false
             end) parts.

#[global] Instance plain : Syntax := {|
  ip_address := fun _ => dotted_quad;
  number_of := decimal
|}.

End Joi.

Module Validation.

Import Joi.

Section guards.
Context `{Joi.Syntax}.

Open Scope joi_scope.

(** [{ field: detail.path.join('.'), message: detail.message }] *)
Definition error_json (d : detail) : json :=
  JObj [("field", JStr (String.concat "." (path d))); ("message", JStr (message d))].

(** [res.status(400).json({ success: false, message: 'Validation error',
    errors })] *)
Definition validation_error (details : list detail) : response :=
  Response 400
    (JObj [("success", JBool false); ("message", JStr "Validation error");
           ("errors", JArr (error_json <$> details))]).

(** [validate(schema, property)] on [req[property]]: 400 with every detail
    when there is an error; otherwise the value replaces the property and
    the next handler runs. *)
Definition validate (schema : object_schema) (input : json) : guard json :=
  match validate_object schema input with
  | ([], value) => Next value
  | (details, _) => Respond (validation_error details)
  end.

(** The NAS types of [nasSchemas]. *)
Definition nas_types : list string :=
  ["cisco"; "computone"; "livingston"; "juniper"; "max40xx"; "multitech"; "netserver";
   "pathras"; "patton"; "portslave"; "tc"; "usrhiper"; "other"].

Definition nasSchemas_create : object_schema :=
  object_ [
    ("name", string_ .> alphanum .> min 3 .> max 30 .> required .> messages [
       ("string.alphanum", "Name must contain only alphanumeric characters");
       ("string.min", "Name must be at least 3 characters long");
       ("string.max", "Name must not exceed 30 characters");
       ("any.required", "Name is required")]);
    ("ip", string_ .> ip ["ipv4"; "ipv6"] .> required .> messages [
       ("string.ip", "Must be a valid IP address");
       ("any.required", "IP address is required")]);
    ("secret", string_ .> min 8 .> max 100 .> required .> messages [
       ("string.min", "Secret must be at least 8 characters long");
       ("string.max", "Secret must not exceed 100 characters");
       ("any.required", "Secret is required")]);
    ("type", string_ .> valid nas_types .> default_ (JStr "other"));
    ("ports", number_ .> integer .> min 1 .> max 65535 .> default_ (JNum 1812));
    ("community", string_ .> max 50 .> default_ (JStr ""));
    ("description", string_ .> max 200 .> default_ (JStr ""))
  ].

Definition nasSchemas_update : object_schema :=
  object_ [
    ("name", string_ .> alphanum .> min 3 .> max 30 .> messages [
       ("string.alphanum", "Name must contain only alphanumeric characters");
       ("string.min", "Name must be at least 3 characters long");
       ("string.max", "Name must not exceed 30 characters")]);
    ("ip", string_ .> ip ["ipv4"; "ipv6"] .> messages [
       ("string.ip", "Must be a valid IP address")]);
    ("secret", string_ .> min 8 .> max 100 .> messages [
       ("string.min", "Secret must be at least 8 characters long");
       ("string.max", "Secret must not exceed 100 characters")]);
    ("type", string_ .> valid nas_types);
    ("ports", number_ .> integer .> min 1 .> max 65535);
    ("community", string_ .> max 50);
    ("description", string_ .> max 200)
  ] .> min_keys 1.

Definition userSchemas_create : object_schema :=
  object_ [
    ("user", string_ .> min 6 .> required .> messages [
       ("string.min", "Username must be at least 6 characters long");
       ("any.required", "Username is required")]);
    ("password", string_ .> min 6 .> required .> messages [
       ("string.min", "Password must be at least 6 characters long");
       ("any.required", "Password is required")]);
    ("profile", string_)
  ].

Definition userSchemas_update : object_schema :=
  object_ [
    ("password", string_ .> min 6 .> messages [
       ("string.min", "Password must be at least 6 characters long")]);
    ("profile", string_)
  ] .> min_keys 1.

Definition authSchemas_login : object_schema :=
  object_ [
    ("username", string_ .> required .> messages [("any.required", "Username is required")]);
    ("password", string_ .> required .> messages [("any.required", "Password is required")])
  ].

Definition querySchemas_pagination : object_schema :=
  object_ [
    ("page", number_ .> integer .> min 1 .> default_ (JNum 1));
    ("limit", number_ .> integer .> min 1 .> max 100 .> default_ (JNum 10));
    ("search", string_ .> max 100 .> optional)
  ].

Definition querySchemas_id : object_schema :=
  object_ [
    ("id", number_ .> integer .> min 1 .> required .> messages [
       ("number.base", "ID must be a number");
       ("number.integer", "ID must be an integer");
       ("number.min", "ID must be greater than 0");
       ("any.required", "ID is required")])
  ].

Definition querySchemas_username : object_schema :=
  object_ [
    ("username", string_ .> min 6 .> max 64 .> required .> messages [
       ("string.min", "Username must be at least 6 characters long");
       ("string.max", "Username must not exceed 64 characters");
       ("any.required", "Username is required")])
  ].

(** The guards, each on the property it reads: the body, the query string
    or the parameters of the path. *)
Definition validateNasCreate (body : json) : guard json := validate nasSchemas_create body.
Definition validateNasUpdate (body : json) : guard json := validate nasSchemas_update body.
Definition validateUserCreate (body : json) : guard json := validate userSchemas_create body.
Definition validateUserUpdate (body : json) : guard json := validate userSchemas_update body.
Definition validateLogin (body : json) : guard json := validate authSchemas_login body.
Definition validatePagination (query : json) : guard json :=
  validate querySchemas_pagination query.
Definition validateId (params : json) : guard json := validate querySchemas_id params.
Definition validateUsername (params : json) : guard json :=
  validate querySchemas_username params.

(** ** What the schemas promise *)

(** The value under a key, when there is one, is a string with a property,
    or a number with a property. *)
Definition is_text (p : string -> Prop) (o : option json) : Prop :=
  match o with Some v => exists x, v = JStr x /\ p x | None => True end.

Definition is_number (p : Z -> Prop) (o : option json) : Prop :=
  match o with Some v => exists n, v = JNum n /\ p n | None => True end.

(** A length between two bounds. *)
Definition between (lo hi : Z) (x : string) : Prop :=
  (lo <= Z.of_nat (String.length x) <= hi)%Z.

Definition at_least (lo : Z) (x : string) : Prop := (lo <= Z.of_nat (String.length x))%Z.

(** The constraints of [nasSchemas] on the keys of a payload. *)
Definition nas_payload (value : json) : Prop :=
  is_text (fun x => alphanumeric x = true /\ between 3 30 x) (jget "name" value) /\
  is_text (fun x => x <> "" /\ ip_address ["ipv4"; "ipv6"] x = true) (jget "ip" value) /\
  is_text (between 8 100) (jget "secret" value) /\
  is_text (fun x => x ∈ nas_types) (jget "type" value) /\
  is_number (fun n => 1 <= n <= 65535)%Z (jget "ports" value) /\
  is_text (between 0 50) (jget "community" value) /\
  is_text (between 0 200) (jget "description" value).

(** The constraints of [userSchemas] on the keys of a payload. *)
Definition user_payload (value : json) : Prop :=
  is_text (at_least 6) (jget "user" value) /\
  is_text (at_least 6) (jget "password" value) /\
  is_text (fun x => x <> "") (jget "profile" value).

(** Each of the keys has a value. *)
Definition present (ks : list string) (value : json) : Prop :=
  Forall (fun k => is_Some (jget k value)) ks.

(** ** Payloads for the examples *)

(** A NAS payload with a name of two characters and a port of 70000. *)
Definition short_name_big_port : json :=
  JObj [("name", JStr "ab"); ("ip", JStr "10.0.0.1"); ("secret", JStr "s3cr3t-key");
        ("ports", JNum 70000)].

(** A NAS payload with the three required keys and one the schema does not
    name. *)
Definition router_payload : json :=
  JObj [("name", JStr "router1"); ("ip", JStr "10.0.0.1"); ("secret", JStr "s3cr3t-key");
        ("vendor", JStr "acme")].

(** What the create guard makes of [router_payload]. *)
Definition router_validated : json :=
  JObj [("name", JStr "router1"); ("ip", JStr "10.0.0.1"); ("secret", JStr "s3cr3t-key");
        ("type", JStr "other"); ("ports", JNum 1812);
        ("community", JStr ""); ("description", JStr "")].


End guards.

End Validation.

(** ** Lemmas: the rules *)

Section joi.
Context `{Joi.Syntax}.
Import Joi.

#[local] Arguments jget : simpl never.

Lemma violates_min_string s n :
  violates (JStr s) (Min n) = None <-> (n <= Z.of_nat (String.length s))%Z.
Proof. simpl. by case_bool_decide. Qed.

Lemma violates_max_string s n :
  violates (JStr s) (Max n) = None <-> (Z.of_nat (String.length s) <= n)%Z.
Proof. simpl. by case_bool_decide. Qed.

Lemma violates_min_number x n : violates (JNum x) (Min n) = None <-> (n <= x)%Z.
Proof. simpl. by case_bool_decide. Qed.

Lemma violates_max_number x n : violates (JNum x) (Max n) = None <-> (x <= n)%Z.
Proof. simpl. by case_bool_decide. Qed.

Lemma violates_alphanum s : violates (JStr s) Alphanum = None <-> alphanumeric s = true.
Proof. simpl. by destruct (alphanumeric s). Qed.

Lemma violates_ip s version :
  violates (JStr s) (Ip version) = None <-> ip_address version s = true.
Proof. simpl. by destruct (ip_address version s). Qed.

(** What the base type lets through: a string that is not empty, a safe
    number. *)
Lemma coerce_string v v' :
  coerce String_ v = inr v' <-> exists s, v = JStr s /\ v' = JStr s /\ s <> "".
Proof.
  split.
  - destruct v as [| | |s| |]; simpl; try done.
    destruct (String.eqb_spec s ""); [done|]. intros [= <-]. by exists s.
  - intros (s & -> & -> & Hs). simpl. by destruct (String.eqb_spec s "").
Qed.

Lemma coerce_number v v' :
  coerce Number_ v = inr v' ->
  exists n, v' = JNum n /\ safe n = true /\ (v = JNum n \/ exists s, v = JStr s /\ number_of s = Some n).
Proof.
  destruct v as [| |n|s| |]; simpl; try done.
  - destruct (safe n) eqn:Hn; [|done]. intros [= <-]. exists n. auto.
  - destruct (number_of s) as [n|] eqn:Hs; [|done].
    destruct (safe n) eqn:Hn; [|done]. intros [= <-]. exists n. eauto 6.
Qed.

(** A value that came out of the base type goes through it unchanged. *)
Lemma coerce_idem b v v' : coerce b v = inr v' -> coerce b v' = inr v'.
Proof.
  destruct b.
  - intros (s & -> & -> & Hs)%coerce_string. apply coerce_string. eauto.
  - intros (n & -> & Hn & _)%coerce_number. simpl. by rewrite Hn.
Qed.

(** ** Lemmas: one key *)

Lemma omap_nil {A B} (f : A -> option B) l : omap f l = [] <-> Forall (fun x => f x = None) l.
Proof.
  induction l as [|x l IH]; simpl; [by split; [constructor|]|].
  destruct (f x) eqn:E; split; try done.
  - intros Hl. inversion Hl; congruence.
  - intros Hl. constructor; [done|]. by apply IH.
  - intros Hl. inversion Hl; subst. by apply IH.
Qed.

(** A key reports nothing exactly when it is absent and not required, or
    present with a value its schema accepts. *)
Lemma validate_value_ok s key i o :
  validate_value s key i = ([], o) <->
  i = None /\ presence s = false /\ o = fallback s \/
  exists v v', i = Some v /\ o = Some v' /\ passes s v v'.
Proof.
  unfold validate_value, passes. destruct i as [v|].
  - destruct (allowed s v) eqn:Ha.
    { split; [intros [= <-]; right; eauto 10|].
      intros [(? & _)|(? & v' & [= <-] & -> & [[_ ->]|(Hv & _)])]; [done..|].
      unfold allowed in Ha. by rewrite Hv in Ha. }
    destruct (valids s) as [l|] eqn:Hv.
    { split; [by destruct (coerce _ v)|].
      intros [(? & _)|(? & v' & [= <-] & _ & [[? _]|(? & _)])]; congruence. }
    destruct (coerce (base_of s) v) as [t|v'] eqn:Hc; simpl.
    { split; [done|]. intros [(? & _)|(? & v' & [= <-] & _ & [[? _]|(_ & ? & _)])]; congruence. }
    split.
    + intros [= Hr <-]. right. exists v, v'. repeat split; try done. right.
      repeat split; try done. apply omap_nil in Hr.
      eapply Forall_impl; [exact Hr|]. intros r. simpl. by destruct (violates v' r).
    + intros [(? & _)|(? & v'' & [= <-] & Ho & [[? _]|(_ & Hc' & Hr)])];
        [congruence..|]. assert (v'' = v') as -> by congruence. subst o.
      f_equal. apply omap_nil. eapply Forall_impl; [exact Hr|].
      intros r Hr'. simpl in *. by rewrite Hr'.
  - destruct (presence s); split.
    + done.
    + intros [(_ & ? & _)|(? & ? & ? & _)]; done.
    + intros [= <-]. by left.
    + intros [(_ & _ & ->)|(? & ? & ? & _)]; done.
Qed.

(** ** Lemmas: an object *)

Lemma jget_cons k k' v fs :
  jget k (JObj ((k', v) :: fs)) = if decide (k' = k) then Some v else jget k (JObj fs).
Proof. unfold jget. rewrite filter_cons. simpl. by case_decide. Qed.

(** The validated object holds, under each key of the schema, what the key
    made of the input, and nothing under any other key. *)
Lemma jget_kept o input k s :
  NoDup (keys o).*1 -> (k, s) ∈ keys o ->
  jget k (JObj (kept (results o input))) = (validate_value s k (jget k input)).2.
Proof.
  unfold results, kept. induction (keys o) as [|[k' s'] ks IH]; [by intros _ ?%elem_of_nil|].
  rewrite fmap_cons, NoDup_cons. intros [Hk' Hks] [[= -> ->]|Hin]%elem_of_cons; simpl.
  - destruct (validate_value s' k' _).2 as [v|] eqn:E; simpl.
    + by rewrite jget_cons, decide_True.
    + clear IH. induction ks as [|[k2 s2] ks IH]; [done|]. simpl.
      rewrite fmap_cons, not_elem_of_cons in Hk'. destruct Hk' as [Hne Hk'].
      apply NoDup_cons in Hks as [_ Hks].
      destruct (validate_value s2 k2 _).2; simpl; [|by apply IH].
      rewrite jget_cons, decide_False by done. by apply IH.
  - assert (k' <> k) as Hne.
    { intros ->. apply Hk'. apply list_elem_of_fmap. by exists (k, s). }
    destruct (validate_value s' k' _).2; simpl; [|by apply IH].
    rewrite jget_cons, decide_False by done. by apply IH.
Qed.

Lemma jget_kept_unknown o input k :
  k ∉ (keys o).*1 -> jget k (JObj (kept (results o input))) = None.
Proof.
  unfold results, kept. induction (keys o) as [|[k' s'] ks IH]; [done|].
  rewrite fmap_cons, not_elem_of_cons. intros [Hne Hk]. simpl.
  destruct (validate_value s' k' _).2; simpl; [|by apply IH].
  rewrite jget_cons, decide_False by done. by apply IH.
Qed.

Lemma mjoin_nil {A} (ls : list (list A)) : mjoin ls = [] <-> Forall (fun l => l = []) ls.
Proof.
  induction ls as [|l ls IH]; simpl; [by split; [constructor|]|].
  split.
  - intros [-> Hls]%app_eq_nil. constructor; [done|]. by apply IH.
  - intros Hl. inversion Hl; subst. simpl. by apply IH.
Qed.

(** An object reports nothing exactly when it is an object, no key reports
    anything, and it keeps as many keys as [min_keys] asks. *)
Lemma validate_object_ok o input value :
  validate_object o input = ([], value) <->
  (exists fs, input = JObj fs) /\
  value = JObj (kept (results o input)) /\
  Forall (fun ks => (validate_value ks.2 ks.1 (jget ks.1 input)).1 = []) (keys o) /\
  (forall n, least o = Some n -> (n <= Z.of_nat (length (kept (results o input))))%Z).
Proof.
  unfold validate_object. destruct input as [| | | | |fs];
    try (split; [done|by intros [[? ?] _]]).
  split.
  - intros [= [Hj Hfew]%app_eq_nil <-]. split; [by eexists|]. split; [done|]. split.
    + apply mjoin_nil in Hj. unfold results in Hj. rewrite <- list_fmap_compose in Hj.
      by apply Forall_fmap in Hj.
    + intros n Hn. rewrite Hn in Hfew. by case_bool_decide.
  - intros (_ & -> & Hks & Hn). f_equal. apply app_nil. split.
    + apply mjoin_nil. unfold results. rewrite <- list_fmap_compose. by apply Forall_fmap.
    + destruct (least o) as [n|]; [|done]. by rewrite bool_decide_true by auto.
Qed.

End joi.

(** ** Lemmas: the guard *)

Section guard.
Context `{Joi.Syntax}.
Import Joi Validation.

#[local] Arguments jget : simpl never.

Lemma validate_next o input value :
  validate o input = Next value <-> validate_object o input = ([], value).
Proof.
  unfold validate. destruct (validate_object o input) as [[|d ds] v]; split; congruence.
Qed.

Lemma validate_respond o input r :
  validate o input = Respond r <->
  (validate_object o input).1 <> [] /\ r = validation_error (validate_object o input).1.
Proof.
  unfold validate. destruct (validate_object o input) as [[|d ds] v]; simpl; split;
    try done; [by intros [? _] | by intros [= <-] | by intros [_ ->]].
Qed.

(** The guard answers 400 or lets a value through, and nothing else. *)
Lemma validate_cases o input :
  (exists value, validate o input = Next value) \/
  (exists details, details <> [] /\ validate o input = Respond (validation_error details)).
Proof.
  unfold validate. destruct (validate_object o input) as [[|d ds] v]; [left|right].
  - by eexists.
  - by exists (d :: ds).
Qed.

(** Every error of every key is among the details of the object. *)
Lemma validate_object_collects o fs k s d :
  (k, s) ∈ keys o -> d ∈ (validate_value s k (jget k (JObj fs))).1 ->
  d ∈ (validate_object o (JObj fs)).1.
Proof.
  intros Hk Hd. simpl. apply elem_of_app. left. apply list_elem_of_join.
  exists (validate_value s k (jget k (JObj fs))).1. split; [done|].
  unfold results. rewrite <- list_fmap_compose. apply list_elem_of_fmap. by exists (k, s).
Qed.

(** An error of a key makes the guard refuse the object. *)
Lemma validate_refuses o fs k s d :
  (k, s) ∈ keys o -> d ∈ (validate_value s k (jget k (JObj fs))).1 ->
  validate o (JObj fs) = Respond (validation_error (validate_object o (JObj fs)).1).
Proof.
  intros Hk Hd. pose proof (validate_object_collects o fs k s d Hk Hd) as Hin.
  apply validate_respond. split; [|done].
  intros E. rewrite E in Hin. by apply elem_of_nil in Hin.
Qed.

(** The errors of a key are on its path. *)
Lemma validate_value_path s k i d : d ∈ (validate_value s k i).1 -> path d = [k].
Proof.
  unfold validate_value. destruct i as [v|].
  - destruct (allowed s v); [by intros ?%elem_of_nil|].
    assert (forall d l, d ∈ match valids s with
                            | Some _ => [report s k "any.only" 0] | None => [] end ++ l ->
                        (forall d, d ∈ l -> path d = [k]) -> path d = [k]) as Honly.
    { intros d' l [Hd|Hd]%elem_of_app Hl; [|by apply Hl].
      destruct (valids s); [|by apply elem_of_nil in Hd].
      by apply list_elem_of_singleton in Hd as ->. }
    destruct (coerce (base_of s) v) as [t|v']; simpl; intros Hd;
      apply (Honly _ _ Hd); intros d'.
    + by intros ->%list_elem_of_singleton.
    + intros (r & _ & Hr)%list_elem_of_omap. by destruct (violates v' r); simplify_eq/=.
  - destruct (presence s); simpl; [|by intros ?%elem_of_nil].
    by intros ->%list_elem_of_singleton.
Qed.

(** What the value let through holds under a key of the schema. *)
Lemma validate_key o input value k s :
  NoDup (keys o).*1 -> validate o input = Next value -> (k, s) ∈ keys o ->
  validate_value s k (jget k input) = ([], jget k value).
Proof.
  intros Hnd (_ & -> & Hks & _)%validate_next%validate_object_ok Hk.
  rewrite (jget_kept o input k s Hnd Hk).
  rewrite Forall_forall in Hks. specialize (Hks _ Hk). simpl in Hks.
  by destruct (validate_value s k (jget k input)) as [e v]; simplify_eq/=.
Qed.

Lemma passes_string s v v' :
  base_of s = String_ -> valids s = None -> passes s v v' ->
  exists x, v = JStr x /\ v' = JStr x /\ x <> "" /\
    Forall (fun r => violates (JStr x) r = None) (rules s).
Proof.
  intros Hb Hv [[Ha _]|(_ & Hc & Hr)].
  - unfold allowed in Ha. by rewrite Hv in Ha.
  - rewrite Hb in Hc. apply coerce_string in Hc as (x & -> & -> & Hx). eauto.
Qed.

Lemma passes_number s v v' :
  base_of s = Number_ -> valids s = None -> passes s v v' ->
  exists n, v' = JNum n /\ safe n = true /\
    (v = JNum n \/ exists x, v = JStr x /\ number_of x = Some n) /\
    Forall (fun r => violates (JNum n) r = None) (rules s).
Proof.
  intros Hb Hv [[Ha _]|(_ & Hc & Hr)].
  - unfold allowed in Ha. by rewrite Hv in Ha.
  - rewrite Hb in Hc. apply coerce_number in Hc as (n & -> & Hn & Hvn). eauto 6.
Qed.

Lemma passes_valid s l v v' :
  valids s = Some l -> passes s v v' -> exists x, v = JStr x /\ v' = JStr x /\ x ∈ l.
Proof.
  intros Hv [[Ha ->]|(? & _)]; [|congruence].
  unfold allowed in Ha. rewrite Hv in Ha. destruct v as [| | |x| |]; try done.
  exists x. repeat split. by apply bool_decide_eq_true in Ha.
Qed.

End guard.

(** ** Lemmas: the schemas *)

Section schemas.
Context `{Joi.Syntax}.
Import Joi Validation.

#[local] Arguments jget : simpl never.
#[local] Arguments violates : simpl never.

(** What the guard lets through holds, under the [n]-th key of the schema,
    the default of an absent key or a value the key's schema accepts. *)
Lemma validated_key o input value n k s :
  validate o input = Next value -> NoDup (keys o).*1 -> keys o !! n = Some (k, s) ->
  jget k input = None /\ presence s = false /\ jget k value = fallback s \/
  exists v v', jget k input = Some v /\ jget k value = Some v' /\ passes s v v'.
Proof.
  intros Hv Hnd Hk%list_elem_of_lookup_2.
  by apply validate_value_ok with (key := k), validate_key with (o := o).
Qed.

(** No schema of the file names a key twice. *)
Lemma schemas_keys :
  Forall (fun o => NoDup (keys o).*1)
    [nasSchemas_create; nasSchemas_update; userSchemas_create; userSchemas_update;
     authSchemas_login; querySchemas_pagination; querySchemas_id; querySchemas_username].
Proof. repeat constructor; by apply (bool_decide_unpack _). Qed.

(** What comes through under a key that holds strings: a string that is
    not empty and breaks no rule, or the default. *)
Lemma validated_text o input value n k s (p : string -> Prop) :
  validate o input = Next value -> NoDup (keys o).*1 -> keys o !! n = Some (k, s) ->
  base_of s = String_ -> valids s = None ->
  (forall x, x <> "" -> Forall (fun r => violates (JStr x) r = None) (rules s) -> p x) ->
  is_text p (fallback s) ->
  is_text p (jget k value).
Proof.
  intros Hv Hnd Hk Hb Hl Hp Hd.
  destruct (validated_key o input value n k s Hv Hnd Hk)
    as [(_ & _ & ->)|(v & v' & _ & -> & Hs)]; [done|].
  apply passes_string in Hs as (x & -> & -> & Hx & Hr); [|done..].
  exists x. auto.
Qed.

(** Under a key with an allow-list: a string of the list, or the default. *)
Lemma validated_choice o input value n k s l (p : string -> Prop) :
  validate o input = Next value -> NoDup (keys o).*1 -> keys o !! n = Some (k, s) ->
  valids s = Some l -> (forall x, x ∈ l -> p x) -> is_text p (fallback s) ->
  is_text p (jget k value).
Proof.
  intros Hv Hnd Hk Hl Hp Hd.
  destruct (validated_key o input value n k s Hv Hnd Hk)
    as [(_ & _ & ->)|(v & v' & _ & -> & Hs)]; [done|].
  apply (passes_valid s l) in Hs as (x & -> & -> & Hx); [|done]. exists x. auto.
Qed.

(** Under a key that holds numbers: a number that breaks no rule, or the
    default. *)
Lemma validated_number o input value n k s (p : Z -> Prop) :
  validate o input = Next value -> NoDup (keys o).*1 -> keys o !! n = Some (k, s) ->
  base_of s = Number_ -> valids s = None ->
  (forall x, Forall (fun r => violates (JNum x) r = None) (rules s) -> p x) ->
  is_number p (fallback s) ->
  is_number p (jget k value).
Proof.
  intros Hv Hnd Hk Hb Hl Hp Hd.
  destruct (validated_key o input value n k s Hv Hnd Hk)
    as [(_ & _ & ->)|(v & v' & _ & -> & Hs)]; [done|].
  apply passes_number in Hs as (x & -> & _ & _ & Hr); [|done..].
  exists x. auto.
Qed.

(** A key that is required or has a default has a value. *)
Lemma validated_present o input value n k s :
  validate o input = Next value -> NoDup (keys o).*1 -> keys o !! n = Some (k, s) ->
  presence s = true \/ is_Some (fallback s) -> is_Some (jget k value).
Proof.
  intros Hv Hnd Hk Hs.
  destruct (validated_key o input value n k s Hv Hnd Hk)
    as [(_ & Hp & ->)|(v & v' & _ & -> & _)]; [|by eexists].
  destruct Hs as [Hs|Hs]; [congruence|done].
Qed.

(** A key the schema does not name has no value. *)
Lemma validated_unknown o input value k :
  validate o input = Next value -> k ∉ (keys o).*1 -> jget k value = None.
Proof.
  intros (_ & -> & _)%validate_next%validate_object_ok Hk. by apply jget_kept_unknown.
Qed.

(** With [min_keys 1] at least one key of the schema has a value. *)
Lemma validated_min_keys o input value :
  validate o input = Next value -> least o = Some 1%Z ->
  exists k v, k ∈ (keys o).*1 /\ jget k value = Some v.
Proof.
  intros (_ & -> & _ & Hn)%validate_next%validate_object_ok Hl.
  specialize (Hn _ Hl). unfold results, kept in *.
  induction (keys o) as [|[k s] ks IH]; simpl in *; [lia|].
  destruct (validate_value s k (jget k input)).2 as [v|] eqn:E; simpl in *.
  - exists k, v. rewrite jget_cons, decide_True by done. split; [left|done].
  - destruct (IH Hn) as (k' & v' & Hk' & Hv'). exists k', v'. split; [by right|done].
Qed.

Ltac broken_rules H :=
  cbn in H;
  rewrite ?Forall_cons, ?violates_alphanum, ?violates_min_string, ?violates_max_string,
    ?violates_ip, ?violates_min_number, ?violates_max_number in H;
  unfold between, at_least.

Ltac kept_rules :=
  cbn;
  rewrite ?Forall_cons, ?violates_alphanum, ?violates_min_string, ?violates_max_string,
    ?violates_ip, ?violates_min_number, ?violates_max_number;
  unfold between, at_least in *; repeat split; first [done | lia | constructor].

Ltac schema_keys := by apply (bool_decide_unpack _).

Ltac default_key :=
  first [ done
        | eexists; (split; [reflexivity|]);
          first [ done | by apply (bool_decide_unpack _)
                | unfold between, at_least; simpl; lia ] ].

Ltac text_key n Hv :=
  eapply (validated_text _ _ _ n _ _ _ Hv); [schema_keys|done|done|done| |];
  [intros x Hx Hr; broken_rules Hr; intuition lia | default_key].

Ltac number_key n Hv :=
  eapply (validated_number _ _ _ n _ _ _ Hv); [schema_keys|done|done|done| |];
  [intros x Hr; broken_rules Hr; intuition lia | default_key].

Ltac choice_key n Hv :=
  eapply (validated_choice _ _ _ n _ _ _ _ Hv); [schema_keys|done|done|done|default_key].

Ltac present_key n Hv :=
  eapply (validated_present _ _ _ n _ _ Hv); [schema_keys|done|]; by eauto.

(** Both NAS schemas let through only payloads within the constraints. *)
Lemma nas_schemas_payload o input value :
  o = nasSchemas_create \/ o = nasSchemas_update ->
  validate o input = Next value -> nas_payload value.
Proof.
  intros [-> | ->] Hv; unfold nas_payload;
    (split; [text_key 0%nat Hv|]); (split; [text_key 1%nat Hv|]);
    (split; [text_key 2%nat Hv|]); (split; [choice_key 3%nat Hv|]);
    (split; [number_key 4%nat Hv|]); (split; [text_key 5%nat Hv|text_key 6%nat Hv]).
Qed.

(** The user schemas let through only payloads within the constraints. *)
Lemma user_schemas_payload o input value :
  o = userSchemas_create \/ o = userSchemas_update ->
  validate o input = Next value -> user_payload value.
Proof.
  intros [-> | ->] Hv; unfold user_payload.
  - split; [text_key 0%nat Hv|]. split; [text_key 1%nat Hv|text_key 2%nat Hv].
  - split; [by rewrite (validated_unknown _ _ _ "user" Hv) by schema_keys|].
    split; [text_key 0%nat Hv|text_key 1%nat Hv].
Qed.

Lemma validated_object o input value :
  validate o input = Next value -> exists fs, value = JObj fs.
Proof. intros (_ & -> & _)%validate_next%validate_object_ok. by eexists. Qed.

(** A string that is not empty and breaks no rule comes through as it is. *)
Lemma validate_value_text s k x :
  base_of s = String_ -> valids s = None -> x <> "" ->
  Forall (fun r => violates (JStr x) r = None) (rules s) ->
  validate_value s k (Some (JStr x)) = ([], Some (JStr x)).
Proof.
  intros Hb Hl Hx Hr. apply validate_value_ok. right. exists (JStr x), (JStr x).
  repeat split. right. repeat split; try done. rewrite Hb. apply coerce_string. eauto.
Qed.

(** A safe number that breaks no rule comes through as it is. *)
Lemma validate_value_num s k n :
  base_of s = Number_ -> valids s = None -> safe n = true ->
  Forall (fun r => violates (JNum n) r = None) (rules s) ->
  validate_value s k (Some (JNum n)) = ([], Some (JNum n)).
Proof.
  intros Hb Hl Hn Hr. apply validate_value_ok. right. exists (JNum n), (JNum n).
  repeat split. right. repeat split; try done. rewrite Hb. simpl. by rewrite Hn.
Qed.

(** The empty string is refused under a key that holds strings. *)
Lemma validate_value_empty s k :
  base_of s = String_ -> valids s = None ->
  (validate_value s k (Some (JStr ""))).1 = [report s k "string.empty" 0].
Proof. intros Hb Hl. unfold validate_value, allowed. by rewrite Hl, Hb. Qed.

(** What [validateUsername] lets through is the name of the path. *)
Lemma username_validated params value :
  validateUsername params = Next value ->
  exists u, jget "username" params = Some (JStr u) /\
            jget "username" value = Some (JStr u) /\ between 6 64 u.
Proof.
  intros Hv.
  destruct (validated_key querySchemas_username _ _ 0%nat _ _ Hv ltac:(schema_keys) eq_refl)
    as [(_ & ? & _)|(v & v' & -> & -> & Hs)]; [done|].
  apply passes_string in Hs as (u & -> & -> & _ & Hr); [|done..].
  exists u. repeat split; broken_rules Hr; intuition lia.
Qed.

(** What [validateId] lets through is a number from 1 up: the number of
    the path, converted when it came as a string. *)
Lemma id_validated params value :
  validateId params = Next value ->
  exists n, jget "id" value = Some (JNum n) /\ (1 <= n)%Z /\
    (jget "id" params = Some (JNum n) \/
     exists x, jget "id" params = Some (JStr x) /\ number_of x = Some n).
Proof.
  intros Hv.
  destruct (validated_key querySchemas_id _ _ 0%nat _ _ Hv ltac:(schema_keys) eq_refl)
    as [(_ & ? & _)|(v & v' & -> & -> & Hs)]; [done|].
  apply passes_number in Hs as (n & -> & _ & Hn & Hr); [|done..].
  exists n. repeat split; [broken_rules Hr; intuition lia|].
  destruct Hn as [->|(x & -> & Hx)]; eauto.
Qed.

(** What [validateLogin] lets through: a name and a password, neither
    empty. *)
Lemma login_validated body value :
  validateLogin body = Next value ->
  exists username password,
    jget "username" value = Some (JStr username) /\
    jget "password" value = Some (JStr password) /\ username <> "" /\ password <> "".
Proof.
  intros Hv.
  destruct (validated_key authSchemas_login _ _ 0%nat _ _ Hv ltac:(schema_keys) eq_refl)
    as [(_ & ? & _)|(v & v' & _ & Hu & Hs)]; [done|].
  apply passes_string in Hs as (u & _ & -> & ? & _); [|done..].
  destruct (validated_key authSchemas_login _ _ 1%nat _ _ Hv ltac:(schema_keys) eq_refl)
    as [(_ & ? & _)|(w & w' & _ & Hp & Hs)]; [done|].
  apply passes_string in Hs as (pw & _ & -> & ? & _); [|done..].
  by exists u, pw.
Qed.

(** What [validatePagination] lets through under [search]: nothing, or a
    string that is not empty. *)
Lemma pagination_validated query value :
  validatePagination query = Next value ->
  is_text (fun x => x <> "" /\ between 1 100 x) (jget "search" value).
Proof.
  intros Hv. eapply (validated_text _ _ _ 2%nat _ _ _ Hv); [schema_keys|done..| |done].
  intros x Hx Hr. broken_rules Hr. split; [done|].
  destruct x; [done|]. simpl in *. intuition lia.
Qed.

(** ** Lemmas: what the guards of the parameters answer *)

(** A string that converts to a safe number that breaks no rule comes
    through as that number. *)
Lemma validate_value_converted s k x n :
  base_of s = Number_ -> valids s = None -> number_of x = Some n -> safe n = true ->
  Forall (fun r => violates (JNum n) r = None) (rules s) ->
  validate_value s k (Some (JStr x)) = ([], Some (JNum n)).
Proof.
  intros Hb Hl Hx Hn Hr. apply validate_value_ok. right. exists (JStr x), (JNum n).
  repeat split. right. repeat split; try done. rewrite Hb. simpl. by rewrite Hx, Hn.
Qed.

(** Without an allow-list, a value the base type refuses is reported once,
    and a value it accepts is reported once for each rule it breaks. *)
Lemma validate_value_refused s k v t :
  valids s = None -> coerce (base_of s) v = inl t ->
  validate_value s k (Some v) = ([report s k t 0], Some v).
Proof. intros Hl Hc. unfold validate_value, allowed. by rewrite Hl, Hc. Qed.

Lemma validate_value_checked s k v v' :
  valids s = None -> coerce (base_of s) v = inr v' ->
  validate_value s k (Some v) =
  (omap (fun r => (fun tl => report s k tl.1 tl.2) <$> violates v' r) (rules s), Some v').
Proof. intros Hl Hc. unfold validate_value, allowed. by rewrite Hl, Hc. Qed.

(** A digit string that converts to a number from 1 up is let through as
    that number. *)
Lemma id_accepts x n :
  number_of x = Some n -> safe n = true -> (1 <= n)%Z ->
  validateId (JObj [("id", JStr x)]) = Next (JObj [("id", JNum n)]).
Proof.
  intros Hx Hn Hpos. apply validate_next.
  unfold validate_object, results, kept. cbn [keys querySchemas_id object_ fmap list_fmap fst snd].
  change (jget "id" _) with (Some (JStr x)).
  rewrite (validate_value_converted _ _ x n); [done..|kept_rules].
Qed.

(** A string that does not convert is answered with the message of the
    schema. *)
Lemma id_refuses x :
  number_of x = None ->
  validateId (JObj [("id", JStr x)]) =
  Respond (validation_error [Detail ["id"] "number.base" "ID must be a number"]).
Proof.
  intros Hx. unfold validateId, validate, validate_object, results, kept.
  cbn [keys querySchemas_id object_ fmap list_fmap fst snd].
  change (jget "id" _) with (Some (JStr x)).
  rewrite (validate_value_refused _ _ _ "number.base"); [done..|]. simpl. by rewrite Hx.
Qed.

(** A name of 6 to 64 characters is let through as it is. *)
Lemma username_accepts u :
  between 6 64 u ->
  validateUsername (JObj [("username", JStr u)]) = Next (JObj [("username", JStr u)]).
Proof.
  intros Hu. apply validate_next.
  unfold validate_object, results, kept.
  cbn [keys querySchemas_username object_ fmap list_fmap fst snd].
  change (jget "username" _) with (Some (JStr u)).
  rewrite validate_value_text; [done..| |kept_rules].
  intros ->. unfold between in Hu. simpl in Hu. lia.
Qed.

(** A name of more than 64 characters is refused. *)
Lemma username_too_long u :
  (64 < Z.of_nat (String.length u))%Z ->
  validateUsername (JObj [("username", JStr u)]) =
  Respond (validation_error
             [Detail ["username"] "string.max" "Username must not exceed 64 characters"]).
Proof.
  intros Hu. unfold validateUsername, validate, validate_object, results, kept.
  cbn [keys querySchemas_username object_ fmap list_fmap fst snd].
  change (jget "username" _) with (Some (JStr u)).
  rewrite (validate_value_checked _ _ _ (JStr u)); [|done|].
  - cbn. unfold violates.
    rewrite (bool_decide_true (6 <= _)%Z), (bool_decide_false (_ <= 64)%Z) by lia. done.
  - apply coerce_string. exists u. repeat split. intros ->. simpl in Hu. lia.
Qed.

(** A name and a password of 6 characters or more are let through. *)
Lemma user_create_accepts user password :
  at_least 6 user -> at_least 6 password ->
  validateUserCreate (JObj [("user", JStr user); ("password", JStr password)]) =
  Next (JObj [("user", JStr user); ("password", JStr password)]).
Proof.
  unfold at_least. intros Hu Hp. apply validate_next.
  assert (user <> "" /\ password <> "") as [? ?] by (split; intros ->; simpl in *; lia).
  unfold validate_object, results, kept.
  cbn [keys userSchemas_create object_ fmap list_fmap fst snd].
  change (jget "user" _) with (Some (JStr user)).
  change (jget "password" _) with (Some (JStr password)).
  change (jget "profile" _) with (@None json).
  rewrite !validate_value_text; try done; kept_rules.
Qed.

(** ** Theorems *)


(** A NAS create payload whose port is above 65535 is answered 400
    with an error for [ports], together with every error of every other
    key. *)
Theorem validation_port_out_of_range fs p :
  jget "ports" (JObj fs) = Some (JNum p) -> (65535 < p)%Z ->
  exists details,
    validateNasCreate (JObj fs) = Respond (validation_error details) /\
    (exists d, d ∈ details /\ path d = ["ports"]) /\
    forall k s d, (k, s) ∈ keys nasSchemas_create ->
                  d ∈ (validate_value s k (jget k (JObj fs))).1 -> d ∈ details.
Proof.
  intros Hp Hbig.
  destruct (keys nasSchemas_create !! 4%nat) as [[k s]|] eqn:Hk; [|done].
  pose proof (list_elem_of_lookup_2 _ _ _ Hk) as Hin. injection Hk as <- <-.
  set (s := (number_ .> integer .> min 1 .> max 65535 .> default_ (JNum 1812))%joi) in *.
  destruct (validate_value s "ports" (jget "ports" (JObj fs))) as [[|d ds] o] eqn:E.
  { rewrite Hp in E. apply validate_value_ok in E as [[? _]|(v & v' & [= <-] & _ & Hs)];
      [done|]. apply passes_number in Hs as (n & _ & _ & [[= <-]|(? & ? & _)] & Hr);
      [|done..]. broken_rules Hr. lia. }
  assert (d ∈ (validate_value s "ports" (jget "ports" (JObj fs))).1) as Hd
    by (rewrite E; left).
  exists (validate_object nasSchemas_create (JObj fs)).1.
  split; [by eapply validate_refuses|]. split.
  - exists d. split; [by eapply validate_object_collects|by eapply validate_value_path].
  - intros k' s' d'. apply validate_object_collects.
Qed.

(** C28. What [validateNasCreate] lets through: all seven keys have a
    value (the given one or the default) and each value is within the
    constraints of the schema. *)
Theorem nas_create_validated body value :
  validateNasCreate body = Next value ->
  nas_payload value /\
  present ["name"; "ip"; "secret"; "type"; "ports"; "community"; "description"] value.
Proof.
  intros Hv. split; [by eapply nas_schemas_payload; [left|]|].
  unfold present. repeat apply Forall_cons_2; [..|done].
  - present_key 0%nat Hv.
  - present_key 1%nat Hv.
  - present_key 2%nat Hv.
  - present_key 3%nat Hv.
  - present_key 4%nat Hv.
  - present_key 5%nat Hv.
  - present_key 6%nat Hv.
Qed.

(** What [validateNasUpdate] lets through: every key it keeps is
    within the constraints of the schema, and it keeps at least one of the
    seven keys of a NAS. *)
Theorem nas_update_validated body value :
  validateNasUpdate body = Next value ->
  nas_payload value /\
  exists k v,
    k ∈ ["name"; "ip"; "secret"; "type"; "ports"; "community"; "description"] /\
    jget k value = Some v.
Proof.
  intros Hv. split; [by eapply nas_schemas_payload; [right|]|].
  by apply (validated_min_keys nasSchemas_update body).
Qed.

(** A payload with a name, an address and a secret within the constraints
    is let through as it is, with the defaults of the four keys it leaves
    out. *)
Lemma nas_create_accepts name ip secret :
  alphanumeric name = true -> between 3 30 name ->
  ip <> "" -> ip_address ["ipv4"; "ipv6"] ip = true -> between 8 100 secret ->
  validateNasCreate
    (JObj [("name", JStr name); ("ip", JStr ip); ("secret", JStr secret)]) =
  Next (JObj [("name", JStr name); ("ip", JStr ip); ("secret", JStr secret);
              ("type", JStr "other"); ("ports", JNum 1812);
              ("community", JStr ""); ("description", JStr "")]).
Proof.
  unfold between. intros Hname Hlen Hip Haddr Hsecret. apply validate_next.
  assert (name <> "" /\ secret <> "") as [? ?] by (split; intros ->; simpl in *; lia).
  unfold validate_object, results, kept. cbn [keys nasSchemas_create object_ fmap list_fmap fst snd].
  change (jget "name" _) with (Some (JStr name)).
  change (jget "ip" _) with (Some (JStr ip)).
  change (jget "secret" _) with (Some (JStr secret)).
  change (jget "type" _) with (@None json). change (jget "ports" _) with (@None json).
  change (jget "community" _) with (@None json).
  change (jget "description" _) with (@None json).
  rewrite !validate_value_text; try done; kept_rules.
Qed.

(** Unknown keys are dropped: what the guard lets through has no
    value under a key the schema does not name. *)
Theorem validation_strips_unknown o input value k :
  validate o input = Next value -> k ∉ (keys o).*1 -> jget k value = None.
Proof. intros Hv Hk. by eapply validated_unknown. Qed.

(** An update needs a field: under a schema with [min_keys 1] whose
    keys are optional and have no default, an object with none of the keys
    of the schema (whatever other keys it has) is answered 400 with the one
    error of the object itself. *)
Theorem validation_update_needs_key o fs :
  least o = Some 1%Z ->
  Forall (fun ks => presence ks.2 = false /\ fallback ks.2 = None) (keys o) ->
  (forall k, k ∈ (keys o).*1 -> jget k (JObj fs) = None) ->
  validate o (JObj fs) =
  Respond (validation_error
             [Detail [] "object.min" (template "object.min" (quoted "value") 1 [])]).
Proof.
  intros Hl Hks Hfs. apply validate_respond.
  assert (validate_object o (JObj fs) =
          ([Detail [] "object.min" (template "object.min" (quoted "value") 1 [])],
           JObj [])) as ->; [|done].
  unfold validate_object, results, kept. rewrite Hl.
  induction (keys o) as [|[k s] ks IH]; [done|].
  apply Forall_cons in Hks as [[Hp Hd] Hks]. simpl in *.
  rewrite (Hfs k) by (by left). simpl. rewrite Hp, Hd. simpl.
  apply IH; [done|]. intros k' Hk'. apply Hfs. by right.
Qed.

(** C37. The defaults of [community] and [description] are values the
    schemas refuse: when a create payload leaves [community] out, what the
    guard lets through holds the empty string under it, and that same value
    is answered 400 by the update guard, with the error that the string is
    empty. *)
Theorem nas_default_refused body value :
  validateNasCreate body = Next value -> jget "community" body = None ->
  jget "community" value = Some (JStr "") /\
  exists details,
    validateNasUpdate value = Respond (validation_error details) /\
    exists d, d ∈ details /\ path d = ["community"] /\ type_ d = "string.empty".
Proof.
  intros Hv Hbody.
  assert (jget "community" value = Some (JStr "")) as Hc.
  { destruct (validated_key nasSchemas_create _ _ 5%nat _ _ Hv ltac:(schema_keys) eq_refl)
      as [(_ & _ & ->)|(? & ? & ? & _)]; [done|congruence]. }
  split; [done|]. destruct (validated_object _ _ _ Hv) as [fs ->].
  destruct (keys nasSchemas_update !! 5%nat) as [[k s]|] eqn:Hk; [|done].
  pose proof (list_elem_of_lookup_2 _ _ _ Hk) as Hin. injection Hk as <- <-.
  set (s := (string_ .> max 50)%joi) in *.
  assert (report s "community" "string.empty" 0
            ∈ (validate_value s "community" (jget "community" (JObj fs))).1) as Hd.
  { rewrite Hc, validate_value_empty by done. by left. }
  exists (validate_object nasSchemas_update (JObj fs)).1.
  split; [by eapply validate_refuses|].
  exists (report s "community" "string.empty" 0).
  split; [by eapply validate_object_collects|done].
Qed.

End schemas.

(** ** Examples: the theorems at concrete payloads, under [plain] *)

Import Joi Validation.


Lemma validation_port_out_of_range_witness :
  exists details,
    validateNasCreate (H := plain) short_name_big_port =
      Respond (validation_error details) /\
    (exists d, d ∈ details /\ path d = ["ports"]) /\
    forall k s d, (k, s) ∈ keys nasSchemas_create ->
      d ∈ (validate_value (H := plain) s k (jget k short_name_big_port)).1 -> d ∈ details.
Proof.
  refine (validation_port_out_of_range (H := plain)
            [("name", JStr "ab"); ("ip", JStr "10.0.0.1"); ("secret", JStr "s3cr3t-key");
             ("ports", JNum 70000)] 70000 _ _); [reflexivity | lia].
Defined.

Lemma nas_create_validated_witness :
  nas_payload (H := plain) router_validated /\
  present ["name"; "ip"; "secret"; "type"; "ports"; "community"; "description"]
    router_validated.
Proof.
  refine (nas_create_validated (H := plain) router_payload router_validated _).
  vm_compute. reflexivity.
Defined.

Lemma nas_update_validated_witness :
  nas_payload (H := plain) (JObj [("ports", JNum 1813)]) /\
  exists k v,
    k ∈ ["name"; "ip"; "secret"; "type"; "ports"; "community"; "description"] /\
    jget k (JObj [("ports", JNum 1813)]) = Some v.
Proof.
  refine (nas_update_validated (H := plain)
            (JObj [("ports", JNum 1813); ("vendor", JStr "acme")])
            (JObj [("ports", JNum 1813)]) _).
  vm_compute. reflexivity.
Defined.

Lemma validation_strips_unknown_witness : jget "vendor" router_validated = None.
Proof.
  refine (validation_strips_unknown (H := plain) nasSchemas_create router_payload
            router_validated "vendor" _ _);
    [vm_compute; reflexivity | by apply (bool_decide_unpack _)].
Defined.

Lemma validation_update_needs_key_witness :
  validate (H := plain) userSchemas_update (JObj [("role", JStr "admin")]) =
  Respond (validation_error
             [Detail [] "object.min" (template "object.min" (quoted "value") 1 [])]).
Proof.
  apply (validation_update_needs_key (H := plain) userSchemas_update);
    [reflexivity | repeat constructor | ].
  intros k Hk.
  repeat (apply elem_of_cons in Hk as [->|Hk]; [reflexivity|]). by apply elem_of_nil in Hk.
Defined.

Lemma nas_default_refused_witness :
  jget "community" router_validated = Some (JStr "") /\
  exists details,
    validateNasUpdate (H := plain) router_validated = Respond (validation_error details) /\
    exists d, d ∈ details /\ path d = ["community"] /\ type_ d = "string.empty".
Proof.
  refine (nas_default_refused (H := plain) router_payload router_validated _ _);
    [vm_compute; reflexivity | reflexivity].
Defined.
