(* ===== verification/Frame.v ===== *)
(** * Footprints: what the handlers of one resource leave alone

    The user repository writes [radcheck] and [radreply], the NAS
    repository writes [nas], the authentication handlers write nothing.
    [keeps f m] says that a computation on the pool leaves the part [f] of
    the committed tables as it was, on both exit paths and under every
    fault plan; [tx_keeps f body] says the same of the working copy of a
    transaction.  The lemmas follow the combinators of the store, so the
    footprint of a handler is found by [frame_tac] from the footprints of
    its statements.

    With them an invariant of one resource is kept by the handlers of the
    other: [identities_attrs] and [nas_wf_nas] say which part each
    invariant reads. *)

From stdpp Require Import base option strings numbers list.
From S2P Require Import Prelude Store Http UserRepo UserApi Jwt AuthGuard NasRepo NasApi.

(** ** Definitions *)

(** The attribute tables. *)
Definition attrs (ts : tables) : table attr_row * table attr_row :=
  (radcheck ts, radreply ts).

Definition keeps {A X} (f : tables -> X) (m : M db A) : Prop :=
  forall d r d', m d = (r, d') -> f (committed d') = f (committed d).

Definition tx_keeps {A X} (f : tables -> X) (body : M conn A) : Prop :=
  forall c r c', body c = (r, c') -> f (work c') = f (work c).

(** A part of the tables a rollback gives back as it was when the
    transaction did not change it. *)
Definition rollback_safe {X} (f : tables -> X) : Prop :=
  forall old new, f new = f old -> f (restore old new) = f old.

(** A statement that leaves a part of the tables as it was. *)
Definition stmt_keeps {A X} (f : tables -> X) (stmt : tables -> A * tables) : Prop :=
  forall ts, f (stmt ts).2 = f ts.

(** ** Lemmas: the combinators of the pool *)

Section keeps.
Context {X : Type} (f : tables -> X).

Lemma keeps_ret {A} (a : A) : keeps f (ret a).
Proof. by intros d r d' [= <- <-]. Qed.

Lemma keeps_throw {A} e : keeps f (@throw db A e).
Proof. by intros d r d' [= <- <-]. Qed.

Lemma keeps_bind {A B} (m : M db A) (k : A -> M db B) :
  keeps f m -> (forall a, keeps f (k a)) -> keeps f (bind m k).
Proof.
  intros Hm Hk d r d'. unfold bind.
  destruct (m d) as [[a|e] d1] eqn:E1; [|intros [= <- <-]; eauto].
  intros E2. rewrite (Hk _ _ _ _ E2). eauto.
Qed.

Lemma keeps_try_catch {A} (m : M db A) (h : error -> M db A) :
  keeps f m -> (forall e, keeps f (h e)) -> keeps f (try_catch m h).
Proof.
  intros Hm Hh d r d'. unfold try_catch.
  destruct (m d) as [[a|e] d1] eqn:E1; [intros [= <- <-]; eauto|].
  intros E2. rewrite (Hh _ _ _ _ E2). eauto.
Qed.

Lemma keeps_steady {A} (m : M db A) : db_steady m -> keeps f m.
Proof. intros Hm d r d' E. by apply Hm in E as [-> _]. Qed.

Lemma keeps_query {A} (stmt : tables -> A * tables) :
  stmt_keeps f stmt -> keeps f (query stmt).
Proof.
  intros Hs d r d' E. apply query_spec in E as [_ E].
  destruct r as [a|e]; [|by rewrite E]. specialize (Hs (committed d)).
  by rewrite <- E in Hs.
Qed.

Lemma keeps_bound {A} (o : option A) : keeps f (bound o).
Proof. destruct o; [apply keeps_ret | apply keeps_throw]. Qed.

Lemma keeps_of_result {A} (r : result A) : keeps f (of_result r).
Proof. destruct r; [apply keeps_ret | apply keeps_throw]. Qed.

Lemma keeps_rejected {A} : keeps f (@rejected A).
Proof.
  apply keeps_bind; [apply keeps_steady, db_steady_reading | intros; apply keeps_throw].
Qed.

Lemma keeps_if {A} (b : bool) (m1 m2 : M db A) :
  keeps f m1 -> keeps f m2 -> keeps f (if b then m1 else m2).
Proof. by destruct b. Qed.

Lemma keeps_if_truthy {A} o (yes : string -> M db A) no :
  (forall s, keeps f (yes s)) -> keeps f no -> keeps f (if_truthy o yes no).
Proof. intros Hy Hn. unfold if_truthy. destruct o as [s|]; [by case_match|done]. Qed.

Lemma keeps_handled cfg (m : M db response) : keeps f m -> keeps f (handled cfg m).
Proof. intros Hm. apply keeps_try_catch; [done|]. intros e. apply keeps_ret. Qed.

Lemma keeps_guarded {A} (g : guard A) (handler : A -> M db response) :
  (forall a, keeps f (handler a)) -> keeps f (guarded g handler).
Proof. intros Hh. destruct g; [apply keeps_ret | apply Hh]. Qed.

(** ** Lemmas: the combinators of a transaction *)

Lemma tx_keeps_ret {A} (a : A) : tx_keeps f (ret a).
Proof. by intros c r c' [= <- <-]. Qed.

Lemma tx_keeps_throw {A} e : tx_keeps f (@throw conn A e).
Proof. by intros c r c' [= <- <-]. Qed.

Lemma tx_keeps_bind {A B} (m : M conn A) (k : A -> M conn B) :
  tx_keeps f m -> (forall a, tx_keeps f (k a)) -> tx_keeps f (bind m k).
Proof.
  intros Hm Hk c r c'. unfold bind.
  destruct (m c) as [[a|e] c1] eqn:E1; [|intros [= <- <-]; eauto].
  intros E2. rewrite (Hk _ _ _ _ E2). eauto.
Qed.

Lemma tx_keeps_execute {A} (stmt : tables -> A * tables) :
  stmt_keeps f stmt -> tx_keeps f (execute stmt).
Proof.
  intros Hs c r c'. unfold execute.
  destruct (tick (pool c)) as [[[]|e] d1]; [|by intros [= <- <-]].
  specialize (Hs (work c)). destruct (stmt (work c)). by intros [= <- <-].
Qed.

Lemma tx_keeps_on_pool {A} (m : M db A) : tx_keeps f (on_pool m).
Proof. intros c r c'. unfold on_pool. destruct (m (pool c)). by intros [= <- <-]. Qed.

Lemma tx_keeps_if {A} (b : bool) (m1 m2 : M conn A) :
  tx_keeps f m1 -> tx_keeps f m2 -> tx_keeps f (if b then m1 else m2).
Proof. by destruct b. Qed.

Lemma tx_keeps_if_truthy {A} o (yes : string -> M conn A) no :
  (forall s, tx_keeps f (yes s)) -> tx_keeps f no -> tx_keeps f (if_truthy o yes no).
Proof. intros Hy Hn. unfold if_truthy. destruct o as [s|]; [by case_match|done]. Qed.

(** A transaction whose body leaves the part alone leaves it alone, whether
    it commits or rolls back. *)
Lemma keeps_transaction {A} (body : M conn A) :
  rollback_safe f -> pool_steady body -> tx_keeps f body -> keeps f (transaction body).
Proof.
  intros Hf Hp Hb d r d'. unfold transaction.
  destruct (tick (acquire d)) as [[[]|e] d1] eqn:Ht;
    apply tick_spec in Ht as (Hc & _); [|by intros [= <- <-]; simpl; rewrite Hc].
  simpl in Hc. destruct (body _) as [[a|e] c] eqn:Eb;
    pose proof (Hb _ _ _ Eb) as Hw; apply Hp in Eb as [Hc' _]; simpl in Hw, Hc'.
  - destruct (tick (pool c)) as [[[]|e] d2] eqn:Ht2;
      apply tick_spec in Ht2 as (Hc2 & _); intros [= <- <-]; simpl.
    + by rewrite Hw, Hc.
    + rewrite Hc2, Hc', Hc. apply Hf. by rewrite Hw, Hc.
  - intros [= <- <-]; simpl. rewrite Hc', Hc. apply Hf. by rewrite Hw, Hc.
Qed.

(** What is kept by a computation is kept as an invariant by it, when the
    invariant reads that part only. *)
Lemma keeps_spec {A} (I : tables -> Prop) (m : M db A) :
  keeps f m -> (forall ts ts', f ts' = f ts -> I ts -> I ts') ->
  db_spec I m (fun _ => I).
Proof. intros Hm HI d r d' Hd E. eapply HI; [|exact Hd]. by eapply Hm. Qed.

End keeps.

Create HintDb frame.

#[global] Hint Resolve keeps_ret keeps_throw keeps_bind keeps_try_catch keeps_query
  keeps_bound keeps_of_result keeps_rejected keeps_if keeps_if_truthy keeps_handled
  keeps_guarded tx_keeps_ret tx_keeps_throw tx_keeps_bind tx_keeps_execute
  tx_keeps_on_pool tx_keeps_if tx_keeps_if_truthy : frame.

(** Two invariants kept separately are kept together. *)
Lemma db_spec_both {A} (I J : tables -> Prop) (m : M db A) :
  db_spec I m (fun _ => I) -> db_spec J m (fun _ => J) ->
  db_spec (fun ts => I ts /\ J ts) m (fun _ ts => I ts /\ J ts).
Proof. intros HI HJ d r d' [? ?] E. split; [by eapply HI | by eapply HJ]. Qed.

(** ** Lemmas: the statements *)

Lemma rollback_safe_nas : rollback_safe nas.
Proof. intros old new E. simpl. rewrite E. by destruct (nas old). Qed.

Lemma rollback_safe_attrs : rollback_safe attrs.
Proof.
  intros old new [= E1 E2]. unfold attrs. simpl. rewrite E1, E2.
  by destruct (radcheck old), (radreply old).
Qed.

Lemma reading_keeps {A X} (f : tables -> X) (g : tables -> A) : stmt_keeps f (reading g).
Proof. done. Qed.

Lemma insert_attr_keeps_nas t u a o v : stmt_keeps nas (insert_attr t u a o v).
Proof. intros ts. by destruct t. Qed.

Lemma update_value_keeps_nas t P `{!forall r, Decision (P r)} v :
  stmt_keeps nas (update_value t P v).
Proof. intros ts. by destruct t. Qed.

Lemma delete_rows_keeps_nas t P `{!forall r, Decision (P r)} :
  stmt_keeps nas (delete_rows t P).
Proof. intros ts. by destruct t. Qed.

Lemma insert_nas_keeps_attrs row : stmt_keeps attrs (NasModel.insert_nas row).
Proof. done. Qed.

Lemma update_nas_keeps_attrs P `{!forall r, Decision (P r)} set :
  stmt_keeps attrs (NasModel.update_nas P set).
Proof. done. Qed.

Lemma delete_nas_keeps_attrs P `{!forall r, Decision (P r)} :
  stmt_keeps attrs (NasModel.delete_nas P).
Proof. done. Qed.

#[global] Hint Resolve rollback_safe_nas rollback_safe_attrs reading_keeps
  insert_attr_keeps_nas update_value_keeps_nas delete_rows_keeps_nas
  insert_nas_keeps_attrs update_nas_keeps_attrs delete_nas_keeps_attrs : frame.

(** ** Tactics *)

(** Finds the footprint of a computation from its combinators. *)
Ltac frame_tac :=
  repeat first
    [ apply keeps_handled
    | apply keeps_guarded; intros ?
    | apply keeps_bind; [|intros ?]
    | apply keeps_try_catch; [|intros ?]
    | apply keeps_ret | apply keeps_throw | apply keeps_bound | apply keeps_of_result
    | apply keeps_rejected
    | apply keeps_query; solve [eauto with frame]
    | apply keeps_transaction;
        [solve [eauto with frame] | solve [eauto 10 with radius] |]
    | apply tx_keeps_bind; [|intros ?]
    | apply tx_keeps_ret | apply tx_keeps_throw | apply tx_keeps_on_pool
    | apply tx_keeps_execute; solve [eauto with frame]
    | match goal with
      | |- keeps _ (if_truthy _ _ _) => apply keeps_if_truthy; [intros ?|]
      | |- tx_keeps _ (if_truthy _ _ _) => apply tx_keeps_if_truthy; [intros ?|]
      | |- keeps _ (match ?x with _ => _ end) => destruct x
      | |- tx_keeps _ (match ?x with _ => _ end) => destruct x
      end ].

(** ** Lemmas: the handlers *)

(** The user handlers leave the NAS table alone. *)
Lemma user_handle_keeps_nas cfg req : keeps nas (UserController.handle cfg req).
Proof.
  destruct req; simpl;
    unfold UserController.getAll, UserController.getStats, UserController.getByUsername,
      UserController.getUserAttributes, UserController.getUserReplyAttributes,
      UserController.create, UserController.addAttribute, UserController.update,
      UserController.delete, UserController.removeAttribute,
      UserModel.getAll, UserModel.search, UserModel.getCount, UserModel.getByUsername,
      UserModel.exists_, UserModel.getUserAttributes, UserModel.getUserReplyAttributes,
      UserModel.create, UserModel.update, UserModel.delete, UserModel.addAttribute,
      UserModel.removeAttribute, UserModel.update_password, UserModel.update_profile;
    frame_tac.
Qed.

(** The NAS handlers leave the attribute tables alone. *)
Lemma nas_handle_keeps_attrs cfg req : keeps attrs (NasController.handle cfg req).
Proof.
  destruct req; simpl;
    unfold NasController.getAll, NasController.getStats, NasController.getById,
      NasController.create, NasController.update, NasController.delete,
      NasController.conflict,
      NasModel.getAll, NasModel.search, NasModel.getCount, NasModel.getById,
      NasModel.exists_, NasModel.create, NasModel.update, NasModel.delete;
    frame_tac.
Qed.

(** The authentication handlers leave every table alone. *)
Lemma login_keeps `{Jwt} {X} (f : tables -> X) cfg now body :
  keeps f (AuthController.login cfg now body).
Proof. unfold AuthController.login. frame_tac. Qed.

Lemma verify_route_keeps `{Jwt} {X} (f : tables -> X) cfg now req :
  keeps f (AuthController.verify_route cfg now req).
Proof. unfold AuthController.verify_route, AuthController.verifyToken. frame_tac. Qed.

Lemma getApiInfo_keeps {X} (f : tables -> X) cfg : keeps f (AuthController.getApiInfo cfg).
Proof. unfold AuthController.getApiInfo. frame_tac. Qed.

Lemma healthCheck_keeps `{Process} {X} (f : tables -> X) now :
  keeps f (AuthController.healthCheck now).
Proof. unfold AuthController.healthCheck. frame_tac. Qed.

(** ** Lemmas: what each invariant reads *)

Lemma identities_attrs ts ts' :
  attrs ts' = attrs ts -> UserModel.identities ts -> UserModel.identities ts'.
Proof.
  intros [= E1 E2] HI u. specialize (HI u).
  unfold UserModel.identity, UserModel.wf_user, UserModel.password_rows,
    UserModel.profile_rows, select_rows in *. simpl in *. by rewrite E1, E2.
Qed.

Lemma nas_wf_nas ts ts' : nas ts' = nas ts -> NasModel.nas_wf ts -> NasModel.nas_wf ts'.
Proof.
  intros E. unfold NasModel.nas_wf, NasModel.ids_fresh, NasModel.unique_nas.
  by rewrite E.
Qed.
