(* ===== verification/Routes.v ===== *)
(** * The routers: every route behind its guards

    [routes/authRoutes.js], [routes/nasRoutes.js] and [routes/userRoutes.js]
    register each handler behind the guards of the route, and [server.js]
    mounts the three routers under the API prefix, in front of the handler
    that answers 404 and behind the body parser whose failures the global
    error handler answers.

    A request is what the routers read of it: the method, the segments of
    the path below the prefix, the two credential headers, the query, and
    the body as the parser left it.  A router is a function from a request
    to the computation of the route that matches, in the order of
    registration, or to nothing when no route matches: a router is its
    table of routes ([route], [dispatch]), each entry one line of the
    file; [app] is the dispatch of [server.js] over the three.  As in
    Express, the literal segments of a path match without regard to case,
    a route registered for GET serves HEAD, and a body the parsers refuse
    ([Failed], with the error the library raises) goes to the error
    handler.  Between a guard and a handler stands what the handler
    destructures of the validated property ([nasData_of], [userData_of],
    ...).

    The theorems are the end-to-end ones: the invariants of the two
    repositories hold along every sequence of requests, with the guarantees
    of the guards proved here and no longer assumed. *)

From Stdlib Require Import Ascii.
From stdpp Require Import base option strings numbers relations list.
From S2P Require Import Prelude Store Http UserRepo UserApi Jwt AuthGuard NasRepo NasApi.
From S2P Require Import Validation Frame.

(** ** Requests *)

(** [req.method].  [OPTIONS] is not among them: the CORS layer of
    [server.js] answers it before any router sees it. *)
Inductive method : Type :=
| GET | HEAD | POST | PUT | DELETE | PATCH
| OTHER (name : string).

#[global] Instance method_eq_dec : EqDecision method.
Proof. solve_decision. Defined.

(** An error given to [next(err)], as the global error handler reads it:
    [err.type], [err.status], [err.message], [err.stack]. *)
Record http_error : Type := HttpError {
  err_type : option string;
  err_status : option Z;
  err_message : string;
  err_stack : string
}.

(** The errors the body parsers raise. *)
Inductive parser_failure : Type :=
| EncodingUnsupported
| EntityParseFailed
| RequestAborted
| EntityTooLarge
| RequestSizeInvalid
| StreamEncodingSet
| StreamNotReadable
| ParametersTooMany
| CharsetUnsupported.

Definition parser_type (f : parser_failure) : string :=
  match f with
  | EncodingUnsupported => "encoding.unsupported"
  | EntityParseFailed => "entity.parse.failed"
  | RequestAborted => "request.aborted"
  | EntityTooLarge => "entity.too.large"
  | RequestSizeInvalid => "request.size.invalid"
  | StreamEncodingSet => "stream.encoding.set"
  | StreamNotReadable => "stream.not.readable"
  | ParametersTooMany => "parameters.too.many"
  | CharsetUnsupported => "charset.unsupported"
  end.

Definition parser_status (f : parser_failure) : Z :=
  match f with
  | EncodingUnsupported | CharsetUnsupported => 415
  | EntityParseFailed | RequestAborted | RequestSizeInvalid => 400
  | EntityTooLarge | ParametersTooMany => 413
  | StreamEncodingSet | StreamNotReadable => 500
  end.

(** What [express.json()] and [express.urlencoded()] left in [req.body],
    or the error one of them raised, with its message and its stack. *)
Inductive parsed : Type :=
| Body (j : json)
| Failed (f : parser_failure) (message stack : string).

(** The error object of a failure. *)
Definition raised (f : parser_failure) (message stack : string) : http_error :=
  HttpError (Some (parser_type f)) (Some (parser_status f)) message stack.

Record http : Type := Http {
  h_method : method;
  h_url : string;              (* [req.originalUrl] *)
  h_path : list string;        (* its segments below the API prefix *)
  h_headers : request;
  h_query : json;
  h_body : parsed
}.

(** [req.body]: the parser leaves an empty object when there is none. *)
Definition body_of (req : http) : json :=
  match h_body req with Body j => j | _ => JObj [] end.

(** ** What the handlers destructure *)

(** [obj[k]] when it is a string, a number. *)
Definition jstring (k : string) (j : json) : option string :=
  match jget k j with Some (JStr s) => Some s | _ => None end.

Definition jnumber (k : string) (j : json) : option Z :=
  match jget k j with Some (JNum n) => Some n | _ => None end.

(** [const { id } = req.params] behind [validateId], which leaves a number
    there. *)
Definition id_of (p : json) : Z := default 0%Z (jnumber "id" p).

(** [const { username } = req.params] behind [validateUsername], which
    leaves a string there. *)
Definition username_of (p : json) : string := default "" (jstring "username" p).

(** [const { search } = req.query] *)
Definition search_of (q : json) : option string := jstring "search" q.

(** [const { name, ip, secret, type, ports, community, description } =
    req.body], and [updateData = req.body] read by the same names. *)
Definition nasData_of (b : json) : NasModel.nasData :=
  NasModel.NasData (jstring "name" b) (jstring "ip" b) (jstring "secret" b)
    (jstring "type" b) (jnumber "ports" b) (jstring "community" b)
    (jstring "description" b).

(** [const { user, password, profile } = req.body] behind
    [validateUserCreate], which leaves strings under the first two. *)
Definition userData_of (b : json) : UserModel.userData :=
  UserModel.UserData (default "" (jstring "user" b)) (default "" (jstring "password" b))
    (jstring "profile" b).

(** [updateData = req.body], read as [{ password, profile }]. *)
Definition updateData_of (b : json) : UserModel.updateData :=
  UserModel.UpdateData (jstring "password" b) (jstring "profile" b).

(** [const { attribute, op, value, table } = req.body]: no guard stands
    before this one; the fields are read when they are strings. *)
Definition attributeBody_of (b : json) : UserController.attributeBody :=
  UserController.AttributeBody (jstring "attribute" b) (jstring "op" b)
    (jstring "value" b) (jstring "table" b).

(** [const { username, password } = req.body] behind [validateLogin]. *)
Definition loginBody_of (b : json) : loginBody :=
  LoginBody (default "" (jstring "username" b)) (default "" (jstring "password" b)).

(** ** Route tables *)

(** A segment of a route path: a literal, or a parameter ([:name]).  A
    path is the list of its segments, decoded; a literal is compared
    without regard to case, as a router made by [express.Router()]
    does. *)
Inductive segment : Type :=
| Lit (s : string)
| Param (name : string).

(** The parameters a path gives a route path, when it matches. *)
Fixpoint match_path (pattern : list segment) (path : list string)
    : option (list (string * json)) :=
  match pattern, path with
  | [], [] => Some []
  | Lit s :: pattern', x :: path' =>
      if String.eqb (lower s) (lower x) then match_path pattern' path' else None
  | Param name :: pattern', x :: path' =>
      cons (name, JStr x) <$> match_path pattern' path'
  | _, _ => None
  end.

(** [router.METHOD(path, guard, ..., handler)]: the handler chain, on
    [req.params] and the request. *)
Record route : Type := Route {
  r_method : method;
  r_pattern : list segment;
  r_handler : json -> http -> M db response
}.

(** A route registered under a method serves the requests of that
    method, and [router.get] serves HEAD as well. *)
Definition serves (registered requested : method) : bool :=
  match registered, requested with
  | GET, (GET | HEAD) | HEAD, HEAD | POST, POST | PUT, PUT | DELETE, DELETE
  | PATCH, PATCH => true
  | OTHER a, OTHER b => String.eqb a b
  | _, _ => false
  end.

(** The parameters of a request for a route that serves its method and
    matches its path. *)
Definition route_params (r : route) (req : http) : option (list (string * json)) :=
  if serves (r_method r) (h_method req) then match_path (r_pattern r) (h_path req)
  else None.

(** The first route, in the order of registration, that has the method
    and matches the path. *)
Fixpoint dispatch (routes : list route) (req : http) : option (M db response) :=
  match routes with
  | [] => None
  | r :: rest =>
      match route_params r req with
      | Some ps => Some (r_handler r (JObj ps) req)
      | None => dispatch rest req
      end
  end.

(** [router.use(guard)] before the routes: the guard answers any request
    it refuses, whatever its path. *)
Definition use {A} (g : guard A) (routes : list route) (req : http)
    : option (M db response) :=
  match g with
  | Respond r => Some (ret r)
  | Next _ => dispatch routes req
  end.

(** The routes that write attributes. *)
Definition writes_attributes (r : route) : bool :=
  match r_method r, r_pattern r with
  | (POST | DELETE), [Param _; Lit last] => String.eqb (lower last) "attributes"
  | _, _ => false
  end.

(** ** What the theorems say of a route *)

(** The statuses the application answers. *)
Definition api_statuses : list Z :=
  [200; 201; 400; 401; 403; 404; 409; 413; 415; 500; 503]%Z.

Definition api_status (r : response) : Prop := status r ∈ api_statuses.

#[global] Instance api_status_dec r : Decision (api_status r).
Proof. unfold api_status. apply _. Defined.

(** A route that always answers, with a status of the list, and gives
    back every connection it takes. *)
Definition behaved (m : M db response) : Prop :=
  total m /\ balanced m /\ answers api_status m.

(** The invariants of the two repositories together. *)
Definition api_wf (ts : tables) : Prop :=
  UserModel.identities ts /\ NasModel.nas_wf ts.

(** A route that keeps them, on both exit paths, under any fault plan. *)
Definition keeps_wf (m : M db response) : Prop :=
  db_spec api_wf m (fun _ => api_wf).

(** ** The routers *)

Section routers.
Context `{Jwt} `{Joi.Syntax} `{Process}.

Import Validation.

(** [routes/authRoutes.js] *)
Definition authRoutes (cfg : env) (now : Z) : list route := [
  Route POST [Lit "login"] (fun _ req =>
    guarded (validateLogin (body_of req))
      (fun b => AuthController.login cfg now (loginBody_of b)));
  Route GET [Lit "verify"] (fun _ req =>
    AuthController.verify_route cfg now (h_headers req));
  Route GET [Lit "info"] (fun _ _ => AuthController.getApiInfo cfg);
  Route GET [Lit "health"] (fun _ _ => AuthController.healthCheck now)
].

(** [routes/nasRoutes.js], below [router.use(authenticate)]. *)
Definition nasRoutes (cfg : env) : list route := [
  Route GET [] (fun _ req =>
    guarded (validatePagination (h_query req))
      (fun q => NasController.getAll cfg (search_of q)));
  Route GET [Lit "stats"] (fun _ _ => NasController.getStats cfg);
  Route GET [Param "id"] (fun p _ =>
    guarded (validateId p) (fun p => NasController.getById cfg (id_of p)));
  Route POST [] (fun _ req =>
    guarded (validateNasCreate (body_of req))
      (fun b => NasController.create cfg (nasData_of b)));
  Route PUT [Param "id"] (fun p req =>
    guarded (validateId p) (fun p =>
      guarded (validateNasUpdate (body_of req))
        (fun b => NasController.update cfg (id_of p) (nasData_of b))));
  Route DELETE [Param "id"] (fun p _ =>
    guarded (validateId p) (fun p => NasController.delete cfg (id_of p)))
].

(** [routes/userRoutes.js], below [router.use(authenticate)]. *)
Definition userRoutes (cfg : env) : list route := [
  Route GET [] (fun _ req =>
    guarded (validatePagination (h_query req))
      (fun q => UserController.getAll cfg (search_of q)));
  Route GET [Lit "stats"] (fun _ _ => UserController.getStats cfg);
  Route GET [Param "username"] (fun p _ =>
    guarded (validateUsername p)
      (fun p => UserController.getByUsername cfg (username_of p)));
  Route GET [Param "username"; Lit "attributes"] (fun p _ =>
    guarded (validateUsername p)
      (fun p => UserController.getUserAttributes cfg (username_of p)));
  Route GET [Param "username"; Lit "reply-attributes"] (fun p _ =>
    guarded (validateUsername p)
      (fun p => UserController.getUserReplyAttributes cfg (username_of p)));
  Route POST [] (fun _ req =>
    guarded (validateUserCreate (body_of req))
      (fun b => UserController.create cfg (userData_of b)));
  Route POST [Param "username"; Lit "attributes"] (fun p req =>
    guarded (validateUsername p)
      (fun p => UserController.addAttribute cfg (username_of p)
                  (attributeBody_of (body_of req))));
  Route PUT [Param "username"] (fun p req =>
    guarded (validateUsername p) (fun p =>
      guarded (validateUserUpdate (body_of req))
        (fun b => UserController.update cfg (username_of p) (updateData_of b))));
  Route DELETE [Param "username"] (fun p _ =>
    guarded (validateUsername p) (fun p => UserController.delete cfg (username_of p)));
  Route DELETE [Param "username"; Lit "attributes"] (fun p req =>
    guarded (validateUsername p)
      (fun p => UserController.removeAttribute cfg (username_of p)
                  (attributeBody_of (body_of req))))
].

(** ** The application *)

Definition method_name (m : method) : string :=
  match m with
  | GET => "GET" | HEAD => "HEAD" | POST => "POST" | PUT => "PUT"
  | DELETE => "DELETE" | PATCH => "PATCH" | OTHER name => name
  end.

(** The 404 handler of [server.js]. *)
Definition not_found (prefix : string) (req : http) : response :=
  Response 404
    (JObj [("success", JBool false); ("message", JStr "Endpoint not found");
           ("path", JStr (h_url req)); ("method", JStr (method_name (h_method req)));
           ("available_endpoints",
            JObj [("health", JStr "GET /health");
                  ("api_info", JStr ("GET " ++ prefix ++ "/auth/info"));
                  ("documentation", JStr "GET /")])]).

(** The global error handler of [server.js]. *)
Definition error_handler (cfg : env) (err : http_error) : response :=
  if bool_decide (err_type err = Some "entity.parse.failed") then
    failure 400 "Invalid JSON in request body"
  else if bool_decide (err_type err = Some "entity.too.large") then
    failure 413 "Request body too large"
  else
    Response (num_or (err_status err) 500)
      (JObj ([("success", JBool false);
              ("message",
               JStr (if String.eqb (err_message err) "" then "Internal server error"
                     else err_message err))] ++
             jfield "error"
               (if development cfg then Some (JStr (err_stack err)) else None))).

(** The request a mounted router sees: the path below its mount point. *)
Definition below (rest : list string) (req : http) : http :=
  Http (h_method req) (h_url req) rest (h_headers req) (h_query req) (h_body req).

(** [app.use(`${API_PREFIX}/auth`, authRoutes)] and the two after it. *)
Definition mounted (cfg : env) (now : Z) (req : http) : option (M db response) :=
  match h_path req with
  | mount :: rest =>
      if String.eqb (lower mount) "auth" then
        dispatch (authRoutes cfg now) (below rest req)
      else if String.eqb (lower mount) "nas" then
        use (Auth.authenticate cfg now (h_headers req)) (nasRoutes cfg) (below rest req)
      else if String.eqb (lower mount) "users" then
        use (Auth.authenticate cfg now (h_headers req)) (userRoutes cfg) (below rest req)
      else None
  | [] => None
  end.

(** A request to a path below the prefix: the body parsers first, whose
    errors go to the error handler past every route; then the routers in
    the order they are mounted, then the 404 handler. *)
Definition app (cfg : env) (prefix : string) (now : Z) (req : http) : M db response :=
  match h_body req with
  | Failed f message stack => ret (error_handler cfg (raised f message stack))
  | Body _ => default (ret (not_found prefix req)) (mounted cfg now req)
  end.

(** The requests that write attributes: the two routes no schema guards. *)
Definition on_attributes (req : http) : bool :=
  match h_method req, h_path req with
  | (POST | DELETE), [mount; _; last] =>
      String.eqb (lower mount) "users" && String.eqb (lower last) "attributes"
  | _, _ => false
  end.

(** One request served, under any fault plan. *)
Inductive api_step (cfg : env) (prefix : string) : tables -> tables -> Prop :=
| step_app now req fs n r d' ts (Hreq : on_attributes req = false)
    (Hrun : app cfg prefix now req (Db ts fs n) = (r, d')) :
    api_step cfg prefix ts (committed d').

Definition api_reachable (cfg : env) (prefix : string) (ts : tables) : Prop :=
  rtc (api_step cfg prefix) empty_tables ts.

End routers.

(** ** Requests for the examples *)

(** The header of a caller that holds the API key of an unset environment,
    and of a caller that holds nothing. *)
Definition with_key : request :=
  Request None (Some "freeradius-api-key-change-this") None false.

Definition anonymous : request := Request None None None false.

Definition post_user (name password : string) : http :=
  Http POST "/api/v1/users" ["users"] with_key (JObj [])
    (Body (JObj [("user", JStr name); ("password", JStr password)])).

Definition get_user (name : string) : http :=
  Http GET ("/api/v1/users/" ++ name) ["users"; name] with_key (JObj []) (Body (JObj [])).

Definition post_nas (name ip secret : string) : http :=
  Http POST "/api/v1/nas" ["nas"] with_key (JObj [])
    (Body (JObj [("name", JStr name); ("ip", JStr ip); ("secret", JStr secret)])).

Definition get_nas (id : string) : http :=
  Http GET ("/api/v1/nas/" ++ id) ["nas"; id] with_key (JObj []) (Body (JObj [])).

(** A name of 65 characters. *)
Definition long_name : string :=
  "a123456789b123456789c123456789d123456789e123456789f123456789g1234".

(** ** Lemmas: dispatch *)

(** A route serves the method it is registered under, and a GET route
    serves HEAD. *)
Lemma serves_inv registered requested :
  serves registered requested = true ->
  requested = registered \/ (registered = GET /\ requested = HEAD).
Proof.
  destruct registered, requested; simpl; try done; auto.
  intros ->%String.eqb_eq. by left.
Qed.

Lemma dispatch_some routes req m :
  dispatch routes req = Some m ->
  exists r ps, r ∈ routes /\ serves (r_method r) (h_method req) = true /\
    match_path (r_pattern r) (h_path req) = Some ps /\ m = r_handler r (JObj ps) req.
Proof.
  induction routes as [|r routes IH]; simpl; [done|]. unfold route_params.
  destruct (serves (r_method r) (h_method req)) eqn:Hm.
  - destruct (match_path (r_pattern r) (h_path req)) as [ps|] eqn:Hp.
    + intros [= <-]. exists r, ps. repeat split; [left|done..].
    + intros (r' & ps & ? & ?)%IH. exists r', ps. split; [by right|done].
  - intros (r' & ps & ? & ?)%IH. exists r', ps. split; [by right|done].
Qed.

(** What holds of every handler of a table holds of what [dispatch]
    finds. *)
Lemma dispatch_all (P : M db response -> Prop) (ok : route -> Prop) routes req m :
  Forall (fun r => ok r -> forall ps rq, P (r_handler r ps rq)) routes ->
  (forall r ps, serves (r_method r) (h_method req) = true ->
     match_path (r_pattern r) (h_path req) = Some ps -> ok r) ->
  dispatch routes req = Some m -> P m.
Proof.
  intros Hall Hok (r & ps & Hr & Hm & Hp & ->)%dispatch_some.
  rewrite Forall_forall in Hall. apply Hall; [done|]. by eapply Hok.
Qed.

Lemma use_all {A} (P : M db response -> Prop) (ok : route -> Prop) (g : guard A)
    routes req m :
  (forall r, g = Respond r -> P (ret r)) ->
  Forall (fun r => ok r -> forall ps rq, P (r_handler r ps rq)) routes ->
  (forall r ps, serves (r_method r) (h_method req) = true ->
     match_path (r_pattern r) (h_path req) = Some ps -> ok r) ->
  use g routes req = Some m -> P m.
Proof.
  intros Hg Hall Hok. unfold use. destruct g as [r|a].
  - intros [= <-]. by apply Hg.
  - by apply dispatch_all with (ok := ok).
Qed.

(** A route that writes attributes matches only the paths
    [<name>/attributes], under POST and DELETE. *)
Lemma writes_attributes_path r m path ps :
  writes_attributes r = true -> serves (r_method r) m = true ->
  match_path (r_pattern r) path = Some ps ->
  (m = POST \/ m = DELETE) /\ exists x y, path = [x; y] /\ lower y = "attributes".
Proof.
  unfold writes_attributes. intros Hw Hm.
  destruct (r_pattern r) as [|[|n] [|[last|] [|]]]; try (by destruct (r_method r)).
  destruct path as [|x [|y [|]]]; simpl; try done;
    destruct (String.eqb_spec (lower last) (lower y)) as [Hy|]; try done. intros _.
  assert (lower last = "attributes") as Hl
    by (destruct (r_method r); try done; by apply String.eqb_eq).
  rewrite Hl in Hy. split; [|by exists x, y].
  destruct (r_method r), m; try done; auto.
Qed.

(** The statuses of the global error handler on what the parsers raise. *)
Lemma error_handler_status cfg f message stack :
  api_status (error_handler cfg (raised f message stack)).
Proof. destruct f; by apply (bool_decide_unpack _). Qed.

(** ** Lemmas: the guards *)

Section guards.
Context `{Jwt} `{Joi.Syntax} `{Process}.
Import Validation.

Lemma validate_status o input r : validate o input = Respond r -> api_status r.
Proof. intros [_ ->]%validate_respond. by apply (bool_decide_unpack _). Qed.

Lemma authenticateToken_status cfg now req r :
  Auth.authenticateToken cfg now req = Respond r -> api_status r.
Proof.
  unfold Auth.authenticateToken, if_truthy.
  destruct (Auth.bearer _) as [t|]; [destruct (String.eqb t "")|];
    try destruct (verify _ _ _); intros [= <-]; by apply (bool_decide_unpack _).
Qed.

Lemma authenticate_status cfg now req r :
  Auth.authenticate cfg now req = Respond r -> api_status r.
Proof.
  unfold Auth.authenticate. destruct (truthy (x_api_key req)).
  - unfold Auth.authenticateApiKey, if_truthy.
    destruct (x_api_key req) as [k|]; [destruct (String.eqb k "")|];
      try case_match; intros [= <-]; by apply (bool_decide_unpack _).
  - destruct (truthy (authorization req)); [apply authenticateToken_status|].
    intros [= <-]. by apply (bool_decide_unpack _).
Qed.

Lemma behaved_ret r : api_status r -> behaved (ret r).
Proof.
  intros Hr. split; [apply total_ret|]. split; [apply balanced_ret|by apply answers_ret].
Qed.

Lemma behaved_guarded {A} (g : guard A) (handler : A -> M db response) :
  (forall r, g = Respond r -> api_status r) -> (forall a, behaved (handler a)) ->
  behaved (guarded g handler).
Proof. intros Hg Hh. destruct g as [r|a]; [by apply behaved_ret, Hg | apply Hh]. Qed.

Lemma keeps_wf_ret r : keeps_wf (ret r).
Proof. by apply db_spec_ret. Qed.

Lemma keeps_wf_guarded {A} (g : guard A) (handler : A -> M db response) :
  (forall a, g = Next a -> keeps_wf (handler a)) -> keeps_wf (guarded g handler).
Proof. intros Hh. destruct g as [r|a]; [apply keeps_wf_ret | by apply Hh]. Qed.

Lemma known_api_status r : known_status r -> api_status r.
Proof.
  unfold known_status, api_status, statuses, api_statuses.
  rewrite !elem_of_cons. intros Hr. repeat destruct Hr as [->|Hr]; auto 12.
Qed.

(** ** Lemmas: the handlers behind the guards *)

Lemma user_behaved cfg req : behaved (UserController.handle cfg req).
Proof.
  split; [apply UserController.handle_total|].
  split; [apply UserController.handle_balanced|].
  intros d r d' E. by eapply known_api_status, UserController.handle_known_status.
Qed.

Lemma nas_behaved cfg req : behaved (NasController.handle cfg req).
Proof.
  split; [apply NasController.nas_handle_total|].
  split; [apply NasController.nas_handle_balanced|].
  intros d r d' E. by eapply known_api_status, NasController.nas_handle_known_status.
Qed.

Lemma login_behaved cfg now body : behaved (AuthController.login cfg now body).
Proof.
  split; [apply handled_is_total|]. split.
  - unfold AuthController.login. apply handled_balanced.
    case_match; [|apply balanced_ret].
    apply balanced_bind; [|intros; apply balanced_ret].
    destruct (Auth.generateToken _ _); [apply balanced_ret|apply balanced_throw].
  - unfold AuthController.login. apply handled_answers.
    + case_match; [apply answers_bind; intros ?|]; by apply answers_ret, (bool_decide_unpack _).
    + intros e. by apply (bool_decide_unpack _).
Qed.

Lemma verifyToken_behaved cfg req : behaved (AuthController.verifyToken cfg req).
Proof.
  split; [apply handled_is_total|]. split.
  - apply handled_balanced, balanced_ret.
  - apply handled_answers; [|intros e]; [apply answers_ret|]; by apply (bool_decide_unpack _).
Qed.

Lemma getApiInfo_behaved cfg : behaved (AuthController.getApiInfo cfg).
Proof.
  split; [apply handled_is_total|]. split.
  - apply handled_balanced, balanced_ret.
  - apply handled_answers; [|intros e]; [apply answers_ret|]; by apply (bool_decide_unpack _).
Qed.

Lemma healthCheck_behaved now : behaved (AuthController.healthCheck now).
Proof.
  unfold AuthController.healthCheck. split; [|split].
  - apply total_try_catch. intros e. apply total_ret.
  - apply balanced_try_catch; [|intros; apply balanced_ret].
    apply balanced_bind; [apply balanced_query|intros; apply balanced_ret].
  - apply answers_try_catch; [apply answers_bind; intros ?|intros e];
      by apply answers_ret, (bool_decide_unpack _).
Qed.

(** The handlers of one resource keep the invariants of both. *)
Lemma user_keeps_wf cfg req :
  UserController.on_identity req = true -> keeps_wf (UserController.handle cfg req).
Proof.
  intros Hreq. apply db_spec_both; [by apply UserController.handle_keeps|].
  eapply keeps_spec; [apply user_handle_keeps_nas | apply nas_wf_nas].
Qed.

Lemma nas_keeps_wf cfg req :
  NasController.validated req -> keeps_wf (NasController.handle cfg req).
Proof.
  intros Hreq. apply db_spec_both; [|by apply NasController.handle_keeps_nas].
  eapply keeps_spec; [apply nas_handle_keeps_attrs | apply identities_attrs].
Qed.

Lemma untouched_keeps_wf (m : M db response) : keeps (fun ts => ts) m -> keeps_wf m.
Proof. intros Hm. eapply keeps_spec; [exact Hm|]. by intros ts ts' ->. Qed.

(** What the NAS guards let through gives a name and an address that are
    not empty, when it gives them. *)
Lemma nas_given o body b :
  o = nasSchemas_create \/ o = nasSchemas_update -> validate o body = Next b ->
  NasModel.given (NasModel.nd_name (nasData_of b)) /\
  NasModel.given (NasModel.nd_ip (nasData_of b)).
Proof.
  intros Ho Hv. destruct (nas_schemas_payload _ _ _ Ho Hv) as (Hname & Hip & _).
  split; unfold NasModel.given, nasData_of, jstring; simpl.
  - destruct (jget "name" b) as [[]|]; try done.
    destruct Hname as (x & [= <-] & Hx & _). by intros [= ->].
  - destruct (jget "ip" b) as [[]|]; try done.
    destruct Hip as (x & [= <-] & Hx & _). by intros [= ->].
Qed.

End guards.

(** ** Lemmas: the tables *)

Section tables.
Context `{Jwt} `{Joi.Syntax} `{Process} (cfg : env) (now : Z).
Import Validation.

Ltac nas_route lemma :=
  first [ exact (lemma cfg (NasController.GetAll _))
        | exact (lemma cfg NasController.GetStats)
        | exact (lemma cfg (NasController.GetById _))
        | exact (lemma cfg (NasController.Create _))
        | exact (lemma cfg (NasController.Update _ _))
        | exact (lemma cfg (NasController.Delete _)) ].

Ltac user_route lemma :=
  first [ exact (lemma cfg (UserController.GetAll _))
        | exact (lemma cfg UserController.GetStats)
        | exact (lemma cfg (UserController.GetByUsername _))
        | exact (lemma cfg (UserController.GetUserAttributes _))
        | exact (lemma cfg (UserController.GetUserReplyAttributes _))
        | exact (lemma cfg (UserController.Create _))
        | exact (lemma cfg (UserController.AddAttribute _ _))
        | exact (lemma cfg (UserController.Update _ _))
        | exact (lemma cfg (UserController.Delete _))
        | exact (lemma cfg (UserController.RemoveAttribute _ _)) ].

Ltac each_route := repeat apply Forall_cons_2; [..|by apply Forall_nil].

Ltac behind_guards :=
  repeat match goal with
         | |- behaved (guarded (_ _) _) =>
             apply behaved_guarded; [apply validate_status|intros ?]
         | |- keeps_wf (guarded _ _) => apply keeps_wf_guarded; intros ? ?
         end.

Lemma auth_routes_behaved :
  Forall (fun r => forall ps rq, behaved (r_handler r ps rq)) (authRoutes cfg now).
Proof.
  each_route; intros ps rq; simpl; behind_guards.
  - apply login_behaved.
  - apply behaved_guarded; [apply authenticateToken_status|].
    intros a. apply verifyToken_behaved.
  - apply getApiInfo_behaved.
  - apply healthCheck_behaved.
Qed.

Lemma nas_routes_behaved :
  Forall (fun r => forall ps rq, behaved (r_handler r ps rq)) (nasRoutes cfg).
Proof. each_route; intros ps rq; simpl; behind_guards; nas_route nas_behaved. Qed.

Lemma user_routes_behaved :
  Forall (fun r => forall ps rq, behaved (r_handler r ps rq)) (userRoutes cfg).
Proof. each_route; intros ps rq; simpl; behind_guards; user_route user_behaved. Qed.

Lemma auth_routes_keep :
  Forall (fun r => forall ps rq, keeps_wf (r_handler r ps rq)) (authRoutes cfg now).
Proof.
  each_route; intros ps rq; simpl; apply untouched_keeps_wf.
  - apply keeps_guarded. intros b. apply login_keeps.
  - apply verify_route_keeps.
  - apply getApiInfo_keeps.
  - apply healthCheck_keeps.
Qed.

Lemma nas_routes_keep :
  Forall (fun r => forall ps rq, keeps_wf (r_handler r ps rq)) (nasRoutes cfg).
Proof.
  each_route; intros ps rq; simpl; behind_guards;
    first [ exact (nas_keeps_wf cfg (NasController.GetAll _) I)
          | exact (nas_keeps_wf cfg NasController.GetStats I)
          | exact (nas_keeps_wf cfg (NasController.GetById _) I)
          | exact (nas_keeps_wf cfg (NasController.Delete _) I)
          | apply (nas_keeps_wf cfg (NasController.Create _));
            eapply (nas_given nasSchemas_create); [by left|eassumption]
          | apply (nas_keeps_wf cfg (NasController.Update _ _));
            eapply (nas_given nasSchemas_update); [by right|eassumption] ].
Qed.

Lemma user_routes_keep :
  Forall (fun r => writes_attributes r = false -> forall ps rq, keeps_wf (r_handler r ps rq))
    (userRoutes cfg).
Proof.
  each_route; intros Hw ps rq; simpl; try discriminate Hw; behind_guards;
    first [ exact (user_keeps_wf cfg (UserController.GetAll _) eq_refl)
          | exact (user_keeps_wf cfg UserController.GetStats eq_refl)
          | exact (user_keeps_wf cfg (UserController.GetByUsername _) eq_refl)
          | exact (user_keeps_wf cfg (UserController.GetUserAttributes _) eq_refl)
          | exact (user_keeps_wf cfg (UserController.GetUserReplyAttributes _) eq_refl)
          | exact (user_keeps_wf cfg (UserController.Create _) eq_refl)
          | exact (user_keeps_wf cfg (UserController.Update _ _) eq_refl)
          | exact (user_keeps_wf cfg (UserController.Delete _) eq_refl) ].
Qed.

(** What holds of every handler of the three tables, and of every answer
    of a guard, holds of what the application does with a request; the
    routes of the user table may be restricted to those a predicate [ok]
    admits, when the request can only reach such a route. *)
Lemma mounted_all (P : M db response -> Prop) (ok : route -> Prop) req m :
  (forall r, api_status r -> P (ret r)) ->
  Forall (fun r => forall ps rq, P (r_handler r ps rq)) (authRoutes cfg now) ->
  Forall (fun r => forall ps rq, P (r_handler r ps rq)) (nasRoutes cfg) ->
  Forall (fun r => ok r -> forall ps rq, P (r_handler r ps rq)) (userRoutes cfg) ->
  (forall r ps mount rest, h_path req = mount :: rest -> lower mount = "users" ->
     serves (r_method r) (h_method req) = true ->
     match_path (r_pattern r) rest = Some ps -> ok r) ->
  mounted cfg now req = Some m -> P m.
Proof.
  intros Hret Hauth Hnas Husers Hok Hm.
  unfold mounted in Hm. destruct (h_path req) as [|mount rest] eqn:Hpath; [done|].
  destruct (String.eqb_spec (lower mount) "auth") as [_|_].
  { eapply (dispatch_all P (fun _ => True)), Hm; [|done].
    eapply Forall_impl; [exact Hauth|]. auto. }
  destruct (String.eqb_spec (lower mount) "nas") as [_|_].
  { eapply (use_all P (fun _ => True)), Hm; [|eapply Forall_impl; [exact Hnas|]; auto|done].
    intros r Hr. by eapply Hret, authenticate_status. }
  destruct (String.eqb_spec (lower mount) "users") as [Hu|_]; [|done].
  eapply (use_all P ok), Hm; [|exact Husers|].
  - intros r Hr. by eapply Hret, authenticate_status.
  - intros r ps. by apply (Hok r ps mount rest).
Qed.

Lemma app_all (P : M db response -> Prop) (ok : route -> Prop) prefix req :
  (forall r, api_status r -> P (ret r)) ->
  Forall (fun r => forall ps rq, P (r_handler r ps rq)) (authRoutes cfg now) ->
  Forall (fun r => forall ps rq, P (r_handler r ps rq)) (nasRoutes cfg) ->
  Forall (fun r => ok r -> forall ps rq, P (r_handler r ps rq)) (userRoutes cfg) ->
  (forall r ps mount rest, h_path req = mount :: rest -> lower mount = "users" ->
     serves (r_method r) (h_method req) = true ->
     match_path (r_pattern r) rest = Some ps -> ok r) ->
  P (app cfg prefix now req).
Proof.
  intros Hret Hauth Hnas Husers Hok. unfold app.
  destruct (h_body req) eqn:Hb; [|apply Hret, error_handler_status].
  destruct (mounted cfg now req) as [m|] eqn:Hm; simpl;
    [|apply Hret; by apply (bool_decide_unpack _)].
  by eapply (mounted_all P ok), Hm.
Qed.

(** What a mount point finds behaves, and keeps the invariants unless the
    request writes attributes. *)
Lemma mounted_behaved req m : mounted cfg now req = Some m -> behaved m.
Proof.
  apply (mounted_all behaved (fun _ => True));
    [apply behaved_ret | apply auth_routes_behaved | apply nas_routes_behaved | | done].
  eapply Forall_impl; [apply user_routes_behaved|]. auto.
Qed.

Lemma writes_attributes_request r ps mount rest req :
  on_attributes req = false -> h_path req = mount :: rest -> lower mount = "users" ->
  serves (r_method r) (h_method req) = true ->
  match_path (r_pattern r) rest = Some ps -> writes_attributes r = false.
Proof.
  intros Hreq Hpath Hu Hm Hp. destruct (writes_attributes r) eqn:Hw; [|done].
  destruct (writes_attributes_path r _ rest ps Hw Hm Hp) as [Hmeth (x & y & -> & Hy)].
  unfold on_attributes in Hreq. rewrite Hpath, Hu, Hy in Hreq.
  by destruct Hmeth as [E|E]; rewrite E in Hreq.
Qed.

Lemma mounted_keeps req m :
  on_attributes req = false -> mounted cfg now req = Some m -> keeps_wf m.
Proof.
  intros Hreq.
  apply (mounted_all keeps_wf (fun r => writes_attributes r = false));
    [intros; apply keeps_wf_ret | apply auth_routes_keep | apply nas_routes_keep
    | apply user_routes_keep |].
  intros r ps mount rest. by apply writes_attributes_request.
Qed.

Lemma app_behaved prefix req : behaved (app cfg prefix now req).
Proof.
  apply (app_all behaved (fun _ => True));
    [apply behaved_ret | apply auth_routes_behaved | apply nas_routes_behaved | | done].
  eapply Forall_impl; [apply user_routes_behaved|]. auto.
Qed.

Lemma app_keeps prefix req :
  on_attributes req = false -> keeps_wf (app cfg prefix now req).
Proof.
  intros Hreq.
  apply (app_all keeps_wf (fun r => writes_attributes r = false));
    [intros; apply keeps_wf_ret | apply auth_routes_keep | apply nas_routes_keep
    | apply user_routes_keep |].
  intros r ps mount rest. by apply writes_attributes_request.
Qed.

End tables.

(** ** Lemmas: a request on its way to a handler *)

(** Evaluates the lower-casing and the comparison of literal strings. *)
Ltac literal s := lazymatch s with String _ _ => idtac | EmptyString => idtac end.

Ltac ground_tac :=
  repeat match goal with
         | |- context [lower ?s] =>
             literal s; let v := eval vm_compute in (lower s) in change (lower s) with v
         | |- context [String.eqb ?a ?b] =>
             literal a; literal b;
             let v := eval vm_compute in (String.eqb a b) in change (String.eqb a b) with v
         end.

(** Unfolds the application down to the table of the mount point. *)
Ltac mount_tac :=
  unfold app, mounted, use, below;
  cbn [h_body h_path h_method h_url h_headers h_query]; ground_tac; cbn match.

(** Names the handlers of a table, so that finding a route does not look
    into them. *)
Ltac name_handlers :=
  repeat match goal with
         | |- context [Route ?m ?p ?h] =>
             tryif is_var h then fail else
               let n := fresh "handler" in set (n := h)
         end.

(** Finds the route of a request in a table whose handlers are named. *)
Ltac route_tac :=
  repeat first
    [ progress ground_tac
    | match goal with
      | H : lower ?x <> ?s |- context [String.eqb ?s (lower ?x)] =>
          rewrite (proj2 (String.eqb_neq s (lower x))) by (intros E; by apply H)
      end
    | progress unfold route_params
    | progress cbn [dispatch match_path serves r_method r_pattern r_handler h_method
                    h_path fmap option_fmap option_map] ].

Section way.
Context `{Jwt} `{Joi.Syntax} `{Process} (cfg : env) (prefix : string) (now : Z).
Import Validation.

(** Behind the body parser and [authenticate], a request to a resource is
    what its table makes of the rest of the path. *)
Lemma app_nas m url rest hdr q b a :
  Auth.authenticate cfg now hdr = Next a ->
  app cfg prefix now (Http m url ("nas" :: rest) hdr q (Body b)) =
  default (ret (not_found prefix (Http m url ("nas" :: rest) hdr q (Body b))))
    (dispatch (nasRoutes cfg) (Http m url rest hdr q (Body b))).
Proof. intros Ha. mount_tac. by rewrite Ha. Qed.

Lemma app_users m url rest hdr q b a :
  Auth.authenticate cfg now hdr = Next a ->
  app cfg prefix now (Http m url ("users" :: rest) hdr q (Body b)) =
  default (ret (not_found prefix (Http m url ("users" :: rest) hdr q (Body b))))
    (dispatch (userRoutes cfg) (Http m url rest hdr q (Body b))).
Proof. intros Ha. mount_tac. by rewrite Ha. Qed.

(** What [guarded] and the fall-through do when the guard lets through and
    a route is found. *)
Lemma guarded_next {A} (a : A) (handler : A -> M db response) :
  guarded (Next a) handler = handler a.
Proof. done. Qed.

Lemma found (m fallback : M db response) : default fallback (Some m) = m.
Proof. done. Qed.

(** Which route a request finds. *)
Lemma nas_post_route req :
  h_method req = POST -> h_path req = [] ->
  dispatch (nasRoutes cfg) req =
  Some (guarded (validateNasCreate (body_of req))
          (fun b => NasController.create cfg (nasData_of b))).
Proof.
  destruct req as [m url path hdr q b]. simpl. intros -> ->.
  unfold nasRoutes. name_handlers. by route_tac.
Qed.

Lemma nas_get_route req x :
  h_method req = GET -> h_path req = [x] -> lower x <> "stats" ->
  dispatch (nasRoutes cfg) req =
  Some (guarded (validateId (JObj [("id", JStr x)]))
          (fun p => NasController.getById cfg (id_of p))).
Proof.
  destruct req as [m url path hdr q b]. simpl. intros -> -> Hx.
  unfold nasRoutes. name_handlers. by route_tac.
Qed.

Lemma user_post_route req :
  h_method req = POST -> h_path req = [] ->
  dispatch (userRoutes cfg) req =
  Some (guarded (validateUserCreate (body_of req))
          (fun b => UserController.create cfg (userData_of b))).
Proof.
  destruct req as [m url path hdr q b]. simpl. intros -> ->.
  unfold userRoutes. name_handlers. by route_tac.
Qed.

(** The three routes on [/users/:username] run [validateUsername] on the
    name first. *)
Lemma user_named_route req x :
  h_method req ∈ [GET; HEAD; PUT; DELETE] -> h_path req = [x] -> lower x <> "stats" ->
  exists handler,
    dispatch (userRoutes cfg) req =
    Some (guarded (validateUsername (JObj [("username", JStr x)])) handler).
Proof.
  destruct req as [m url path hdr q b]. simpl. intros Hm -> Hx.
  unfold userRoutes. name_handlers.
  rewrite !elem_of_cons, elem_of_nil in Hm.
  destruct Hm as [->|[->|[->|[->|[]]]]]; route_tac; by eexists.
Qed.

(** Without a key and without an authorization header, [authenticate]
    answers 401. *)
Lemma authenticate_nothing hdr :
  truthy (x_api_key hdr) = false -> truthy (authorization hdr) = false ->
  Auth.authenticate cfg now hdr =
  Respond (failure 401 "Authentication required (JWT token or API key)").
Proof. intros Hk Ha. unfold Auth.authenticate. by rewrite Hk, Ha. Qed.

End way.

(** ** Theorems *)

Section theorems.
Context `{Jwt} `{Joi.Syntax} `{Process}.
Import Validation.

(** C4. End to end, the invariants of both repositories are kept: whatever
    the request is (method, path, headers, query, body, well formed or
    not), unless it is one of the two that write attributes, and whatever
    the store does, the application leaves committed tables in which every
    name has at most one password row, at most one profile row and no
    profile row without a password row, and in which NAS ids, names and
    addresses are distinct. *)
Theorem api_keeps_invariants cfg prefix now req d r d' :
  on_attributes req = false -> api_wf (committed d) ->
  app cfg prefix now req d = (r, d') -> api_wf (committed d').
Proof. intros Hreq Hwf E. by eapply (app_keeps cfg now prefix req Hreq), E. Qed.

(** Every store the application can produce from an empty schema, in
    any number of requests other than the two that write attributes and
    under any faults, satisfies the invariants of both repositories. *)
Theorem api_reachable_invariants cfg prefix ts : api_reachable cfg prefix ts -> api_wf ts.
Proof.
  revert ts. apply rtc_ind_r.
  - split; [exact UserModel.identity_empty | exact NasModel.nas_wf_empty].
  - intros ts1 ts2 _ [now req fs n r d' ts' Hreq Hrun] IH.
    by eapply (app_keeps cfg now prefix req Hreq (Db ts' fs n)), Hrun.
Qed.

(** C26. Every request is answered: under every fault plan the application
    returns a response, never an exception, with one of the statuses 200,
    201, 400, 401, 403, 404, 409, 413, 415, 500, 503, and the pool has back
    every connection it lent, also when a guard cut the request short. *)
Theorem api_answers cfg prefix now req d :
  exists r d',
    app cfg prefix now req d = (Ok r, d') /\ api_status r /\ in_use d' = in_use d.
Proof.
  destruct (app_behaved cfg now prefix req) as (Ht & Hb & Ha).
  destruct (Ht d) as (r & d' & E). exists r, d'.
  split; [done|]. split; [by eapply Ha | by eapply Hb].
Qed.

(** C35. No resource without a credential: a request to any path below
    [/nas] or [/users], in any spelling of the two and with any method,
    that carries neither an API key nor an authorization header is
    answered 401, and the store is not touched. *)
Theorem api_requires_credentials cfg prefix now m url mount rest hdr q b d :
  lower mount = "nas" \/ lower mount = "users" ->
  truthy (x_api_key hdr) = false -> truthy (authorization hdr) = false ->
  app cfg prefix now (Http m url (mount :: rest) hdr q (Body b)) d =
  (Ok (failure 401 "Authentication required (JWT token or API key)"), d).
Proof.
  intros Hm Hk Ha. unfold app, mounted, use. cbn [h_body h_path h_headers].
  by destruct Hm as [-> | ->]; ground_tac; cbn match;
    rewrite (authenticate_nothing cfg now hdr Hk Ha).
Qed.

(** C36. A name longer than 64 characters locks the user out: the create
    guard lets such a name through to [UserController.create], and every
    route that names the user in its path (GET, HEAD, PUT, DELETE on
    [/users/:username]) answers it 400 before any handler runs. *)
Theorem users_long_name_locked_out cfg prefix now hdr a url q name password d :
  Auth.authenticate cfg now hdr = Next a ->
  (64 < Z.of_nat (String.length name))%Z -> at_least 6 password ->
  app cfg prefix now
    (Http POST url ["users"] hdr q
       (Body (JObj [("user", JStr name); ("password", JStr password)]))) d =
  UserController.create cfg (UserModel.UserData name password None) d /\
  forall m b, m ∈ [GET; HEAD; PUT; DELETE] ->
    app cfg prefix now (Http m url ["users"; name] hdr q (Body b)) d =
    (Ok (validation_error
           [Joi.Detail ["username"] "string.max" "Username must not exceed 64 characters"]),
     d).
Proof.
  intros Ha Hlen Hpw. split.
  - rewrite (app_users cfg prefix now _ _ _ _ _ _ a Ha), user_post_route by done.
    change (body_of _) with (JObj [("user", JStr name); ("password", JStr password)]).
    rewrite user_create_accepts; [by rewrite guarded_next, found| |done].
    unfold at_least. lia.
  - intros m b Hm. rewrite (app_users cfg prefix now _ _ _ _ _ _ a Ha).
    destruct (user_named_route cfg (Http m url [name] hdr q (Body b)) name)
      as [handler ->]; [done..| |].
    { intros E. rewrite <- lower_length, E in Hlen. simpl in Hlen. lia. }
    by rewrite username_too_long.
Qed.

(** An id that is not a number never reaches the repository:
    [GET /nas/:id] with a segment that does not convert to a number is
    answered 400 with the message of the schema, and the store is not
    touched. *)
Theorem nas_id_not_a_number cfg prefix now hdr a url q b x d :
  Auth.authenticate cfg now hdr = Next a -> lower x <> "stats" ->
  Joi.number_of x = None ->
  app cfg prefix now (Http GET url ["nas"; x] hdr q (Body b)) d =
  (Ok (validation_error [Joi.Detail ["id"] "number.base" "ID must be a number"]), d).
Proof.
  intros Ha Hx Hn.
  rewrite (app_nas cfg prefix now _ _ _ _ _ _ a Ha), (nas_get_route cfg _ x) by done.
  by rewrite id_refuses.
Qed.

(** C30. Create, then read, through the guards: on a healthy store whose
    ids are below the counter, [POST /nas] with a name, an address and a
    secret within the constraints that no record has answers 201 with the
    record, the four keys left out defaulted by the schema, and
    [GET /nas/:id] with the id of the answer returns the same record. *)
Theorem api_create_then_get cfg prefix now hdr a url q name ip secret idtext d :
  Auth.authenticate cfg now hdr = Next a ->
  healthy d -> NasModel.ids_fresh (committed d) ->
  Joi.alphanumeric name = true -> between 3 30 name ->
  ip <> "" -> Joi.ip_address ["ipv4"; "ipv6"] ip = true -> between 8 100 secret ->
  NasModel.select_nas (NasModel.collides name ip None) (committed d) = [] ->
  let id := next_id (nas (committed d)) in
  lower idtext <> "stats" -> Joi.number_of idtext = Some id -> Joi.safe id = true ->
  (1 <= id)%Z ->
  exists d' data,
    app cfg prefix now
      (Http POST url ["nas"] hdr q
         (Body (JObj [("name", JStr name); ("ip", JStr ip); ("secret", JStr secret)]))) d =
      (Ok (success 201 "NAS created successfully" (Some data)), d') /\
    app cfg prefix now (Http GET url ["nas"; idtext] hdr q (Body (JObj []))) d' =
      (Ok (success 200 "NAS retrieved successfully" (Some data)), d') /\
    data = NasController.nas_json (NasRow id name ip secret "other" 1812 "" "").
Proof.
  intros Ha Hd Hids Hname Hlen Hip Haddr Hsecret Hfree id Hstats Hid Hsafe Hpos.
  pose (row i := NasRow i name ip secret "other" 1812 "" "").
  exists (set_committed (NasModel.insert_nas row (committed d)).2 d). eexists.
  split; [|split; [|done]].
  - rewrite (app_nas cfg prefix now _ _ _ _ _ _ a Ha), nas_post_route by done.
    change (body_of _)
      with (JObj [("name", JStr name); ("ip", JStr ip); ("secret", JStr secret)]).
    rewrite nas_create_accepts by done.
    rewrite guarded_next, found.
    change (nasData_of _)
      with (NasModel.NasData (Some name) (Some ip) (Some secret) (Some "other")
              (Some 1812%Z) (Some "") (Some "")).
    by rewrite NasController.nas_create_answer, Hfree.
  - rewrite (app_nas cfg prefix now _ _ _ _ _ _ a Ha), (nas_get_route cfg _ idtext)
      by done.
    rewrite (id_accepts idtext id) by done.
    rewrite guarded_next, found. change (id_of _) with id.
    rewrite NasController.nas_getById_answer by done. store_cbn.
    by rewrite (NasModel.find_nas_fresh id row).
Qed.

End theorems.

(** ** Examples: the theorems at concrete requests, under [bits] and [plain] *)

Lemma api_keeps_invariants_witness :
  api_wf (committed (app (H := bits) (H0 := Joi.plain) unset_env "/api/v1" 0
                       (post_user "alice1" "secret1") (Db empty_tables [] 0)).2).
Proof.
  eapply (api_keeps_invariants (H := bits) (H0 := Joi.plain) unset_env "/api/v1" 0
            (post_user "alice1" "secret1") (Db empty_tables [] 0)).
  - reflexivity.
  - split; [exact UserModel.identity_empty | exact NasModel.nas_wf_empty].
  - apply surjective_pairing.
Defined.

Lemma api_reachable_invariants_witness :
  api_wf (committed (app (H := bits) (H0 := Joi.plain) unset_env "/api/v1" 0
                       (post_nas "router1" "10.0.0.1" "s3cr3t-key")
                       (Db empty_tables [] 0)).2).
Proof.
  apply (api_reachable_invariants (H := bits) (H0 := Joi.plain) unset_env "/api/v1").
  eapply rtc_l; [|apply rtc_refl].
  eapply (step_app _ _ 0%Z (post_nas "router1" "10.0.0.1" "s3cr3t-key") [] 0%nat
            _ _ empty_tables eq_refl).
  apply surjective_pairing.
Defined.

Lemma api_requires_credentials_witness :
  app (H := bits) (H0 := Joi.plain) unset_env "/api/v1" 0
    (Http DELETE "/api/v1/nas/1" ["nas"; "1"] anonymous (JObj []) (Body (JObj [])))
    (Db empty_tables [] 0) =
  (Ok (failure 401 "Authentication required (JWT token or API key)"),
   Db empty_tables [] 0).
Proof.
  apply (api_requires_credentials (H := bits) (H0 := Joi.plain)); [by left | done | done].
Defined.

Lemma users_long_name_locked_out_witness :
  app (H := bits) (H0 := Joi.plain) unset_env "/api/v1" 0
    (Http POST "/api/v1/users" ["users"] with_key (JObj [])
       (Body (JObj [("user", JStr long_name); ("password", JStr "secret1")])))
    (Db empty_tables [] 0) =
  UserController.create unset_env (UserModel.UserData long_name "secret1" None)
    (Db empty_tables [] 0) /\
  forall m b, m ∈ [GET; HEAD; PUT; DELETE] ->
    app (H := bits) (H0 := Joi.plain) unset_env "/api/v1" 0
      (Http m "/api/v1/users" ["users"; long_name] with_key (JObj []) (Body b))
      (Db empty_tables [] 0) =
    (Ok (Validation.validation_error
           [Joi.Detail ["username"] "string.max" "Username must not exceed 64 characters"]),
     Db empty_tables [] 0).
Proof.
  apply (users_long_name_locked_out (H := bits) (H0 := Joi.plain) unset_env "/api/v1" 0
           with_key (Request None (Some "freeradius-api-key-change-this") None true));
    [reflexivity | simpl; lia | unfold Validation.at_least; simpl; lia].
Defined.

Lemma nas_id_not_a_number_witness :
  app (H := bits) (H0 := Joi.plain) unset_env "/api/v1" 0
    (Http GET "/api/v1/nas/abc" ["nas"; "abc"] with_key (JObj []) (Body (JObj [])))
    (Db empty_tables [] 0) =
  (Ok (Validation.validation_error
         [Joi.Detail ["id"] "number.base" "ID must be a number"]),
   Db empty_tables [] 0).
Proof.
  apply (nas_id_not_a_number (H := bits) (H0 := Joi.plain) unset_env "/api/v1" 0
           with_key (Request None (Some "freeradius-api-key-change-this") None true));
    [reflexivity | discriminate | reflexivity].
Defined.

Lemma api_create_then_get_witness :
  exists d' data,
    app (H := bits) (H0 := Joi.plain) unset_env "/api/v1" 0
      (Http POST "/api/v1/nas" ["nas"] with_key (JObj [])
         (Body (JObj [("name", JStr "router1"); ("ip", JStr "10.0.0.1");
                      ("secret", JStr "s3cr3t-key")]))) (Db empty_tables [] 0) =
      (Ok (success 201 "NAS created successfully" (Some data)), d') /\
    app (H := bits) (H0 := Joi.plain) unset_env "/api/v1" 0
      (Http GET "/api/v1/nas" ["nas"; "1"] with_key (JObj []) (Body (JObj []))) d' =
      (Ok (success 200 "NAS retrieved successfully" (Some data)), d') /\
    data = NasController.nas_json NasModel.router1.
Proof.
  apply (api_create_then_get (H := bits) (H0 := Joi.plain) unset_env "/api/v1" 0
           with_key (Request None (Some "freeradius-api-key-change-this") None true)
           "/api/v1/nas" (JObj []) "router1" "10.0.0.1" "s3cr3t-key" "1"
           (Db empty_tables [] 0));
    try reflexivity; try discriminate;
    try (unfold Validation.between; simpl; lia).
  split; simpl; constructor.
Defined.
