(* ===== verification/Server.v ===== *)
(** * The server: configuration, the chain of layers, start and stop

    [server.js] reads its configuration from the environment, registers
    the layers of the application in a fixed order, starts the listeners
    and installs the shutdown handlers.

    The configuration is a record of the variables as strings or unset
    ([process_env]) and one definition per constant of the file, under its
    name ([PORT], [HTTPS_ENABLED], [API_PREFIX], ...), with [parseInt] and
    the truthiness of its result written out.

    A request as it arrives is an [arrival]: the instant, the socket, the
    headers the layers read, the verb, the path and the body as the
    parsers left it.  A layer is a function from an arrival to an
    [outcome] (it answers, it calls [next()], or it calls [next(err)]) on
    the state of the server, which is the pool and the counters of the
    rate limiter; an error handler is a layer of its own kind.  [run] is
    the dispatch of Express over the list of layers, and [layers] is the
    list of [server.js] in the order of the file.

    The layers that come from libraries (CORS, the rate limiter with its
    memory store, the static files) are modelled from their documented
    behaviour with the options the file gives them.  The options of helmet
    are written as in the file and the headers the library renders for
    them are the class [Helmet]; the counters the rate limiter reports in
    its [RateLimit-*] headers are not modelled. *)

From Stdlib Require Import Ascii.
From stdpp Require Import base option strings numbers pretty gmap list.
From S2P Require Import Prelude Store Http UserRepo UserApi Jwt AuthGuard NasRepo NasApi.
From S2P Require Import Validation Frame Routes.

#[local] Open Scope m_scope.

(** ** The environment *)

(** The variables [server.js] reads, and those of the handlers. *)
Record process_env : Type := ProcessEnv {
  env_PORT : option string;
  env_HTTPS_ENABLED : option string;
  env_HTTPS_PORT : option string;
  env_SSL_CERT_PATH : option string;
  env_SSL_KEY_PATH : option string;
  env_REDIRECT_HTTP_TO_HTTPS : option string;
  env_API_PREFIX : option string;
  env_CORS_ORIGIN : option string;
  env_RATE_LIMIT_WINDOW_MS : option string;
  env_RATE_LIMIT_MAX_REQUESTS : option string;
  api_env : env
}.

(** Nothing set. *)
Definition unset_process : process_env :=
  ProcessEnv None None None None None None None None None None unset_env.

(** ** [parseInt] *)

(** White space, on the characters of ASCII. *)
Definition white (c : ascii) : bool :=
  let n := nat_of_ascii c in
  (n =? 32)%nat || ((9 <=? n)%nat && (n <=? 13)%nat).

Fixpoint trim_start (s : string) : string :=
  match s with
  | String c rest => if white c then trim_start rest else s
  | EmptyString => EmptyString
  end.

(** The value of a character as a digit of the radix. *)
Definition digit_of (radix : Z) (c : ascii) : option Z :=
  let n := Z.of_nat (nat_of_ascii c) in
  let d := if (48 <=? n)%Z && (n <=? 57)%Z then Some (n - 48)%Z
           else if (97 <=? n)%Z && (n <=? 122)%Z then Some (n - 87)%Z
           else if (65 <=? n)%Z && (n <=? 90)%Z then Some (n - 55)%Z
           else None in
  match d with
  | Some d => if (d <? radix)%Z then Some d else None
  | None => None
  end.

(** The number the longest prefix of digits denotes, after the digits
    already read; nothing when there is no digit. *)
Fixpoint digits (radix : Z) (read : option Z) (s : string) : option Z :=
  match s with
  | String c rest =>
      match digit_of radix c with
      | Some d => digits radix (Some (radix * default 0 read + d)%Z) rest
      | None => read
      end
  | EmptyString => read
  end.

(** [parseInt(input, radix)]: [None] is [NaN]; an input that is unset is
    the string ["undefined"]. *)
Definition parseInt (input : option string) (radix : option Z) : option Z :=
  let s := trim_start (default "undefined" input) in
  let '(sign, s) := match s with
                    | String "-" rest => ((-1)%Z, rest)
                    | String "+" rest => (1%Z, rest)
                    | _ => (1%Z, s)
                    end in
  let r := default 0%Z radix in
  if bool_decide (r <> 0 /\ (r < 2 \/ 36 < r))%Z then None
  else
    let strip := bool_decide (r = 0 \/ r = 16)%Z in
    let r := if bool_decide (r = 0%Z) then 10%Z else r in
    let '(r, s) := match s with
                   | String "0" (String x rest) =>
                       if strip && (Ascii.eqb x "x" || Ascii.eqb x "X")
                       then (16%Z, rest) else (r, s)
                   | _ => (r, s)
                   end in
    Z.mul sign <$> digits r None s.

(** ** The constants of [server.js] *)

(** [String(x).toLowerCase() === 'true'] *)
Definition flag (o : option string) : bool :=
  String.eqb (lower (default "undefined" o)) "true".

Definition PORT (e : process_env) : Z := num_or (parseInt (env_PORT e) (Some 10%Z)) 3000.

Definition HTTPS_ENABLED (e : process_env) : bool := flag (env_HTTPS_ENABLED e).

Definition HTTPS_PORT (e : process_env) : Z :=
  num_or (parseInt (env_HTTPS_PORT e) (Some 10%Z)) 3443.

Definition SSL_CERT_PATH (e : process_env) : option string := env_SSL_CERT_PATH e.

Definition SSL_KEY_PATH (e : process_env) : option string := env_SSL_KEY_PATH e.

Definition REDIRECT_HTTP_TO_HTTPS (e : process_env) : bool :=
  flag (env_REDIRECT_HTTP_TO_HTTPS e).

Definition API_PREFIX (e : process_env) : string := env_or (env_API_PREFIX e) "/api/v1".

Definition isProduction (e : process_env) : bool :=
  bool_decide (NODE_ENV (api_env e) = Some "production").

(** ** Requests as they arrive *)

(** [req.method]: OPTIONS, or a method the routers see. *)
Inductive verb : Type :=
| OPTIONS
| Verb (m : method).

#[global] Instance verb_eq_dec : EqDecision verb.
Proof. solve_decision. Defined.

Record arrival : Type := Arrival {
  a_at : Z;                          (* [Date.now()], in milliseconds *)
  a_remote : string;                 (* the address of the socket *)
  a_encrypted : bool;                (* the socket is a TLS socket *)
  a_forwarded_for : option string;   (* [X-Forwarded-For] *)
  a_forwarded_proto : option string; (* [X-Forwarded-Proto] *)
  a_host : option string;            (* [Host] *)
  a_origin : option string;          (* [Origin] *)
  a_verb : verb;
  a_url : string;                    (* [req.originalUrl] *)
  a_path : list string;              (* the segments of its path *)
  a_headers : request;
  a_query : json;
  a_body : parsed
}.

(** The clock of the handlers, in seconds. *)
Definition seconds (a : arrival) : Z := (a_at a / 1000)%Z.

Definition method_of (v : verb) : method :=
  match v with
  | OPTIONS => OTHER "OPTIONS"
  | Verb m => m
  end.

(** The request a handler mounted at a path sees: the rest of the path. *)
Definition request_of (a : arrival) (rest : list string) : http :=
  Http (method_of (a_verb a)) (a_url a) rest (a_headers a) (a_query a) (a_body a).

(** ** Replies *)

Inductive content : Type :=
| Json (j : json)          (* [res.json(j)] *)
| Text (s : string)        (* [res.send(s)], the bytes of a file *)
| Empty.

Record reply : Type := Reply {
  code : Z;
  headers : list (string * string);
  sent : content
}.

(** [res.status(s).json(b)] *)
Definition json_reply (r : response) : reply := Reply (status r) [] (Json (body r)).

(** The headers set on the response before the layer that ends it. *)
Definition with_headers (hs : list (string * string)) (r : reply) : reply :=
  Reply (code r) (hs ++ headers r) (sent r).

(** ** The state of the server *)

(** A client of the rate limiter: its hits in the window that is open, and
    the instant the window closes. *)
Record client : Type := Client {
  totalHits : Z;
  resetTime : Z
}.

Record server : Type := Server {
  store : db;
  hits : gmap string client
}.

(** A computation on the pool, as a computation on the server. *)
Definition on_store {A} (m : M db A) : M server A :=
  fun s => let (r, d) := m (store s) in (r, Server d (hits s)).

(** ** Layers *)

Inductive outcome : Type :=
| Answer (r : reply)                      (* the layer ended the response *)
| Pass (hs : list (string * string))      (* [next()], after setting headers *)
| Raise (e : http_error).                 (* [next(err)] *)

Inductive layer : Type :=
| Middleware (f : arrival -> M server outcome)
| ErrorHandler (h : http_error -> arrival -> reply).

(** What Express answers when no layer did: the page of its final
    handler. *)
Definition finalhandler (pending : option http_error) (a : arrival) : reply :=
  match pending with
  | None =>
      Reply 404 []
        (Text ("Cannot " ++ method_name (method_of (a_verb a)) ++ " " ++ a_url a))
  | Some e => Reply (num_or (err_status e) 500) [] (Text (err_stack e))
  end.

(** The dispatch of Express: the layers in the order they were registered;
    while an error is pending only the error handlers run, and they run
    only then. *)
Fixpoint run (stack : list layer) (pending : option http_error)
    (hs : list (string * string)) (a : arrival) : M server reply :=
  match stack with
  | [] => ret (with_headers hs (finalhandler pending a))
  | Middleware f :: rest =>
      match pending with
      | Some _ => run rest pending hs a
      | None =>
          o <- f a;;
          match o with
          | Answer r => ret (with_headers hs r)
          | Pass hs' => run rest None (hs ++ hs') a
          | Raise e => run rest (Some e) hs a
          end
      end
  | ErrorHandler h :: rest =>
      match pending with
      | Some e => ret (with_headers hs (h e a))
      | None => run rest None hs a
      end
  end.

(** [app.get(path, handler)]: GET and HEAD on that path, whatever the case
    of its letters. *)
Definition is_get (a : arrival) : bool :=
  match a_verb a with
  | Verb (GET | HEAD) => true
  | _ => false
  end.

Definition same_path (pattern path : list string) : bool :=
  bool_decide (lower <$> pattern = lower <$> path).

Definition get (pattern : list string) (handler : arrival -> reply) : layer :=
  Middleware (fun a =>
    ret (if is_get a && same_path pattern (a_path a) then Answer (handler a)
         else Pass [])).

(** The rest of a path below a mount point. *)
Fixpoint strip_prefix (mount path : list string) : option (list string) :=
  match mount, path with
  | [], _ => Some path
  | m :: mount', x :: path' =>
      if String.eqb (lower m) (lower x) then strip_prefix mount' path' else None
  | _ :: _, [] => None
  end.

(** The segments of a path given as a string. *)
Definition segments (p : string) : list string :=
  filter (fun s => s <> "") (split "/" p).

(** ** Security headers *)

(** An option of [helmet] left [undefined], which keeps the default of the
    library, or set to [false], which switches the header off. *)
Inductive toggle : Type :=
| Unset
| Off.

(** The options given to [helmet]. *)
Record helmet_options : Type := HelmetOptions {
  contentSecurityPolicy : list (string * list string);
  crossOriginEmbedderPolicy : toggle;
  crossOriginResourcePolicy : string;
  crossOriginOpenerPolicy : toggle;
  originAgentCluster : toggle;
  hsts : toggle;
  permissionsPolicy : list (string * list string)
}.

Definition helmetOptions (e : process_env) : helmet_options :=
  HelmetOptions
    [("defaultSrc", ["'self'"]);
     ("styleSrc", ["'self'"; "'unsafe-inline'"; "https://unpkg.com";
                   "https://cdn.jsdelivr.net"]);
     ("scriptSrc", ["'self'"; "'unsafe-inline'"; "'unsafe-eval'"; "https://unpkg.com";
                    "https://cdn.jsdelivr.net"]);
     ("imgSrc", ["'self'"; "data:"; "https:"; "blob:"]);
     ("connectSrc", ["'self'"; "ws:"; "wss:"]);
     ("fontSrc", ["'self'"; "https://unpkg.com"; "https://cdn.jsdelivr.net"]);
     ("objectSrc", ["'none'"]);
     ("mediaSrc", ["'self'"]);
     ("frameSrc", ["'none'"])]
    Off
    "cross-origin"
    (if isProduction e then Unset else Off)
    (if isProduction e then Unset else Off)
    (if HTTPS_ENABLED e || isProduction e then Unset else Off)
    [("camera", []); ("microphone", []); ("geolocation", []); ("interest-cohort", []);
     ("browsing-topics", []); ("run-ad-auction", []); ("join-ad-interest-group", []);
     ("private-state-token-redemption", []); ("private-state-token-issuance", []);
     ("private-aggregation", [])].

(** The library itself: the headers it sets for its options. *)
Class Helmet : Type := { security_headers : helmet_options -> list (string * string) }.

(** [app.use(helmet({...}))]: sets its headers and goes on. *)
Definition helmet `{Helmet} (o : helmet_options) : layer :=
  Middleware (fun _ => ret (Pass (security_headers o))).

(** ** CORS *)

(** [corsOptions.origin]: [true], or a list. *)
Inductive origins : Type :=
| AnyOrigin
| Listed (allowed : list string).

Record cors_options : Type := CorsOptions {
  co_origin : origins;
  co_methods : list string;
  co_allowedHeaders : list string;
  co_credentials : bool
}.

Definition corsOptions (e : process_env) : cors_options :=
  CorsOptions
    (match env_CORS_ORIGIN e with
     | Some s => if String.eqb s "*" then AnyOrigin else Listed (split "," s)
     | None => Listed ["http://localhost:3000"]
     end)
    ["GET"; "POST"; "PUT"; "DELETE"; "OPTIONS"]
    ["Content-Type"; "Authorization"; "X-API-Key"]
    true.

Definition origin_allowed (o : origins) (origin : string) : bool :=
  match o with
  | AnyOrigin => true
  | Listed l => bool_decide (origin ∈ l)
  end.

(** [array.join(',')] *)
Fixpoint join_comma (l : list string) : string :=
  match l with
  | [] => ""
  | [x] => x
  | x :: rest => x ++ "," ++ join_comma rest
  end.

(** The headers the CORS library sets: the origin of the request when it
    is allowed, the credentials flag, and on a preflight the methods and
    the headers of the options. *)
Definition cors_headers (o : cors_options) (a : arrival) : list (string * string) :=
  if_truthy (a_origin a)
    (fun x => if origin_allowed (co_origin o) x
              then [("Access-Control-Allow-Origin", x)] else [])
    [] ++
  [("Vary", "Origin")] ++
  (if co_credentials o then [("Access-Control-Allow-Credentials", "true")] else []) ++
  match a_verb a with
  | OPTIONS =>
      [("Access-Control-Allow-Methods", join_comma (co_methods o));
       ("Access-Control-Allow-Headers", join_comma (co_allowedHeaders o))]
  | Verb _ => []
  end.

(** [app.use(cors(corsOptions))]: a preflight is answered 204 here. *)
Definition cors (o : cors_options) : layer :=
  Middleware (fun a =>
    ret (match a_verb a with
         | OPTIONS => Answer (Reply 204 (cors_headers o a) Empty)
         | Verb _ => Pass (cors_headers o a)
         end)).

(** ** The rate limiter *)

(** [Math.ceil(w / 1000)] *)
Definition ceil_seconds (w : Z) : Z := (- ((- w) / 1000))%Z.

Record limits : Type := Limits {
  windowMs : Z;
  max_hits : Z;
  message : json
}.

(** The options given to [rateLimit]. *)
Definition limiter_options (e : process_env) : limits :=
  let w := num_or (parseInt (env_RATE_LIMIT_WINDOW_MS e) None) (15 * 60 * 1000) in
  Limits w
    (num_or (parseInt (env_RATE_LIMIT_MAX_REQUESTS e) None) 100)
    (JObj [("success", JBool false);
           ("message", JStr "Too many requests from this IP, please try again later.");
           ("retry_after", JNum (ceil_seconds w))]).

(** The pieces of [X-Forwarded-For], nearest proxy first: split at the
    commas, without the spaces around a piece, without the empty pieces. *)
Fixpoint trim_spaces_start (s : string) : string :=
  match s with
  | String " " rest => trim_spaces_start rest
  | _ => s
  end.

Fixpoint trim_spaces_end (s : string) : string :=
  match s with
  | EmptyString => EmptyString
  | String c rest =>
      match trim_spaces_end rest with
      | EmptyString => if Ascii.eqb c " " then EmptyString else String c EmptyString
      | rest' => String c rest'
      end
  end.

Definition forwarded (header : string) : list string :=
  reverse
    (filter (fun s => s <> "")
       ((fun s => trim_spaces_end (trim_spaces_start s)) <$> split "," header)).

(** [req.ip] under [app.set('trust proxy', 1)]: the address the nearest
    proxy reports, the address of the socket when none is reported. *)
Definition client_ip (a : arrival) : string :=
  match a_forwarded_for a with
  | Some h => default (a_remote a) (head (forwarded h))
  | None => a_remote a
  end.

(** The memory store: a hit opens a window when the client has none open,
    and counts in it. *)
Definition hit (w now : Z) (known : option client) : client :=
  let opened :=
    match known with
    | Some c => if bool_decide (resetTime c <= now)%Z then Client 0 (now + w) else c
    | None => Client 0 (now + w)
    end in
  Client (totalHits opened + 1) (resetTime opened).

Definition increment (w now : Z) (key : string) (h : gmap string client)
    : client * gmap string client :=
  let c := hit w now (h !! key) in
  (c, <[key := c]> h).

(** [app.use(limiter)]: counts the request for its client and answers 429
    past the ceiling. *)
Definition limiter (o : limits) : layer :=
  Middleware (fun a s =>
    let (c, h) := increment (windowMs o) (a_at a) (client_ip a) (hits s) in
    (Ok (if bool_decide (max_hits o < totalHits c)%Z
         then Answer (Reply 429 [] (Json (message o)))
         else Pass []),
     Server (store s) h)).

(** ** The layers of [server.js] *)

(** [express.json()] and [express.urlencoded()]: what they raise goes to
    the error handler. *)
Definition body_parser : layer :=
  Middleware (fun a =>
    ret (match a_body a with
         | Failed f message stack => Raise (raised f message stack)
         | Body _ => Pass []
         end)).

(** The layer that logs the request. *)
Definition request_log : layer := Middleware (fun _ => ret (Pass [])).

(** The documents the server hands out: the files below [docs/], the
    document read from [swagger.json], the files and the page of the
    Swagger UI, the page of [customHtml]. *)
Record documents : Type := Documents {
  docs_file : list string -> option string;
  swaggerDocument : json;
  swagger_file : list string -> option string;
  swagger_page : string;
  customHtml : string
}.

(** [express.static(root)] mounted at a path: the file of a GET or HEAD
    below it, when there is one. *)
Definition static (mount : list string) (file : list string -> option string) : layer :=
  Middleware (fun a =>
    ret (match strip_prefix mount (a_path a) with
         | Some rest =>
             match (if is_get a then file rest else None) with
             | Some bytes => Answer (Reply 200 [] (Text bytes))
             | None => Pass []
             end
         | None => Pass []
         end)).

Section layers.
Context `{Jwt} `{Joi.Syntax} `{Process} `{Helmet}.

(** [app.get('/health', ...)] *)
Definition health (a : arrival) : reply :=
  Reply 200 []
    (Json (JObj [("success", JBool true);
                 ("message", JStr "FreeRADIUS API is running");
                 ("timestamp", JStr (toISOString (seconds a)));
                 ("uptime", uptime (seconds a))])).

(** The three routers mounted under the prefix. *)
Definition api (e : process_env) : layer :=
  Middleware (fun a =>
    match a_verb a, strip_prefix (segments (API_PREFIX e)) (a_path a) with
    | Verb _, Some rest =>
        match mounted (api_env e) (seconds a) (request_of a rest) with
        | Some handler => r <- on_store handler;; ret (Answer (json_reply r))
        | None => ret (Pass [])
        end
    | _, _ => ret (Pass [])
    end).

(** [app.get('/', ...)] *)
Definition root (e : process_env) (a : arrival) : reply :=
  Reply 200 []
    (Json (JObj
       [("success", JBool true);
        ("message", JStr "Welcome to FreeRADIUS API");
        ("version", JStr "1.0.0");
        ("documentation", JObj
          [("swagger_ui", JStr "GET /api-docs");
           ("swagger_ui_custom", JStr "GET /swagger");
           ("swagger_json", JStr "GET /swagger.json");
           ("api_documentation", JStr "GET /docs/API_DOCUMENTATION.md");
           ("installation_guide", JStr "GET /docs/INSTALLATION_GUIDE.md");
           ("endpoints", JObj
             [("health", JStr "GET /health");
              ("api_info", JStr ("GET " ++ API_PREFIX e ++ "/auth/info"));
              ("login", JStr ("POST " ++ API_PREFIX e ++ "/auth/login"));
              ("nas", JStr ("GET " ++ API_PREFIX e ++ "/nas"));
              ("users", JStr ("GET " ++ API_PREFIX e ++ "/users"))]);
           ("authentication", JObj
             [("jwt", JStr "Use Bearer token in Authorization header");
              ("api_key", JStr "Use X-API-Key header")])])])).

(** [app.use('*', ...)]: answers whatever reaches it. *)
Definition catch_all (e : process_env) : layer :=
  Middleware (fun a =>
    ret (Answer (json_reply (not_found (API_PREFIX e) (request_of a (a_path a)))))).

(** [app.use((err, req, res, next) => ...)] *)
Definition on_error (e : process_env) : layer :=
  ErrorHandler (fun err _ => json_reply (error_handler (api_env e) err)).

(** The layers behind the rate limiter, in the order [server.js]
    registers them, up to the error handler. *)
Definition inner (e : process_env) (docs : documents) : list layer := [
  body_parser;
  request_log;
  static ["docs"] (docs_file docs);
  get ["swagger.json"] (fun _ => Reply 200 [] (Json (swaggerDocument docs)));
  static ["api-docs"] (swagger_file docs);
  get ["api-docs"] (fun _ => Reply 200 [] (Text (swagger_page docs)));
  get ["swagger"] (fun _ => Reply 200 [] (Text (customHtml docs)));
  get ["health"] health;
  api e;
  get [] (root e);
  catch_all e;
  on_error e
].

(** The headers the two layers in front set on every response. *)
Definition response_headers (e : process_env) (a : arrival) : list (string * string) :=
  security_headers (helmetOptions e) ++ cors_headers (corsOptions e) a.

(** The layers of the application, in the order [server.js] registers
    them. *)
Definition layers (e : process_env) (docs : documents) : list layer :=
  helmet (helmetOptions e) :: cors (corsOptions e) :: limiter (limiter_options e) ::
  inner e docs.

(** ** Start *)

(** What the start reads of the machine: the files of the certificate, and
    whether a TLS server can be made of them. *)
Record machine : Type := Machine {
  readFileSync : string -> option string;
  createServer : string -> string -> bool
}.

Inductive listener : Type :=
| Http_ (port : Z)
| Https (port : Z).

(** [req.protocol], with the proxy trusted: the first piece of
    [X-Forwarded-Proto] when there is one and the socket is not a TLS
    socket. *)
Definition protocol (a : arrival) : string :=
  if a_encrypted a then "https"
  else match a_forwarded_proto a with
       | Some p => trim_spaces_end (trim_spaces_start (default "" (head (split "," p))))
       | None => "http"
       end.

(** The layer [startServers] adds when it redirects. *)
Definition redirect (e : process_env) : layer :=
  Middleware (fun a =>
    ret (let isSecure := String.eqb (protocol a) "https" ||
                         bool_decide (a_forwarded_proto a = Some "https") in
         if negb isSecure then
           let host := if_truthy (a_host a) (fun h => default "" (head (split ":" h)))
                         "localhost" in
           let url := ("https://" ++ host ++ ":" ++ pretty (HTTPS_PORT e) ++ a_url a)%string in
           Answer (Reply 301 [("Location", url)]
                     (Text ("Moved Permanently. Redirecting to " ++ url)%string))
         else Pass [])).

(** [startServers()]: the listeners it starts, and the layers it adds to
    the application. *)
Definition startServers (e : process_env) (m : machine) : list listener * list layer :=
  let http := Http_ (PORT e) in
  if HTTPS_ENABLED e then
    if truthy (SSL_CERT_PATH e) && truthy (SSL_KEY_PATH e) then
      match readFileSync m (default "" (SSL_CERT_PATH e)) with
      | Some cert =>
          match readFileSync m (default "" (SSL_KEY_PATH e)) with
          | Some key =>
              if createServer m cert key then
                ([http; Https (HTTPS_PORT e)],
                 if REDIRECT_HTTP_TO_HTTPS e then [redirect e] else [])
              else ([http], [])
          | None => ([http], [])
          end
      | None => ([http], [])
      end
    else ([http], [])
  else ([http], []).

(** The application once the file has run. *)
Definition application (e : process_env) (docs : documents) (m : machine) : list layer :=
  layers e docs ++ (startServers e m).2.

(** One request served. *)
Definition serve (e : process_env) (docs : documents) (m : machine) (a : arrival)
    : M server reply :=
  run (application e docs m) None [] a.

End layers.

(** A sequence of requests served one after the other. *)
Fixpoint serve_all `{Jwt} `{Joi.Syntax} `{Process} `{Helmet} (e : process_env) (docs : documents)
    (m : machine) (arrivals : list arrival) : M server (list reply) :=
  match arrivals with
  | [] => ret []
  | a :: rest =>
      r <- serve e docs m a;;
      rs <- serve_all e docs m rest;;
      ret (r :: rs)
  end.

(** ** Stop *)

(** The handler of SIGTERM and SIGINT: close the pool, whatever comes of
    it, and exit with code 0. *)
Definition shutdown {S} (close : M S unit) : M S Z :=
  _ <- try_catch close (fun _ => ret tt);;
  ret 0%Z.

(** ** What the theorems say of the server *)

(** The statuses the server answers: those of the application, 204 for a
    preflight and 429 past the ceiling of the rate limiter. *)
Definition server_statuses : list Z := [204; 429]%Z ++ api_statuses.

Definition server_status (r : reply) : Prop := code r ∈ server_statuses.

#[global] Instance server_status_dec r : Decision (server_status r).
Proof. unfold server_status. apply _. Defined.

(** The invariants of the two repositories, on the committed tables of the
    server. *)
Definition server_wf (s : server) : Prop := api_wf (committed (store s)).

(** The arrivals that write attributes: the two routes no schema guards. *)
Definition writes_attributes_at (e : process_env) (a : arrival) : bool :=
  match strip_prefix (segments (API_PREFIX e)) (a_path a) with
  | Some rest => on_attributes (request_of a rest)
  | None => false
  end.

(** A layer that answers every request that reaches it, a layer that
    handles errors, and a list of layers past which no request goes: one
    that answers everything, and an error handler after it. *)
Definition always_answers (l : layer) : Prop :=
  match l with
  | Middleware f => forall a s, exists r s', f a s = (Ok (Answer r), s')
  | ErrorHandler _ => False
  end.

Definition handles_errors (l : layer) : Prop :=
  match l with
  | Middleware _ => False
  | ErrorHandler _ => True
  end.

Definition closed (stack : list layer) : Prop :=
  exists before l after,
    stack = before ++ l :: after /\ always_answers l /\ Exists handles_errors after.

(** What serving a request may do to the server: the pool has back every
    connection it lent, and the invariants of the repositories are kept
    when [wf] is set. *)
Definition served_rel (wf : bool) (s s' : server) : Prop :=
  in_use (store s') = in_use (store s) /\
  (wf = true -> server_wf s -> server_wf s').

(** What the layers behind the rate limiter may do: the same, and the
    counters are as they were. *)
Definition steady (wf : bool) (s s' : server) : Prop :=
  hits s' = hits s /\ served_rel wf s s'.

(** A layer that always returns, relates the states by [R], answers with
    codes in [Q] and raises errors in [E]; an error handler that answers
    the errors in [E] with codes in [Q]. *)
Definition layer_spec (R : relation server) (Q : Z -> Prop) (E : http_error -> Prop)
    (a : arrival) (l : layer) : Prop :=
  match l with
  | Middleware f =>
      forall s, exists o s',
        f a s = (Ok o, s') /\ R s s' /\
        match o with
        | Answer r => Q (code r)
        | Pass _ => True
        | Raise e => E e
        end
  | ErrorHandler h => forall e, E e -> Q (code (h e a))
  end.

(** The errors the body parsers raise. *)
Definition from_parser (e : http_error) : Prop :=
  exists f message stack, e = raised f message stack.

(** A reply that is not the refusal of the rate limiter. *)
Definition let_through (r : reply) : bool := negb (code r =? 429)%Z.

(** An address as a proxy writes it: not empty, without commas or
    spaces. *)
Definition word (x : string) : bool :=
  negb (String.eqb x "") && without "," x && without " " x.

(** A request the rate limiter counts for a client: any but a preflight. *)
Definition counted (k : string) (a : arrival) : bool :=
  bool_decide (client_ip a = k /\ a_verb a <> OPTIONS).

(** The requests of a client that were counted and let through, among a
    sequence of requests and their replies. *)
Definition admitted (k : string) (served : list (arrival * reply)) : list (arrival * reply) :=
  filter (fun ar => counted k ar.1 && let_through ar.2 = true) served.

(** The paths the layers in front of the routers answer, and the root. *)
Definition reserved (path : list string) : bool :=
  match path with
  | [] => true
  | x :: _ =>
      bool_decide (lower x ∈ ["docs"; "swagger.json"; "api-docs"; "swagger"; "health"])
  end.

(** One request served, under any fault plan of the store; the requests
    that write attributes are left out. *)
Inductive server_step `{Jwt} `{Joi.Syntax} `{Process} `{Helmet} (e : process_env) (docs : documents)
    (m : machine) : server -> server -> Prop :=
| step_serve a s r s' (Hreq : writes_attributes_at e a = false)
    (Hrun : serve e docs m a s = (r, s')) :
    server_step e docs m s s'.

(** The server as it starts: the tables of an empty schema under some
    fault plan, and no client counted. *)
Definition started (s : server) : Prop :=
  committed (store s) = empty_tables /\ in_use (store s) = 0%nat /\ hits s = ∅.

(** ** Examples *)

(** A GET on a path, from a socket, at an instant. *)
Definition arriving (now : Z) (remote : string) (forwarded : option string)
    (v : verb) (url : string) (path : list string) (hdr : request) (b : json) : arrival :=
  Arrival now remote false forwarded None None None v url path hdr (JObj []) (Body b).

(** A rendering of the options for the examples: the two headers the
    options of [server.js] decide on outside production. *)
#[global] Instance bare : Helmet := {|
  security_headers o :=
    [("Cross-Origin-Resource-Policy", crossOriginResourcePolicy o)] ++
    match hsts o with
    | Unset => [("Strict-Transport-Security", "max-age=15552000; includeSubDomains")]
    | Off => []
    end
|}.

Definition no_documents : documents :=
  Documents (fun _ => None) (JObj []) (fun _ => None) "" "".

Definition no_machine : machine := Machine (fun _ => None) (fun _ _ => false).

(** A machine that holds a certificate, and an environment that asks for
    HTTPS and the redirect. *)
Definition tls_machine : machine := Machine (fun _ => Some "pem") (fun _ _ => true).

Definition tls_process : process_env :=
  ProcessEnv None (Some "true") None (Some "cert.pem") (Some "key.pem") (Some "true")
    None None None None unset_env.

(** An environment with a ceiling of two requests a window. *)
Definition two_a_window : process_env :=
  ProcessEnv None None None None None None None None None (Some "2") unset_env.

Definition fresh_server : server := Server (Db empty_tables [] 0) ∅.

(** A health check from one socket, with or without a forwarded address. *)
Definition health_from (now : Z) (forwarded : option string) : arrival :=
  arriving now "192.0.2.7" forwarded (Verb GET) "/health" ["health"] anonymous (JObj []).

Definition three_in_a_window : list arrival :=
  [health_from 0 None; health_from 10 None; health_from 20 None].

Definition three_forged : list arrival :=
  [health_from 0 (Some "10.0.0.1"); health_from 10 (Some "10.0.0.2");
   health_from 20 (Some "10.0.0.3")].

(** The creation of a NAS, with the API key of an unset environment. *)
Definition create_router : arrival :=
  arriving 0 "192.0.2.7" None (Verb POST) "/api/v1/nas" ["api"; "v1"; "nas"] with_key
    (JObj [("name", JStr "router1"); ("ip", JStr "10.0.0.1");
           ("secret", JStr "s3cr3t-key")]).

(** A client that has used up a ceiling of two, in a window that closes at
    the instant 1000. *)
Definition used_up : server :=
  Server (Db empty_tables [] 0) {["192.0.2.7" := Client 2 1000]}.

(** ** Lemmas: the configuration *)


(** What [parseInt] makes of some strings, with the radix 10 and without
    a radix. *)
Example parseInt_examples :
  parseInt (Some "8080") (Some 10%Z) = Some 8080%Z /\
  parseInt (Some "  42") (Some 10%Z) = Some 42%Z /\
  parseInt (Some "12abc") (Some 10%Z) = Some 12%Z /\
  parseInt (Some "-5") (Some 10%Z) = Some (-5)%Z /\
  parseInt (Some "0x1F") (Some 10%Z) = Some 0%Z /\
  parseInt (Some "0x1F") None = Some 31%Z /\
  parseInt (Some "abc") (Some 10%Z) = None /\
  parseInt (Some "") (Some 10%Z) = None /\
  parseInt None (Some 10%Z) = None /\
  parseInt None None = None.
Proof. by vm_compute. Qed.

(** ** Lemmas: the address of the client *)

Lemma trim_spaces_start_word x : without " " x = true -> trim_spaces_start x = x.
Proof.
  destruct x as [|c x]; [done|]. simpl.
  destruct (Ascii.eqb_spec c " ") as [->|Hc]; [done|]. intros _.
  by destruct c as [[] [] [] [] [] [] [] []].
Qed.

Lemma trim_spaces_end_word x : without " " x = true -> trim_spaces_end x = x.
Proof.
  induction x as [|c x IH]; [done|]. simpl.
  destruct (Ascii.eqb_spec c " ") as [->|Hc]; [done|]. simpl. intros ->%IH.
  by destruct x.
Qed.

(** A header that holds one address names the client. *)
Lemma client_ip_forwarded a x :
  a_forwarded_for a = Some x -> word x = true -> client_ip a = x.
Proof.
  unfold client_ip, forwarded, word. intros -> [[Hx Hc]%andb_prop Hs]%andb_prop.
  rewrite split_without by done. simpl.
  rewrite trim_spaces_start_word, trim_spaces_end_word by done.
  rewrite filter_cons_True; [done|]. intros ->. done.
Qed.

(** ** Lemmas: the dispatch *)

(** While an error is pending, what stands after an error handler does not
    matter. *)
Lemma run_pending stack extra e hs a :
  Exists handles_errors stack ->
  run (stack ++ extra) (Some e) hs a = run stack (Some e) hs a.
Proof.
  induction stack as [|[f|h] stack IH]; intros Hex; [by apply Exists_nil in Hex| |done].
  simpl. apply IH. by apply Exists_cons in Hex as [?|?].
Qed.

(** Past a closed list of layers nothing is reached: layers added after it
    change no answer. *)
Lemma run_closed stack extra pending hs a s :
  closed stack -> run (stack ++ extra) pending hs a s = run stack pending hs a s.
Proof.
  intros (before & l & after & -> & Hl & Hh). revert pending hs s.
  induction before as [|[g|h] before IH]; intros pending hs s.
  - destruct l as [f|]; [|done]. simpl.
    destruct pending as [e|]; [by rewrite run_pending|].
    destruct (Hl a s) as (r & s' & E). unfold bind. by rewrite E.
  - simpl. destruct pending as [e|]; [apply IH|]. unfold bind.
    destruct (g a s) as [[[r|hs'|e]|err] s1]; try done; apply IH.
  - simpl. destruct pending as [e|]; [done|apply IH].
Qed.

(** One layer that passes, answers, raises. *)
Lemma run_pass f rest hs hs' a s s' :
  f a s = (Ok (Pass hs'), s') ->
  run (Middleware f :: rest) None hs a s = run rest None (hs ++ hs') a s'.
Proof. intros E. simpl. unfold bind. by rewrite E. Qed.

Lemma run_answer f rest hs r a s s' :
  f a s = (Ok (Answer r), s') ->
  run (Middleware f :: rest) None hs a s = (Ok (with_headers hs r), s').
Proof. intros E. simpl. unfold bind. by rewrite E. Qed.

Lemma run_raise f rest hs e a s s' :
  f a s = (Ok (Raise e), s') ->
  run (Middleware f :: rest) None hs a s = run rest (Some e) hs a s'.
Proof. intros E. simpl. unfold bind. by rewrite E. Qed.

#[global] Instance served_rel_preorder wf : PreOrder (served_rel wf).
Proof.
  split; [by intros s|]. intros s1 s2 s3 [E1 W1] [E2 W2].
  split; [congruence|auto].
Qed.

#[global] Instance steady_preorder wf : PreOrder (steady wf).
Proof.
  split; [by intros s|]. intros s1 s2 s3 [E1 R1] [E2 R2].
  split; [congruence|by etrans].
Qed.

Lemma layer_spec_mono (R R' : relation server) (Q Q' : Z -> Prop) E a l :
  (forall s s', R s s' -> R' s s') -> (forall c, Q c -> Q' c) ->
  layer_spec R Q E a l -> layer_spec R' Q' E a l.
Proof.
  intros HR HQ. destruct l as [f|h]; simpl; [|by auto]. intros Hf s.
  destruct (Hf s) as (o & s' & E1 & Hs & Ho). exists o, s'.
  split; [done|]. split; [by apply HR|]. destruct o; auto.
Qed.

(** What holds of every layer holds of the dispatch: it returns, the
    states are related, the code of the reply is in [Q]. *)
Lemma run_spec R `{!PreOrder R} Q E stack a :
  Forall (layer_spec R Q E a) stack ->
  Q 404%Z -> (forall e, E e -> Q (num_or (err_status e) 500)) ->
  forall pending hs s, from_option E True pending ->
    exists r s', run stack pending hs a s = (Ok r, s') /\ R s s' /\ Q (code r).
Proof.
  intros Hall H404 Hfinal. induction Hall as [|l stack Hl _ IH]; intros pending hs s Hp.
  - exists (with_headers hs (finalhandler pending a)), s. split; [done|]. split; [done|].
    destruct pending as [e|]; simpl; auto.
  - destruct l as [f|h], pending as [e|]; simpl; try (by apply IH).
    + destruct (Hl s) as (o & s1 & E1 & Hs & Ho). unfold bind. rewrite E1.
      destruct o as [r|hs'|e].
      * by exists (with_headers hs r), s1.
      * destruct (IH None (hs ++ hs') s1 I) as (r & s' & -> & ? & ?).
        exists r, s'. split; [done|]. split; [by etrans|done].
      * destruct (IH (Some e) hs s1 Ho) as (r & s' & -> & ? & ?).
        exists r, s'. split; [done|]. split; [by etrans|done].
    + exists (with_headers hs (h e a)), s. split; [done|]. split; [done|]. by apply Hl.
Qed.

(** A layer that looks at the request only. *)
Lemma layer_spec_ret R `{!Reflexive R} (Q : Z -> Prop) E a (f : arrival -> outcome) :
  match f a with
  | Answer r => Q (code r)
  | Pass _ => True
  | Raise e => E e
  end ->
  layer_spec R Q E a (Middleware (fun a => ret (f a))).
Proof. intros Hf s. by exists (f a), s. Qed.

(** The layers that look at the request only. *)
Section pure_layers.
Context (R : relation server) `{!Reflexive R} (Q : Z -> Prop) (E : http_error -> Prop).

Lemma get_spec a pattern handler :
  Q (code (handler a)) -> layer_spec R Q E a (get pattern handler).
Proof.
  intros Hq s. unfold get. eexists _, s. split; [done|]. split; [done|].
  by destruct (is_get a && _).
Qed.

Lemma static_spec a mount file : Q 200%Z -> layer_spec R Q E a (static mount file).
Proof.
  intros Hq s. unfold static. eexists _, s. split; [done|]. split; [done|].
  destruct (strip_prefix _ _); [|done]. by destruct (if is_get a then _ else _).
Qed.

Lemma request_log_spec a : layer_spec R Q E a request_log.
Proof. intros s. by exists (Pass []), s. Qed.

End pure_layers.

(** A layer a request goes past. *)
Lemma run_get_miss pattern handler rest hs a s :
  is_get a && same_path pattern (a_path a) = false ->
  run (get pattern handler :: rest) None hs a s = run rest None hs a s.
Proof.
  intros Hm. unfold get. erewrite run_pass; [|cbv beta; by rewrite Hm].
  by rewrite app_nil_r.
Qed.

Lemma run_static_miss mount file rest hs a s :
  strip_prefix mount (a_path a) = None ->
  run (static mount file :: rest) None hs a s = run rest None hs a s.
Proof.
  intros Hm. unfold static. erewrite run_pass; [|cbv beta; by rewrite Hm].
  by rewrite app_nil_r.
Qed.

(** A path that is not reserved is none of the paths the documentation
    layers and the health check answer. *)
Lemma reserved_miss path x :
  reserved path = false ->
  x ∈ ["docs"; "swagger.json"; "api-docs"; "swagger"; "health"] ->
  strip_prefix [x] path = None /\ same_path [x] path = false.
Proof.
  destruct path as [|y path]; [done|]. simpl. intros Hy%bool_decide_eq_false Hx.
  assert (lower x = x) as Hl
    by (rewrite !elem_of_cons, elem_of_nil in Hx;
        by destruct Hx as [->|[->|[->|[->|[->|[]]]]]]).
  split.
  - destruct (String.eqb_spec (lower x) (lower y)) as [E|]; [|done].
    destruct Hy. by rewrite <- E, Hl.
  - apply bool_decide_eq_false. intros [= E _]. destruct Hy. by rewrite <- E, Hl.
Qed.

Lemma body_parser_spec R `{!Reflexive R} Q a : layer_spec R Q from_parser a body_parser.
Proof.
  intros s. unfold body_parser. eexists _, s. split; [done|]. split; [done|].
  destruct (a_body a); [done|]. by eexists _, _, _.
Qed.

Section served.
Context `{Jwt} `{Joi.Syntax} `{Process} `{Helmet}.

Lemma catch_all_spec R `{!Reflexive R} (Q : Z -> Prop) E e a :
  Q 404%Z -> layer_spec R Q E a (catch_all e).
Proof. intros Hq s. unfold catch_all. by eexists _, s. Qed.

Lemma cors_spec R `{!Reflexive R} (Q : Z -> Prop) E o a :
  Q 204%Z -> layer_spec R Q E a (cors o).
Proof.
  intros Hq s. unfold cors. eexists _, s. split; [done|]. split; [done|].
  by destruct (a_verb a).
Qed.

Lemma limiter_spec wf (Q : Z -> Prop) E o a :
  Q 429%Z -> layer_spec (served_rel wf) Q E a (limiter o).
Proof.
  intros Hq s. unfold limiter, increment. eexists _, _. split; [done|].
  split; [by split|]. by case_bool_decide.
Qed.

Lemma layers_closed e docs : closed (layers e docs).
Proof.
  exists (take 13 (layers e docs)), (catch_all e), [on_error e].
  split; [done|]. split; [|by left].
  intros a s. by eexists _, _.
Qed.

(** The layer of the routers: it returns, with a status of the
    application, gives back the connections, and keeps the invariants
    unless the request writes attributes. *)
Lemma api_spec e a :
  layer_spec (steady (negb (writes_attributes_at e a))) (.∈ api_statuses) from_parser
    a (api e).
Proof.
  intros s. unfold api. destruct (a_verb a) eqn:Hv; [by exists (Pass []), s|].
  destruct (strip_prefix _ _) as [rest|] eqn:Hp; [|by exists (Pass []), s].
  destruct (mounted _ _ _) as [handler|] eqn:Hm; [|by exists (Pass []), s].
  destruct (mounted_behaved _ _ _ _ Hm) as (Ht & Hb & Ha).
  destruct (Ht (store s)) as (r & d' & Er).
  exists (Answer (json_reply r)), (Server d' (hits s)).
  split; [unfold bind, on_store; by rewrite Er|].
  split; [|by eapply Ha]. split; [done|]. split; [by eapply Hb|].
  intros Hw Hwf. unfold writes_attributes_at in Hw. rewrite Hp in Hw.
  apply negb_true_iff in Hw. by eapply (mounted_keeps _ _ _ _ Hw Hm), Er.
Qed.

(** The layers behind the rate limiter. *)
Lemma inner_spec e docs a :
  Forall (layer_spec (steady (negb (writes_attributes_at e a))) (.∈ api_statuses)
            from_parser a) (inner e docs).
Proof.
  assert (200 ∈ api_statuses)%Z as H200 by (by apply (bool_decide_unpack _)).
  repeat apply Forall_cons_2; [..|by apply Forall_nil];
    first [ by apply get_spec; [apply _|] | by apply static_spec; [apply _|] | idtac ].
  - apply body_parser_spec, _.
  - apply request_log_spec, _.
  - apply api_spec.
  - apply catch_all_spec; [apply _|]. by apply (bool_decide_unpack _).
  - intros err (f & message & stack & ->). apply error_handler_status.
Qed.


End served.

Section served_all.
Context `{Jwt} `{Joi.Syntax} `{Process} `{Helmet} (e : process_env) (docs : documents).

Lemma api_statuses_server c : c ∈ api_statuses -> c ∈ server_statuses.
Proof. intros Hc. unfold server_statuses. apply elem_of_app. by right. Qed.

(** Every layer of the application, on any request. *)
Lemma layers_spec a :
  Forall (layer_spec (served_rel (negb (writes_attributes_at e a))) (.∈ server_statuses)
            from_parser a) (layers e docs).
Proof.
  apply Forall_cons_2; [|apply Forall_cons_2; [|apply Forall_cons_2]].
  - by apply layer_spec_ret.
  - apply cors_spec; [apply _|]. by apply (bool_decide_unpack _).
  - apply limiter_spec. by apply (bool_decide_unpack _).
  - eapply Forall_impl; [apply inner_spec|]. intros l.
    apply layer_spec_mono; [by intros s s' [_ ?] | apply api_statuses_server].
Qed.

Lemma parser_statuses (Q : Z -> Prop) :
  Q 400%Z -> Q 413%Z -> Q 415%Z -> Q 500%Z ->
  forall err, from_parser err -> Q (num_or (err_status err) 500).
Proof. intros ???? err (f & message & stack & ->). by destruct f. Qed.

(** What [startServers] adds changes nothing. *)
Lemma serve_layers m a s : serve e docs m a s = run (layers e docs) None [] a s.
Proof. apply run_closed, layers_closed. Qed.

(** The server returns, with a status of its list, has every connection
    back, and keeps the invariants unless the request writes attributes. *)
Lemma serve_spec m a s :
  exists r s',
    serve e docs m a s = (Ok r, s') /\
    served_rel (negb (writes_attributes_at e a)) s s' /\ server_status r.
Proof.
  rewrite serve_layers.
  apply (run_spec _ (.∈ server_statuses) from_parser); [apply layers_spec| | |done].
  - by apply (bool_decide_unpack _).
  - apply (parser_statuses (.∈ server_statuses)); by apply (bool_decide_unpack _).
Qed.

(** A preflight is answered by the CORS layer; nothing is counted and
    nothing is touched. *)
Lemma serve_preflight m a s :
  a_verb a = OPTIONS ->
  serve e docs m a s = (Ok (Reply 204 (response_headers e a) Empty), s).
Proof.
  intros Hv. rewrite serve_layers. unfold layers, helmet, cors.
  erewrite run_pass; [|done]. by erewrite run_answer; [|by rewrite Hv].
Qed.

(** Any other request is counted for its client, refused past the ceiling
    and let through below it. *)
Lemma serve_counted m a s :
  a_verb a <> OPTIONS ->
  let c := hit (windowMs (limiter_options e)) (a_at a) (hits s !! client_ip a) in
  exists r s',
    serve e docs m a s = (Ok r, s') /\
    hits s' = <[client_ip a := c]> (hits s) /\
    (let_through r = true <-> (totalHits c <= max_hits (limiter_options e))%Z).
Proof.
  intros Hv c. rewrite serve_layers.
  unfold layers, helmet, cors, limiter, increment. erewrite run_pass; [|done].
  erewrite run_pass; [|simpl; by destruct (a_verb a)].
  destruct (decide (max_hits (limiter_options e) < totalHits c)%Z) as [Hc|Hc].
  - erewrite run_answer; [|simpl; by rewrite bool_decide_true].
    eexists _, _. split; [done|]. split; [done|]. split; [|lia].
    unfold let_through, with_headers. cbn [code]. by rewrite Z.eqb_refl.
  - erewrite run_pass; [|simpl; by rewrite bool_decide_false].
    edestruct (run_spec (steady false) (.∈ api_statuses) from_parser (inner e docs) a)
      as (r & s' & -> & [Hh _] & Hr); [| | |done|].
    + eapply Forall_impl; [apply inner_spec|]. intros l.
      apply layer_spec_mono; [|done]. intros s1 s2 (? & ? & _). by repeat split.
    + by apply (bool_decide_unpack _).
    + apply (parser_statuses (.∈ api_statuses)); by apply (bool_decide_unpack _).
    + exists r, s'. split; [done|]. split; [by rewrite Hh|].
      split; [lia|]. intros _. unfold let_through. apply negb_true_iff, Z.eqb_neq.
      intros E. rewrite E in Hr. revert Hr. by apply (bool_decide_unpack (_ ∉ _)).
Qed.

(** What one request does to the counter of a client. *)
Lemma serve_client m a s r s1 k :
  serve e docs m a s = (Ok r, s1) ->
  if counted k a then
    let c := hit (windowMs (limiter_options e)) (a_at a) (hits s !! k) in
    hits s1 !! k = Some c /\
    (let_through r = true <-> (totalHits c <= max_hits (limiter_options e))%Z)
  else hits s1 !! k = hits s !! k.
Proof.
  intros E. unfold counted. destruct (decide (a_verb a = OPTIONS)) as [Hv|Hv].
  - rewrite serve_preflight in E by done. injection E as <- <-.
    rewrite bool_decide_false; [done|tauto].
  - destruct (serve_counted m a s Hv) as (r' & s' & E' & Hh & Hr).
    rewrite E in E'. injection E' as <- <-. rewrite Hh.
    case_bool_decide as Hk.
    + destruct Hk as [<- _]. by rewrite lookup_insert_eq.
    + rewrite lookup_insert_ne; [done|]. intros Hk'. by apply Hk.
Qed.

Lemma serve_all_cons m a rest s rs s' :
  serve_all e docs m (a :: rest) s = (Ok rs, s') ->
  exists r s1 rs',
    serve e docs m a s = (Ok r, s1) /\ serve_all e docs m rest s1 = (Ok rs', s') /\
    rs = r :: rs'.
Proof.
  simpl. unfold bind, ret. destruct (serve e docs m a s) as [[r|err] s1]; [|done].
  destruct (serve_all e docs m rest s1) as [[rs'|err] s2] eqn:E2; [|done].
  intros [= <- <-]. by exists r, s1, rs'.
Qed.

(** A sequence of requests is served to its end. *)
Lemma serve_all_total m arrivals s :
  exists rs s', serve_all e docs m arrivals s = (Ok rs, s') /\ length rs = length arrivals.
Proof.
  revert s. induction arrivals as [|a rest IH]; intros s; [by exists [], s|].
  destruct (serve_spec m a s) as (r & s1 & E & _).
  destruct (IH s1) as (rs & s' & E' & Hlen).
  exists (r :: rs), s'. simpl. unfold bind. rewrite E, E'. by rewrite <- Hlen.
Qed.

Lemma admitted_cons k a r served :
  admitted k ((a, r) :: served) =
  if counted k a && let_through r then (a, r) :: admitted k served else admitted k served.
Proof.
  unfold admitted. rewrite filter_cons. simpl.
  destruct (counted k a && let_through r); by case_decide.
Qed.

(** A hit in an open window counts in it. *)
Lemma hit_open w now c :
  (now < resetTime c)%Z -> hit w now (Some c) = Client (totalHits c + 1) (resetTime c).
Proof. intros Hc. unfold hit. rewrite bool_decide_false; [done|lia]. Qed.

(** While the window of a client is open, the requests let through are
    at most what the ceiling leaves. *)
Lemma admitted_open m k arrivals s rs s' c :
  hits s !! k = Some c ->
  Forall (fun a => counted k a = true -> (a_at a < resetTime c)%Z) arrivals ->
  serve_all e docs m arrivals s = (Ok rs, s') ->
  (Z.of_nat (length (admitted k (zip arrivals rs))) <=
   Z.max 0 (max_hits (limiter_options e) - totalHits c))%Z.
Proof.
  revert s rs c. induction arrivals as [|a rest IH]; intros s rs c Hk Hall E.
  - simpl. lia.
  - apply serve_all_cons in E as (r & s1 & rs' & E1 & E2 & ->).
    apply Forall_cons in Hall as [Ha Hall].
    pose proof (serve_client m a s r s1 k E1) as Hc. simpl zip. rewrite admitted_cons.
    destruct (counted k a); simpl "&&".
    + rewrite Hk, hit_open in Hc by auto. destruct Hc as [Hk1 Hr].
      specialize (IH s1 rs' _ Hk1 Hall E2). cbn [totalHits] in IH, Hr.
      destruct (let_through r); simpl length; [|lia].
      assert (totalHits c + 1 <= max_hits (limiter_options e))%Z by (by apply Hr). lia.
    + rewrite Hk in Hc. by apply (IH s1 rs' c).
Qed.

(** From the first request of a client on, for the length of a window. *)
Lemma admitted_fresh m k t arrivals s rs s' :
  hits s !! k = None ->
  Forall (fun a => counted k a = true ->
                   (t <= a_at a < t + windowMs (limiter_options e))%Z) arrivals ->
  serve_all e docs m arrivals s = (Ok rs, s') ->
  (Z.of_nat (length (admitted k (zip arrivals rs))) <=
   Z.max 0 (max_hits (limiter_options e)))%Z.
Proof.
  revert s rs. induction arrivals as [|a rest IH]; intros s rs Hk Hall E; [simpl; lia|].
  apply serve_all_cons in E as (r & s1 & rs' & E1 & E2 & ->).
  apply Forall_cons in Hall as [Ha Hall].
  pose proof (serve_client m a s r s1 k E1) as Hc. simpl zip. rewrite admitted_cons.
  destruct (counted k a); simpl "&&"; [|rewrite Hk in Hc; by apply (IH s1 rs')].
  rewrite Hk in Hc. destruct Hc as [Hk1 Hr].
  eapply admitted_open in E2; [|exact Hk1|].
  - cbn [hit totalHits] in E2, Hr. destruct (let_through r); simpl length; [|lia].
    assert (0 + 1 <= max_hits (limiter_options e))%Z by (by apply Hr). lia.
  - eapply Forall_impl; [exact Hall|]. intros a' Ha' Hc'. cbn [hit resetTime].
    specialize (Ha eq_refl). specialize (Ha' Hc'). lia.
Qed.

(** Requests that name clients the limiter has not seen, each a
    different one, are all let through. *)
Lemma unseen_let_through m arrivals s :
  (1 <= max_hits (limiter_options e))%Z ->
  NoDup (client_ip <$> arrivals) ->
  Forall (fun a => a_verb a <> OPTIONS /\ hits s !! client_ip a = None) arrivals ->
  exists rs s',
    serve_all e docs m arrivals s = (Ok rs, s') /\
    Forall (fun r => let_through r = true) rs /\ length rs = length arrivals.
Proof.
  intros Hmax. revert s. induction arrivals as [|a rest IH]; intros s Hnd Hall.
  { by exists [], s. }
  apply NoDup_cons in Hnd as [Ha Hnd]. apply Forall_cons in Hall as [[Hv Hk] Hall].
  destruct (serve_counted m a s Hv) as (r & s1 & E & Hh & Hr).
  destruct (IH s1 Hnd) as (rs & s' & E' & Hrs & Hlen).
  - rewrite Forall_forall in Hall |- *. intros a' Ha'.
    destruct (Hall a' Ha') as [Hv' Hk']. split; [done|].
    rewrite Hh, lookup_insert_ne; [done|]. intros Heq. apply Ha. rewrite Heq.
    by apply list_elem_of_fmap_2.
  - exists (r :: rs), s'. simpl. unfold bind. rewrite E, E'.
    split; [done|]. split; [|by rewrite Hlen].
    apply Forall_cons. split; [|done]. apply Hr. rewrite Hk. cbn [hit totalHits]. lia.
Qed.

End served_all.

Section api_paths.
Context `{Jwt} `{Joi.Syntax} `{Process} `{Helmet} (e : process_env) (docs : documents).

(** Behind the rate limiter, a request to a path that is not reserved is
    answered as the application answers it below the prefix. *)
Lemma inner_app a s hs rest r d :
  a_verb a <> OPTIONS -> reserved (a_path a) = false ->
  strip_prefix (segments (API_PREFIX e)) (a_path a) = Some rest ->
  app (api_env e) (API_PREFIX e) (seconds a) (request_of a rest) (store s) = (Ok r, d) ->
  run (inner e docs) None hs a s =
  (Ok (with_headers hs (json_reply r)), Server d (hits s)).
Proof.
  intros Hv Hres Hrest. unfold app, inner, body_parser, request_log. cbn [h_body request_of].
  destruct (a_body a) as [b|f message stack] eqn:Hb.
  - erewrite run_pass; [|cbv beta; by rewrite Hb].
    erewrite run_pass; [|done]. rewrite !app_nil_r.
    rewrite run_static_miss by (apply reserved_miss; [done|set_solver]).
    rewrite run_get_miss
      by (apply andb_false_intro2, reserved_miss; [done|set_solver]).
    rewrite run_static_miss by (apply reserved_miss; [done|set_solver]).
    rewrite !run_get_miss
      by (apply andb_false_intro2, reserved_miss; [done|set_solver]).
    unfold api at 1.
    destruct (mounted _ _ _) as [handler|] eqn:Hm; cbn [from_option id].
    + intros E. erewrite run_answer; [done|]. cbv beta.
      destruct (a_verb a); [done|]. rewrite Hrest, Hm. unfold bind, on_store.
      by rewrite E.
    + intros [= <- <-]. erewrite run_pass;
        [|cbv beta; destruct (a_verb a); [done|]; by rewrite Hrest, Hm].
      rewrite run_get_miss
        by (apply andb_false_intro2, bool_decide_eq_false; by destruct (a_path a)).
      unfold catch_all. erewrite run_answer; [|done]. rewrite app_nil_r. by destruct s.
  - intros [= <- <-]. erewrite run_raise; [|cbv beta; by rewrite Hb]. by destruct s.
Qed.

End api_paths.

(** ** Theorems *)

Section theorems.
Context `{Jwt} `{Joi.Syntax} `{Process} `{Helmet}.

(** C14. The redirect to HTTPS is never reached.  [startServers] adds the
    layer that redirects plain requests after the layer that answers 404
    to everything and after the error handler: whatever the environment
    and the certificate files are, every request is answered as if the
    redirect had not been asked for. *)
Theorem redirect_never_reached e docs m a s :
  serve e docs m a s = run (layers e docs) None [] a s.
Proof. apply serve_layers. Qed.


(** C2. The invariants of both repositories hold through the whole server:
    a request that is not one of the two that write attributes leaves
    committed tables in which every name has at most one password row, at
    most one profile row and no profile row without a password row, and in
    which NAS ids, names and addresses are distinct, whatever layer
    answers it. *)
Theorem server_keeps_invariants e docs m a s r s' :
  writes_attributes_at e a = false -> server_wf s ->
  serve e docs m a s = (r, s') -> server_wf s'.
Proof.
  intros Hw Hwf E. destruct (serve_spec e docs m a s) as (r' & s1 & E' & [_ Hk] & _).
  rewrite E in E'. injection E' as -> ->. apply Hk; [by rewrite Hw|done].
Qed.

(** C3. The ceiling of the rate limiter holds.  From the first request of a
    client on and for the length of a window, among any sequence of
    requests of any clients, the requests of that client that are let
    through (answered anything but 429) are at most [max]; the client is
    the address Express reports as [req.ip]. *)
Theorem limiter_bound e docs m k t arrivals s rs s' :
  hits s !! k = None ->
  Forall (fun a => counted k a = true ->
                   (t <= a_at a < t + windowMs (limiter_options e))%Z) arrivals ->
  serve_all e docs m arrivals s = (Ok rs, s') ->
  (Z.of_nat (length (admitted k (zip arrivals rs))) <=
   Z.max 0 (max_hits (limiter_options e)))%Z.
Proof. apply admitted_fresh. Qed.

(** Past the ceiling the request is refused before anything else looks at
    it: the answer is 429 with the message of the limiter, the store is
    not touched, and the refused request counts as a hit. *)
Theorem limiter_refuses e docs m a s c :
  a_verb a <> OPTIONS -> hits s !! client_ip a = Some c ->
  (a_at a < resetTime c)%Z -> (max_hits (limiter_options e) <= totalHits c)%Z ->
  serve e docs m a s =
  (Ok (Reply 429 (response_headers e a) (Json (message (limiter_options e)))),
   Server (store s)
     (<[client_ip a := Client (totalHits c + 1) (resetTime c)]> (hits s))).
Proof.
  intros Hv Hk Ht Hc. rewrite serve_layers.
  unfold layers, helmet, cors, limiter, increment. erewrite run_pass; [|done].
  erewrite run_pass; [|simpl; by destruct (a_verb a)].
  erewrite run_answer;
    [|cbv beta; rewrite Hk, hit_open by done;
      rewrite bool_decide_true by (cbn [totalHits]; lia); done].
  unfold with_headers. cbn [code headers sent]. by rewrite !app_nil_r.
Qed.

(** When the window of a client has closed, its next request opens a new
    one and is let through. *)
Theorem limiter_reopens e docs m a s c :
  (1 <= max_hits (limiter_options e))%Z -> a_verb a <> OPTIONS ->
  hits s !! client_ip a = Some c -> (resetTime c <= a_at a)%Z ->
  exists r s',
    serve e docs m a s = (Ok r, s') /\ let_through r = true /\
    hits s' !! client_ip a = Some (Client 1 (a_at a + windowMs (limiter_options e))).
Proof.
  intros Hmax Hv Hk Ht. destruct (serve_counted e docs m a s Hv) as (r & s' & E & Hh & Hr).
  exists r, s'. rewrite Hk in Hr, Hh. unfold hit in Hr, Hh.
  rewrite bool_decide_true in Hr, Hh by done. cbn [totalHits resetTime] in Hr, Hh.
  split; [done|]. split; [by apply Hr|]. by rewrite Hh, lookup_insert_eq.
Qed.

(** C1. The server implements the application.  A request to a path below
    the prefix, other than a preflight and not past the ceiling of its
    client, is answered as [app] answers the rest of the path on the pool:
    the same status and body, with the headers of the CORS layer, the same
    store afterwards, and one more hit counted for the client. *)
Theorem server_implements_app e docs m a s rest r d :
  a_verb a <> OPTIONS -> reserved (a_path a) = false ->
  strip_prefix (segments (API_PREFIX e)) (a_path a) = Some rest ->
  let c := hit (windowMs (limiter_options e)) (a_at a) (hits s !! client_ip a) in
  (totalHits c <= max_hits (limiter_options e))%Z ->
  app (api_env e) (API_PREFIX e) (seconds a) (request_of a rest) (store s) = (Ok r, d) ->
  serve e docs m a s =
  (Ok (Reply (status r) (response_headers e a) (Json (body r))),
   Server d (<[client_ip a := c]> (hits s))).
Proof.
  intros Hv Hres Hrest c Hc E. rewrite serve_layers.
  unfold layers, helmet, cors, limiter, increment. erewrite run_pass; [|done].
  erewrite run_pass; [|simpl; by destruct (a_verb a)].
  erewrite run_pass; [|cbv beta; rewrite bool_decide_false by (fold c; lia); done].
  erewrite (inner_app e docs a _ _ rest r d); [|done..].
  unfold with_headers. cbn [code headers sent json_reply]. by rewrite !app_nil_r.
Qed.

(** C33. The limiter counts by the address a request claims.  Under
    [trust proxy] set to 1 the client of a request is the last address of
    its [X-Forwarded-For] header, so requests that each carry a header
    with an address not used before are all let through, in any number
    and whatever socket they come from: when no proxy in front of the
    server rewrites the header, one machine is as many clients as it
    likes. *)
Theorem limiter_forged_addresses e docs m arrivals s :
  (1 <= max_hits (limiter_options e))%Z ->
  NoDup (a_forwarded_for <$> arrivals) ->
  Forall (fun a => a_verb a <> OPTIONS /\
                   exists x, a_forwarded_for a = Some x /\ word x = true /\
                             hits s !! x = None) arrivals ->
  exists rs s',
    serve_all e docs m arrivals s = (Ok rs, s') /\
    Forall (fun r => let_through r = true) rs /\ length rs = length arrivals.
Proof.
  intros Hmax Hnd Hall. apply unseen_let_through; [done| |].
  - assert (a_forwarded_for <$> arrivals = Some <$> (client_ip <$> arrivals)) as Hf.
    { rewrite <- list_fmap_compose. apply Forall_fmap_ext.
      eapply Forall_impl; [exact Hall|]. intros a (_ & x & Hx & Hw & _). simpl.
      by rewrite (client_ip_forwarded a x). }
    rewrite Hf in Hnd. by apply (NoDup_fmap_1 Some).
  - eapply Forall_impl; [exact Hall|]. intros a (Hv & x & Hx & Hw & Hk).
    by rewrite (client_ip_forwarded a x).
Qed.


(** A preflight is answered by the CORS layer alone: 204 with the headers
    of the options, whatever the path; it is not counted by the limiter
    and reaches no router. *)
Theorem preflight_answered e docs m a s :
  a_verb a = OPTIONS ->
  serve e docs m a s = (Ok (Reply 204 (response_headers e a) Empty), s).
Proof. apply serve_preflight. Qed.

(** Every state the server reaches from its start, in any number of
    requests other than the two that write attributes, satisfies the
    invariants of both repositories and has every connection in the
    pool. *)
Theorem server_reachable_invariants e docs m s0 s :
  started s0 -> rtc (server_step e docs m) s0 s ->
  server_wf s /\ in_use (store s) = 0%nat.
Proof.
  intros (Hts & Hn & _). revert s. apply rtc_ind_r.
  - split; [|done]. unfold server_wf. rewrite Hts.
    split; [exact UserModel.identity_empty | exact NasModel.nas_wf_empty].
  - intros s1 s2 _ [a s1' r s2' Hreq Hrun] [Hwf Hu0].
    destruct (serve_spec e docs m a s1') as (r' & s' & E' & [Hu Hk] & _).
    rewrite Hrun in E'. injection E' as -> ->.
    split; [apply Hk; [by rewrite Hreq|done] | congruence].
Qed.

End theorems.

(** ** Examples: the theorems at concrete requests *)

Lemma health_over_tls_example :
  (serve tls_process no_documents tls_machine
     (health_from 0 None) fresh_server).1 =
  Ok (Reply 200 [("Cross-Origin-Resource-Policy", "cross-origin");
                 ("Strict-Transport-Security", "max-age=15552000; includeSubDomains");
                 ("Vary", "Origin"); ("Access-Control-Allow-Credentials", "true")]
        (Json (JObj [("success", JBool true);
                     ("message", JStr "FreeRADIUS API is running");
                     ("timestamp", JStr "1970-01-01T00:00:00.000Z");
                     ("uptime", JNum 0)]))).
Proof. by vm_compute. Qed.

Lemma server_keeps_invariants_witness :
  server_wf (serve unset_process no_documents
               no_machine create_router fresh_server).2.
Proof.
  refine (server_keeps_invariants
            unset_process no_documents no_machine create_router fresh_server _ _ _ _ _).
  - reflexivity.
  - split; [exact UserModel.identity_empty | exact NasModel.nas_wf_empty].
  - apply surjective_pairing.
Defined.

Lemma server_reachable_invariants_witness :
  server_wf (serve unset_process no_documents
               no_machine create_router fresh_server).2.
Proof.
  refine (proj1 (server_reachable_invariants
                   unset_process no_documents no_machine fresh_server _ _ _)).
  - by repeat split.
  - eapply rtc_l; [|apply rtc_refl].
    eapply (step_serve _ _ _ create_router fresh_server); [reflexivity|].
    apply surjective_pairing.
Defined.

Lemma limiter_bound_witness :
  exists rs s',
    serve_all two_a_window no_documents
      no_machine three_in_a_window fresh_server = (Ok rs, s') /\
    code <$> rs = [200; 200; 429]%Z /\
    (Z.of_nat (length (admitted "192.0.2.7" (zip three_in_a_window rs))) <= 2)%Z.
Proof.
  eexists _, _. split; [by vm_compute|]. split; [by vm_compute|].
  refine (limiter_bound two_a_window
            no_documents no_machine "192.0.2.7" 0 three_in_a_window fresh_server _ _ _ _ _).
  - reflexivity.
  - repeat apply Forall_cons_2; [..|by apply Forall_nil]; intros _; by vm_compute.
  - by vm_compute.
Defined.

Lemma limiter_refuses_witness :
  (serve two_a_window no_documents no_machine
     (health_from 20 None) used_up).1 =
  Ok (Reply 429 [("Cross-Origin-Resource-Policy", "cross-origin"); ("Vary", "Origin");
                 ("Access-Control-Allow-Credentials", "true")]
        (Json (JObj [("success", JBool false);
                     ("message",
                      JStr "Too many requests from this IP, please try again later.");
                     ("retry_after", JNum 900)]))).
Proof.
  rewrite (limiter_refuses two_a_window
             no_documents no_machine (health_from 20 None) used_up (Client 2 1000));
    [reflexivity | discriminate | reflexivity | reflexivity | by vm_compute].
Defined.

Lemma limiter_reopens_witness :
  exists r s',
    serve two_a_window no_documents no_machine
      (health_from 1000 None) used_up = (Ok r, s') /\
    let_through r = true /\
    hits s' !! "192.0.2.7" = Some (Client 1 901000).
Proof.
  refine (limiter_reopens two_a_window
            no_documents no_machine (health_from 1000 None) used_up (Client 2 1000)
            _ _ _ _).
  - by vm_compute.
  - discriminate.
  - reflexivity.
  - reflexivity.
Defined.

Lemma limiter_forged_addresses_witness :
  exists rs s',
    serve_all two_a_window no_documents
      no_machine three_forged fresh_server = (Ok rs, s') /\
    Forall (fun r => let_through r = true) rs /\ length rs = 3%nat.
Proof.
  refine (limiter_forged_addresses
            two_a_window no_documents no_machine three_forged fresh_server _ _ _).
  - by vm_compute.
  - by apply (bool_decide_unpack _).
  - repeat constructor; try discriminate; eexists; by repeat split.
Defined.

Lemma server_implements_app_witness :
  (serve unset_process no_documents no_machine
     create_router fresh_server).1 =
  Ok (Reply 201 [("Cross-Origin-Resource-Policy", "cross-origin"); ("Vary", "Origin");
                 ("Access-Control-Allow-Credentials", "true")]
        (Json (body (success 201 "NAS created successfully"
                       (Some (NasController.nas_json NasModel.router1)))))).
Proof.
  erewrite (server_implements_app
              unset_process no_documents no_machine create_router fresh_server ["nas"]);
    [ | discriminate | reflexivity | reflexivity | by vm_compute | by vm_compute].
  reflexivity.
Defined.

Lemma preflight_answered_witness :
  serve unset_process no_documents no_machine
    (arriving 0 "192.0.2.7" None OPTIONS "/api/v1/nas" ["api"; "v1"; "nas"] anonymous
       (JObj [])) fresh_server =
  (Ok (Reply 204
         [("Cross-Origin-Resource-Policy", "cross-origin"); ("Vary", "Origin");
          ("Access-Control-Allow-Credentials", "true");
          ("Access-Control-Allow-Methods", "GET,POST,PUT,DELETE,OPTIONS");
          ("Access-Control-Allow-Headers", "Content-Type,Authorization,X-API-Key")]
         Empty), fresh_server).
Proof.
  by rewrite (preflight_answered).
Defined.
