(* ===== verification/Interleave.v ===== *)
(** * Requests in turns: the handlers as tasks that yield at every await

    Node runs one handler at a time, and a handler gives way to the others
    at every [await].  The other files take a request from its arrival to
    its answer in one piece; here a handler is a [task]: it is done, or it
    awaits one round trip to the store and goes on with what comes back.
    One round trip is one [db.query] or one [db.transaction]: the store
    runs it in isolation, so it is one step.  [alone] runs a task to its
    end without giving way; [interleave] runs several, each step the next
    step of the task the schedule names.

    Modules [UserTask] and [NasTask] are the handlers of
    [controllers/userController.js] and [controllers/nasController.js]
    written as tasks, await by await; [NasTask.model_update] is
    [NasModel.update], the one method of the models that awaits twice.

    A transaction is one step: the statements of its callback are taken
    to run isolated from every other request, which is the most the
    store can give; the schedules below go wrong all the same.

    The theorems: a task run alone is the handler of the other files
    ([tasks_are_handlers]); a schedule that gives each request its turns
    in one piece is the requests handled one after the other
    ([serial_is_sequential]), so everything proved of sequences of
    requests holds for it ([serial_keeps_identity]); under every schedule
    that gives each request four turns every request is answered and the
    pool has its connections back ([requests_answered]); and the schedules
    in which the check of one request and its write are separated by the
    write of another break the invariants the checks are there to keep
    ([user_create_race], [nas_create_race], [user_update_delete_race]). *)

From stdpp Require Import base option strings numbers list.
From S2P Require Import Prelude Store Http UserRepo UserApi NasRepo NasApi.

(** ** Tasks *)

Inductive task (A : Type) : Type :=
| Done (r : result A)
| Await {B : Type} (call : M db B) (k : result B -> task A).

Arguments Done {A} r.
Arguments Await {A B} call k.

(** [return a] *)
Definition finish {A} (a : A) : task A := Done (Ok a).

(** [await call] *)
Definition await {B} (call : M db B) : task B := Await call Done.

(** What follows an [await] inside an asynchronous function. *)
Fixpoint tbind {A B} (t : task A) (f : A -> task B) : task B :=
  match t with
  | Done (Ok a) => f a
  | Done (Throw e) => Done (Throw e)
  | Await call k => Await call (fun r => tbind (k r) f)
  end.

(** [try { t } catch (e) { h e }] *)
Fixpoint tcatch {A} (t : task A) (h : error -> task A) : task A :=
  match t with
  | Done (Ok a) => Done (Ok a)
  | Done (Throw e) => h e
  | Await call k => Await call (fun r => tcatch (k r) h)
  end.

Declare Scope task_scope.
Delimit Scope task_scope with task.

Notation "x <- c ;; k" := (tbind c (fun x => k))
  (at level 100, c at next level, right associativity) : task_scope.

(** The [try]/[catch] of every handler. *)
Definition handled_task (cfg : env) (t : task response) : task response :=
  tcatch t (fun e => finish (internal_error cfg e)).


(** One step of a task: the round trip it awaits. *)
Definition advance {A} (t : task A) (d : db) : task A * db :=
  match t with
  | Done r => (Done r, d)
  | Await call k => let (r, d') := call d in (k r, d')
  end.

(** The tasks in flight, run as the schedule says: each entry names the
    task that takes the next step; a task that is done stays as it is. *)
Fixpoint interleave {A} (schedule : list nat) (ts : list (task A)) (d : db)
    : list (task A) * db :=
  match schedule with
  | [] => (ts, d)
  | i :: rest =>
      match ts !! i with
      | Some t => let (t', d') := advance t d in interleave rest (<[i := t']> ts) d'
      | None => interleave rest ts d
      end
  end.



(** A task that is done after [n] steps at most. *)
Fixpoint within {A} (t : task A) (n : nat) {struct t} : Prop :=
  match t with
  | Done _ => True
  | Await _ k =>
      match n with
      | O => False
      | S n' => forall r, within (k r) n'
      end
  end.

(** A task that ends with an answer in [Q], never with an exception. *)
Fixpoint ends {A} (Q : A -> Prop) (t : task A) : Prop :=
  match t with
  | Done (Ok a) => Q a
  | Done (Throw _) => False
  | Await _ k => forall r, ends Q (k r)
  end.

(** A task whose every round trip gives back the connections it takes. *)
Fixpoint releases {A} (t : task A) : Prop :=
  match t with
  | Done _ => True
  | Await call k => balanced call /\ forall r, releases (k r)
  end.


(** ** The handlers of the user resource *)

Module UserTask.

Import UserController.

#[local] Open Scope task_scope.

Definition getAll (cfg : env) (search : option string) : task response :=
  handled_task cfg (
    users <- await (if_truthy search UserModel.search UserModel.getAll);;
    finish (users_json users)).

Definition getByUsername (cfg : env) (username : string) : task response :=
  handled_task cfg (
    user <- await (UserModel.getByUsername username);;
    match user with
    | None => finish (failure 404 "User not found")
    | Some u => finish (success 200 "User retrieved successfully" (Some (user_json u)))
    end).

Definition create (cfg : env) (body : UserModel.userData) : task response :=
  handled_task cfg (
    exists_ <- await (UserModel.exists_ (UserModel.ud_user body));;
    if exists_ : bool then finish (failure 409 "User already exists")
    else
      newUser <- await (UserModel.create body);;
      finish (success 201 "User created successfully" (Some (user_json newUser)))).

Definition update (cfg : env) (username : string) (updateData : UserModel.updateData)
    : task response :=
  handled_task cfg (
    existingUser <- await (UserModel.getByUsername username);;
    match existingUser with
    | None => finish (failure 404 "User not found")
    | Some _ =>
        updatedUser <- await (UserModel.update username updateData);;
        match updatedUser with
        | None => finish (failure 404 "User not found or no changes made")
        | Some u => finish (success 200 "User updated successfully" (Some (user_json u)))
        end
    end).

Definition delete (cfg : env) (username : string) : task response :=
  handled_task cfg (
    existingUser <- await (UserModel.getByUsername username);;
    match existingUser with
    | None => finish (failure 404 "User not found")
    | Some _ =>
        deleted <- await (UserModel.delete username);;
        if deleted : bool then finish (success 200 "User deleted successfully" None)
        else finish (failure 404 "User not found or already deleted")
    end).

Definition getStats (cfg : env) : task response :=
  handled_task cfg (
    count <- await UserModel.getCount;;
    finish (success 200 "User statistics retrieved successfully"
              (Some (JObj [("total_users", JNum (Z.of_nat count))])))).

Definition getUserAttributes (cfg : env) (username : string) : task response :=
  handled_task cfg (
    user <- await (UserModel.getByUsername username);;
    match user with
    | None => finish (failure 404 "User not found")
    | Some _ =>
        attributes <- await (UserModel.getUserAttributes username);;
        finish (success 200 "User attributes retrieved successfully"
                  (Some (JObj [("username", JStr username);
                               ("attributes", JArr (attribute_json <$> attributes))])))
    end).

Definition getUserReplyAttributes (cfg : env) (username : string) : task response :=
  handled_task cfg (
    user <- await (UserModel.getByUsername username);;
    match user with
    | None => finish (failure 404 "User not found")
    | Some _ =>
        replyAttributes <- await (UserModel.getUserReplyAttributes username);;
        finish (success 200 "User reply attributes retrieved successfully"
                  (Some (JObj [("username", JStr username);
                               ("reply_attributes",
                                JArr (attribute_json <$> replyAttributes))])))
    end).

Definition addAttribute (cfg : env) (username : string) (body : attributeBody)
    : task response :=
  handled_task cfg (
    let table := default "radcheck" (ab_table body) in
    user <- await (UserModel.getByUsername username);;
    match user with
    | None => finish (failure 404 "User not found")
    | Some _ =>
        if negb (valid_table table) then finish (failure 400 table_message)
        else
          attributeId <- await (UserModel.addAttribute username (ab_attribute body)
                                  (ab_op body) (ab_value body) (Some table));;
          finish (success 201 "Attribute added successfully"
                    (Some (added_json attributeId username body table)))
    end).

Definition removeAttribute (cfg : env) (username : string) (body : attributeBody)
    : task response :=
  handled_task cfg (
    let table := default "radcheck" (ab_table body) in
    user <- await (UserModel.getByUsername username);;
    match user with
    | None => finish (failure 404 "User not found")
    | Some _ =>
        if negb (valid_table table) then finish (failure 400 table_message)
        else
          removed <- await (UserModel.removeAttribute username (ab_attribute body)
                              (Some table));;
          if removed : bool then finish (success 200 "Attribute removed successfully" None)
          else finish (failure 404 "Attribute not found")
    end).

(** The task of a request of [routes/userRoutes.js]. *)
Definition handle (cfg : env) (req : request) : task response :=
  match req with
  | GetAll search => getAll cfg search
  | GetStats => getStats cfg
  | GetByUsername username => getByUsername cfg username
  | GetUserAttributes username => getUserAttributes cfg username
  | GetUserReplyAttributes username => getUserReplyAttributes cfg username
  | Create body => create cfg body
  | AddAttribute username body => addAttribute cfg username body
  | Update username updateData => update cfg username updateData
  | Delete username => delete cfg username
  | RemoveAttribute username body => removeAttribute cfg username body
  end.

End UserTask.

(** ** The handlers of the NAS resource *)

Module NasTask.

Import NasModel NasController.

(** The first round trip of [NasModel.update]: the UPDATE statement. *)
Definition update_statement (id : Z) (nasData : nasData) : M db nat :=
  (name <- bound (nd_name nasData);;
   ip <- bound (nd_ip nasData);;
   secret <- bound (nd_secret nasData);;
   type <- bound (nd_type nasData);;
   ports <- bound (nd_ports nasData);;
   community <- bound (nd_community nasData);;
   description <- bound (nd_description nasData);;
   query (update_nas (has_id id)
            (rewritten name ip secret type ports community description)))%M.

#[local] Open Scope task_scope.

(** [NasModel.update]: the UPDATE, and then [getById] in a round trip of
    its own. *)
Definition model_update (id : Z) (nasData : nasData) : task (option nas_row) :=
  affectedRows <- await (update_statement id nasData);;
  if bool_decide (affectedRows = 0%nat) then finish None
  else await (NasModel.getById id).

Definition getAll (cfg : env) (search : option string) : task response :=
  handled_task cfg (
    nasEntries <- await (if_truthy search NasModel.search NasModel.getAll);;
    finish (entries_json nasEntries)).

Definition getById (cfg : env) (id : Z) : task response :=
  handled_task cfg (
    nas <- await (NasModel.getById id);;
    match nas with
    | None => finish (failure 404 "NAS not found")
    | Some nas => finish (success 200 "NAS retrieved successfully" (Some (nas_json nas)))
    end).

Definition create (cfg : env) (body : nasData) : task response :=
  handled_task cfg (
    exists_ <- await (NasModel.exists_ (nd_name body) (nd_ip body) None);;
    if exists_ : bool then finish (failure 409 "NAS with this name or IP already exists")
    else
      newNas <- await (NasModel.create body);;
      finish (success 201 "NAS created successfully" (Some (nas_json newNas)))).

Definition update (cfg : env) (id : Z) (updateData : nasData) : task response :=
  handled_task cfg (
    existingNas <- await (NasModel.getById id);;
    match existingNas with
    | None => finish (failure 404 "NAS not found")
    | Some existingNas =>
        exists_ <- await (conflict id updateData existingNas);;
        if exists_ : bool
        then finish (failure 409 "NAS with this name or IP already exists")
        else
          updatedNas <- model_update id updateData;;
          match updatedNas with
          | None => finish (failure 404 "NAS not found or no changes made")
          | Some nas => finish (success 200 "NAS updated successfully" (Some (nas_json nas)))
          end
    end).

Definition delete (cfg : env) (id : Z) : task response :=
  handled_task cfg (
    existingNas <- await (NasModel.getById id);;
    match existingNas with
    | None => finish (failure 404 "NAS not found")
    | Some _ =>
        deleted <- await (NasModel.delete id);;
        if deleted : bool then finish (success 200 "NAS deleted successfully" None)
        else finish (failure 404 "NAS not found or already deleted")
    end).

Definition getStats (cfg : env) : task response :=
  handled_task cfg (
    count <- await NasModel.getCount;;
    finish (success 200 "NAS statistics retrieved successfully"
              (Some (JObj [("total_nas", JNum (Z.of_nat count))])))).

(** The task of a request of [routes/nasRoutes.js]. *)
Definition handle (cfg : env) (req : request) : task response :=
  match req with
  | GetAll search => getAll cfg search
  | GetStats => getStats cfg
  | GetById id => getById cfg id
  | Create body => create cfg body
  | Update id updateData => update cfg id updateData
  | Delete id => delete cfg id
  end.

End NasTask.

(** ** The requests in flight *)

(** A request that reached a handler of either resource. *)
Inductive in_flight : Type :=
| OfUser (req : UserController.request)
| OfNas (req : NasController.request).

Definition task_of (cfg : env) (req : in_flight) : task response :=
  match req with
  | OfUser req => UserTask.handle cfg req
  | OfNas req => NasTask.handle cfg req
  end.


(** The turns a schedule gives to a task. *)
Definition turns (i : nat) (schedule : list nat) : nat :=
  length (filter (fun j => j = i) schedule).

(** The most round trips a handler makes: the update of a NAS reads the
    record, checks for a conflict, writes and reads again. *)
Definition most_awaits : nat := 4.

(** The schedule of two requests that each run their check before either
    writes, and the one in which the second request runs whole between the
    check and the write of the first. *)
Definition checks_first : list nat := [0; 1; 0; 1]%nat.

Definition overtaken : list nat := [0; 1; 1; 0]%nat.

(** Two requests that take turns until each has had four. *)
Definition round_robin : list nat := [0; 1; 0; 1; 0; 1; 0; 1]%nat.

(** ** Examples *)

Definition bob : UserModel.userData := UserModel.UserData "bob123" "hunter22" None.

Definition edge : NasModel.nasData :=
  NasModel.NasData (Some "edge1") (Some "10.0.0.9") (Some "s3cr3t-key") None None None None.

Definition empty_db : db := Db empty_tables [] 0.

(** ** Lemmas: a task run alone *)

Section alone.
Context {A B : Type}.







End alone.






(** ** Lemmas: one step *)

Section steps.
Context {A : Type}.
Implicit Types (t : task A) (ts : list (task A)) (d : db) (s : list nat).

Lemma within_mono t n m : within t n -> n <= m -> within t m.
Proof.
  revert n m. induction t as [r|B call k IH]; intros n m; [done|].
  destruct n as [|n]; [done|]. destruct m as [|m]; [lia|].
  simpl. intros Hk Hm r. apply (IH r n); [done | lia].
Qed.

Lemma within_done t : within t 0 -> exists r, t = Done r.
Proof. destruct t; [eauto | done]. Qed.

Lemma advance_within t n d : within t n -> within (advance t d).1 (pred n).
Proof.
  destruct t as [r|B call k]; [done|]. destruct n as [|n]; [done|]. simpl.
  intros Hk. destruct (call d) as [r d']. apply Hk.
Qed.

Lemma advance_ends Q t d : ends Q t -> ends Q (advance t d).1.
Proof.
  destruct t as [r|B call k]; [done|]. simpl. intros Hk.
  destruct (call d) as [r d']. apply Hk.
Qed.

Lemma advance_releases t d :
  releases t -> releases (advance t d).1 /\ in_use (advance t d).2 = in_use d.
Proof.
  destruct t as [r|B call k]; [done|]. simpl. intros [Hb Hk].
  destruct (call d) as [r d'] eqn:E. split; [apply Hk | by eapply Hb].
Qed.

(** ** Lemmas: schedules *)


(** A property every step keeps is kept by every schedule. *)
Lemma interleave_Forall (P : task A -> Prop) s ts d :
  (forall t d, P t -> P (advance t d).1) ->
  Forall P ts -> Forall P (interleave s ts d).1.
Proof.
  intros Hstep. revert ts d. induction s as [|i s IH]; intros ts d Hts; [done|].
  simpl. destruct (ts !! i) as [t|] eqn:Hi; [|by apply IH].
  destruct (advance t d) as [t' d'] eqn:E. apply IH, Forall_insert; [done|].
  assert (t' = (advance t d).1) as -> by (by rewrite E).
  apply Hstep. by eapply Forall_lookup_1.
Qed.

(** Every schedule leaves in the pool the connections it found. *)
Lemma interleave_releases s ts d :
  Forall releases ts -> in_use (interleave s ts d).2 = in_use d.
Proof.
  revert ts d. induction s as [|i s IH]; intros ts d Hts; [done|].
  simpl. destruct (ts !! i) as [t|] eqn:Hi; [|by apply IH].
  destruct (advance_releases t d) as [Ht Hd]; [by eapply Forall_lookup_1|].
  destruct (advance t d) as [t' d']. rewrite IH; [done|]. by apply Forall_insert.
Qed.

(** A task is as many steps further as the schedule gave it turns. *)
Lemma interleave_within s i t n ts d :
  ts !! i = Some t -> within t n ->
  exists t', (interleave s ts d).1 !! i = Some t' /\ within t' (n - turns i s).
Proof.
  unfold turns. revert t n ts d. induction s as [|j s IH]; intros t n ts d Hi Hn.
  { exists t. by rewrite Nat.sub_0_r. }
  simpl. rewrite filter_cons. destruct (ts !! j) as [tj|] eqn:Hj.
  - destruct (advance tj d) as [t' d'] eqn:E. case_decide as Hji.
    + subst j. assert (tj = t) as -> by congruence.
      destruct (IH t' (pred n) (<[i := t']> ts) d') as (t2 & H2 & Hw).
      * apply list_lookup_insert_eq. by eapply lookup_lt_Some.
      * assert (t' = (advance t d).1) as -> by (by rewrite E). by apply advance_within.
      * exists t2. split; [done|]. simpl. eapply within_mono; [exact Hw | lia].
    + apply (IH t); [|done]. by rewrite list_lookup_insert_ne.
  - case_decide as Hji; [congruence|]. by apply (IH t).
Qed.



End steps.


(** ** Lemmas: the tasks of the handlers *)

(** Walks through a task, one await at a time. *)
Ltac task_tac :=
  unfold task_of, UserTask.handle, NasTask.handle,
    UserTask.getAll, UserTask.getStats, UserTask.getByUsername,
    UserTask.getUserAttributes, UserTask.getUserReplyAttributes, UserTask.create,
    UserTask.addAttribute, UserTask.update, UserTask.delete, UserTask.removeAttribute,
    NasTask.getAll, NasTask.getStats, NasTask.getById, NasTask.create,
    NasTask.update, NasTask.delete, NasTask.model_update, handled_task;
  repeat first
    [ progress cbn [within ends releases tcatch tbind await finish]
    | done
    | solve [eauto using NasController.conflict_balanced with radius]
    | by apply (bool_decide_unpack _)
    | intros [?|?]
    | split
    | match goal with
      | |- context [match ?x with _ => _ end] => destruct x
      end ].

Lemma update_statement_balanced id data : balanced (NasTask.update_statement id data).
Proof. unfold NasTask.update_statement. eauto 20 with radius. Qed.

Lemma task_bounded cfg req : within (task_of cfg req) most_awaits.
Proof. destruct req as [[]|[]]; task_tac. Qed.

Lemma task_ends cfg req : ends known_status (task_of cfg req).
Proof. destruct req as [[]|[]]; task_tac. Qed.

Lemma task_releases cfg req : releases (task_of cfg req).
Proof.
  pose proof update_statement_balanced. destruct req as [[]|[]]; task_tac.
Qed.

(** ** Lemmas: the two steps of a check and a write *)

(** What has answered is a list of answers. *)
Lemma finished_list {A} (Q : A -> Prop) (ts : list (task A)) :
  Forall (fun t => exists a, t = finish a /\ Q a) ts ->
  exists rs, ts = finish <$> rs /\ Forall Q rs.
Proof.
  induction 1 as [|t ts (a & -> & Ha) _ (rs & -> & Hrs)]; [by exists []|].
  exists (a :: rs). split; [done | by constructor].
Qed.

Section user_steps.
Context (cfg : env).

(** The creation of a user whose name is free: the check lets it through
    and changes nothing, and the write that follows, on whatever store it
    finds, inserts the two rows and answers 201. *)
Lemma user_create_steps body d d1 :
  healthy d -> UserModel.password_rows (UserModel.ud_user body) (committed d) = [] ->
  healthy d1 ->
  (advance (UserTask.create cfg body) d).2 = d /\
  advance (advance (UserTask.create cfg body) d).1 d1 =
  (finish (success 201 "User created successfully"
             (Some (UserController.user_json
                      (UserModel.User (next_id (radcheck (committed d1)))
                         (UserModel.ud_user body) (UserModel.ud_password body)
                         (Some (default "PPP" (UserModel.ud_profile body))))))),
   set_committed (UserModel.created body (committed d1)) d1).
Proof.
  intros Hd Hp Hd1. unfold UserTask.create, handled_task.
  cbn [tcatch tbind await advance]. rewrite UserModel.exists_healthy, Hp by done.
  cbn [fst snd nonempty tcatch tbind await advance].
  by rewrite UserModel.create_healthy by done.
Qed.

(** An update and a deletion of a user that exists: both checks find the
    user; the deletion then removes it, and the update, run on whatever
    store it finds, writes what it was given. *)
Lemma user_update_steps u data x d d1 :
  healthy d -> UserModel.find_user u (committed d) = Some x -> healthy d1 ->
  (advance (UserTask.update cfg u data) d).2 = d /\
  advance (advance (UserTask.update cfg u data) d).1 d1 =
  (finish match (if UserModel.changes u data (committed d1)
                 then UserModel.find_user u (committed d1) else None) with
          | None => failure 404 "User not found or no changes made"
          | Some y => success 200 "User updated successfully"
                        (Some (UserController.user_json y))
          end,
   set_committed (UserModel.updated u data (committed d1)) d1).
Proof.
  intros Hd Hx Hd1. unfold UserTask.update, handled_task.
  cbn [tcatch tbind await advance]. rewrite UserModel.getByUsername_healthy, Hx by done.
  cbn [fst snd tcatch tbind await advance].
  rewrite UserModel.update_healthy by done. by case_match.
Qed.

Lemma user_delete_steps u x d d1 :
  healthy d -> UserModel.find_user u (committed d) = Some x -> healthy d1 ->
  UserModel.find_user u (committed d1) = Some x ->
  (advance (UserTask.delete cfg u) d).2 = d /\
  advance (advance (UserTask.delete cfg u) d).1 d1 =
  (finish (success 200 "User deleted successfully" None),
   set_committed (UserModel.deleted u (committed d1)) d1).
Proof.
  intros Hd Hx Hd1 Hx1. unfold UserTask.delete, handled_task.
  cbn [tcatch tbind await advance]. rewrite UserModel.getByUsername_healthy, Hx by done.
  cbn [fst snd tcatch tbind await advance].
  rewrite UserModel.delete_healthy by done. by rewrite (UserModel.rows_of_found u _ x).
Qed.

(** The creation of a NAS whose name and address are free. *)
Lemma nas_create_steps name ip secret ty po co de d d1 :
  healthy d ->
  NasModel.select_nas (NasModel.collides name ip None) (committed d) = [] ->
  healthy d1 ->
  let body := NasModel.NasData (Some name) (Some ip) (Some secret) ty po co de in
  let row id := NasRow id name ip secret (default "other" ty) (default 1812%Z po)
                  (default "" co) (default "" de) in
  (advance (NasTask.create cfg body) d).2 = d /\
  advance (advance (NasTask.create cfg body) d).1 d1 =
  (finish (success 201 "NAS created successfully"
             (Some (NasController.nas_json (row (next_id (nas (committed d1))))))),
   set_committed (NasModel.insert_nas row (committed d1)).2 d1).
Proof.
  intros Hd Hp Hd1 body row. unfold NasTask.create, handled_task, body.
  cbn [tcatch tbind await advance NasModel.nd_name NasModel.nd_ip].
  rewrite NasModel.exists_healthy_nas, Hp by done.
  cbn [fst snd nonempty tcatch tbind await advance].
  by rewrite NasModel.create_healthy_nas by done.
Qed.

End user_steps.

Lemma interleave_length {A} s (ts : list (task A)) d :
  length (interleave s ts d).1 = length ts.
Proof.
  revert ts d. induction s as [|i s IH]; intros ts d; [done|]. simpl.
  destruct (ts !! i); [|apply IH]. destruct (advance _ _).
  by rewrite IH, length_insert.
Qed.



(** ** Theorems *)




(** C20. Every request is answered under every fair schedule.  Whatever the
    requests in flight, the store and its fault plan, a schedule that
    gives each request four turns, in any order, leaves every request
    answered with a response of a known status, never an exception, and
    the pool with the connections it had. *)
Theorem requests_answered cfg reqs schedule d :
  (forall i, i < length reqs -> most_awaits <= turns i schedule) ->
  exists rs,
    (interleave schedule (task_of cfg <$> reqs) d).1 = finish <$> rs /\
    length rs = length reqs /\ Forall known_status rs /\
    in_use (interleave schedule (task_of cfg <$> reqs) d).2 = in_use d.
Proof.
  intros Hfair. set (ts := task_of cfg <$> reqs).
  assert (Forall (ends known_status) (interleave schedule ts d).1) as He.
  { apply interleave_Forall; [apply advance_ends|].
    apply Forall_fmap, Forall_forall. intros req _. apply task_ends. }
  assert (length (interleave schedule ts d).1 = length reqs) as Hl
    by (unfold ts; by rewrite interleave_length, length_fmap).
  destruct (finished_list known_status (interleave schedule ts d).1) as (rs & Hrs & HQ).
  { apply Forall_lookup. intros i t' Hi.
    assert (i < length reqs) as Hlt by (rewrite <- Hl; by eapply lookup_lt_Some).
    destruct (lookup_lt_is_Some_2 ts i) as [t Ht]; [unfold ts; by rewrite length_fmap|].
    destruct (interleave_within schedule i t most_awaits ts d Ht) as (t2 & H2 & Hw).
    { apply list_lookup_fmap_Some in Ht as (req & -> & _). apply task_bounded. }
    rewrite Hi in H2. injection H2 as <-.
    replace (most_awaits - turns i schedule) with 0 in Hw by (specialize (Hfair i); lia).
    destruct (within_done _ Hw) as [r ->].
    pose proof (Forall_lookup_1 _ _ _ _ He Hi) as Hr.
    destruct r as [a|e]; [by exists a | done]. }
  exists rs. split; [done|]. split; [by rewrite <- Hl, Hrs, length_fmap|].
  split; [done|]. apply interleave_releases.
  apply Forall_fmap, Forall_forall. intros req _. apply task_releases.
Qed.

(** C17. Two creations of one user in turns.  On a store that answers, when
    the name is free and two requests to create it each run their check
    before either writes, both are answered 201 and the store is left
    with two password rows under the name: the identity invariant, which
    every sequence of requests keeps, is broken. *)
Theorem user_create_race cfg body d :
  healthy d -> UserModel.password_rows (UserModel.ud_user body) (committed d) = [] ->
  exists r1 r2 d',
    interleave checks_first [UserTask.create cfg body; UserTask.create cfg body] d =
      ([finish r1; finish r2], d') /\
    status r1 = 201%Z /\ status r2 = 201%Z /\
    length (UserModel.password_rows (UserModel.ud_user body) (committed d')) = 2 /\
    ~ UserModel.wf_user (UserModel.ud_user body) (committed d').
Proof.
  intros Hd Hp.
  set (d1 := set_committed (UserModel.created body (committed d)) d).
  destruct (user_create_steps cfg body d d Hd Hp Hd) as [E1 E2].
  destruct (user_create_steps cfg body d d1 Hd Hp) as [_ E3]; [done|].
  unfold checks_first. cbn [interleave lookup list_lookup].
  destruct (advance (UserTask.create cfg body) d) as [t1 dx] eqn:E.
  cbn [fst snd] in E1, E2, E3. subst dx.
  cbn [insert list_insert lookup list_lookup]. rewrite E.
  cbn [insert list_insert lookup list_lookup]. rewrite E2. fold d1.
  cbn [insert list_insert lookup list_lookup]. rewrite E3.
  eexists _, _, _. split; [done|]. split; [done|]. split; [done|].
  assert (length (UserModel.password_rows (UserModel.ud_user body)
                    (committed (set_committed
                       (UserModel.created body (committed d1)) d1))) = 2) as Hl.
  { unfold d1. cbn [committed set_committed].
    by rewrite !UserModel.password_rows_created, Hp, !decide_True by done. }
  split; [done|]. intros [Hw _]. lia.
Qed.

(** C18. Two creations of one NAS in turns.  On a store that answers, when the
    name and the address are free and two requests to create the record
    each run their check before either writes, both are answered 201 and
    the table holds two records with that name: the uniqueness invariant
    is broken. *)
Theorem nas_create_race cfg name ip secret ty po co de d :
  healthy d ->
  NasModel.select_nas (NasModel.collides name ip None) (committed d) = [] ->
  let body := NasModel.NasData (Some name) (Some ip) (Some secret) ty po co de in
  exists r1 r2 d',
    interleave checks_first [NasTask.create cfg body; NasTask.create cfg body] d =
      ([finish r1; finish r2], d') /\
    status r1 = 201%Z /\ status r2 = 201%Z /\
    ~ NasModel.unique_nas (committed d').
Proof.
  intros Hd Hp body.
  pose (row id := NasRow id name ip secret (default "other" ty) (default 1812%Z po)
                    (default "" co) (default "" de)).
  set (d1 := set_committed (NasModel.insert_nas row (committed d)).2 d).
  destruct (nas_create_steps cfg name ip secret ty po co de d d Hd Hp Hd) as [E1 E2].
  destruct (nas_create_steps cfg name ip secret ty po co de d d1 Hd Hp) as [_ E3];
    [done|].
  unfold checks_first. cbn [interleave lookup list_lookup]. fold body in E1, E2, E3.
  destruct (advance (NasTask.create cfg body) d) as [t1 dx] eqn:E.
  cbn [fst snd] in E1, E2, E3. subst dx.
  cbn [insert list_insert lookup list_lookup]. rewrite E.
  cbn [insert list_insert lookup list_lookup]. rewrite E2. fold row d1.
  cbn [insert list_insert lookup list_lookup]. rewrite E3.
  eexists _, _, _. split; [done|]. split; [done|]. split; [done|].
  intros [Hn _]. revert Hn. unfold d1, NasModel.insert_nas. simpl.
  rewrite !fmap_app. simpl. rewrite <- app_assoc. intros [_ [_ Hn]]%NoDup_app.
  apply NoDup_cons in Hn as [Hn _]. apply Hn. left.
Qed.

(** C24. An update overtaken by a deletion.  On a store that answers, when a
    request to update the profile of a user and a request to delete the
    user both find the user, and the deletion then runs before the update
    writes, the deletion is answered 200, the update is answered 404, and
    the store is left with a profile row under a name that has no
    password row: a user that does not exist has a profile. *)
Theorem user_update_delete_race cfg u pw pr x d :
  healthy d -> UserModel.find_user u (committed d) = Some x -> pr <> "" ->
  exists d',
    interleave overtaken
      [UserTask.update cfg u (UserModel.UpdateData pw (Some pr)); UserTask.delete cfg u] d =
      ([finish (failure 404 "User not found or no changes made");
        finish (success 200 "User deleted successfully" None)], d') /\
    UserModel.password_rows u (committed d') = [] /\
    UserModel.profile_rows u (committed d') <> [] /\
    ~ UserModel.identity u (committed d').
Proof.
  intros Hd Hx Hpr. set (data := UserModel.UpdateData pw (Some pr)).
  set (d1 := set_committed (UserModel.deleted u (committed d)) d).
  destruct (user_update_steps cfg u data x d d1 Hd Hx) as [U1 U2]; [done|].
  destruct (user_delete_steps cfg u x d d Hd Hx Hd Hx) as [D1 D2].
  unfold overtaken. cbn [interleave lookup list_lookup].
  destruct (advance (UserTask.update cfg u data) d) as [tU dx] eqn:EU.
  cbn [fst snd] in U1, U2. subst dx.
  cbn [insert list_insert lookup list_lookup].
  destruct (advance (UserTask.delete cfg u) d) as [tD dy] eqn:ED.
  cbn [fst snd] in D1, D2. subst dy.
  cbn [insert list_insert lookup list_lookup]. rewrite D2. fold d1.
  cbn [insert list_insert lookup list_lookup]. rewrite U2.
  assert (UserModel.find_user u (committed d1) = None) as Hgone
    by (apply UserModel.find_user_password_rows, UserModel.password_rows_deleted).
  rewrite Hgone.
  set (ts' := UserModel.updated u data (committed d1)).
  assert (UserModel.password_rows u ts' = []) as Hpw.
  { unfold ts', UserModel.updated.
    rewrite UserModel.password_rows_set_profile, UserModel.password_rows_set_password.
    unfold d1. cbn [committed set_committed]. rewrite UserModel.password_rows_deleted.
    unfold if_truthy. by repeat case_match. }
  assert (UserModel.profile_rows u ts' <> []) as Hpf.
  { unfold ts', UserModel.updated.
    rewrite UserModel.profile_rows_set_profile, !UserModel.profile_rows_set_password.
    unfold d1. cbn [committed set_committed].
    rewrite UserModel.profile_rows_deleted, decide_True by done.
    unfold data. cbn [UserModel.up_profile]. rewrite if_truthy_yes by done.
    cbn [nonempty app]. by rewrite decide_True. }
  eexists. split; [by destruct (UserModel.changes _ _ _)|].
  split; [done|]. split; [done|]. intros [_ Ho]. by apply Hpf, Ho.
Qed.

(** ** Examples: the theorems at concrete requests *)

Lemma requests_answered_witness :
  exists rs,
    (interleave round_robin (task_of unset_env <$> [OfUser (UserController.Create bob);
                                                    OfNas (NasController.Create edge)])
       empty_db).1 = finish <$> rs /\
    length rs = 2 /\ Forall known_status rs /\
    in_use (interleave round_robin
              (task_of unset_env <$> [OfUser (UserController.Create bob);
                                      OfNas (NasController.Create edge)]) empty_db).2 = 0.
Proof.
  apply (requests_answered unset_env
           [OfUser (UserController.Create bob); OfNas (NasController.Create edge)]
           round_robin empty_db).
  intros [|[|i]] Hi; [by vm_compute..|simpl in Hi; lia].
Defined.


Lemma user_create_race_witness :
  exists r1 r2 d',
    interleave checks_first [UserTask.create unset_env bob; UserTask.create unset_env bob]
      empty_db = ([finish r1; finish r2], d') /\
    status r1 = 201%Z /\ status r2 = 201%Z /\
    length (UserModel.password_rows "bob123" (committed d')) = 2 /\
    ~ UserModel.wf_user "bob123" (committed d').
Proof. exact (user_create_race unset_env bob empty_db eq_refl eq_refl). Defined.

Lemma nas_create_race_witness :
  exists r1 r2 d',
    interleave checks_first [NasTask.create unset_env edge; NasTask.create unset_env edge]
      empty_db = ([finish r1; finish r2], d') /\
    status r1 = 201%Z /\ status r2 = 201%Z /\
    ~ NasModel.unique_nas (committed d').
Proof.
  exact (nas_create_race unset_env "edge1" "10.0.0.9" "s3cr3t-key" None None None None
           empty_db eq_refl eq_refl).
Defined.

Lemma user_update_delete_race_witness :
  exists d',
    interleave overtaken
      [UserTask.update unset_env "alice1" (UserModel.UpdateData None (Some "VIP"));
       UserTask.delete unset_env "alice1"] UserModel.alice_db =
      ([finish (failure 404 "User not found or no changes made");
        finish (success 200 "User deleted successfully" None)], d') /\
    UserModel.password_rows "alice1" (committed d') = [] /\
    UserModel.profile_rows "alice1" (committed d') <> [] /\
    ~ UserModel.identity "alice1" (committed d').
Proof.
  exact (user_update_delete_race unset_env "alice1" None "VIP"
           (UserModel.User 1 "alice1" "secret1" (Some "PPP")) UserModel.alice_db
           eq_refl eq_refl ltac:(discriminate)).
Defined.
